(* ===== verification/_CoqProject ===== *)
-Q . S2P
Prelude.v
GoStrings.v
GoJson.v
JsonPrint.v
GoNet.v
GoFlag.v
Config.v
Load.v
Blueprint.v
BlueprintProps.v
Annotations.v
StateManager.v
Store.v
StateProps.v
Yaml.v
Mutex.v
Health.v
Resources.v
HttpRoute.v
Service.v
ServiceProps.v
Controller.v
ControllerProps.v
Modes.v
Resync.v
Lifetime.v
Registration.v
Client.v
CrdPrivate.v
CrdPublic.v
Sidecar.v
System.v
Goroutines.v
Memory.v
DeepCopy.v
Main.v
Keys.v
Published.v
