(* ===== verification/Prelude.v ===== *)
(** * newt-sidecar: a verification development

    newt-sidecar watches a Kubernetes cluster and keeps a Pangolin blueprint, one
    YAML file, up to date: HTTPRoutes and Services become public resources through
    their annotations, PublicResource and PrivateResource objects become public and
    private resources directly.

    ** The program and its model

    - [internal/blueprint/blueprint.go]: [Blueprint] (types, map keys, the builders
      of rules, headers, auth, targets and resources) and [BlueprintProps];
      [Annotations], what the JSON annotations can express; [Yaml], what the [yaml]
      tags of the types make of a blueprint in the file.
    - [internal/state/manager.go]: [StateManager] and [StateProps].  The state [SM]
      is the manager with the part of the machine it touches, the files; a method is
      a computation in the state monad [M], one transition.  [World_log] records the
      files after every call to the operating system, so that statements can speak of
      what another process sees.  [Mutex] has the methods access by access, with the
      mutex, and any number of goroutines that run them, and shows that one transition
      per method is right.
    - [Store]: the interface the controllers use of the manager, a typeclass with
      laws; [StateProps] proves that the manager satisfies them.
    - [internal/resources/*.go]: [Resources] (objects, [ResourceDefinition],
      [Handler] behind the class [ResourceHandler]), [HttpRoute] for
      [httproute.go], [Service] and [ServiceProps] for [service.go].
    - [internal/controller/controller.go]: [Controller] (the event handlers against
      [ResourceHandler] and [Store]) and [ControllerProps]; [Modes], one object over
      time; [Resync], the periodic resync of the informer; [Lifetime], the same with
      the context, from the start to the signal.
    - [internal/controller/publicresource] and [privateresource] with the types of
      [api/v1alpha1]: [CrdPublic] and [CrdPrivate]; [Client] is what they share.
    - [api/v1alpha1/groupversion_info.go], the [init] functions and the
      [SetupWithManager] methods: [Registration].
    - [internal/config/config.go]: [Config] (the struct, its defaults, validation)
      and [Load] (the flags and [config.Load]).  [internal/health/health.go]: [Health].
    - [cmd/root.go]: [Sidecar], the controllers that are started and the
      interleavings of the goroutines of one controller as a step relation;
      [System], all controllers and reconcilers over one manager, a call of which is
      one step; [Goroutines], the same system with two goroutines per controller, one
      per reconciler and those of the health server, a step of which is one access of
      [Mutex]; [Main], [main] itself, from the flags to the end of the process, and
      what it starts; [Keys], the names in the cluster under which no key is claimed
      twice; [Published], what holds of everything that is ever published.
    - [api/v1alpha1/zz_generated.deepcopy.go]: [Memory], a heap with pointers and
      slices and the laws of copying, closed under pairs, pointers, slices and
      structs (class [CopierLaws]); [DeepCopy], the types in memory and every
      generated method.
    - The standard library, as far as the program uses it: [GoStrings] ([strings],
      [strconv]), [GoJson] ([encoding/json]), [GoNet] ([net.ParseCIDR]), [GoFlag]
      ([flag]).  [JsonPrint] writes JSON, to state what reading it gives.

    ** Conventions

    A Go map is a [gmap], or a [gomap] where nil matters; a slice is an option of a
    list, since [reflect.DeepEqual] tells nil from empty; a pointer is an option;
    [int] is [Z], and the places where a width matters, such as [strconv.Atoi],
    check it.  Strings are byte strings.  Errors are values of [result], [option] or
    an error type.  The iteration order of a map is a parameter ([RangeOrder]),
    chosen anew for every loop.  Third-party code is a parameter: the YAML encoder,
    the unstructured converter, the environment parser, the answers of the
    Kubernetes client, the copy functions of apimachinery, everything [main] calls
    (record [Platform]).  The outcomes of file operations and the clock are arbitrary
    functions of the number of the call (class [Env]).  Log messages are left out.

    ** What is shown

    - Builders: rules are the valid ones of the annotation, then the denied
      countries; when there is an auth block, and that its secrets come from the
      secret only; bounds of target extras; which hostnames and services share a key;
      that every rule, header and health check has an annotation that decodes to it.
    - Objects: which are processed, which entries they produce, that no port of an
      all-ports Service and no hostname of a route is lost, and that HTTP mode agrees
      with what a route would get.
    - Manager: its maps evolve as plain maps under any failures; the output file
      always holds a whole blueprint; after the forced write it is the blueprint of a
      moment since which nothing was written, unless the last write failed, and
      reading it under the tags gives the maps back; exactly when the probe is healthy.
    - Mutex: the methods are linearizable, have no data race, and return within
      fifteen steps each without deadlock, however the goroutines are scheduled; the
      file is whole at every moment of every interleaving.
    - Controller: after any events the public resources are those of the live
      objects, provided no key is claimed twice, and nothing stale is left in any
      case; every interleaving with [Run] ends in the same maps.  A Service that
      changes its mode or hostname leaves nothing of its earlier versions, and a
      resync restores what objects with a common key have taken from each other.
    - Reconcilers: every branch; the conversion can be inverted; what validation
      accepts.
    - The whole: with several controllers and reconcilers over one manager each
      does to the keys no other claims what it would do alone; every run ends; from the
      command line on, where no thread can go further the blueprint is what the
      live objects and the requests ask for, provided the names in the cluster keep
      the keys apart; once started, the file stays up to date.
      Every execution of the goroutines is one of this system, and comes to rest.
      Whatever happens, keys claimed twice included, every resource of the manager
      is well formed whenever the mutex is free, and so is every text it ever puts at
      the output path: all at the site, a TLS server name for a domain, no empty auth
      block.
    - Configuration: which command lines are accepted and what each field holds
      after them; that every configuration can be given by flags; when and how the
      process exits; [main] follows a plan, whole or cut short.
    - Copies: the generated functions do not panic, the copy reads the same, and
      original and copy share no memory.
    - Shortcomings, proved of the code as it is: a lost write between the forced
      write and the flag, which no resync repairs, shared keys, publication without
      authentication when the secret cannot be read, as it cannot after the signal,
      failing readiness of an idle sidecar, writes that are not retried, flags after
      a stray argument dropped, reconcilers left out after a failed discovery, host
      destinations without alias.

    ** Fuel

    The JSON parser takes fuel; [parse] gives it twice the length of its input and
    two more, and [parse_fuel_enough] shows that more makes no difference.  The loop
    of [flag.Parse] has one round per argument and one more, and [parse_loop_total]
    shows that this is enough, since every flag takes an argument at least.  The
    loop of the IPv6 parser runs at most eight rounds, since every round fills two
    of sixteen bytes.  The step relations have no fuel: [system_sn] and
    [goroutines_finish] show that they have no infinite runs.

    ** Not modelled

    The HTTP server, beyond its address and routes; log messages and the usage text
    of the flags; the libraries [main] sets up (clients, informers,
    controller-runtime, certificate rotation), whose answers are arbitrary; signals,
    which are the answer that ends the wait in [Main] and cancel the context in
    [Lifetime].  A thread is given the events or requests it will see as a list: the
    informers and work queues that produce them are outside, so a theorem about all
    runs is one about all such lists.  A request reads the client when it is taken up,
    its one call of the manager comes later.  [Mutex] interleaves accesses in one
    global order, which is what the memory model of Go promises of programs without
    data races, and there are none; an access is one call to the operating system, so
    a crash in the middle of a write is the outcome of that call.  [DeepCopyInto] is
    modelled for an [out] that shares nothing with [in], which is how the generated
    code calls it.

    ** Planned

    In this order: weaker conditions in [Keys], which speak of all versions of an
    object at once and of objects that are opted out too; the resync of several
    controllers over one manager, where the keys are not apart.

    This file holds what all others share: Go values, notations, automation. *)

From Stdlib Require Export Ascii.
From stdpp Require Export base option list gmap strings pretty.
From stdpp Require Import options.

(** ** Go values shared by every component *)

(** The zero value of a Go type, the result of reading an absent map key. *)
Class Zero (A : Type) := zero : A.
#[export] Hint Mode Zero ! : typeclass_instances.
#[export] Instance zero_string : Zero string := "".
#[export] Instance zero_Z : Zero Z := 0%Z.
#[export] Instance zero_bool : Zero bool := false.
#[export] Instance zero_option {A} : Zero (option A) := None.

(** A Go [map[string]V]: [None] is the nil map, which reads as empty. *)
Abbreviation gomap V := (option (gmap string V)).

Definition entries_of {V} (m : gomap V) : gmap string V := default ∅ m.

(** [v, ok := m[k]] *)
Definition map_get {V} (m : gomap V) (k : string) : option V :=
  entries_of m !! k.

(** [m[k]], the zero value when the key is absent *)
Definition map_index {V} `{Zero V} (m : gomap V) (k : string) : V :=
  default zero (map_get m k).

(** A Go slice by contents: [None] is the nil slice, which
    [reflect.DeepEqual] tells from the empty one. *)
Abbreviation goslice A := (option (list A)).

Definition elems {A} (s : goslice A) : list A := default [] s.

(** [append(s, l...)]: appending nothing leaves nil nil. *)
Definition append {A} (s : goslice A) (l : list A) : goslice A :=
  match l with
  | [] => s
  | _ => Some (elems s ++ l)
  end.

(** [append(s, t...)] for a slice [t] *)
Definition append_slice {A} (s t : goslice A) : goslice A := append s (elems t).

(** ** Notations *)

Declare Scope go_scope.
Delimit Scope go_scope with go.
(** Go's comparison of comparable values. *)
Notation "x == y" := (bool_decide (x = y)) (at level 70, no associativity) : go_scope.
Notation "x != y" := (negb (bool_decide (x = y))) (at level 70, no associativity) : go_scope.
Notation "m '⟦' k '⟧?'" := (map_get m k) (at level 1, left associativity, k at level 200, format "m ⟦ k ⟧?") : go_scope.
Notation "m '⟦' k '⟧'" := (map_index m k) (at level 1, left associativity, k at level 200, format "m ⟦ k ⟧") : go_scope.

(** [reflect.DeepEqual] on values without cycles: pointers and slices are
    compared by what they hold, nil apart. *)
Definition DeepEqual {A} `{EqDecision A} (x y : A) : bool := bool_decide (x = y).

(** A Go call that can fail: the value, or the error. *)
Inductive result (E A : Type) : Type :=
| Ok (a : A)
| Err (e : E).
Arguments Ok {E A} a.
Arguments Err {E A} e.

(** ** Automation *)

(** Facts used by [auto] on slices and maps. *)
Create HintDb go discriminated.
Create Rewrite HintDb go.
#[export] Hint Constants Opaque : go.

(** Splits on the innermost [match] or [if] of the goal, turns boolean tests
    into propositions and closes what becomes contradictory. *)
Ltac go_case :=
  repeat (first [ progress simplify_eq/= | case_bool_decide | case_match ]);
  try done.

(** Turns boolean connectives in hypotheses and goal into propositions. *)
Ltac go_bool :=
  repeat match goal with
  | H : _ && _ = true |- _ => apply andb_true_iff in H; destruct H
  | H : _ || _ = false |- _ => apply orb_false_iff in H; destruct H
  | H : negb _ = true |- _ => apply negb_true_iff in H
  | H : negb _ = false |- _ => apply negb_false_iff in H
  | H : bool_decide _ = true |- _ => apply bool_decide_eq_true in H
  | H : bool_decide _ = false |- _ => apply bool_decide_eq_false in H
  | H : Z.leb _ _ = true |- _ => apply Z.leb_le in H
  | H : Z.leb _ _ = false |- _ => apply Z.leb_gt in H
  | H : Z.ltb _ _ = true |- _ => apply Z.ltb_lt in H
  | H : Z.ltb _ _ = false |- _ => apply Z.ltb_ge in H
  end.

(** ** Lemmas *)

Section slices.
  Context {A : Type}.
  Implicit Types (s t : goslice A) (l : list A).

Lemma elems_append s l : elems (append s l) = elems s ++ l.
Proof. destruct l; simpl; [by rewrite app_nil_r | done]. Qed.

Lemma elems_append_slice s t : elems (append_slice s t) = elems s ++ elems t.
Proof. apply elems_append. Qed.

Lemma append_nil_inv s l : append s l = None → s = None ∧ l = [].
Proof. destruct l; [by destruct s | done]. Qed.

End slices.

Section maps.
  Context {V : Type}.
  Implicit Types (m : gomap V).

(** A nil map and an empty one read the same. *)
Lemma map_get_nil k : map_get (None : gomap V) k = None.
Proof. apply lookup_empty. Qed.

Lemma map_get_Some (m : gmap string V) k : map_get (Some m) k = m !! k.
Proof. done. Qed.

Lemma map_get_or_empty m k :
  map_get (match m with None => Some ∅ | _ => m end) k = map_get m k.
Proof. by destruct m. Qed.

End maps.

#[export] Hint Rewrite @elems_append @elems_append_slice : go.
#[export] Hint Rewrite @map_get_nil @map_get_Some @map_get_or_empty : go.
