(* ===== verification/GoStrings.v ===== *)
(** * The part of Go's [strings] and [strconv] packages the program uses

    Strings are sequences of bytes, as in Go.  [TrimSpace], [Split] (the
    values [SplitSeq] yields), [ReplaceAll] of one byte by one byte, [ToLower],
    [Itoa] and [Atoi], each with the lemmas the components rely on. *)

From stdpp Require Import options.
From S2P Require Import Prelude.

Abbreviation to_bytes := String.list_ascii_of_string (only parsing).
Abbreviation of_bytes := String.string_of_list_ascii (only parsing).

#[global] Arguments String.append !s1 s2 : simpl nomatch.

(** ** Definitions *)

(** *** [strings.TrimSpace] *)

(** The UTF-8 encodings of the white space runes of [unicode.IsSpace]:
    one byte (the ASCII ones), two bytes (U+0085, U+00A0) or three bytes
    (U+1680, U+2000 to U+200A, U+2028, U+2029, U+202F, U+205F, U+3000). *)
Definition space2 (a b : ascii) : bool :=
  let a := N_of_ascii a in
  let b := N_of_ascii b in
  ((a =? 194) && ((b =? 133) || (b =? 160)))%N.

Definition space3 (a b c : ascii) : bool :=
  let a := N_of_ascii a in
  let b := N_of_ascii b in
  let c := N_of_ascii c in
  ((a =? 225) && (b =? 154) && (c =? 128)
   || (a =? 226) && (b =? 128)
      && ((128 <=? c) && (c <=? 138) || (c =? 168) || (c =? 169) || (c =? 175))
   || (a =? 226) && (b =? 129) && (c =? 159)
   || (a =? 227) && (b =? 128) && (c =? 128))%N.

(** Removes white space at the start of a list of bytes. *)
Fixpoint strip (sp2 : ascii → ascii → bool) (sp3 : ascii → ascii → ascii → bool)
    (l : list ascii) : list ascii :=
  match l with
  | [] => []
  | a :: l1 =>
      if Ascii.is_space a then strip sp2 sp3 l1 else
      match l1 with
      | [] => l
      | b :: l2 =>
          if sp2 a b then strip sp2 sp3 l2 else
          match l2 with
          | [] => l
          | c :: l3 => if sp3 a b c then strip sp2 sp3 l3 else l
          end
      end
  end.

Definition trim_left : list ascii → list ascii := strip space2 space3.
Definition trim_right (l : list ascii) : list ascii :=
  rev (strip (λ b a, space2 a b) (λ c b a, space3 a b c) (rev l)).

Definition TrimSpace (s : string) : string :=
  of_bytes (trim_right (trim_left (to_bytes s))).

(** *** [strings.SplitSeq], [strings.ReplaceAll], [strings.ToLower] *)

(** The parts of [s] between the occurrences of the byte [sep]. *)
Fixpoint Split (sep : ascii) (s : string) : list string :=
  match s with
  | EmptyString => [""]
  | String c s' =>
      if bool_decide (c = sep) then "" :: Split sep s'
      else match Split sep s' with
           | [] => [String c ""]
           | p :: ps => String c p :: ps
           end
  end.

(** [strings.Join], to state what [Split] undoes. *)
Fixpoint Join (l : list string) (sep : string) : string :=
  match l with
  | [] => ""
  | [s] => s
  | s :: l' => s +:+ sep +:+ Join l' sep
  end.

(** [strings.ReplaceAll] with one-byte arguments. *)
Fixpoint ReplaceAll (old new : ascii) (s : string) : string :=
  match s with
  | EmptyString => ""
  | String c s' => String (if bool_decide (c = old) then new else c) (ReplaceAll old new s')
  end.

Definition lower (c : ascii) : ascii :=
  let n := N_of_ascii c in
  if ((65 <=? n) && (n <=? 90))%N then ascii_of_N (n + 32) else c.

(** [strings.ToLower] on ASCII; other bytes are kept.  The program compares the
    result with [https], [h2c], [tcp] and [udp] only, and no rune outside ASCII
    has one of their letters as its lower case. *)
Fixpoint ToLower (s : string) : string :=
  match s with
  | EmptyString => ""
  | String c s' => String (lower c) (ToLower s')
  end.

(** *** [strconv.Itoa], [strconv.Atoi] *)

(** Go's [int] on a 64-bit platform. *)
Definition in_int64 (z : Z) : bool := ((- 2 ^ 63 <=? z) && (z <? 2 ^ 63))%Z.
Definition in_int32 (z : Z) : bool := ((- 2 ^ 31 <=? z) && (z <? 2 ^ 31))%Z.

Definition Itoa (z : Z) : string := pretty z.

Definition digit_val (c : ascii) : option Z :=
  let n := N_of_ascii c in
  if ((48 <=? n) && (n <=? 57))%N then Some (Z.of_N (n - 48)) else None.

Fixpoint digits (acc : Z) (s : string) : option Z :=
  match s with
  | EmptyString => Some acc
  | String c s' => d ← digit_val c; digits (10 * acc + d)%Z s'
  end.

Definition unsigned (s : string) : option Z :=
  match s with EmptyString => None | _ => digits 0 s end.

(** [None] for every error ([ErrSyntax], [ErrRange]): no caller tells them apart. *)
Definition Atoi (s : string) : option Z :=
  let '(neg, body) :=
    match s with
    | String "-" r => (true, r)
    | String "+" r => (false, r)
    | _ => (false, s)
    end in
  n ← unsigned body;
  let v := if neg : bool then (- n)%Z else n in
  if in_int64 v then Some v else None.

(** Does the byte occur in the string? *)
Fixpoint contains (c : ascii) (s : string) : bool :=
  match s with
  | EmptyString => false
  | String c' s' => bool_decide (c' = c) || contains c s'
  end.

(** ** Lemmas *)

Section strip.
  Variables (sp2 : ascii → ascii → bool) (sp3 : ascii → ascii → ascii → bool).
  Local Abbreviation strip := (strip sp2 sp3).

(** Does the list start with white space? *)
Definition starts_space (l : list ascii) : bool :=
  match l with
  | a :: b :: c :: _ => Ascii.is_space a || sp2 a b || sp3 a b c
  | [a; b] => Ascii.is_space a || sp2 a b
  | [a] => Ascii.is_space a
  | [] => false
  end.

Lemma strip_id l : starts_space l = false → strip l = l.
Proof.
  destruct l as [|a [|b [|c l]]]; simpl; intros H; [done|..]; go_bool;
    repeat match goal with E : _ = false |- _ => rewrite E; clear E end; done.
Qed.

Lemma strip_starts n l : length l ≤ n → starts_space (strip l) = false.
Proof.
  revert l; induction n as [|n IH]; intros l Hn.
  { by destruct l; simpl in *; [|lia]. }
  destruct l as [|a l1]; [done|]; simpl in *.
  destruct (Ascii.is_space a) eqn:Ha; [apply IH; lia|].
  destruct l1 as [|b l2]; [by simpl|]; simpl in *.
  destruct (sp2 a b) eqn:Hb; [apply IH; lia|].
  destruct l2 as [|c l3]; simpl in *; [by rewrite Ha, Hb|].
  destruct (sp3 a b c) eqn:Hc; [apply IH; lia|].
  simpl. by rewrite Ha, Hb, Hc.
Qed.

Lemma strip_stripped l : starts_space (strip l) = false.
Proof. by apply strip_starts with (length l). Qed.

(** White space in front stays when bytes are added behind. *)
Lemma starts_space_app l l' : starts_space l = true → starts_space (l ++ l') = true.
Proof.
  destruct l as [|a [|b [|c l]]]; simpl; intros H; try done;
    destruct l' as [|x [|y l']]; simpl; by rewrite ?H.
Qed.

Lemma strip_suffix n l : length l ≤ n → ∃ p, l = p ++ strip l.
Proof.
  revert l; induction n as [|n IH]; intros l Hn.
  { exists []. by destruct l; simpl in *; [|lia]. }
  assert (∀ q l', l = q ++ l' → length l' ≤ n → ∃ p, l = p ++ strip l') as Hq.
  { intros q l' -> Hl. destruct (IH l' Hl) as [p Hp].
    exists (q ++ p). by rewrite <- app_assoc, <- Hp. }
  destruct l as [|a l1]; [by exists []|]; simpl in *.
  destruct (Ascii.is_space a); [apply (Hq [a]); [done|lia]|].
  destruct l1 as [|b l2]; [by exists []|]; simpl in *.
  destruct (sp2 a b); [apply (Hq [a; b]); [done|lia]|].
  destruct l2 as [|c l3]; [by exists []|]; simpl in *.
  destruct (sp3 a b c); [apply (Hq [a; b; c]); [done|lia] | by exists []].
Qed.

End strip.

Lemma trim_right_prefix l : ∃ p, l = trim_right l ++ p.
Proof.
  unfold trim_right.
  destruct (strip_suffix (λ b a, space2 a b) (λ c b a, space3 a b c) (length (rev l)) (rev l))
    as [p Hp]; [done|].
  exists (rev p). rewrite <- rev_app_distr, <- Hp. by rewrite rev_involutive.
Qed.

Lemma trim_right_idemp l : trim_right (trim_right l) = trim_right l.
Proof. unfold trim_right. rewrite rev_involutive. f_equal. apply strip_id, strip_stripped. Qed.

Lemma TrimSpace_idemp s : TrimSpace (TrimSpace s) = TrimSpace s.
Proof.
  unfold TrimSpace. rewrite !String.list_ascii_of_string_of_list_ascii. f_equal.
  set (l := trim_left (to_bytes s)).
  assert (trim_left (trim_right l) = trim_right l) as ->.
  { apply strip_id. destruct (starts_space _ _ (trim_right l)) eqn:Hs; [|done].
    destruct (trim_right_prefix l) as [p Hp].
    apply (starts_space_app _ _ _ p) in Hs. rewrite <- Hp in Hs.
    by unfold l, trim_left in Hs; rewrite strip_stripped in Hs. }
  apply trim_right_idemp.
Qed.

Lemma append_assoc s1 s2 s3 : (s1 +:+ s2) +:+ s3 = s1 +:+ s2 +:+ s3.
Proof. induction s1 as [|c s1 IH]; simpl; [done|]. by rewrite IH. Qed.

Lemma append_nil_r s : s +:+ "" = s.
Proof. induction s as [|c s IH]; simpl; [done|]. by rewrite IH. Qed.

Lemma contains_app c s1 s2 : contains c (s1 +:+ s2) = contains c s1 || contains c s2.
Proof. induction s1 as [|c' s1 IH]; simpl; [done|]. by rewrite IH, orb_assoc. Qed.

(** Two byte strings cut at the first occurrence of a separator that occurs in
    neither left part agree on both sides of the cut. *)
Lemma append_sep_inj c s1 s2 t1 t2 :
  contains c s1 = false → contains c t1 = false →
  s1 +:+ String c s2 = t1 +:+ String c t2 → s1 = t1 ∧ s2 = t2.
Proof.
  revert t1; induction s1 as [|a s1 IH]; intros [|b t1] Hs Ht Heq; simpl in *; go_bool;
    simplify_eq/=; try done.
  destruct (IH t1) as [-> ->]; done.
Qed.

(** *** [Split] and [Join] *)

Lemma Split_cons sep c s : c ≠ sep →
  ∃ p ps, Split sep s = p :: ps ∧ Split sep (String c s) = String c p :: ps.
Proof.
  intros Hc. simpl. rewrite bool_decide_false by done.
  assert (∃ p ps, Split sep s = p :: ps) as (p & ps & ->); [|eauto].
  destruct s as [|c' s]; simpl; [eauto|]. case_bool_decide; [eauto|]. case_match; eauto.
Qed.

Lemma Split_free sep s : Forall (λ p, contains sep p = false) (Split sep s).
Proof.
  induction s as [|c s IH]; [by constructor|].
  destruct (decide (c = sep)) as [->|Hc].
  { simpl. rewrite bool_decide_true by done. by constructor. }
  destruct (Split_cons sep c s Hc) as (p & ps & Hp & ->). rewrite Hp in IH.
  apply Forall_cons in IH as [Hfree Hrest]. constructor; [|done].
  simpl. by rewrite bool_decide_false by done.
Qed.

Lemma Split_app sep p s : contains sep p = false →
  Split sep (p +:+ String sep s) = p :: Split sep s.
Proof.
  induction p as [|c p IH]; simpl; intros Hp.
  { by rewrite bool_decide_true. }
  go_bool. rewrite bool_decide_false by done. by rewrite IH.
Qed.

Lemma Split_whole sep p : contains sep p = false → Split sep p = [p].
Proof.
  induction p as [|c p IH]; simpl; intros Hp; [done|].
  go_bool. rewrite bool_decide_false by done. by rewrite IH.
Qed.

Lemma Split_Join sep l : l ≠ [] → Forall (λ p, contains sep p = false) l →
  Split sep (Join l (String sep "")) = l.
Proof.
  induction l as [|p l IH]; [done|]. intros _ [Hp Hl]%Forall_cons.
  destruct l as [|q l]; [by apply Split_whole|].
  change (Join (p :: q :: l) (String sep "")) with (p +:+ String sep (Join (q :: l) (String sep ""))).
  rewrite Split_app by done. f_equal. by apply IH.
Qed.

(** *** [ReplaceAll] *)

Lemma ReplaceAll_length old new s :
  String.length (ReplaceAll old new s) = String.length s.
Proof. induction s; simpl; congruence. Qed.

Lemma ReplaceAll_gone old new s : old ≠ new → contains old (ReplaceAll old new s) = false.
Proof.
  intros Hne. induction s as [|c s IH]; simpl; [done|].
  rewrite IH, orb_false_r. apply bool_decide_eq_false. by case_bool_decide.
Qed.

Lemma ReplaceAll_inj old new s t :
  contains new s = false → contains new t = false →
  ReplaceAll old new s = ReplaceAll old new t → s = t.
Proof.
  revert t; induction s as [|c s IH]; intros [|d t] Hs Ht Heq; simpl in *; try done.
  go_bool. injection Heq as Hc Heq.
  assert (c = d) as -> by (repeat case_bool_decide; congruence).
  f_equal. by apply IH.
Qed.

(** *** [Itoa] and [Atoi] *)

Lemma digit_val_char d : (d < 10)%N → digit_val (pretty_N_char d) = Some (Z.of_N d).
Proof.
  intros Hd.
  assert (d = 0 ∨ d = 1 ∨ d = 2 ∨ d = 3 ∨ d = 4 ∨ d = 5 ∨ d = 6 ∨ d = 7 ∨ d = 8 ∨ d = 9)%N
    as Hcases by lia.
  by destruct_or! Hcases; subst.
Qed.

Lemma digits_pretty x s : digits 0 (pretty_N_go x s) = digits (Z.of_N x) s.
Proof.
  revert s. induction (N.lt_wf_0 x) as [x _ IH]; intros s.
  destruct (decide (x = 0%N)) as [->|Hx]; [by rewrite pretty_N_go_0|].
  rewrite pretty_N_go_step by lia. rewrite IH by (apply N.div_lt; lia). simpl.
  rewrite digit_val_char by (apply N.mod_lt; lia). simpl.
  f_equal. rewrite N2Z.inj_div, N2Z.inj_mod. pose proof (Z.div_mod (Z.of_N x) 10). lia.
Qed.

Lemma contains_pretty c x s : digit_val c = None →
  contains c (pretty_N_go x s) = contains c s.
Proof.
  intros Hc. revert s. induction (N.lt_wf_0 x) as [x _ IH]; intros s.
  destruct (decide (x = 0%N)) as [->|Hx]; [by rewrite pretty_N_go_0|].
  rewrite pretty_N_go_step by lia. rewrite IH by (apply N.div_lt; lia). simpl.
  rewrite bool_decide_false; [done|]. intros <-.
  rewrite digit_val_char in Hc by (apply N.mod_lt; lia). done.
Qed.

Lemma unsigned_pretty n : unsigned (pretty n) = Some (Z.of_N n).
Proof.
  unfold pretty, pretty_N. case_decide as Hn; [by subst|].
  pose proof (digits_pretty n "") as Hd. simpl in Hd.
  destruct (pretty_N_go n "") eqn:E; [|done]. simpl in Hd. simplify_eq. lia.
Qed.

Lemma contains_Itoa c z : (0 ≤ z)%Z → digit_val c = None → contains c (Itoa z) = false.
Proof.
  intros Hz Hc. unfold Itoa, pretty, pretty_Z. destruct z as [|p|p]; [|..|lia].
  - simpl. rewrite orb_false_r. apply bool_decide_eq_false. by intros <-.
  - change (contains c (pretty (N.pos p)) = false). unfold pretty, pretty_N.
    case_decide; [done|]. by rewrite contains_pretty.
Qed.

Lemma Atoi_unsigned s n : unsigned s = Some n → in_int64 n = true → Atoi s = Some n.
Proof.
  intros Hs Hn. unfold Atoi. destruct s as [|c r]; [done|].
  assert (is_Some (digit_val c)) as Hc.
  { simpl in Hs. destruct (digit_val c); [eauto|done]. }
  destruct c as [[] [] [] [] [] [] [] []]; try (by destruct Hc);
    rewrite Hs; simpl; by rewrite Hn.
Qed.

(** Parsing what [Itoa] prints gives the number back, on all of [int64]. *)
Lemma Atoi_Itoa z : in_int64 z = true → Atoi (Itoa z) = Some z.
Proof.
  intros Hz. unfold Itoa, pretty, pretty_Z. destruct z as [|p|p]; [done|..].
  - by apply Atoi_unsigned; [apply (unsigned_pretty (N.pos p))|].
  - change (Atoi ("-" +:+ pretty (N.pos p)) = Some (Z.neg p)). unfold Atoi. simpl.
    rewrite unsigned_pretty. cbn [mbind option_bind].
    change (- Z.of_N (N.pos p))%Z with (Z.neg p). by rewrite Hz.
Qed.

Lemma Itoa_inj z1 z2 : Itoa z1 = Itoa z2 → z1 = z2.
Proof. apply (inj pretty). Qed.

Lemma Atoi_range s z : Atoi s = Some z → in_int64 z = true.
Proof.
  intros H. assert (∀ (neg : bool) (o : option Z),
    (n ← o; let v := if neg then (- n)%Z else n in
            if in_int64 v then Some v else None) = Some z → in_int64 z = true) as Hr.
  { intros neg [n|] Hn; simpl in Hn; by go_case. }
  unfold Atoi in H. destruct (match s with | EmptyString => _ | String _ _ => _ end) eqn:E.
  by apply Hr in H.
Qed.

Lemma in_int32_int64 z : in_int32 z = true → in_int64 z = true.
Proof. unfold in_int32, in_int64. rewrite !andb_true_iff, !Z.leb_le, !Z.ltb_lt. lia. Qed.

(** *** What [TrimSpace] keeps *)

Lemma contains_bytes c s : contains c s = true ↔ c ∈ to_bytes s.
Proof.
  induction s as [|d s IH]; simpl; [set_solver|].
  rewrite orb_true_iff, bool_decide_eq_true, IH, elem_of_cons. intuition congruence.
Qed.

Lemma TrimSpace_bytes s : to_bytes (TrimSpace s) ⊆ to_bytes s.
Proof.
  unfold TrimSpace. rewrite String.list_ascii_of_string_of_list_ascii. intros c Hc.
  assert (c ∈ trim_left (to_bytes s)) as Hl.
  { destruct (trim_right_prefix (trim_left (to_bytes s))) as [p ->]. set_solver. }
  destruct (strip_suffix space2 space3 (length (to_bytes s)) (to_bytes s)) as [p Hp]; [done|].
  rewrite Hp. unfold trim_left in Hl. set_solver.
Qed.

Lemma TrimSpace_contains c s : contains c s = false → contains c (TrimSpace s) = false.
Proof.
  rewrite <- !not_true_iff_false, !contains_bytes. intros Hs Hc. by apply Hs, TrimSpace_bytes.
Qed.

Lemma TrimSpace_nil : TrimSpace "" = "".
Proof. done. Qed.
