(* ===== verification/GoJson.v ===== *)
(** * The part of Go's [encoding/json] the program uses: [json.Unmarshal]

    The text of an annotation is parsed to a tree ([parse]) and the tree is
    decoded into a Go value ([dec_string], [dec_int], [dec_bool_ptr],
    [dec_struct], [dec_slice]).  [Unmarshal] checks the whole text before it
    decodes anything, so the two passes give what one pass gives.  [None]
    stands for a non-nil error; the callers use nothing else of it. *)

From stdpp Require Import options.
From S2P Require Import Prelude GoStrings.

(** ** Definitions *)

Inductive json : Type :=
| JNull
| JBool (b : bool)
| JNum (literal : string)
| JStr (s : string)
| JArr (l : list json)
| JObj (l : list (string * json)).

(** *** Bytes and UTF-8 *)

Definition code (a : ascii) : N := N_of_ascii a.
Definition between (lo hi : N) (a : ascii) : bool := ((lo <=? code a) && (code a <=? hi))%N.
Definition cont (a : ascii) : bool := between 128 191 a.

(** Valid encodings of two, three and four bytes. *)
Definition utf8_2 (a b : ascii) : bool := between 194 223 a && cont b.
Definition utf8_3 (a b c : ascii) : bool :=
  cont c &&
  ((code a =? 224)%N && between 160 191 b
   || (between 225 236 a || between 238 239 a) && cont b
   || (code a =? 237)%N && between 128 159 b).
Definition utf8_4 (a b c d : ascii) : bool :=
  cont c && cont d &&
  ((code a =? 240)%N && between 144 191 b
   || between 241 243 a && cont b
   || (code a =? 244)%N && between 128 143 b).

(** [utf8.EncodeRune] of a rune that is not a surrogate. *)
Definition encode_rune (n : N) : list ascii :=
  (if n <? 128 then [ascii_of_N n]
   else if n <? 2048 then [ascii_of_N (192 + n / 64); ascii_of_N (128 + n mod 64)]
   else if n <? 65536 then
     [ascii_of_N (224 + n / 4096); ascii_of_N (128 + (n / 64) mod 64);
      ascii_of_N (128 + n mod 64)]
   else
     [ascii_of_N (240 + n / 262144); ascii_of_N (128 + (n / 4096) mod 64);
      ascii_of_N (128 + (n / 64) mod 64); ascii_of_N (128 + n mod 64)])%N.

(** U+FFFD *)
Definition replacement : list ascii := encode_rune 65533.

(** *** String literals *)

(** What stands between the quotes: raw bytes, one-character escapes and
    [\uXXXX] escapes. *)
Inductive strtok : Type :=
| TRaw (a : ascii)
| TEsc (a : ascii)
| TUni (n : N).

Definition hex_val (a : ascii) : option N :=
  (let n := code a in
   if between 48 57 a then Some (n - 48)
   else if between 97 102 a then Some (n - 87)
   else if between 65 70 a then Some (n - 55)
   else None)%N.

Definition simple_escape (a : ascii) : option ascii :=
  match a with
  | "b" => Some "008" | "f" => Some "012" | "n" => Some "010" | "r" => Some "013"
  | "t" => Some "009" | "\" => Some "\" | "/" => Some "/" | "034" => Some "034"
  | _ => None
  end%char.

(** Reads a string literal after its opening quote: its tokens and what follows
    the closing quote. *)
Fixpoint scan_string (l : list ascii) : option (list strtok * list ascii) :=
  match l with
  | [] => None
  | a :: l1 =>
      if bool_decide (a = "034"%char) then Some ([], l1)
      else if bool_decide (a = "\"%char) then
        match l1 with
        | [] => None
        | b :: l2 =>
            if bool_decide (b = "u"%char) then
              match l2 with
              | h1 :: h2 :: h3 :: h4 :: l3 =>
                  v1 ← hex_val h1; v2 ← hex_val h2; v3 ← hex_val h3; v4 ← hex_val h4;
                  '(ts, rest) ← scan_string l3;
                  Some (TUni (v1 * 4096 + v2 * 256 + v3 * 16 + v4)%N :: ts, rest)
              | _ => None
              end
            else
              e ← simple_escape b;
              '(ts, rest) ← scan_string l2;
              Some (TEsc e :: ts, rest)
        end
      else if (code a <? 32)%N then None
      else
        '(ts, rest) ← scan_string l1;
        Some (TRaw a :: ts, rest)
  end.

(** [utf16.DecodeRune] *)
Definition is_high (n : N) : bool := ((55296 <=? n) && (n <? 56320))%N.
Definition is_low (n : N) : bool := ((56320 <=? n) && (n <? 57344))%N.

(** The bytes the literal stands for.  A surrogate escape that is not half of a
    pair, and every byte that is not part of valid UTF-8, become U+FFFD. *)
Fixpoint unquote (ts : list strtok) : list ascii :=
  match ts with
  | [] => []
  | TEsc a :: ts1 => a :: unquote ts1
  | TUni n :: ts1 =>
      if is_high n then
        match ts1 with
        | TUni m :: ts2 =>
            if is_low m
            then encode_rune (65536 + (n - 55296) * 1024 + (m - 56320))%N ++ unquote ts2
            else replacement ++ unquote ts1
        | _ => replacement ++ unquote ts1
        end
      else if is_low n then replacement ++ unquote ts1
      else encode_rune n ++ unquote ts1
  | TRaw a :: ts1 =>
      if (code a <? 128)%N then a :: unquote ts1 else
      match ts1 with
      | TRaw b :: ts2 =>
          if utf8_2 a b then a :: b :: unquote ts2 else
          match ts2 with
          | TRaw c :: ts3 =>
              if utf8_3 a b c then a :: b :: c :: unquote ts3 else
              match ts3 with
              | TRaw d :: ts4 =>
                  if utf8_4 a b c d then a :: b :: c :: d :: unquote ts4
                  else replacement ++ unquote ts1
              | _ => replacement ++ unquote ts1
              end
          | _ => replacement ++ unquote ts1
          end
      | _ => replacement ++ unquote ts1
      end
  end.

Definition scan_str (l : list ascii) : option (string * list ascii) :=
  '(ts, rest) ← scan_string l; Some (of_bytes (unquote ts), rest).

(** *** Numbers and white space *)

Fixpoint skip_ws (l : list ascii) : list ascii :=
  match l with
  | ("032" | "009" | "010" | "013")%char :: l' => skip_ws l'
  | _ => l
  end.

Definition is_digit (a : ascii) : bool := between 48 57 a.

Fixpoint scan_digits (l : list ascii) : list ascii * list ascii :=
  match l with
  | a :: l' => if is_digit a then let '(d, r) := scan_digits l' in (a :: d, r) else ([], l)
  | [] => ([], [])
  end.

(** One digit or more. *)
Definition scan_digits1 (l : list ascii) : option (list ascii * list ascii) :=
  match scan_digits l with ([], _) => None | p => Some p end.

(** [0] or digits that do not start with [0]. *)
Definition scan_int (l : list ascii) : option (list ascii * list ascii) :=
  match l with
  | "0"%char :: r => Some (["0"%char], r)
  | _ => scan_digits1 l
  end.

Definition scan_frac (l : list ascii) : option (list ascii * list ascii) :=
  match l with
  | "."%char :: r => '(d, r') ← scan_digits1 r; Some ("."%char :: d, r')
  | _ => Some ([], l)
  end.

Definition scan_exp (l : list ascii) : option (list ascii * list ascii) :=
  match l with
  | ("e" | "E")%char as e :: (("+" | "-")%char as sgn) :: r =>
      '(d, r') ← scan_digits1 r; Some (e :: sgn :: d, r')
  | ("e" | "E")%char as e :: r => '(d, r') ← scan_digits1 r; Some (e :: d, r')
  | _ => Some ([], l)
  end.

Definition scan_number (l : list ascii) : option (string * list ascii) :=
  let '(sgn, l0) := match l with "-"%char :: r => (["-"%char], r) | _ => ([], l) end in
  '(i, l1) ← scan_int l0;
  '(f, l2) ← scan_frac l1;
  '(e, l3) ← scan_exp l2;
  Some (of_bytes (sgn ++ i ++ f ++ e), l3).

(** [l] without the given word in front. *)
Fixpoint scan_word (w : string) (l : list ascii) : option (list ascii) :=
  match w, l with
  | EmptyString, _ => Some l
  | String c w', a :: l' => if bool_decide (a = c) then scan_word w' l' else None
  | _, [] => None
  end.

(** *** Values *)

(** [maxNestingDepth] of the scanner. *)
Definition max_depth : N := 10000.

(** The first byte after white space, and what follows it. *)
Definition next (l : list ascii) : option (ascii * list ascii) :=
  match skip_ws l with [] => None | a :: r => Some (a, r) end.

(** [depth] arrays and objects are open.  One unit of fuel is spent per call and
    every second call consumes a byte: see [parse_fuel_enough] below. *)
Fixpoint pvalue (fuel : nat) (depth : N) (l : list ascii) : option (json * list ascii) :=
  match fuel with
  | O => None
  | S fuel =>
      '(a, r) ← next l;
      if (a == "{"%char)%go then
        if (depth <? max_depth)%N then
          '(b, r1) ← next r;
          if (b == "}"%char)%go then Some (JObj [], r1)
          else '(ms, r') ← pmembers fuel (depth + 1) r; Some (JObj ms, r')
        else None
      else if (a == "["%char)%go then
        if (depth <? max_depth)%N then
          '(b, r1) ← next r;
          if (b == "]"%char)%go then Some (JArr [], r1)
          else '(vs, r') ← pelements fuel (depth + 1) r; Some (JArr vs, r')
        else None
      else if (a == "034"%char)%go then '(s, r') ← scan_str r; Some (JStr s, r')
      else if (a == "t"%char)%go then r' ← scan_word "rue" r; Some (JBool true, r')
      else if (a == "f"%char)%go then r' ← scan_word "alse" r; Some (JBool false, r')
      else if (a == "n"%char)%go then r' ← scan_word "ull" r; Some (JNull, r')
      else '(n, r') ← scan_number (a :: r); Some (JNum n, r')
  end
with pelements (fuel : nat) (depth : N) (l : list ascii) : option (list json * list ascii) :=
  match fuel with
  | O => None
  | S fuel =>
      '(v, r) ← pvalue fuel depth l;
      '(c, r1) ← next r;
      if (c == ","%char)%go then
        '(vs, r2) ← pelements fuel depth r1; Some (v :: vs, r2)
      else if (c == "]"%char)%go then Some ([v], r1)
      else None
  end
with pmembers (fuel : nat) (depth : N) (l : list ascii)
    : option (list (string * json) * list ascii) :=
  match fuel with
  | O => None
  | S fuel =>
      '(a, r0) ← next l;
      if (a == "034"%char)%go then
        '(k, r1) ← scan_str r0;
        '(b, r2) ← next r1;
        if (b == ":"%char)%go then
          '(v, r3) ← pvalue fuel depth r2;
          '(c, r4) ← next r3;
          if (c == ","%char)%go then
            '(ms, r5) ← pmembers fuel depth r4; Some ((k, v) :: ms, r5)
          else if (c == "}"%char)%go then Some ([(k, v)], r4)
          else None
        else None
      else None
  end.

Definition parse_with (fuel : nat) (s : string) : option json :=
  '(v, rest) ← pvalue fuel 0 (to_bytes s);
  match skip_ws rest with [] => Some v | _ => None end.

Definition parse (s : string) : option json := parse_with (2 * String.length s + 2) s.

(** *** Decoding *)

(** [foldName]: upper case for ASCII letters; U+017F folds to [S] and U+212A to
    [K], the only runes outside ASCII that fold to a letter of ASCII. *)
Definition upper (a : ascii) : ascii :=
  if between 97 122 a then ascii_of_N (code a - 32) else a.

Fixpoint fold_bytes (l : list ascii) : list ascii :=
  match l with
  | "197"%char :: "191"%char :: l' => "S"%char :: fold_bytes l'
  | "226"%char :: "132"%char :: "170"%char :: l' => "K"%char :: fold_bytes l'
  | a :: l' => upper a :: fold_bytes l'
  | [] => []
  end.

Definition foldName (s : string) : string := of_bytes (fold_bytes (to_bytes s)).

(** The field of the struct a key stands for: the exact name first, then the
    first name equal up to case. *)
Definition field_for (fields : list string) (key : string) : option string :=
  if bool_decide (key ∈ fields) then Some key
  else snd <$> list_find (λ f, foldName f = foldName key) fields.

(** Decoding into a location that holds [cur]: [null] leaves it alone. *)
Definition dec_string (cur : string) (j : json) : option string :=
  match j with JStr s => Some s | JNull => Some cur | _ => None end.

Definition dec_int (cur : Z) (j : json) : option Z :=
  match j with JNum n => Atoi n | JNull => Some cur | _ => None end.

(** [*bool]: [null] sets it to nil. *)
Definition dec_bool_ptr (j : json) : option (option bool) :=
  match j with JBool b => Some (Some b) | JNull => Some None | _ => None end.

(** A struct: the members of the object in order, unknown keys skipped.
    [set cur f v] decodes [v] into the field [f]. *)
Definition dec_struct {A} (fields : list string) (set : A → string → json → option A)
    (cur : A) (j : json) : option A :=
  match j with
  | JObj ms =>
      foldl (λ acc '(k, v), a ← acc;
               match field_for fields k with
               | Some f => set a f v
               | None => Some a
               end) (Some cur) ms
  | JNull => Some cur
  | _ => None
  end.

Fixpoint dec_elems {A} (dec : A → json → option A) (z : A) (backing : list A) (js : list json)
    : option (list A) :=
  match js, backing with
  | [], _ => Some backing
  | j :: js', b :: bs => x ← dec b j; xs ← dec_elems dec z bs js'; Some (x :: xs)
  | j :: js', [] => x ← dec z j; xs ← dec_elems dec z [] js'; Some (x :: xs)
  end.

(** A slice: the elements are decoded over those the backing array already
    holds, as Go does when a key occurs twice; [z] is a fresh element.  Returns
    the slice and its backing array. *)
Definition dec_slice {A} (dec : A → json → option A) (z : A) (backing : list A) (j : json)
    : option (goslice A * list A) :=
  match j with
  | JNull => Some (None, [])
  | JArr [] => Some (Some [], [])
  | JArr js => l ← dec_elems dec z backing js; Some (Some (take (length js) l), l)
  | _ => None
  end.

(** Writes a JSON text with single quotes for double quotes. *)
Definition quoted (s : string) : string := ReplaceAll "'" "034" s.

(** ** Lemmas *)

Example parse_ex :
  parse (quoted " [ {'a' : -1.5e+3, '\u0041\n':[true,null ,'x\ud83d\ude00']} ] ")
  = Some (JArr [JObj [("a", JNum "-1.5e+3");
                      (String "A" (String "010" ""),
                       JArr [JBool true; JNull; JStr "x😀"])]]).
Proof. vm_compute. reflexivity. Qed.

Example parse_bad : parse (quoted "{'a':1,}") = None ∧ parse "[01]" = None ∧ parse "[1] x" = None.
Proof. vm_compute. done. Qed.

(** *** The parser's fuel *)

Lemma skip_ws_le l : length (skip_ws l) ≤ length l.
Proof.
  induction l as [|a l IH]; [done|].
  destruct a as [[] [] [] [] [] [] [] []]; simpl; lia.
Qed.

Lemma next_lt l a r : next l = Some (a, r) → length r < length l.
Proof.
  unfold next. pose proof (skip_ws_le l). destruct (skip_ws l); intros; simplify_eq/=; lia.
Qed.

Lemma scan_string_lt n l ts r :
  length l ≤ n → scan_string l = Some (ts, r) → length r < length l.
Proof.
  revert l ts r; induction n as [|n IH]; intros l ts r Hn H.
  { by destruct l; simpl in *; [|lia]. }
  assert (∀ l' ts' r', length l' ≤ n → scan_string l' = Some (ts', r') →
    length r' < length l') as IH' by eauto. clear IH.
  destruct l as [|a l1]; [done|]. simpl in *.
  repeat case_bool_decide; simplify_eq/=; try lia.
  - destruct l1 as [|b l2]; [done|]. simpl in *. case_bool_decide.
    + destruct l2 as [|h1 [|h2 [|h3 [|h4 l3]]]]; try done. simpl in *.
      repeat (apply bind_Some in H as (? & ? & H)). destruct_and?.
      repeat match goal with x : _ * _ |- _ => destruct x end. simplify_eq/=.
      match goal with E : scan_string _ = _ |- _ => apply IH' in E end; lia.
    + repeat (apply bind_Some in H as (? & ? & H)).
      repeat match goal with x : _ * _ |- _ => destruct x end. simplify_eq/=.
      match goal with E : scan_string _ = _ |- _ => apply IH' in E end; lia.
  - case_match; [done|]. apply bind_Some in H as ([ts' r'] & E & H). simplify_eq/=.
    apply IH' in E; lia.
Qed.

Lemma scan_str_lt l s r : scan_str l = Some (s, r) → length r < length l.
Proof.
  unfold scan_str. intros ([ts r'] & E & H)%bind_Some. simplify_eq/=.
  by apply (scan_string_lt (length l)) in E.
Qed.

Lemma scan_digits_app l d r : scan_digits l = (d, r) → l = d ++ r.
Proof.
  revert d r; induction l as [|a l IH]; intros d r; simpl; [by intros [= <- <-]|].
  case_match; [|by intros [= <- <-]].
  destruct (scan_digits l) as [d' r']. intros [= <- <-]. simpl. f_equal. by apply IH.
Qed.

Lemma scan_digits1_lt l d r : scan_digits1 l = Some (d, r) → length r < length l.
Proof.
  unfold scan_digits1. destruct (scan_digits l) as [d' r'] eqn:E.
  apply scan_digits_app in E. destruct d'; intros; simplify_eq/=.
  rewrite length_app. lia.
Qed.

Lemma scan_int_lt l d r : scan_int l = Some (d, r) → length r < length l.
Proof.
  destruct l as [|a l]; [done|].
  destruct (decide (a = "0"%char)) as [->|Ha]; [by intros [= <- <-]; simpl; lia|].
  intros H. apply (scan_digits1_lt _ d).
  destruct a as [[] [] [] [] [] [] [] []]; done.
Qed.

Lemma scan_frac_le l d r : scan_frac l = Some (d, r) → length r ≤ length l.
Proof.
  destruct l as [|a l]; [by intros [= <- <-]|].
  destruct (decide (a = "."%char)) as [->|Ha].
  - simpl. intros ([d' r'] & E & H)%bind_Some. simplify_eq/=.
    apply scan_digits1_lt in E. lia.
  - destruct a as [[] [] [] [] [] [] [] []]; try done; by intros [= <- <-].
Qed.

Lemma scan_exp_le l d r : scan_exp l = Some (d, r) → length r ≤ length l.
Proof.
  assert (∀ m l' (k : list ascii → list ascii),
    ('(d', r') ← scan_digits1 l'; Some (k d', r')) = Some (d, r) →
    length l' ≤ m → length r ≤ m) as Hd.
  { intros m l' k ([d' r'] & E & H)%bind_Some Hm. simplify_eq/=.
    apply scan_digits1_lt in E. lia. }
  destruct l as [|a l]; [by intros [= <- <-]|].
  assert (∀ e, ('(d', r') ← scan_digits1 l; Some (e :: d', r')) = Some (d, r) →
    length r ≤ S (length l)) as He by (intros e H; eapply Hd; [apply H | lia]).
  destruct (decide (a = "e"%char ∨ a = "E"%char)) as [Ha|Ha].
  - destruct l as [|b l]; [destruct Ha as [-> | ->]; by apply He|].
    destruct (decide (b = "+"%char ∨ b = "-"%char)) as [Hb|Hb].
    + assert (∀ e : ascii, ('(d', r') ← scan_digits1 l; Some (e :: b :: d', r')) = Some (d, r) →
        length r ≤ S (S (length l))) as Hs by (intros e H; eapply Hd; [apply H | lia]).
      destruct Ha as [-> | ->], Hb as [-> | ->]; apply Hs.
    + destruct Ha as [-> | ->]; destruct b as [[] [] [] [] [] [] [] []];
        first [by destruct Hb; auto | apply He].
  - destruct a as [[] [] [] [] [] [] [] []];
      first [by destruct Ha; auto | by intros [= <- <-]].
Qed.

Lemma scan_number_lt l s r : scan_number l = Some (s, r) → length r < length l.
Proof.
  unfold scan_number.
  destruct (match l with [] => _ | a :: r => _ end) as [sgn l0] eqn:E0.
  assert (length l0 ≤ length l) as Hl0.
  { destruct l as [|a l]; [by simplify_eq|].
    destruct a as [[] [] [] [] [] [] [] []]; simplify_eq/=; lia. }
  intros ([i l1] & E1 & ([f l2] & E2 & ([e l3] & E3 & H)%bind_Some)%bind_Some)%bind_Some.
  simplify_eq/=. apply scan_int_lt in E1. apply scan_frac_le in E2. apply scan_exp_le in E3. lia.
Qed.

Lemma scan_word_le w l r : scan_word w l = Some r → length r ≤ length l.
Proof.
  revert l; induction w as [|c w IH]; intros [|a l] H; simpl in H; try (by simplify_eq).
  case_bool_decide; [|done]. apply IH in H. simpl. lia.
Qed.

(** Peels the binds of a parser that returned something and substitutes. *)
Ltac peel H :=
  repeat first
    [ progress simplify_eq/=
    | match type of H with
      | (_ ≫= _) = Some _ => let x := fresh "x" in let E := fresh "E" in
          apply bind_Some in H as (x & E & H); try destruct x
      end
    | case_bool_decide | case_match ].

Lemma pvalue_lt_all fuel :
  (∀ d l v r, pvalue fuel d l = Some (v, r) → length r < length l)
  ∧ (∀ d l v r, pelements fuel d l = Some (v, r) → length r < length l)
  ∧ (∀ d l v r, pmembers fuel d l = Some (v, r) → length r < length l).
Proof.
  induction fuel as [|fuel (IHv & IHe & IHm)]; [done|].
  split_and!; intros d l v r H; simpl in H; peel H;
    repeat match goal with
    | E : next _ = Some _ |- _ => apply next_lt in E
    | E : scan_str _ = Some _ |- _ => apply scan_str_lt in E
    | E : scan_number _ = Some _ |- _ => apply scan_number_lt in E
    | E : scan_word _ _ = Some _ |- _ => apply scan_word_le in E
    | E : pvalue _ _ _ = Some _ |- _ => apply IHv in E
    | E : pelements _ _ _ = Some _ |- _ => apply IHe in E
    | E : pmembers _ _ _ = Some _ |- _ => apply IHm in E
    end; simpl in *; lia.
Qed.

(** From [2 * length l + 1] units of fuel on, more fuel changes nothing. *)
Lemma pvalue_fuel_all f1 : ∀ f2,
  (∀ d l, 2 * length l + 1 ≤ f1 → 2 * length l + 1 ≤ f2 → pvalue f1 d l = pvalue f2 d l)
  ∧ (∀ d l, 2 * length l + 2 ≤ f1 → 2 * length l + 2 ≤ f2 → pelements f1 d l = pelements f2 d l)
  ∧ (∀ d l, 2 * length l + 2 ≤ f1 → 2 * length l + 2 ≤ f2 → pmembers f1 d l = pmembers f2 d l).
Proof.
  induction f1 as [|f1 IH]; intros f2; [split_and!; intros; lia|].
  destruct f2 as [|f2]; [split_and!; intros; lia|].
  destruct (IH f2) as (IHv & IHe & IHm). destruct (pvalue_lt_all f2) as (Lv & Le & Lm).
  assert (∀ {A B : Type} (o : option A) (k k' : A → option B),
    (∀ x, o = Some x → k x = k' x) → (o ≫= k) = (o ≫= k')) as Hbind.
  { intros A B [x|] k k' Hk; [by apply Hk | done]. }
  split_and!; intros d l H1 H2; simpl.
  - apply Hbind. intros [a r] E%next_lt. repeat case_match; try done.
    + apply Hbind. intros [b r1] _. case_match; [done|]. by rewrite IHm by lia.
    + apply Hbind. intros [b r1] _. case_match; [done|]. by rewrite IHe by lia.
  - rewrite IHv by lia. apply Hbind. intros [v r] E%Lv. apply Hbind. intros [c r1] E1%next_lt.
    case_match; [|done]. by rewrite IHe by lia.
  - apply Hbind. intros [a r0] E%next_lt. case_match; [|done].
    apply Hbind. intros [k r1] E1%scan_str_lt. apply Hbind. intros [b r2] E2%next_lt.
    case_match; [|done]. rewrite IHv by lia. apply Hbind. intros [v r3] E3%Lv.
    apply Hbind. intros [c r4] E4%next_lt. case_match; [|done]. by rewrite IHm by lia.
Qed.

(** The fuel [parse] runs with is enough: any larger amount gives its result. *)
Lemma parse_fuel_enough s fuel : 2 * String.length s + 2 ≤ fuel → parse_with fuel s = parse s.
Proof.
  intros Hf. unfold parse, parse_with.
  destruct (pvalue_fuel_all fuel (2 * String.length s + 2)) as (Hv & _ & _).
  assert (length (to_bytes s) = String.length s) as Hl by (clear; induction s; simpl; congruence).
  rewrite Hv by (rewrite Hl; lia). done.
Qed.
