(* ===== verification/JsonPrint.v ===== *)
(** * Writing JSON: the inverse of [GoJson]'s reading

    The program only reads JSON.  This file writes it, in the compact form of
    [encoding/json], to state what the annotations can express: every tree
    whose strings are valid UTF-8, whose numbers are decimal integers and whose
    nesting the reader accepts is read back from what is written for it. *)

From stdpp Require Import options.
From S2P Require Import Prelude GoStrings GoJson.

(** ** Definitions *)

Definition hex_char (n : N) : ascii := ascii_of_N (if n <? 10 then 48 + n else 87 + n)%N.

Definition escape (a : ascii) : list ascii :=
  if bool_decide (a = "034"%char ∨ a = "\"%char) then ["\"%char; a]
  else if (code a <? 32)%N then
    ["\"%char; "u"%char; "0"%char; "0"%char; hex_char (code a / 16); hex_char (code a mod 16)]
  else [a].

Definition print_str (s : string) : list ascii :=
  "034"%char :: (to_bytes s ≫= escape) ++ ["034"%char].

Fixpoint commas (l : list (list ascii)) : list ascii :=
  match l with
  | [] => []
  | [x] => x
  | x :: l => x ++ ","%char :: commas l
  end.

Fixpoint print_value (j : json) : list ascii :=
  match j with
  | JNull => to_bytes "null"
  | JBool b => to_bytes (if b then "true" else "false")
  | JNum n => to_bytes n
  | JStr s => print_str s
  | JArr l => "["%char :: commas (map print_value l) ++ ["]"%char]
  | JObj ms =>
      "{"%char :: commas (map (λ '(k, v), print_str k ++ ":"%char :: print_value v) ms)
      ++ ["}"%char]
  end.

Definition print (j : json) : string := of_bytes (print_value j).

(** Valid UTF-8. *)
Inductive utf8 : list ascii → Prop :=
| utf8_nil : utf8 []
| utf8_cons1 a l : (code a <? 128)%N = true → utf8 l → utf8 (a :: l)
| utf8_cons2 a b l : utf8_2 a b = true → utf8 l → utf8 (a :: b :: l)
| utf8_cons3 a b c l : utf8_3 a b c = true → utf8 l → utf8 (a :: b :: c :: l)
| utf8_cons4 a b c d l : utf8_4 a b c d = true → utf8 l → utf8 (a :: b :: c :: d :: l).

Definition valid (s : string) : Prop := utf8 (to_bytes s).

(** The trees of at most [d] nested arrays and objects that can be written. *)
Fixpoint printable (d : nat) (j : json) : Prop :=
  match j with
  | JNull | JBool _ => True
  | JNum n => ∃ z, n = Itoa z
  | JStr s => valid s
  | JArr l => match d with O => False | S d => Forall (printable d) l end
  | JObj ms =>
      match d with O => False | S d => Forall (λ '(k, v), valid k ∧ printable d v) ms end
  end.

(** Checks validity of a concrete string. *)
Fixpoint utf8_check (fuel : nat) (l : list ascii) : bool :=
  match fuel, l with
  | _, [] => true
  | O, _ => false
  | S n, a :: l1 =>
      if (code a <? 128)%N then utf8_check n l1 else
      match l1 with
      | b :: l2 =>
          if utf8_2 a b then utf8_check n l2 else
          match l2 with
          | c :: l3 =>
              if utf8_3 a b c then utf8_check n l3 else
              match l3 with
              | d :: l4 => utf8_4 a b c d && utf8_check n l4
              | [] => false
              end
          | [] => false
          end
      | [] => false
      end
  end.

(** ** Strings *)

Lemma utf8_check_sound n l : utf8_check n l = true → utf8 l.
Proof.
  revert l; induction n as [|n IH]; intros [|a l1]; simpl; try done;
    try (intros _; apply utf8_nil).
  destruct (code a <? 128)%N eqn:E1; [intros; apply utf8_cons1; auto|].
  destruct l1 as [|b l2]; [done|]. destruct (utf8_2 a b) eqn:E2; [intros; apply utf8_cons2; auto|].
  destruct l2 as [|c l3]; [done|]. destruct (utf8_3 a b c) eqn:E3; [intros; apply utf8_cons3; auto|].
  destruct l3 as [|d l4]; [done|]. intros [? ?]%andb_true_iff. apply utf8_cons4; auto.
Qed.

Lemma bytes_of_bytes l : to_bytes (of_bytes l) = l.
Proof. apply String.list_ascii_of_string_of_list_ascii. Qed.
Lemma of_bytes_of s : of_bytes (to_bytes s) = s.
Proof. apply String.string_of_list_ascii_of_string. Qed.

Lemma hex_char_val n : (n < 16)%N → hex_val (hex_char n) = Some n.
Proof.
  intros Hn.
  assert (forallb (λ k, bool_decide (hex_val (hex_char (N.of_nat k)) = Some (N.of_nat k)))
    (seq 0 16) = true) as Hall by reflexivity.
  rewrite forallb_forall in Hall. specialize (Hall (N.to_nat n)). rewrite N2Nat.id in Hall.
  eapply bool_decide_eq_true_1, Hall, in_seq. lia.
Qed.

(** A byte that stands for itself in a literal. *)
Definition plain (a : ascii) : Prop :=
  a ≠ "034"%char ∧ a ≠ "\"%char ∧ (code a <? 32)%N = false.

Lemma plain_high a : (code a <? 128)%N = false → plain a.
Proof.
  intros H%N.ltb_ge. split_and!; [intros ->; by vm_compute in H..|]. apply N.ltb_ge. lia.
Qed.

Lemma escape_plain a : plain a → escape a = [a].
Proof. intros (H1 & H2 & H3). unfold escape. rewrite bool_decide_false by naive_solver. by rewrite H3. Qed.

Lemma scan_plain a l : plain a →
  scan_string (a :: l) = '(ts, rest) ← scan_string l; Some (TRaw a :: ts, rest).
Proof.
  intros (H1 & H2 & H3). cbn [scan_string].
  rewrite !bool_decide_false by done. by rewrite H3.
Qed.

Lemma scan_special a l : a = "034"%char ∨ a = "\"%char →
  scan_string (escape a ++ l) = '(ts, rest) ← scan_string l; Some (TEsc a :: ts, rest).
Proof. intros [-> | ->]; reflexivity. Qed.

Lemma scan_control a l : (code a <? 32)%N = true →
  scan_string (escape a ++ l) = '(ts, rest) ← scan_string l; Some (TUni (code a) :: ts, rest).
Proof.
  intros Ha. unfold escape. rewrite bool_decide_false by (intros [-> | ->]; by vm_compute in Ha).
  rewrite Ha. apply N.ltb_lt in Ha. cbn [app scan_string].
  rewrite bool_decide_false by done. rewrite !bool_decide_true by done.
  rewrite !hex_char_val by (first [apply N.mod_lt; lia | apply N.Div0.div_lt_upper_bound; lia]).
  change (hex_val "0") with (Some 0%N). cbn [mbind option_bind].
  replace (0 * 4096 + 0 * 256 + code a / 16 * 16 + code a mod 16)%N with (code a); [done|].
  pose proof (N.div_mod (code a) 16). lia.
Qed.

(** The multi-byte encodings are plain bytes that stand for themselves. *)
Lemma high_byte a n : (n <= code a)%N → (128 <= n)%N → plain a ∧ (code a <? 128)%N = false.
Proof. intros. assert ((code a <? 128)%N = false) by (apply N.ltb_ge; lia). split; [by apply plain_high | done]. Qed.

Lemma cont_plain a : cont a = true → plain a.
Proof. intros [H _]%andb_true_iff. apply N.leb_le in H. by eapply high_byte. Qed.

Lemma utf8_2_bytes a b : utf8_2 a b = true →
  plain a ∧ plain b ∧ ∀ ts, unquote (TRaw a :: TRaw b :: ts) = a :: b :: unquote ts.
Proof.
  intros Hab. pose proof Hab as [[Ha _]%andb_true_iff Hb]%andb_true_iff. apply N.leb_le in Ha.
  destruct (high_byte a 194 Ha ltac:(lia)) as [Hp Hc].
  split_and!; [done | by apply cont_plain|]. intros ts. cbn [unquote]. by rewrite Hc, Hab.
Qed.

Lemma utf8_3_bytes a b c : utf8_3 a b c = true →
  plain a ∧ plain b ∧ plain c
  ∧ ∀ ts, unquote (TRaw a :: TRaw b :: TRaw c :: ts) = a :: b :: c :: unquote ts.
Proof.
  intros Habc. assert (224 <= code a ∧ 128 <= code b)%N as [Ha Hb].
  { revert Habc. unfold utf8_3, cont, between. rewrite !andb_true_iff, !orb_true_iff, !andb_true_iff,
      !orb_true_iff, !andb_true_iff, !N.leb_le, !N.eqb_eq. lia. }
  destruct (high_byte a 224 Ha ltac:(lia)) as [Hp Hl], (high_byte b 128 Hb ltac:(lia)) as [Hpb _].
  assert (utf8_2 a b = false) as H2.
  { unfold utf8_2, between. rewrite (proj2 (N.leb_gt (code a) 223)) by lia. by rewrite andb_false_r. }
  split_and!; [done..| |].
  - apply cont_plain. unfold utf8_3 in Habc. by apply andb_true_iff in Habc as [? _].
  - intros ts. cbn [unquote]. by rewrite Hl, H2, Habc.
Qed.

Lemma utf8_4_bytes a b c d : utf8_4 a b c d = true →
  plain a ∧ plain b ∧ plain c ∧ plain d
  ∧ ∀ ts, unquote (TRaw a :: TRaw b :: TRaw c :: TRaw d :: ts) = a :: b :: c :: d :: unquote ts.
Proof.
  intros Habcd. assert (240 <= code a ∧ 128 <= code b ∧ cont c = true ∧ cont d = true)%N as (Ha & Hb & Hc & Hd).
  { revert Habcd. unfold utf8_4. rewrite !andb_true_iff. intros [[Hc Hd] Hab].
    split_and!; [..|done|done]; revert Hab; unfold cont, between;
      rewrite !orb_true_iff, !andb_true_iff, !N.leb_le, !N.eqb_eq; lia. }
  destruct (high_byte a 240 Ha ltac:(lia)) as [Hp Hl], (high_byte b 128 Hb ltac:(lia)) as [Hpb _].
  assert (utf8_2 a b = false) as H2.
  { unfold utf8_2, between. rewrite (proj2 (N.leb_gt (code a) 223)) by lia. by rewrite andb_false_r. }
  assert (utf8_3 a b c = false) as H3.
  { unfold utf8_3, between. rewrite (proj2 (N.eqb_neq (code a) 224)), (proj2 (N.eqb_neq (code a) 237)),
      (proj2 (N.leb_gt (code a) 236)), (proj2 (N.leb_gt (code a) 239)) by lia.
    by rewrite !andb_false_r. }
  split_and!; [done|done|by apply cont_plain|by apply cont_plain|].
  intros ts. cbn [unquote]. by rewrite Hl, H2, H3, Habcd.
Qed.

(** What a literal is made of when it stands for [l]. *)
Lemma scan_escaped l rest : utf8 l →
  ∃ ts, scan_string ((l ≫= escape) ++ "034"%char :: rest) = Some (ts, rest) ∧ unquote ts = l.
Proof.
  induction 1 as [|a l Ha _ (ts & Hs & Hu)|a b l Hab _ (ts & Hs & Hu)
    |a b c l Habc _ (ts & Hs & Hu)|a b c d l Habcd _ (ts & Hs & Hu)].
  - by exists [].
  - rewrite bind_cons, <- app_assoc.
    destruct (decide (a = "034"%char ∨ a = "\"%char)) as [Hq|Hq].
    + rewrite scan_special, Hs by done. exists (TEsc a :: ts). by rewrite <- Hu.
    + destruct (code a <? 32)%N eqn:H32.
      * rewrite scan_control, Hs by done. exists (TUni (code a) :: ts). split; [done|].
        apply N.ltb_lt in H32. cbn [unquote]. unfold is_high, is_low.
        rewrite (proj2 (N.leb_gt 55296 (code a))), (proj2 (N.leb_gt 56320 (code a))) by lia. simpl.
        unfold encode_rune. rewrite Ha. unfold code. rewrite ascii_N_embedding. by rewrite Hu.
      * assert (plain a) as Hp by (split_and!; naive_solver).
        rewrite escape_plain by done. cbn [app]. rewrite scan_plain, Hs by done.
        exists (TRaw a :: ts). split; [done|]. cbn [unquote]. by rewrite Ha, Hu.
  - apply utf8_2_bytes in Hab as (Ha & Hb & Hraw).
    rewrite !bind_cons, !escape_plain by done. cbn [app]. rewrite !scan_plain, Hs by done.
    exists (TRaw a :: TRaw b :: ts). split; [done|]. by rewrite Hraw, Hu.
  - apply utf8_3_bytes in Habc as (Ha & Hb & Hc & Hraw).
    rewrite !bind_cons, !escape_plain by done. cbn [app]. rewrite !scan_plain, Hs by done.
    exists (TRaw a :: TRaw b :: TRaw c :: ts). split; [done|]. by rewrite Hraw, Hu.
  - apply utf8_4_bytes in Habcd as (Ha & Hb & Hc & Hd & Hraw).
    rewrite !bind_cons, !escape_plain by done. cbn [app]. rewrite !scan_plain, Hs by done.
    exists (TRaw a :: TRaw b :: TRaw c :: TRaw d :: ts). split; [done|]. by rewrite Hraw, Hu.
Qed.

Lemma scan_print_str s rest : valid s →
  ∃ l, print_str s ++ rest = "034"%char :: l ∧ scan_str l = Some (s, rest).
Proof.
  intros (ts & Hs & Hu)%(scan_escaped _ rest).
  exists ((to_bytes s ≫= escape) ++ "034"%char :: rest). split.
  - unfold print_str. simpl. by rewrite <- app_assoc.
  - unfold scan_str. rewrite Hs. simpl. by rewrite Hu, of_bytes_of.
Qed.

(** ** Numbers *)

(** What may follow a number. *)
Definition ends_number (rest : list ascii) : Prop :=
  match rest with
  | [] => True
  | a :: _ => is_digit a = false ∧ a ≠ "."%char ∧ a ≠ "e"%char ∧ a ≠ "E"%char
  end.

Lemma pretty_N_char_digit d : (d < 10)%N →
  is_digit (pretty_N_char d) = true ∧ (d ≠ 0%N → pretty_N_char d ≠ "0"%char).
Proof.
  intros Hd. assert (d ∈ [0; 1; 2; 3; 4; 5; 6; 7; 8; 9]%N) as Hin by (set_unfold; lia).
  repeat (apply elem_of_cons in Hin as [->|Hin]; [by split|]). by apply elem_of_nil in Hin.
Qed.

(** The digits of a positive number: the first one is not zero. *)
Lemma pretty_digits n : (n ≠ 0)%N →
  ∃ a ds, a ≠ "0"%char ∧ Forall (λ b, is_digit b = true) (a :: ds)
    ∧ ∀ s, to_bytes (pretty_N_go n s) = a :: ds ++ to_bytes s.
Proof.
  induction (N.lt_wf_0 n) as [n _ IH]. intros Hn.
  assert (n `mod` 10 < 10)%N as Hmod by (apply N.mod_lt; lia).
  destruct (pretty_N_char_digit _ Hmod) as [Hdig Hz].
  destruct (decide (n < 10)%N) as [Hlt|Hge].
  - rewrite N.mod_small in * by done. exists (pretty_N_char n), []. split_and!; [by apply Hz|by constructor|].
    intros s. rewrite pretty_N_go_step by lia. rewrite N.div_small by done.
    rewrite N.mod_small by done. by rewrite pretty_N_go_0.
  - destruct (IH (n `div` 10)%N) as (a & ds & Ha & Hds & Hgo).
    { apply N.div_lt; lia. }
    { intros E%N.div_small_iff; lia. }
    exists a, (ds ++ [pretty_N_char (n `mod` 10)]). split_and!; [done| |].
    + apply (Forall_app _ (a :: ds)). split; [done | by constructor].
    + intros s. rewrite pretty_N_go_step by lia. rewrite Hgo. simpl. by rewrite <- app_assoc.
Qed.

Lemma scan_digits_all ds rest : Forall (λ b, is_digit b = true) ds → ends_number rest →
  scan_digits (ds ++ rest) = (ds, rest).
Proof.
  intros Hds Hr. induction Hds as [|a ds Ha _ IH]; simpl.
  - destruct rest as [|b rest]; [done|]. simpl. by rewrite (proj1 Hr).
  - by rewrite Ha, IH.
Qed.

Lemma scan_int_nonzero a l : a ≠ "0"%char → scan_int (a :: l) = scan_digits1 (a :: l).
Proof. intros Ha. destruct a as [[] [] [] [] [] [] [] []]; done. Qed.

Lemma scan_frac_none rest : ends_number rest → scan_frac rest = Some ([], rest).
Proof.
  destruct rest as [|a rest]; [done|]. intros (_ & Ha & _).
  destruct a as [[] [] [] [] [] [] [] []]; done.
Qed.

Lemma scan_exp_none rest : ends_number rest → scan_exp rest = Some ([], rest).
Proof.
  destruct rest as [|a rest]; [done|]. intros (_ & _ & H1 & H2).
  destruct a as [[] [] [] [] [] [] [] []]; done.
Qed.

(** The bytes of a decimal number: a sign or not, then a zero or digits. *)
Lemma Itoa_bytes z :
  ∃ sgn a ds, to_bytes (Itoa z) = sgn ++ a :: ds
    ∧ (sgn = [] ∨ sgn = ["-"%char])
    ∧ Forall (λ b, is_digit b = true) (a :: ds) ∧ (a = "0"%char → ds = []).
Proof.
  destruct z as [|p|p].
  - exists [], "0"%char, []. split_and!; [done|by left| |done]. by constructor.
  - destruct (pretty_digits (N.pos p)) as (a & ds & Ha & Hds & Hgo); [done|].
    exists [], a, ds. split_and!; [|by left|done|done]. specialize (Hgo "").
    simpl in Hgo. rewrite app_nil_r in Hgo. exact Hgo.
  - destruct (pretty_digits (N.pos p)) as (a & ds & Ha & Hds & Hgo); [done|].
    exists ["-"%char], a, ds. split_and!; [|by right|done|done]. specialize (Hgo "").
    simpl in Hgo. rewrite app_nil_r in Hgo. simpl. by rewrite <- Hgo.
Qed.

Lemma scan_number_Itoa z rest : ends_number rest →
  scan_number (to_bytes (Itoa z) ++ rest) = Some (Itoa z, rest).
Proof.
  intros Hr. destruct (Itoa_bytes z) as (sgn & a & ds & Hb & Hs & Hds & Hz).
  assert (scan_int ((a :: ds) ++ rest) = Some (a :: ds, rest)) as Hi.
  { destruct (decide (a = "0"%char)) as [->|Ha]; [by rewrite (Hz eq_refl)|].
    change (scan_int (a :: (ds ++ rest)) = Some (a :: ds, rest)).
    rewrite scan_int_nonzero by done. unfold scan_digits1.
    change (a :: (ds ++ rest)) with ((a :: ds) ++ rest). by rewrite scan_digits_all. }
  assert (a ≠ "-"%char) as Hm by (intros ->; by apply Forall_cons in Hds as [? _]).
  assert (scan_number ((sgn ++ a :: ds) ++ rest)
    = Some (of_bytes (sgn ++ (a :: ds) ++ [] ++ []), rest)) as Hn.
  { unfold scan_number. rewrite <- app_assoc.
    destruct Hs as [-> | ->]; cbn [app]; cbn [app] in Hi.
    - destruct a as [[] [] [] [] [] [] [] []]; try done; rewrite Hi; cbn [mbind option_bind];
        rewrite scan_frac_none by done; cbn [mbind option_bind]; by rewrite scan_exp_none.
    - rewrite Hi. cbn [mbind option_bind].
      rewrite scan_frac_none by done. cbn [mbind option_bind]. by rewrite scan_exp_none. }
  rewrite Hb, Hn. rewrite !app_nil_r, <- Hb. by rewrite of_bytes_of.
Qed.

(** ** Values *)

(** What may follow a value: the end, a comma or a closing bracket. *)
Definition ends_value (rest : list ascii) : Prop :=
  match rest with [] => True | a :: _ => a ∈ [","%char; "]"%char; "}"%char] end.

Lemma ends_value_number rest : ends_value rest → ends_number rest.
Proof.
  destruct rest as [|a rest]; [done|]. intros Ha.
  repeat (apply elem_of_cons in Ha as [->|Ha]; [done|]). by apply elem_of_nil in Ha.
Qed.

(** A value starts with a byte that is neither white space nor [ ']' ]. *)
Definition starts_value (l : list ascii) : Prop :=
  match l with [] => False | a :: r => next l = Some (a, r) ∧ a ≠ "]"%char end.

Lemma starts_number z rest : starts_value (to_bytes (Itoa z) ++ rest).
Proof.
  destruct (Itoa_bytes z) as (sgn & a & ds & -> & Hs & Hds & _).
  apply Forall_cons in Hds as [Ha _].
  destruct Hs as [-> | ->]; simpl; [|done].
  destruct a as [[] [] [] [] [] [] [] []]; done.
Qed.

Lemma starts_print d j rest : printable d j → starts_value (print_value j ++ rest).
Proof.
  destruct j as [|[]|n|s|l|ms]; simpl; try done.
  destruct d; intros [z ->]; apply starts_number.
Qed.

Lemma commas_cons x l rest :
  commas (x :: l) ++ rest = x ++ match l with [] => rest | _ => ","%char :: commas l ++ rest end.
Proof. destruct l; [done|]. cbn [commas]. by rewrite <- app_assoc. Qed.

(** The bytes after a value inside an array or an object, and the reader there. *)
Lemma next_plain a r : a ∈ [","%char; "]"%char; "}"%char; ":"%char; "034"%char] →
  next (a :: r) = Some (a, r).
Proof.
  intros Ha. repeat (apply elem_of_cons in Ha as [->|Ha]; [done|]). by apply elem_of_nil in Ha.
Qed.

(** [pvalue] on the numbers, once the other first bytes are ruled out. *)
Lemma pvalue_number fuel depth z rest : ends_number rest →
  pvalue (S fuel) depth (to_bytes (Itoa z) ++ rest) = Some (JNum (Itoa z), rest).
Proof.
  intros Hr. pose proof (scan_number_Itoa z rest Hr) as Hn.
  pose proof (starts_number z rest) as Hst.
  destruct (Itoa_bytes z) as (sgn & a & ds & Hb & Hs & Hds & _). rewrite Hb in *.
  apply Forall_cons in Hds as [Ha _].
  destruct Hs as [-> | ->]; cbn [app] in *; destruct Hst as [Hst _]; cbn [pvalue]; rewrite Hst;
    cbn [mbind option_bind].
  - rewrite !bool_decide_false by (intros ->; by vm_compute in Ha). by rewrite Hn.
  - rewrite !bool_decide_false by done. by rewrite Hn.
Qed.

Definition reads (d : nat) (depth : N) : Prop :=
  ∀ j fuel rest, printable d j → ends_value rest →
    2 * length (print_value j ++ rest) + 1 ≤ fuel →
    pvalue fuel depth (print_value j ++ rest) = Some (j, rest).

(** Membership in a list of bytes. *)
Ltac listed := cbn; set_solver.

Lemma pelements_print d depth l fuel rest :
  reads d depth → l ≠ [] → Forall (printable d) l →
  2 * length (commas (map print_value l) ++ "]"%char :: rest) + 2 ≤ fuel →
  pelements fuel depth (commas (map print_value l) ++ "]"%char :: rest) = Some (l, rest).
Proof.
  intros Hd Hl Hp. revert fuel. induction Hp as [|j l Hj Hp IH]; intros fuel; [done|].
  cbn [map]. rewrite commas_cons. destruct fuel as [|fuel]; [lia|]. intros Hf. cbn [pelements].
  destruct l as [|j2 l].
  - simpl in Hf. cbn [map]. rewrite Hd; [|done|listed|lia]. reflexivity.
  - cbn [map] in *. rewrite Hd; [|done|listed|lia].
    cbn [mbind option_bind]. rewrite next_plain by listed. cbn [mbind option_bind].
    rewrite bool_decide_true by done. rewrite IH; [done..|].
    rewrite !length_app in *. cbn [length] in *. rewrite !length_app in *. cbn [length] in *. lia.
Qed.

Lemma pmembers_print d depth ms fuel rest :
  reads d depth → ms ≠ [] → Forall (λ '(k, v), valid k ∧ printable d v) ms →
  let text := commas (map (λ '(k, v), print_str k ++ ":"%char :: print_value v) ms)
              ++ "}"%char :: rest in
  2 * length text + 2 ≤ fuel → pmembers fuel depth text = Some (ms, rest).
Proof.
  intros Hd Hl Hp. revert fuel. induction Hp as [|[k j] ms [Hk Hj] Hp IH]; intros fuel; [done|].
  cbv zeta. cbn [map]. rewrite commas_cons. destruct fuel as [|fuel]; [lia|].
  rewrite <- app_assoc. cbn [app].
  match goal with |- context [print_str k ++ ?r] =>
    destruct (scan_print_str k r Hk) as (t & Ht & Hscan) end.
  rewrite Ht. intros Hf. cbn [pmembers]. rewrite next_plain by listed.
  cbn [mbind option_bind]. rewrite bool_decide_true by done. rewrite Hscan.
  apply (f_equal length) in Ht. rewrite length_app in Ht.
  cbn [mbind option_bind]. rewrite next_plain by listed.
  cbn [mbind option_bind]. rewrite bool_decide_true by done.
  destruct ms as [|m2 ms].
  - cbn [map] in *. simpl in Hf, Ht. rewrite Hd; [|done|listed|lia]. reflexivity.
  - cbn [map] in *. cbn [length] in Hf, Ht. rewrite Hd; [|done|listed|lia].
    cbn [mbind option_bind]. rewrite next_plain by listed. cbn [mbind option_bind].
    rewrite bool_decide_true by done. rewrite IH; [done..|].
    rewrite !length_app in *. cbn [length] in *. rewrite !length_app in *. cbn [length] in *. lia.
Qed.

(** An array or an object that is not empty: what follows the bracket does not
    close it. *)
Lemma starts_elements d j l rest : printable d j →
  ∃ a r, commas (map print_value (j :: l)) ++ "]"%char :: rest = a :: r
         ∧ next (a :: r) = Some (a, r) ∧ a ≠ "]"%char.
Proof.
  intros Hj. cbn [map]. rewrite commas_cons.
  match goal with |- context [print_value j ++ ?r] => pose proof (starts_print d j r Hj) as Hs end.
  destruct (print_value j ++ _) as [|a r]; [done|]. destruct Hs. by exists a, r.
Qed.

Lemma reads_all d depth : (N.of_nat d + depth <= max_depth)%N → reads d depth.
Proof.
  revert depth; induction d as [|d IH]; intros depth Hd j fuel rest Hj Hr Hf;
    (destruct fuel as [|fuel]; [lia|]).
  all: destruct j as [|[]|n|s|l|ms]; simpl in Hj; try done;
    try (destruct Hj as [z ->]; by apply pvalue_number, ends_value_number).
  1, 2: destruct (scan_print_str s rest Hj) as (t & Ht & Hs); cbn [print_value]; rewrite Ht;
    cbn [pvalue]; rewrite next_plain by listed; cbn [mbind option_bind];
    rewrite !bool_decide_false by done; rewrite bool_decide_true by done; by rewrite Hs.
  - assert ((depth <? max_depth)%N = true) as Hdep by (apply N.ltb_lt; lia).
    cbn [print_value app] in *. rewrite <- app_assoc in *. cbn [pvalue app] in *.
    change (next ("["%char :: ?r)) with (Some ("["%char, r)). cbn [mbind option_bind].
    rewrite bool_decide_false by done. rewrite bool_decide_true by done. rewrite Hdep.
    destruct l as [|j l]; [reflexivity|].
    pose proof Hj as [Hj1 _]%Forall_cons. destruct (starts_elements d j l rest Hj1) as (a & r & E & Hn & Ha).
    rewrite E at 1. rewrite Hn. cbn [mbind option_bind]. rewrite bool_decide_false by done.
    rewrite (pelements_print d); [done|apply IH; lia|done|done|]. cbn [length] in Hf. lia.
  - assert ((depth <? max_depth)%N = true) as Hdep by (apply N.ltb_lt; lia).
    cbn [print_value app] in *. rewrite <- app_assoc in *. cbn [pvalue app] in *.
    change (next ("{"%char :: ?r)) with (Some ("{"%char, r)). cbn [mbind option_bind].
    rewrite bool_decide_true by done. rewrite Hdep.
    destruct ms as [|[k j] ms]; [reflexivity|].
    assert (∃ r, commas (map (λ '(k, v), print_str k ++ ":"%char :: print_value v) ((k, j) :: ms))
                 ++ "}"%char :: rest = "034"%char :: r) as [r E].
    { cbn [map]. rewrite commas_cons, <- app_assoc. by eexists. }
    rewrite E at 1. rewrite next_plain by listed. cbn [mbind option_bind].
    rewrite bool_decide_false by done.
    rewrite (pmembers_print d); [done|apply IH; lia|done|done|]. cbn [length] in Hf. lia.
Qed.

(** What is written is read back. *)
Lemma parse_print d j :
  printable d j → (N.of_nat d <= max_depth)%N → parse (print j) = Some j.
Proof.
  intros Hj Hd. unfold parse, parse_with, print. rewrite bytes_of_bytes.
  pose proof (reads_all d 0 ltac:(lia) j) as Hr.
  specialize (Hr (2 * String.length (of_bytes (print_value j)) + 2) [] Hj I).
  rewrite app_nil_r in Hr. rewrite Hr; [done|].
  assert (String.length (of_bytes (print_value j)) = length (print_value j)) as ->; [|lia].
  clear. induction (print_value j) as [|a l IH]; simpl; [done | by rewrite IH].
Qed.
