(* ===== verification/GoNet.v ===== *)
(** * Standard library: [net.ParseCIDR] and the [net/netip] parsers under it

    Addresses by their bytes.  Error values are left out: the program only asks
    whether there is one. *)

From stdpp Require Import options.
From S2P Require Import Prelude GoStrings GoJson.

Local Open Scope go_scope.

(** ** Definitions *)

(** [netip.Addr]: 4 or 16 bytes, and the zone of an IPv6 address. *)
Record Addr : Type := mkAddr {
  Addr_bytes : list Z;
  Addr_Zone : string;
}.

Definition BitLen (a : Addr) : Z := (8 * Z.of_nat (length (Addr_bytes a)))%Z.

(** [parseIPv4Fields]: the fields read so far, whether the next byte is the
    first one or follows a dot, the digits and the value of the current field. *)
Fixpoint ipv4_loop (fields : list Z) (after_dot : bool) (digLen : nat) (val : Z) (s : string)
    : option (list Z) :=
  match s with
  | EmptyString => if length fields <? 3 then None else Some (fields ++ [val])
  | String c s' =>
      match digit_val c with
      | Some d =>
          if (digLen =? 1) && (val =? 0)%Z then None
          else if (255 <? val * 10 + d)%Z then None
          else ipv4_loop fields false (S digLen) (val * 10 + d) s'
      | None =>
          if c == "."%char then
            if after_dot || (s' == "") then None
            else if length fields =? 3 then None
            else ipv4_loop (fields ++ [val]) true 0 0 s'
          else None
      end
  end.

Definition parseIPv4Fields (s : string) : option (list Z) := ipv4_loop [] true 0 0 s.

Definition parseIPv4 (s : string) : option Addr :=
  fields ← parseIPv4Fields s; Some (mkAddr fields "").

(** One hex group: the digits read, their value and the rest. *)
Fixpoint hex_group (off : nat) (acc : Z) (s : string) : option (nat * Z * string) :=
  match s with
  | EmptyString => Some (off, acc, s)
  | String c s' =>
      match hex_val c with
      | None => Some (off, acc, s)
      | Some d =>
          let acc := (16 * acc + Z.of_N d)%Z in
          if 3 <? off then None
          else if (65535 <? acc)%Z then None
          else hex_group (S off) acc s'
      end
  end.

(** The loop of [parseIPv6]: [ip] holds the bytes so far, every round adds two
    and the loop ends at sixteen, so eight rounds are all there are. *)
Fixpoint ipv6_loop (rounds : nat) (ip : list Z) (ellipsis : option nat) (s : string)
    : option (list Z * option nat * string) :=
  match rounds with
  | 0 => Some (ip, ellipsis, s)
  | S rounds =>
      '(off, acc, rest) ← hex_group 0 0 s;
      if off =? 0 then None
      else match rest with
      | EmptyString => Some (ip ++ [acc / 256; acc mod 256]%Z, ellipsis, "")
      | String c r =>
          if c == "."%char then
            if bool_decide (ellipsis = None) && (length ip != 12) then None
            else if 16 <? length ip + 4 then None
            else fields ← parseIPv4Fields s; Some (ip ++ fields, ellipsis, "")
          else
            let ip := ip ++ [acc / 256; acc mod 256]%Z in
            if c != ":"%char then None
            else match r with
            | EmptyString => None
            | String c' r' =>
                if c' == ":"%char then
                  if bool_decide (ellipsis ≠ None) then None
                  else if r' == "" then Some (ip, Some (length ip), "")
                  else ipv6_loop rounds ip (Some (length ip)) r'
                else ipv6_loop rounds ip ellipsis r
            end
      end
  end.

(** The part before the first occurrence of a byte, and the part after it if
    there is one. *)
Fixpoint Cut (sep : ascii) (s : string) : string * option string :=
  match s with
  | EmptyString => ("", None)
  | String c s' =>
      if c == sep then ("", Some s')
      else let '(a, b) := Cut sep s' in (String c a, b)
  end.

Definition parseIPv6 (s : string) : option Addr :=
  let '(s, zone) := Cut "%" s in
  if zone == Some "" then None
  else
    let zone := default "" zone in
    let '(ellipsis, s) :=
      match s with String ":" (String ":" s') => (Some 0, s') | _ => (None, s) end in
    if bool_decide (ellipsis = Some 0) && (s == "") then Some (mkAddr (replicate 16 0%Z) zone)
    else
      '(ip, ellipsis, s) ← ipv6_loop 8 [] ellipsis s;
      if s != "" then None
      else if length ip <? 16 then
        e ← ellipsis;
        Some (mkAddr (take e ip ++ replicate (16 - length ip) 0%Z ++ drop e ip) zone)
      else if bool_decide (ellipsis ≠ None) then None
      else Some (mkAddr ip zone).

(** [netip.ParseAddr]: the first dot, colon or percent sign decides. *)
Fixpoint addr_kind (s : string) : option ascii :=
  match s with
  | EmptyString => None
  | String c s' =>
      if bool_decide (c ∈ ["."; ":"; "%"]%char) then Some c else addr_kind s'
  end.

Definition ParseAddr (s : string) : option Addr :=
  match addr_kind s with
  | Some "."%char => parseIPv4 s
  | Some ":"%char => parseIPv6 s
  | _ => None
  end.

(** [dtoi] on the whole of its argument; numbers of [0xFFFFFF] and more fail. *)
Fixpoint dtoi_loop (n : Z) (s : string) : option Z :=
  match s with
  | EmptyString => Some n
  | String c s' =>
      d ← digit_val c;
      if (16777215 <=? n * 10 + d)%Z then None else dtoi_loop (n * 10 + d) s'
  end.

Definition dtoi (s : string) : option Z := if s == "" then None else dtoi_loop 0 s.

(** The address and the length of the prefix. *)
Definition ParseCIDR (s : string) : option (Addr * Z) :=
  let '(addr, mask) := Cut "/" s in
  mask ← mask;
  ipAddr ← ParseAddr addr;
  if Addr_Zone ipAddr != "" then None
  else
    n ← dtoi mask;
    if (n <? 0)%Z || (BitLen ipAddr <? n)%Z then None else Some (ipAddr, n).

Example cidr_v4 : ParseCIDR "10.42.0.0/16" = Some (mkAddr [10; 42; 0; 0]%Z "", 16%Z).
Proof. reflexivity. Qed.
Example cidr_v6 :
  ParseCIDR "fd00::1/64" = Some (mkAddr ([253; 0] ++ replicate 13 0 ++ [1])%Z "", 64%Z).
Proof. reflexivity. Qed.
Example cidr_mapped :
  ParseCIDR "::ffff:10.0.0.1/120"
  = Some (mkAddr (replicate 10 0 ++ [255; 255; 10; 0; 0; 1])%Z "", 120%Z).
Proof. reflexivity. Qed.
Example cidr_refused :
  Forall (λ s, ParseCIDR s = None)
    ["10.42.0.0"; "10.42.0.0/33"; "10.042.0.0/16"; "10.42.0/16"; "256.0.0.0/8"; "fe80::1%eth0/64";
     "::1/129"; "1::2::3/64"; "1:2:3:4:5:6:7:8::/64"; "10.0.0.0/"; "10.0.0.0/+8"; "/8"; "a/8"].
Proof. repeat constructor. Qed.

(** ** Dotted quads *)

Lemma contains_Itoa_neg c z : digit_val c = None → c ≠ "-"%char → contains c (Itoa z) = false.
Proof.
  intros Hc Hm. destruct (decide (0 ≤ z)%Z) as [Hz|Hz]; [by apply contains_Itoa|].
  destruct z as [|p|p]; [lia..|].
  change (bool_decide ("-"%char = c) || contains c (Itoa (Z.pos p)) = false).
  rewrite bool_decide_eq_false_2 by done. by apply contains_Itoa.
Qed.

Lemma ipv4_loop_digit fields prev dl v d s :
  (d < 10)%N → (dl = 1 → v ≠ 0%Z) →
  ipv4_loop fields prev dl v (String (pretty_N_char d) s)
  = if (255 <? v * 10 + Z.of_N d)%Z then None
    else ipv4_loop fields false (S dl) (v * 10 + Z.of_N d) s.
Proof.
  intros Hd Hv. simpl. rewrite digit_val_char by done.
  destruct (decide (dl = 1)) as [->|Hdl].
  - rewrite (proj2 (Z.eqb_neq v 0)) by auto. by rewrite andb_false_r.
  - by rewrite (proj2 (Nat.eqb_neq _ _)).
Qed.

(** A field in decimal is read as its value, up to 255. *)
Lemma ipv4_loop_pretty fields x s :
  (0 < x)%N →
  ∃ dl, ipv4_loop fields true 0 0 (pretty_N_go x s)
        = if (255 <? Z.of_N x)%Z then None else ipv4_loop fields false (S dl) (Z.of_N x) s.
Proof.
  revert s. induction (N.lt_wf_0 x) as [x _ IH]; intros s Hx.
  rewrite pretty_N_go_step by lia.
  assert (x `mod` 10 < 10)%N as Hd by (apply N.mod_lt; lia).
  assert (x `div` 10 < x)%N as Hq by (apply N.div_lt; lia).
  pose proof (N.div_mod' x 10) as Hdm. revert Hd Hq Hdm.
  generalize (x `mod` 10)%N (x `div` 10)%N. intros r q Hd Hq Hdm.
  destruct (decide (q = 0)%N) as [->|H0].
  - exists 0. rewrite pretty_N_go_0, ipv4_loop_digit by done.
    replace (0 * 10 + Z.of_N r)%Z with (Z.of_N x) by lia. done.
  - destruct (IH q Hq (String (pretty_N_char r) s) ltac:(lia)) as [dl ->].
    exists (S dl). rewrite ipv4_loop_digit by lia.
    replace (Z.of_N q * 10 + Z.of_N r)%Z with (Z.of_N x) by lia.
    destruct (255 <? Z.of_N q)%Z eqn:E1; [|done].
    apply Z.ltb_lt in E1. by rewrite (proj2 (Z.ltb_lt _ _)) by lia.
Qed.

Lemma pretty_N_go_app x s t : pretty_N_go x s +:+ t = pretty_N_go x (s +:+ t).
Proof.
  revert s. induction (N.lt_wf_0 x) as [x _ IH]; intros s.
  destruct (decide (x = 0)%N) as [->|Hx]; [by rewrite !pretty_N_go_0|].
  rewrite !(pretty_N_go_step x) by lia. by rewrite IH by (apply N.div_lt; lia).
Qed.

Definition is_byte (z : Z) : bool := ((0 <=? z) && (z <=? 255))%Z.

Lemma Itoa_pos p s : Itoa (Z.pos p) +:+ s = pretty_N_go (N.pos p) s.
Proof.
  change (Itoa (Z.pos p)) with (pretty (N.pos p)). unfold pretty, pretty_N.
  case_decide; [done|]. by rewrite pretty_N_go_app.
Qed.

Lemma ipv4_loop_Itoa fields z s :
  ∃ dl, ipv4_loop fields true 0 0 (Itoa z +:+ s)
        = if is_byte z then ipv4_loop fields false (S dl) z s else None.
Proof.
  destruct z as [|p|p]; [by exists 0 | | by exists 0].
  rewrite Itoa_pos. destruct (ipv4_loop_pretty fields (N.pos p) s eq_refl) as [dl ->].
  exists dl. unfold is_byte. change (Z.of_N (N.pos p)) with (Z.pos p).
  rewrite (proj2 (Z.leb_le 0 (Z.pos p))), (Z.leb_antisym 255) by lia.
  by destruct (255 <? Z.pos p)%Z.
Qed.

Definition dotted (a b c d : Z) : string :=
  Itoa a +:+ "." +:+ Itoa b +:+ "." +:+ Itoa c +:+ "." +:+ Itoa d.

Lemma Itoa_cons z s : ∃ c r, Itoa z +:+ s = String c r.
Proof.
  destruct z as [|p|p]; [by eexists _, _ | | by eexists _, _].
  destruct (Itoa (Z.pos p)) as [|c r] eqn:E; [|by eexists _, _].
  pose proof (unsigned_pretty (N.pos p)) as Hu.
  change (pretty (N.pos p)) with (Itoa (Z.pos p)) in Hu. by rewrite E in Hu.
Qed.

Lemma ipv4_loop_dot fields dl v z s :
  length fields < 3 →
  ipv4_loop fields false dl v ("." +:+ Itoa z +:+ s)
  = ipv4_loop (fields ++ [v]) true 0 0 (Itoa z +:+ s).
Proof.
  intros Hl. destruct (Itoa_cons z s) as (c & r & ->). simpl.
  by rewrite (proj2 (Nat.eqb_neq _ _)) by lia.
Qed.

Lemma parseIPv4_dotted a b c d :
  parseIPv4Fields (dotted a b c d)
  = if is_byte a && is_byte b && is_byte c && is_byte d then Some [a; b; c; d] else None.
Proof.
  unfold parseIPv4Fields, dotted.
  destruct (ipv4_loop_Itoa [] a ("." +:+ Itoa b +:+ "." +:+ Itoa c +:+ "." +:+ Itoa d)) as [da ->].
  destruct (is_byte a); [|done]. rewrite ipv4_loop_dot by (simpl; lia).
  destruct (ipv4_loop_Itoa ([] ++ [a]) b ("." +:+ Itoa c +:+ "." +:+ Itoa d)) as [db ->].
  destruct (is_byte b); [|done]. rewrite ipv4_loop_dot by (simpl; lia).
  destruct (ipv4_loop_Itoa (([] ++ [a]) ++ [b]) c ("." +:+ Itoa d)) as [dc ->].
  destruct (is_byte c); [|done].
  rewrite <- (append_nil_r (Itoa d)), ipv4_loop_dot by (simpl; lia).
  destruct (ipv4_loop_Itoa ((([] ++ [a]) ++ [b]) ++ [c]) d "") as [dd ->].
  by destruct (is_byte d).
Qed.

(** ** Prefix lengths and the whole notation *)

Lemma dtoi_loop_pretty x s :
  (0 < x)%N →
  dtoi_loop 0 (pretty_N_go x s)
  = if (16777215 <=? Z.of_N x)%Z then None else dtoi_loop (Z.of_N x) s.
Proof.
  revert s. induction (N.lt_wf_0 x) as [x _ IH]; intros s Hx.
  rewrite pretty_N_go_step by lia.
  assert (x `mod` 10 < 10)%N as Hd by (apply N.mod_lt; lia).
  assert (x `div` 10 < x)%N as Hq by (apply N.div_lt; lia).
  pose proof (N.div_mod' x 10) as Hdm. revert Hd Hq Hdm.
  generalize (x `mod` 10)%N (x `div` 10)%N. intros r q Hd Hq Hdm.
  assert (∀ v, dtoi_loop v (String (pretty_N_char r) s)
    = if (16777215 <=? v * 10 + Z.of_N r)%Z then None else dtoi_loop (v * 10 + Z.of_N r) s) as Hs
    by (intros v; simpl; by rewrite digit_val_char).
  assert (∀ v, (v = Z.of_N q) → (v * 10 + Z.of_N r = Z.of_N x)%Z) as Hv by lia.
  destruct (decide (q = 0)%N) as [->|H0].
  - rewrite pretty_N_go_0, Hs, Hv; done.
  - rewrite IH, Hs, Hv by (done || lia).
    destruct (16777215 <=? Z.of_N q)%Z eqn:E1; [|done].
    apply Z.leb_le in E1. by rewrite (proj2 (Z.leb_le _ _)) by lia.
Qed.

Lemma dtoi_Itoa n :
  dtoi (Itoa n) = if (0 <=? n)%Z && (n <? 16777215)%Z then Some n else None.
Proof.
  unfold dtoi. destruct n as [|p|p]; [done | | done].
  destruct (Itoa_cons (Z.pos p) "") as (c & r & Hcr). rewrite append_nil_r in Hcr.
  rewrite Hcr, bool_decide_eq_false_2, <- Hcr by done.
  rewrite <- (append_nil_r (Itoa _)), Itoa_pos, dtoi_loop_pretty by done.
  change (Z.of_N (N.pos p)) with (Z.pos p). rewrite (proj2 (Z.leb_le 0 (Z.pos p))), Z.leb_antisym by lia.
  by destruct (Z.pos p <? 16777215)%Z.
Qed.

Lemma Cut_app sep s t : contains sep s = false → Cut sep (s +:+ String sep t) = (s, Some t).
Proof.
  induction s as [|c s IH]; intros Hs; simpl in *; [by rewrite bool_decide_eq_true_2|].
  apply orb_false_iff in Hs as [Hc Hs]. by rewrite Hc, IH.
Qed.

Lemma addr_kind_dot s t :
  contains "." s = false → contains ":" s = false → contains "%" s = false →
  addr_kind (s +:+ String "." t) = Some "."%char.
Proof.
  induction s as [|c s IH]; intros H1 H2 H3; [done|]. simpl in *. go_bool.
  rewrite bool_decide_eq_false_2; [by apply IH | set_solver].
Qed.

Lemma dotted_no_slash a b c d : contains "/" (dotted a b c d) = false.
Proof. unfold dotted. by rewrite !contains_app, !contains_Itoa_neg. Qed.

(** Dotted-quad CIDRs: [ParseCIDR] accepts what is printed from four
    numbers and a prefix length exactly when the numbers are bytes and the length
    is between 0 and 32, and then gives them back. *)
Lemma ParseCIDR_dotted a b c d n :
  ParseCIDR (dotted a b c d +:+ "/" +:+ Itoa n)
  = if is_byte a && is_byte b && is_byte c && is_byte d && ((0 <=? n) && (n <=? 32))%Z
    then Some (mkAddr [a; b; c; d] "", n) else None.
Proof.
  unfold ParseCIDR. change ("/" +:+ Itoa n) with (String "/" (Itoa n)).
  rewrite Cut_app by apply dotted_no_slash. cbn [mbind option_bind]. unfold ParseAddr.
  assert (addr_kind (dotted a b c d) = Some "."%char) as ->
    by (apply (addr_kind_dot (Itoa a)); by apply contains_Itoa_neg).
  unfold parseIPv4. rewrite parseIPv4_dotted.
  destruct (_ && is_byte d); [|done]. cbn -[dtoi Z.leb Z.ltb].
  rewrite dtoi_Itoa. destruct (0 <=? n)%Z eqn:E0; [|done]. apply Z.leb_le in E0. simpl andb.
  destruct (n <? 16777215)%Z eqn:E1; cbn -[Z.leb Z.ltb].
  - rewrite (proj2 (Z.ltb_ge n 0)), (Z.leb_antisym 32) by lia. by destruct (_ <? n)%Z.
  - apply Z.ltb_ge in E1. by rewrite (proj2 (Z.leb_gt n 32)) by lia.
Qed.

(** ** Bounds *)

Abbreviation bytes := (Forall (λ b, is_byte b = true)).

Lemma is_byte_iff z : is_byte z = true ↔ (0 ≤ z ≤ 255)%Z.
Proof. unfold is_byte. rewrite andb_true_iff, !Z.leb_le. done. Qed.

Lemma digit_val_nonneg c d : digit_val c = Some d → (0 ≤ d)%Z.
Proof. unfold digit_val. case_match; [intros [= <-]; lia | done]. Qed.

Lemma ipv4_loop_ok fields prev dl v s r :
  ipv4_loop fields prev dl v s = Some r →
  bytes fields → (0 ≤ v ≤ 255)%Z → length fields ≤ 3 → bytes r ∧ length r = 4.
Proof.
  revert fields prev dl v. induction s as [|c s IH]; intros fields prev dl v H Hf Hv Hl; simpl in H.
  - destruct (length fields <? 3) eqn:E; [done|]. apply Nat.ltb_ge in E. injection H as <-.
    rewrite Forall_app, Forall_singleton, length_app, is_byte_iff. simpl. split; [done | lia].
  - destruct (digit_val c) as [d|] eqn:Hd; [apply digit_val_nonneg in Hd|];
      repeat (case_match; [done|]).
    + apply IH in H; [done..| |done]. go_bool. lia.
    + destruct (c == "."%char); [|done]. repeat (case_match; [done|]).
      apply IH in H; [done | | lia |].
      * rewrite Forall_app, Forall_singleton, is_byte_iff. done.
      * rewrite length_app; simpl. match goal with E : (_ =? 3) = false |- _ => apply Nat.eqb_neq in E end. lia.
Qed.

Lemma parseIPv4Fields_ok s r : parseIPv4Fields s = Some r → bytes r ∧ length r = 4.
Proof. intros H. eapply ipv4_loop_ok; [exact H | constructor | lia | simpl; lia]. Qed.

Lemma hex_group_ok off acc s off' acc' s' :
  hex_group off acc s = Some (off', acc', s') → (0 ≤ acc ≤ 65535)%Z → (0 ≤ acc' ≤ 65535)%Z.
Proof.
  revert off acc. induction s as [|c s IH]; intros off acc H Ha; simpl in H; [by simplify_eq|].
  destruct (hex_val c); [|by simplify_eq]. repeat (case_match; [done|]).
  apply IH in H; [done|]. go_bool. lia.
Qed.

Lemma group_bytes ip acc :
  bytes ip → (0 ≤ acc ≤ 65535)%Z → bytes (ip ++ [acc / 256; acc mod 256]%Z).
Proof.
  intros Hip Ha. rewrite Forall_app. split; [done|]. repeat constructor; rewrite is_byte_iff;
    pose proof (Z.div_mod acc 256); pose proof (Z.mod_pos_bound acc 256); lia.
Qed.

Lemma ipv6_loop_ok rounds ip e s ip' e' s' :
  ipv6_loop rounds ip e s = Some (ip', e', s') →
  bytes ip → length ip + 2 * rounds = 16 → bytes ip' ∧ length ip' ≤ 16.
Proof.
  revert ip e s. induction rounds as [|rounds IH]; intros ip e s H Hip Hl; cbn [ipv6_loop] in H.
  { simplify_eq. split; [done | lia]. }
  destruct (hex_group 0 0 s) as [[[off acc] rest]|] eqn:Hg; [|done]. cbn [mbind option_bind] in H.
  apply hex_group_ok in Hg; [|lia].
  pose proof (group_bytes ip acc Hip Hg) as Hip'.
  assert (length (ip ++ [acc / 256; acc mod 256]%Z) = length ip + 2) as Hl'
    by (rewrite length_app; done).
  destruct (off =? 0); [done|].
  destruct rest as [|c r]; [simplify_eq; split; [done | lia]|].
  destruct (c == "."%char).
  { destruct (_ && _); [done|]. destruct (16 <? _) eqn:E; [done|]. apply Nat.ltb_ge in E.
    apply bind_Some in H as (fields & [Hb H4]%parseIPv4Fields_ok & [= <- _ _]).
    rewrite Forall_app, length_app. split; [done | lia]. }
  cbv zeta in H. destruct (c != ":"%char); [done|]. destruct r as [|c' r']; [done|].
  destruct (c' == ":"%char); [|eapply IH; [done..|lia]].
  destruct (bool_decide _); [done|].
  destruct (r' == ""); [simplify_eq; split; [done | lia] | eapply IH; [done..|lia]].
Qed.

Lemma parseIPv6_ok s a : parseIPv6 s = Some a → bytes (Addr_bytes a) ∧ length (Addr_bytes a) = 16.
Proof.
  unfold parseIPv6. destruct (Cut "%" s) as [s0 zone]. case_bool_decide as Hzone; [done|].
  destruct (match s0 with EmptyString => _ | String _ _ => _ end) as [e s1].
  destruct (_ && _).
  { intros [= <-]. simpl. by repeat constructor. }
  intros ([[ip e'] s2] & Hloop & H)%bind_Some. apply ipv6_loop_ok in Hloop as [Hb Hl]; [|done..].
  destruct (s2 != ""); [done|]. destruct (length ip <? 16) eqn:E.
  - apply bind_Some in H as (k & _ & [= <-]). simpl. apply Nat.ltb_lt in E. split.
    + rewrite !Forall_app. split_and!; [by apply Forall_take | by apply Forall_replicate | by apply Forall_drop].
    + rewrite !length_app, length_replicate, length_take, length_drop. lia.
  - apply Nat.ltb_ge in E. destruct (bool_decide _); simplify_eq. split; [done | simpl; lia].
Qed.

(** What [ParseCIDR] accepts is an address of four or sixteen bytes
    without zone, and a prefix length within the address. *)
Lemma ParseCIDR_bounds s a n :
  ParseCIDR s = Some (a, n) →
  bytes (Addr_bytes a) ∧ (BitLen a = 32 ∨ BitLen a = 128)%Z ∧ Addr_Zone a = ""
  ∧ (0 ≤ n ≤ BitLen a)%Z.
Proof.
  unfold ParseCIDR. destruct (Cut "/" s) as [addr mask].
  intros (m & _ & (a' & Ha & H)%bind_Some)%bind_Some. case_bool_decide as Hz; [|done].
  apply bind_Some in H as (n' & _ & Hn). simpl in Hn.
  destruct ((n' <? 0)%Z || _) eqn:E; [done|]. simplify_eq. apply orb_false_iff in E as [E1 E2].
  apply Z.ltb_ge in E1, E2.
  assert (bytes (Addr_bytes a) ∧ (length (Addr_bytes a) = 4 ∨ length (Addr_bytes a) = 16)) as [Hb Hl].
  { unfold ParseAddr in Ha. repeat (case_match; try done).
    - apply bind_Some in Ha as (f & Hf%parseIPv4Fields_ok & [= <-]). simpl. tauto.
    - apply parseIPv6_ok in Ha. tauto. }
  split_and!; [done | unfold BitLen; lia | done..].
Qed.
