(* ===== verification/GoFlag.v ===== *)
(** * Standard library: package [flag], and the [strconv] parsers under it

    The flag set [flag.Parse] works on, with its [ExitOnError] handling.  Flags
    write to a state of any type [T]; usage texts are left out. *)

From stdpp Require Import options.
From S2P Require Import Prelude GoStrings.

Local Open Scope go_scope.

(** ** Definitions *)

(** *** [strconv.ParseBool], [strconv.ParseInt] with base 0 *)

Definition ParseBool (s : string) : option bool :=
  if bool_decide (s ∈ ["1"; "t"; "T"; "true"; "TRUE"; "True"]) then Some true
  else if bool_decide (s ∈ ["0"; "f"; "F"; "false"; "FALSE"; "False"]) then Some false
  else None.

(** A digit in any base up to 36, letters in either case. *)
Definition digit36 (c : ascii) : option Z :=
  match digit_val c with
  | Some d => Some d
  | None =>
      let n := N_of_ascii (lower c) in
      if ((97 <=? n) && (n <=? 122))%N then Some (Z.of_N (n - 97) + 10)%Z else None
  end.

(** The loop of [ParseUint]: underscores are skipped, every error is [None]. *)
Fixpoint uint_loop (base n : Z) (s : string) : option Z :=
  match s with
  | EmptyString => Some n
  | String c s' =>
      if c == "_"%char then uint_loop base n s'
      else
        d ← digit36 c;
        if (base <=? d)%Z then None
        else if (2 ^ 64 <=? n * base + d)%Z then None
        else uint_loop base (n * base + d) s'
  end.

(** What the base prefix says: the base and the digits. *)
Definition base_prefix (s : string) : Z * string :=
  match s with
  | String "0" s1 =>
      match s1 with
      | String c (String d s3) =>
          let s2 := String d s3 in
          if lower c == "b"%char then (2%Z, s2)
          else if lower c == "o"%char then (8%Z, s2)
          else if lower c == "x"%char then (16%Z, s2)
          else (8%Z, s1)
      | _ => (8%Z, s1)
      end
  | _ => (10%Z, s)
  end.

(** [underscoreOK] after the prefix: [saw] is the kind of the last byte, a digit
    or prefix, an underscore, or anything else. *)
Inductive Saw : Type := SawStart | SawDigit | SawUnderscore | SawOther.

Fixpoint underscore_loop (hex : bool) (saw : Saw) (s : string) : bool :=
  match s with
  | EmptyString => match saw with SawUnderscore => false | _ => true end
  | String c s' =>
      let digit :=
        match digit36 c with Some d => (d <? if hex then 16 else 10)%Z | None => false end in
      if digit then underscore_loop hex SawDigit s'
      else if c == "_"%char then
        match saw with SawDigit => underscore_loop hex SawUnderscore s' | _ => false end
      else match saw with
           | SawUnderscore => false
           | _ => underscore_loop hex SawOther s'
           end
  end.

Definition underscoreOK (s : string) : bool :=
  match s with
  | String "0" (String c s2) =>
      if bool_decide (lower c ∈ ["b"; "o"; "x"]%char)
      then underscore_loop (lower c == "x"%char) SawDigit s2
      else underscore_loop false SawStart s
  | _ => underscore_loop false SawStart s
  end.

Definition ParseUint0 (s : string) : option Z :=
  if s == "" then None
  else
    let '(base, digits) := base_prefix s in
    n ← uint_loop base 0 digits;
    if contains "_" s && negb (underscoreOK s) then None else Some n.

(** [strconv.ParseInt(s, 0, strconv.IntSize)] on a 64-bit platform. *)
Definition ParseInt0 (s : string) : option Z :=
  let '(neg, body) :=
    match s with
    | String "-" r => (true, r)
    | String "+" r => (false, r)
    | _ => (false, s)
    end in
  un ← ParseUint0 body;
  let z := if neg : bool then (- un)%Z else un in
  if in_int64 z then Some z else None.

Example ParseInt0_bases :
  ParseInt0 <$> ["8443"; "-1"; "0x1F"; "0b101"; "017"; "0"; "1_000"; "0x_ff"]
  = [Some 8443; Some (-1); Some 31; Some 5; Some 15; Some 0; Some 1000; Some 255]%Z.
Proof. reflexivity. Qed.
Example ParseInt0_errors :
  Forall (λ s, ParseInt0 s = None)
    [""; "+"; "8443 "; "08"; "0x"; "1__0"; "1_"; "9223372036854775808"; "0_x1"; "80a"].
Proof. repeat constructor. Qed.

(** *** The flag set *)

(** A Go variable as a place of a state of type [T]. *)
Record Place (T A : Type) : Type := mkPlace {
  read : T → A;
  assign : A → T → T;
}.
Arguments mkPlace {T A} read assign.
Arguments read {T A} p t.
Arguments assign {T A} p a t.

(** The flags of [flag.StringVar], [flag.BoolVar] and [flag.IntVar]. *)
Inductive Flag (T : Type) : Type :=
| StringVar (p : Place T string)
| BoolVar (p : Place T bool)
| IntVar (p : Place T Z).
Arguments StringVar {T} p.
Arguments BoolVar {T} p.
Arguments IntVar {T} p.

Abbreviation FlagSet T := (gmap string (Flag T)).

(** [FlagSet.Var]: [None] when it panics. *)
Definition Var {T} (name : string) (flag : Flag T) (fs : FlagSet T) : option (FlagSet T) :=
  if match name with String c _ => c == "-"%char | EmptyString => false end then None
  else if contains "=" name then None
  else match fs !! name with
       | Some _ => None
       | None => Some (<[ name := flag ]> fs)
       end.

Definition IsBoolFlag {T} (f : Flag T) : bool := match f with BoolVar _ => true | _ => false end.

(** [Value.Set]: [None] is an error. *)
Definition Set_ {T} (f : Flag T) (value : string) (t : T) : option T :=
  match f with
  | StringVar p => Some (assign p value t)
  | BoolVar p => b ← ParseBool value; Some (assign p b t)
  | IntVar p => z ← ParseInt0 value; Some (assign p z t)
  end.

(** The flags of one state inside a larger one. *)
Definition place_map {S T} (get : T → S) (set : S → T → T) {A} (p : Place S A) : Place T A :=
  mkPlace (λ t, read p (get t)) (λ a t, set (assign p a (get t)) t).

Definition flag_map {S T} (get : T → S) (set : S → T → T) (f : Flag S) : Flag T :=
  match f with
  | StringVar p => StringVar (place_map get set p)
  | BoolVar p => BoolVar (place_map get set p)
  | IntVar p => IntVar (place_map get set p)
  end.

(** Flags registered one after another. *)
Definition register {T} (l : list (string * Flag T)) (fs : FlagSet T) : option (FlagSet T) :=
  foldl (λ (o : option (FlagSet T)) '(name, flag), fs ← o; Var name flag fs) (Some fs) l.

Inductive FlagError : Type :=
| ErrHelp
| BadSyntax (arg : string)
| NotDefined (name : string)
| InvalidValue (name value : string)
| NeedsArgument (name : string).

(** [parseOne]: a flag was seen, the flags are over, or an error. *)
Inductive Seen (T : Type) : Type :=
| Flagged (t : T) (args : list string)
| Over (args : list string)
| Failed (e : FlagError).
Arguments Flagged {T} t args.
Arguments Over {T} args.
Arguments Failed {T} e.

(** The name and the value of [name=value]; the equals sign is not the first
    byte. *)
Fixpoint split_value (s : string) : string * option string :=
  match s with
  | EmptyString => ("", None)
  | String c s' =>
      match s' with
      | String d v =>
          if d == "="%char then (String c "", Some v)
          else let '(n, v) := split_value s' in (String c n, v)
      | EmptyString => (s, None)
      end
  end.

Section flags.
  Context {T : Type}.
  Implicit Types (fs : FlagSet T) (t : T).

(** The part of [parseOne] after the dashes; [args] are the arguments after this
    one. *)
Definition parse_flag fs (t : T) (s name : string) (args : list string) : Seen T :=
  match name with
  | EmptyString => Failed (BadSyntax s)
  | String c _ =>
      if (c == "-"%char) || (c == "="%char) then Failed (BadSyntax s)
      else
        let '(name, value) := split_value name in
        match fs !! name with
        | None =>
            if (name == "help") || (name == "h") then Failed ErrHelp else Failed (NotDefined name)
        | Some flag =>
            if IsBoolFlag flag then
              let v := default "true" value in
              match Set_ flag v t with
              | Some t => Flagged t args
              | None => Failed (InvalidValue name v)
              end
            else
              let '(value, args) :=
                match value, args with
                | None, v :: args => (Some v, args)
                | _, _ => (value, args)
                end in
              match value with
              | None => Failed (NeedsArgument name)
              | Some v =>
                  match Set_ flag v t with
                  | Some t => Flagged t args
                  | None => Failed (InvalidValue name v)
                  end
              end
        end
  end.

Definition parseOne fs (t : T) (args : list string) : Seen T :=
  match args with
  | [] => Over []
  | s :: args' =>
      match s with
      | String "-" (String "-" name) =>
          if name == "" then Over args' else parse_flag fs t s name args'
      | String "-" (String c name) => parse_flag fs t s (String c name) args'
      | _ => Over args
      end
  end.

(** The loop of [Parse], with fuel for the number of flags: the state and the
    arguments that are left, or the error. *)
Fixpoint parse_loop (fuel : nat) fs (t : T) (args : list string)
    : option (result FlagError (T * list string)) :=
  match fuel with
  | 0 => None
  | S fuel =>
      match parseOne fs t args with
      | Flagged t args => parse_loop fuel fs t args
      | Over args => Some (Ok (t, args))
      | Failed e => Some (Err e)
      end
  end.

(** Every flag takes an argument at least. *)
Definition Parse fs (t : T) (args : list string) : option (result FlagError (T * list string)) :=
  parse_loop (S (length args)) fs t args.

End flags.

(** [ExitOnError]: the status the process exits with. *)
Definition exit_status (e : FlagError) : Z := match e with ErrHelp => 0 | _ => 2 end.

(** ** Termination *)

Section parse.
  Context {T : Type}.
  Implicit Types (fs : FlagSet T) (t : T).

Lemma parse_flag_shorter fs t s name args t' args' :
  parse_flag fs t s name args = Flagged t' args' → length args' ≤ length args.
Proof.
  unfold parse_flag. destruct name as [|c name']; [done|].
  destruct (_ || _); [done|]. destruct (split_value _) as [n value].
  destruct (fs !! n) as [flag|]; [|by destruct (_ || _)].
  destruct (IsBoolFlag flag).
  - cbv zeta. by destruct (Set_ flag _ t); intros [= _ <-].
  - destruct value as [v|].
    + by destruct (Set_ flag v t); intros [= _ <-].
    + destruct args as [|v args]; [done|].
      destruct (Set_ flag v t); intros [= _ <-]. simpl. lia.
Qed.

Lemma parseOne_shorter fs t args t' args' :
  parseOne fs t args = Flagged t' args' → length args' < length args.
Proof.
  destruct args as [|s args]; [done|]. simpl. intros H.
  assert (∀ name, parse_flag fs t s name args = Flagged t' args' → length args' < S (length args))
    as Hp by (intros name Hn; apply parse_flag_shorter in Hn; lia).
  repeat case_match; simplify_eq; eauto.
Qed.

Lemma parse_loop_total fuel fs t args : length args < fuel → is_Some (parse_loop fuel fs t args).
Proof.
  revert t args; induction fuel as [|fuel IH]; intros t args Hl; [lia|]. cbn [parse_loop].
  destruct (parseOne fs t args) as [t' args'| |] eqn:E; [|by eexists..].
  apply IH. apply parseOne_shorter in E. lia.
Qed.

Lemma parse_loop_more fuel fuel' fs t args :
  length args < fuel → fuel ≤ fuel' → parse_loop fuel' fs t args = parse_loop fuel fs t args.
Proof.
  revert fuel' t args; induction fuel as [|fuel IH]; intros fuel' t args Hl Hf; [lia|].
  destruct fuel' as [|fuel']; [lia|]. cbn [parse_loop].
  destruct (parseOne fs t args) as [t' args'| |] eqn:E; [|done..].
  apply parseOne_shorter in E. apply IH; lia.
Qed.

(** The loop without its fuel. *)
Lemma Parse_unfold fs t args :
  Parse fs t args =
  match parseOne fs t args with
  | Flagged t args => Parse fs t args
  | Over args => Some (Ok (t, args))
  | Failed e => Some (Err e)
  end.
Proof.
  unfold Parse at 1. cbn [parse_loop].
  destruct (parseOne fs t args) as [t' args'| |] eqn:E; [|done..].
  apply parseOne_shorter in E. apply parse_loop_more; lia.
Qed.

(** ** Command lines *)

(** A name a flag can be given by: it does not start with a dash and holds no
    equals sign. *)
Definition flag_name (name : string) : bool :=
  match name with
  | EmptyString => false
  | String c _ => negb (c == "-"%char) && negb (contains "=" name)
  end.

(** How a flag is spelled on the command line: with one dash or two, its value
    joined by an equals sign, in an argument of its own, or left out. *)
Inductive Spelling : Type :=
| Joined (dashes : bool) (name value : string)
| Separate (dashes : bool) (name value : string)
| Bare (dashes : bool) (name : string).

Definition spell_name (dashes : bool) (name : string) : string :=
  if dashes then "--" +:+ name else "-" +:+ name.

Definition spell (sp : Spelling) : list string :=
  match sp with
  | Joined d name value => [spell_name d name +:+ "=" +:+ value]
  | Separate d name value => [spell_name d name; value]
  | Bare d name => [spell_name d name]
  end.

(** What a spelling does to the state: only boolean flags can be bare, and they
    take no argument of their own. *)
Definition effect fs (sp : Spelling) (t : T) : option T :=
  match sp with
  | Joined _ name value =>
      if flag_name name then flag ← fs !! name; Set_ flag value t else None
  | Separate _ name value =>
      if flag_name name then
        flag ← fs !! name; if IsBoolFlag flag then None else Set_ flag value t
      else None
  | Bare _ name =>
      if flag_name name then
        flag ← fs !! name; if IsBoolFlag flag then Set_ flag "true" t else None
      else None
  end.

Definition effects fs (sps : list Spelling) (t : T) : option T :=
  foldl (λ (o : option T) sp, t ← o; effect fs sp t) (Some t) sps.

(** The arguments at which the flags are over, and what is left of them. *)
Definition stops (args : list string) : option (list string) :=
  match args with
  | [] => Some []
  | "--" :: rest => Some rest
  | String "-" (String _ _) :: _ => None
  | _ => Some args
  end.

Lemma split_value_bare name : contains "=" name = false → split_value name = (name, None).
Proof.
  induction name as [|c name IH]; [done|]. intros H. cbn [contains] in H.
  apply orb_false_iff in H as [_ H]. cbn [split_value]. destruct name as [|d name]; [done|].
  pose proof H as H'. cbn [contains] in H'. apply orb_false_iff in H' as [Hd _].
  rewrite Hd, IH by done. done.
Qed.

Lemma split_value_joined name value :
  name ≠ "" → contains "=" name = false → split_value (name +:+ "=" +:+ value) = (name, Some value).
Proof.
  induction name as [|c name IH]; [done|]. intros _ H. cbn [contains] in H.
  apply orb_false_iff in H as [_ H]. destruct name as [|d name]; [done|].
  pose proof H as H'. cbn [contains] in H'. apply orb_false_iff in H' as [Hd _].
  specialize (IH ltac:(done) H). cbn [String.append split_value] in *. by rewrite Hd, IH.
Qed.

Lemma flag_name_ok name :
  flag_name name = true →
  ∃ c r, name = String c r ∧ c ≠ "-"%char ∧ c ≠ "="%char ∧ contains "=" name = false.
Proof.
  destruct name as [|c r]; [done|]. cbn [flag_name]. intros H. go_bool.
  exists c, r. split_and!; [done | done | |done].
  intros ->. done.
Qed.

(** The text after a name: nothing, or an equals sign and a value. *)
Definition value_text (value : option string) : string :=
  match value with Some v => "=" +:+ v | None => "" end.

Lemma split_value_inv s n value :
  split_value s = (n, value) →
  s = n +:+ value_text value ∧ (s ≠ "" → ∃ c r, n = String c r ∧ contains "=" r = false).
Proof.
  revert n value; induction s as [|c s IH]; intros n value; [by intros [= <- <-]|].
  cbn [split_value]. destruct s as [|d s].
  - intros [= <- <-]. split; [done|]. intros _. by exists c, "".
  - case_bool_decide as Hd.
    + intros [= <- <-]. subst d. split; [done|]. intros _. by exists c, "".
    + destruct (split_value (String d s)) as [n' v'] eqn:E. intros [= <- <-].
      destruct (IH n' v' eq_refl) as [Hs Hn]. split; [by rewrite Hs|]. intros _.
      destruct (Hn ltac:(done)) as (d' & r & -> & Hr). exists c, (String d' r). split; [done|].
      assert (d' = d) as -> by by injection Hs. cbn [contains].
      by rewrite bool_decide_eq_false_2, Hr.
Qed.

(** What follows the dashes starts with a dash or an equals sign, or it is a
    name with its value. *)
Lemma flag_text s :
  s = "" ∨ (∃ c r, s = String c r ∧ (c == "-"%char) || (c == "="%char) = true) ∨
  ∃ name value, flag_name name = true ∧ s = name +:+ value_text value.
Proof.
  destruct s as [|c r]; [by left | right].
  destruct ((c == "-"%char) || (c == "="%char)) eqn:Hc; [left; eauto | right].
  destruct (split_value (String c r)) as [n value] eqn:E.
  apply split_value_inv in E as [Hs Hn]. destruct (Hn ltac:(done)) as (c' & r' & -> & Hr).
  assert (c' = c) as -> by by injection Hs.
  exists (String c r'), value. split; [|done]. go_bool.
  cbn [flag_name contains]. by rewrite Hr, !bool_decide_eq_false_2.
Qed.

Lemma parse_flag_spelled fs t s name value args :
  flag_name name = true →
  parse_flag fs t s (name +:+ value_text value) args =
  match fs !! name with
  | None => if (name == "help") || (name == "h") then Failed ErrHelp else Failed (NotDefined name)
  | Some flag =>
      if IsBoolFlag flag then
        match Set_ flag (default "true" value) t with
        | Some t => Flagged t args
        | None => Failed (InvalidValue name (default "true" value))
        end
      else
        match value, args with
        | Some v, args | None, v :: args =>
            match Set_ flag v t with
            | Some t => Flagged t args
            | None => Failed (InvalidValue name v)
            end
        | None, [] => Failed (NeedsArgument name)
        end
  end.
Proof.
  intros Hn. pose proof (flag_name_ok _ Hn) as (c & r & -> & Hc & Hc' & He).
  assert (split_value (String c r +:+ value_text value)
          = (String c r, value)) as Hs.
  { destruct value; [by apply split_value_joined | unfold value_text; by rewrite append_nil_r, split_value_bare]. }
  unfold parse_flag. cbn [String.append] in *. rewrite Hs.
  rewrite !bool_decide_eq_false_2 by done. cbn [orb].
  destruct (fs !! String c r) as [flag|]; [|done].
  destruct (IsBoolFlag flag); [done|]. by destruct value, args.
Qed.

Lemma parseOne_dashes fs t d name value args :
  flag_name name = true →
  parseOne fs t ((spell_name d name +:+ value_text value) :: args) =
  parse_flag fs t (spell_name d name +:+ value_text value) (name +:+ value_text value) args.
Proof.
  intros Hn. pose proof (flag_name_ok _ Hn) as (c & r & -> & Hc & _).
  destruct d; cbn; [done|].
  destruct c as [[] [] [] [] [] [] [] []]; done.
Qed.

(** One round of the loop is one spelled flag. *)
Lemma parseOne_Flagged fs t args t' rest :
  parseOne fs t args = Flagged t' rest ↔
  ∃ sp, args = spell sp ++ rest ∧ effect fs sp t = Some t'.
Proof.
  split.
  - intros H. assert (∃ d name value args', flag_name name = true ∧
      args = (spell_name d name +:+ value_text value) :: args') as (d & name & value & args' & Hn & ->).
    { destruct args as [|s args']; [done|].
      assert (∀ name, parse_flag fs t s name args' = Flagged t' rest →
        ∃ n v, flag_name n = true ∧ name = n +:+ value_text v) as Hp.
      { intros name Hp. destruct (flag_text name) as [-> | [(c & r & -> & Hc) | ?]]; [done | |done].
        cbn [parse_flag] in Hp. by rewrite Hc in Hp. }
      destruct s as [|c s]; [done|].
      destruct (decide (c = "-"%char)) as [->|Hc];
        [|by destruct c as [[] [] [] [] [] [] [] []]].
      destruct s as [|c s]; [done|].
      destruct (decide (c = "-"%char)) as [->|Hc].
      - cbn in H. case_bool_decide; [done|]. apply Hp in H as (n & v & Hn & ->).
        by exists true, n, v, args'.
      - assert (parse_flag fs t (String "-" (String c s)) (String c s) args' = Flagged t' rest) as H'
          by (destruct c as [[] [] [] [] [] [] [] []]; done).
        apply Hp in H' as (n & v & Hn & ->). by exists false, n, v, args'. }
    rewrite parseOne_dashes, parse_flag_spelled in H by done.
    destruct (fs !! name) as [flag|] eqn:Hf; [|by destruct (_ || _)].
    destruct (IsBoolFlag flag) eqn:Hb, value as [v|]; cbn [default] in H;
      [exists (Joined d name v) | exists (Bare d name) | exists (Joined d name v) | ];
      [..|destruct args' as [|v args'0]; [done|]; exists (Separate d name v)];
      cbn [spell effect value_text]; rewrite ?append_nil_r, Hn, Hf; cbn [mbind option_bind];
      rewrite ?Hb; destruct (Set_ flag _ t) eqn:Hs; by simplify_eq.
  - intros (sp & -> & He). destruct sp as [d name v|d name v|d name]; cbn [spell effect app] in *;
      destruct (flag_name name) eqn:Hn; try done;
      destruct (fs !! name) as [flag|] eqn:Hf; try done; cbn [mbind option_bind] in He.
    + change ("=" +:+ v) with (value_text (Some v)).
      rewrite parseOne_dashes, parse_flag_spelled, Hf by done.
      destruct (IsBoolFlag flag); unfold default, id; by rewrite He.
    + destruct (IsBoolFlag flag) eqn:Hb; [done|].
      rewrite <- (append_nil_r (spell_name d name)). change "" with (value_text None) at 1.
      rewrite parseOne_dashes, parse_flag_spelled, Hf, Hb by done. by rewrite He.
    + destruct (IsBoolFlag flag) eqn:Hb; [|done].
      rewrite <- (append_nil_r (spell_name d name)). change "" with (value_text None) at 1.
      rewrite parseOne_dashes, parse_flag_spelled, Hf, Hb by done. unfold default, id. by rewrite He.
Qed.

(** A dash and a name, whatever the first byte of the name. *)
Lemma parse_flag_not_over fs t s name args rest : parse_flag fs t s name args ≠ Over rest.
Proof.
  destruct (flag_text name) as [-> | [(c & r & -> & Hc) | (n & v & Hn & ->)]]; [done|..].
  - cbn [parse_flag]. by rewrite Hc.
  - rewrite parse_flag_spelled by done. go_case.
Qed.

Lemma parseOne_Over fs t args rest : parseOne fs t args = Over rest ↔ stops args = Some rest.
Proof.
  destruct args as [|[|c s] args]; [naive_solver..|].
  destruct (decide (c = "-"%char)) as [->|Hc];
    [|destruct c as [[] [] [] [] [] [] [] []]; naive_solver].
  destruct s as [|c s]; [naive_solver|].
  destruct (decide (c = "-"%char)) as [->|Hc].
  - cbn. destruct s as [|c' s]; [naive_solver|].
    rewrite bool_decide_eq_false_2 by done. split; [|done]. intros H. by apply parse_flag_not_over in H.
  - transitivity (parse_flag fs t (String "-" (String c s)) (String c s) args = Over rest);
      [by destruct c as [[] [] [] [] [] [] [] []]|].
    transitivity False; [|by destruct c as [[] [] [] [] [] [] [] []]].
    split; [apply parse_flag_not_over | done].
Qed.

(** Whether the flags are over depends on the first argument alone. *)
Lemma stops_first v args : is_Some (stops [v]) → is_Some (stops (v :: args)).
Proof.
  destruct v as [|c s]; [by eexists|].
  destruct (decide (c = "-"%char)) as [->|Hc];
    [|by destruct c as [[] [] [] [] [] [] [] []]; try done; eexists].
  destruct s as [|c s]; [by eexists|].
  destruct (decide (c = "-"%char)) as [->|Hc].
  - destruct s; [by eexists | by intros [? [=]]].
  - assert (stops [String "-" (String c s)] = None) as ->
      by (by destruct c as [[] [] [] [] [] [] [] []]). by intros [? [=]].
Qed.

Lemma effects_cons fs sp sps t :
  effects fs (sp :: sps) t = (t ← effect fs sp t; effects fs sps t).
Proof.
  unfold effects. cbn [foldl mbind option_bind]. destruct (effect fs sp t); [done|].
  cbn. by induction sps.
Qed.

(** [Parse] goes through spelled flags, from left to right, up to an argument at
    which the flags are over or one that is in error. *)
Lemma Parse_rounds fs t args r :
  Parse fs t args = Some r ↔
  ∃ sps rest t', args = concat (map spell sps) ++ rest ∧ effects fs sps t = Some t' ∧
    ((∃ left_, parseOne fs t' rest = Over left_ ∧ r = Ok (t', left_)) ∨
     (∃ e, parseOne fs t' rest = Failed e ∧ r = Err e)).
Proof.
  split.
  - remember (length args) as n eqn:Hl. revert t args Hl.
    induction (lt_wf n) as [n _ IH]. intros t args -> H. rewrite Parse_unfold in H.
    destruct (parseOne fs t args) as [t1 args'|args'|e] eqn:E.
    + pose proof (parseOne_shorter _ _ _ _ _ E) as Hs.
      apply parseOne_Flagged in E as (sp & -> & He).
      destruct (IH _ Hs t1 args' eq_refl H) as (sps & rest & t' & -> & Hes & Hr).
      exists (sp :: sps), rest, t'. rewrite effects_cons, He. cbn. by rewrite app_assoc.
    + exists [], args, t. naive_solver.
    + exists [], args, t. naive_solver.
  - intros (sps & rest & t' & -> & He & Hr). revert t He; induction sps as [|sp sps IH]; intros t He.
    + injection He as ->. rewrite Parse_unfold. cbn [concat map app].
      by destruct Hr as [(left_ & -> & ->)|(e & -> & ->)].
    + rewrite effects_cons in He. destruct (effect fs sp t) as [t1|] eqn:E; [|done].
      rewrite Parse_unfold. cbn [concat map]. rewrite <- app_assoc.
      rewrite (proj2 (parseOne_Flagged fs t _ t1 (concat (map spell sps) ++ rest)));
        [by apply IH | by exists sp].
Qed.

(** [Parse] accepts exactly the command lines that are flags one after another,
    each spelled in one of the three ways, and then arguments at which flags are
    over; the state is what the flags make of it. *)
Lemma Parse_spelled fs t args t' left_ :
  Parse fs t args = Some (Ok (t', left_)) ↔
  ∃ sps rest, args = concat (map spell sps) ++ rest ∧
    effects fs sps t = Some t' ∧ stops rest = Some left_.
Proof.
  rewrite Parse_rounds. split.
  - intros (sps & rest & t1 & -> & He & [(l & Ho & [= <- <-])|(e & _ & [=])]).
    exists sps, rest. by rewrite <- (parseOne_Over fs t').
  - intros (sps & rest & -> & He & Hr). exists sps, rest, t'.
    rewrite <- (parseOne_Over fs t') in Hr. split_and!; eauto.
Qed.

Lemma Parse_total fs t args : is_Some (Parse fs t args).
Proof. apply parse_loop_total. lia. Qed.
End parse.

(** ** Reading what [Itoa] prints *)

Lemma digit_val_not c d c' : digit_val c = Some d → digit_val c' = None → c ≠ c'.
Proof. by intros Hc Hc' ->; rewrite Hc in Hc'. Qed.

Lemma uint_loop_pretty x s :
  (x < 2 ^ 64)%N → uint_loop 10 0 (pretty_N_go x s) = uint_loop 10 (Z.of_N x) s.
Proof.
  revert s. induction (N.lt_wf_0 x) as [x _ IH]; intros s Hx.
  destruct (decide (x = 0%N)) as [->|Hx0]; [by rewrite pretty_N_go_0|].
  assert (x `div` 10 < x)%N as Hd by (apply N.div_lt; lia).
  rewrite pretty_N_go_step, IH by lia. cbn [uint_loop].
  pose proof (digit_val_char (x `mod` 10) ltac:(apply N.mod_lt; lia)) as Hc.
  rewrite bool_decide_eq_false_2 by (by eapply digit_val_not).
  unfold digit36. rewrite Hc. cbn [mbind option_bind].
  assert (Z.of_N (x `div` 10) * 10 + Z.of_N (x `mod` 10) = Z.of_N x)%Z as ->.
  { rewrite N2Z.inj_div, N2Z.inj_mod. pose proof (Z.div_mod (Z.of_N x) 10). lia. }
  pose proof (N.mod_lt x 10). rewrite !(proj2 (Z.leb_gt _ _)) by lia. done.
Qed.

Lemma pretty_first x s :
  (0 < x)%N → ∃ c r d, pretty_N_go x s = String c r ∧ digit_val c = Some d ∧ (0 < d)%Z.
Proof.
  revert s. induction (N.lt_wf_0 x) as [x _ IH]; intros s Hx. rewrite pretty_N_go_step by done.
  destruct (decide (x < 10)%N) as [Hs|Hs].
  - rewrite (N.div_small x 10), (N.mod_small x 10), pretty_N_go_0 by done.
    eexists _, _, _. split; [done|]. split; [by apply digit_val_char | lia].
  - apply IH; [apply N.div_lt; lia|]. by apply N.div_str_pos; lia.
Qed.

Lemma base_prefix_decimal c r d :
  digit_val c = Some d → (0 < d)%Z → base_prefix (String c r) = (10%Z, String c r).
Proof.
  intros Hc Hd. assert (c ≠ "0"%char) as Hz by (intros ->; injection Hc as <-; lia).
  by destruct c as [[] [] [] [] [] [] [] []].
Qed.

Lemma ParseUint0_pretty n : (n < 2 ^ 64)%N → ParseUint0 (pretty n) = Some (Z.of_N n).
Proof.
  intros Hn. unfold pretty, pretty_N. case_decide as H0; [by subst|].
  pose proof (uint_loop_pretty n "" Hn) as Hu. cbn [uint_loop] in Hu.
  pose proof (contains_pretty "_" n "" eq_refl) as Hc. cbn [contains] in Hc.
  destruct (pretty_first n "" ltac:(lia)) as (c & r & d & E & Hd & Hd0). rewrite E in *.
  unfold ParseUint0. rewrite bool_decide_eq_false_2 by done.
  rewrite (base_prefix_decimal c r d Hd Hd0), Hu. cbn [mbind option_bind]. by rewrite Hc.
Qed.

(** The printed number is read as the number, although base 0 would take a
    leading zero for octal. *)
Lemma ParseInt0_Itoa z : in_int64 z = true → ParseInt0 (Itoa z) = Some z.
Proof.
  intros Hz. assert (- 2 ^ 63 ≤ z < 2 ^ 63)%Z as Hr by (unfold in_int64 in Hz; lia).
  unfold Itoa, pretty, pretty_Z. destruct z as [|p|p]; [done|..].
  - change (ParseInt0 (pretty (N.pos p)) = Some (Z.pos p)).
    pose proof (ParseUint0_pretty (N.pos p) ltac:(lia)) as Hp.
    unfold pretty, pretty_N in *. rewrite decide_False in * by done.
    destruct (pretty_first (N.pos p) "" ltac:(lia)) as (c & r & d & E & Hd & Hd0). rewrite E in *.
    unfold ParseInt0.
    assert (match String c r with
            | String "-" r => (true, r) | String "+" r => (false, r) | _ => (false, String c r)
            end = (false, String c r)) as ->
      by (by destruct c as [[] [] [] [] [] [] [] []]; try done).
    rewrite Hp. cbn [mbind option_bind]. change (Z.of_N (N.pos p)) with (Z.pos p). by rewrite Hz.
  - change (ParseInt0 ("-" +:+ pretty (N.pos p)) = Some (Z.neg p)). unfold ParseInt0.
    cbn [String.append]. rewrite (ParseUint0_pretty (N.pos p)) by lia. cbn [mbind option_bind].
    change (- Z.of_N (N.pos p))%Z with (Z.neg p). by rewrite Hz.
Qed.

(** ** What a variable holds after the flags *)

(** The content of a flag's variable. *)
Inductive Value : Type :=
| VString (s : string)
| VBool (b : bool)
| VInt (z : Z).

Definition read_flag {T} (f : Flag T) (t : T) : Value :=
  match f with
  | StringVar p => VString (read p t)
  | BoolVar p => VBool (read p t)
  | IntVar p => VInt (read p t)
  end.

(** What [Set] stores for a text, when it stores anything. *)
Definition parse_value {T} (f : Flag T) (text : string) : option Value :=
  match f with
  | StringVar _ => Some (VString text)
  | BoolVar _ => VBool <$> ParseBool text
  | IntVar _ => VInt <$> ParseInt0 text
  end.

Definition spelling_name (sp : Spelling) : string :=
  match sp with Joined _ name _ | Separate _ name _ | Bare _ name => name end.

Definition spelling_text (sp : Spelling) : string :=
  match sp with Joined _ _ v | Separate _ _ v => v | Bare _ _ => "true" end.

(** The last text the spellings give the flag, if any does. *)
Definition last_text (name : string) (sps : list Spelling) : option string :=
  spelling_text <$> last (filter (λ sp, spelling_name sp = name) sps).

(** The variables of the flags are variables of their own. *)
Class Separated {T} (fs : FlagSet T) : Prop := {
  read_assigned name flag text t t' :
    fs !! name = Some flag → Set_ flag text t = Some t' →
    Some (read_flag flag t') = parse_value flag text;
  read_other name name' flag flag' text t t' :
    fs !! name = Some flag → fs !! name' = Some flag' → name ≠ name' →
    Set_ flag' text t = Some t' → read_flag flag t' = read_flag flag t;
}.

Section values.
  Context {T : Type} (fs : FlagSet T) `{!Separated fs}.
  Local Set Default Proof Using "Type*".

Lemma effect_Set sp t t' :
  effect fs sp t = Some t' →
  ∃ flag, fs !! spelling_name sp = Some flag ∧ Set_ flag (spelling_text sp) t = Some t'.
Proof.
  destruct sp as [d name v|d name v|d name]; cbn [effect spelling_name spelling_text];
    (destruct (flag_name name); [|done]); destruct (fs !! name) as [flag|]; try done;
    cbn [mbind option_bind]; intros He; exists flag; [done|..]; by destruct (IsBoolFlag flag).
Qed.

(** The last flag of the name wins; without one the variable keeps its value. *)
Lemma effects_last sps t t' name flag :
  effects fs sps t = Some t' → fs !! name = Some flag →
  Some (read_flag flag t') =
  match last_text name sps with
  | Some text => parse_value flag text
  | None => Some (read_flag flag t)
  end.
Proof.
  intros He Hf. revert t' He. induction sps as [|sp sps IH] using rev_ind; intros t' He.
  { by injection He as ->. }
  unfold effects in He. rewrite foldl_app in He. cbn [foldl] in He.
  change (foldl _ (Some t) sps) with (effects fs sps t) in He.
  destruct (effects fs sps t) as [t1|] eqn:E; [|done]. cbn [mbind option_bind] in He.
  apply effect_Set in He as (flag' & Hf' & Hs). unfold last_text in *. rewrite filter_app, filter_cons.
  case_decide as Hn; cbn [filter list_filter].
  - rewrite last_snoc. subst name. rewrite Hf in Hf'. simplify_eq. cbn.
    by eapply read_assigned.
  - rewrite app_nil_r. rewrite <- (IH t1 eq_refl). f_equal. by eapply read_other.
Qed.

End values.

(** ** Registration *)

Section register.
  Context {T : Type}.
  Implicit Types (fs : FlagSet T) (l : list (string * Flag T)).

Lemma Var_spec name flag fs :
  flag_name name = true →
  Var name flag fs = match fs !! name with Some _ => None | None => Some (<[ name := flag ]> fs) end.
Proof.
  intros Hn. pose proof (flag_name_ok _ Hn) as (c & r & -> & Hc & _ & He).
  unfold Var. by rewrite bool_decide_eq_false_2, He.
Qed.

Lemma register_panicked l :
  foldl (λ (o : option (FlagSet T)) '(name, flag), fs ← o; Var name flag fs) None l = None.
Proof. by induction l as [|[name flag] l IH]. Qed.

(** Registration panics when a name is taken, and only then. *)
Lemma register_spec l fs :
  forallb flag_name l.*1 = true → NoDup l.*1 →
  register l fs =
  if bool_decide (Forall (λ name, fs !! name = None) l.*1) then Some (list_to_map l ∪ fs) else None.
Proof.
  revert fs; induction l as [|[name flag] l IH]; intros fs Hl Hd.
  - cbn. by rewrite (left_id_L ∅ (∪)).
  - cbn [fmap list_fmap forallb fst] in *. apply andb_true_iff in Hl as [Hn Hl].
    apply NoDup_cons in Hd as [Hnin Hd].
    unfold register. cbn [foldl mbind option_bind]. rewrite Var_spec by done.
    destruct (fs !! name) as [f|] eqn:Hf.
    + rewrite register_panicked, bool_decide_eq_false_2; [done|].
      intros Ha%Forall_cons. destruct Ha as [Ha _]. by rewrite Hf in Ha.
    + change (register l (<[ name := flag ]> fs) =
        if bool_decide (Forall (λ n, fs !! n = None) (name :: l.*1))
        then Some (list_to_map ((name, flag) :: l) ∪ fs) else None).
      rewrite IH by done. erewrite bool_decide_ext with (Q := Forall (λ n, fs !! n = None) (name :: l.*1)).
      * case_bool_decide; [|done]. f_equal. cbn [list_to_map foldr]. rewrite <- insert_union_l.
        rewrite insert_union_r; [done|]. by apply not_elem_of_list_to_map_1.
      * rewrite Forall_cons. rewrite !Forall_forall. split.
        -- intros Ha. split; [done|]. intros n Hin. rewrite <- (Ha n Hin).
           by rewrite lookup_insert_ne by (by intros ->).
        -- intros [_ Ha] n Hin. rewrite lookup_insert_ne by (by intros ->). by apply Ha.
Qed.

End register.

(** ** Flags of the parts of a pair *)

Definition fst_flag {S1 S2} : Flag S1 → Flag (S1 * S2) := flag_map fst (λ s t, (s, t.2)).
Definition snd_flag {S1 S2} : Flag S2 → Flag (S1 * S2) := flag_map snd (λ s t, (t.1, s)).

Section pairs.
  Context {S1 S2 : Type}.

Lemma Set_fst (f : Flag S1) text (t : S1 * S2) :
  Set_ (fst_flag f) text t = (λ s, (s, t.2)) <$> Set_ f text t.1.
Proof. by destruct f; cbn; [|destruct (ParseBool text)|destruct (ParseInt0 text)]. Qed.

Lemma Set_snd (f : Flag S2) text (t : S1 * S2) :
  Set_ (snd_flag f) text t = (λ s, (t.1, s)) <$> Set_ f text t.2.
Proof. by destruct f; cbn; [|destruct (ParseBool text)|destruct (ParseInt0 text)]. Qed.

Lemma read_fst (f : Flag S1) (t : S1 * S2) : read_flag (fst_flag f) t = read_flag f t.1.
Proof. by destruct f. Qed.
Lemma read_snd (f : Flag S2) (t : S1 * S2) : read_flag (snd_flag f) t = read_flag f t.2.
Proof. by destruct f. Qed.

Lemma parse_value_fst (f : Flag S1) text :
  parse_value (fst_flag (S2 := S2) f) text = parse_value f text.
Proof. by destruct f. Qed.
Lemma parse_value_snd (f : Flag S2) text :
  parse_value (snd_flag (S1 := S1) f) text = parse_value f text.
Proof. by destruct f. Qed.

#[export] Instance pair_separated (fs1 : FlagSet S1) (fs2 : FlagSet S2) :
  Separated fs1 → Separated fs2 →
  Separated ((snd_flag <$> fs2) ∪ (fst_flag <$> fs1) : FlagSet (S1 * S2)).
Proof.
  intros Hs1 Hs2.
  assert (∀ name flag, ((snd_flag <$> fs2) ∪ (fst_flag <$> fs1) : FlagSet (S1 * S2)) !! name = Some flag →
    (∃ f, fs2 !! name = Some f ∧ flag = snd_flag f) ∨ (∃ f, fs1 !! name = Some f ∧ flag = fst_flag f))
    as Hl.
  { intros name flag. rewrite lookup_union_Some_raw, !lookup_fmap, !fmap_Some. naive_solver. }
  split.
  - intros name flag text t t' Hf Hset.
    apply Hl in Hf as [(f & Hf & ->)|(f & Hf & ->)].
    + rewrite Set_snd in Hset. apply fmap_Some in Hset as (s & Hset & ->).
      rewrite read_snd, parse_value_snd. by eapply read_assigned.
    + rewrite Set_fst in Hset. apply fmap_Some in Hset as (s & Hset & ->).
      rewrite read_fst, parse_value_fst. by eapply read_assigned.
  - intros name name' flag flag' text t t' Hf Hf' Hn Hset.
    apply Hl in Hf as [(f & Hf & ->)|(f & Hf & ->)], Hf' as [(f' & Hf' & ->)|(f' & Hf' & ->)];
      rewrite ?Set_fst, ?Set_snd in Hset; apply fmap_Some in Hset as (s & Hset & ->);
      rewrite ?read_fst, ?read_snd; try done.
    + by eapply (read_other (fs := fs2)).
    + by eapply (read_other (fs := fs1)).
Qed.

End pairs.
