(* ===== verification/Config.v ===== *)
(** * Package [config]: the runtime configuration

    [Config] with the fields of the Go struct, the hard-coded defaults
    [newConfig] starts from, and [Validate]. *)

From stdpp Require Import options.
From S2P Require Import Prelude.

Local Open Scope go_scope.

(** ** Definitions *)

Record Config : Type := mkConfig {
  Config_GatewayName : string;
  Config_GatewayNamespace : string;
  Config_Namespace : string;
  Config_Output : string;
  Config_SiteID : string;
  Config_TargetHostname : string;
  Config_TargetPort : Z;
  Config_TargetMethod : string;
  Config_DenyCountries : string;
  Config_SSL : bool;
  Config_AnnotationPrefix : string;
  Config_EnableService : bool;
  Config_AutoService : bool;
  Config_AllPorts : bool;
  Config_AuthSSORoles : string;
  Config_AuthSSOUsers : string;
  Config_AuthSSOIDP : Z;
  Config_AuthWhitelistUsers : string;
  Config_HealthPort : Z;
}.

#[export] Instance Config_eq_dec : EqDecision Config.
Proof. solve_decision. Defined.

(** The literal [newConfig] hands to [env.Parse]. *)
Definition defaultConfig : Config := {|
  Config_GatewayName := "";
  Config_GatewayNamespace := "";
  Config_Namespace := "";
  Config_Output := "/etc/newt/blueprint.yaml";
  Config_SiteID := "";
  Config_TargetHostname := "";
  Config_TargetPort := 443;
  Config_TargetMethod := "https";
  Config_DenyCountries := "";
  Config_SSL := true;
  Config_AnnotationPrefix := "newt-sidecar";
  Config_EnableService := false;
  Config_AutoService := false;
  Config_AllPorts := false;
  Config_AuthSSORoles := "";
  Config_AuthSSOUsers := "";
  Config_AuthSSOIDP := 0;
  Config_AuthWhitelistUsers := "";
  Config_HealthPort := 8080;
|}.

(** [newConfig]: [env_Parse] is [env.Parse] of the third-party package
    caarlos0/env, run on the struct with the environment of the process.  The
    text put before its error is left out. *)
Definition newConfig {E : Type} (env_Parse : Config → result E Config) : result E Config :=
  match env_Parse defaultConfig with
  | Err e => Err e
  | Ok cfg => Ok cfg
  end.

(** The three errors of [Validate]. *)
Inductive ValidateError : Type :=
| SiteIDRequired
| TargetHostnameRequired
| NoModeSet.

Definition Validate (c : Config) : option ValidateError :=
  if Config_SiteID c == "" then Some SiteIDRequired
  else if (Config_GatewayName c != "") && (Config_TargetHostname c == "")
  then Some TargetHostnameRequired
  else if (Config_GatewayName c == "") && negb (Config_EnableService c)
            && negb (Config_AutoService c)
  then Some NoModeSet
  else None.

(** ** Lemmas *)

Lemma Validate_None_iff c :
  Validate c = None ↔
    Config_SiteID c ≠ "" ∧
    (Config_GatewayName c ≠ "" → Config_TargetHostname c ≠ "") ∧
    (Config_GatewayName c ≠ "" ∨ Config_EnableService c = true ∨ Config_AutoService c = true).
Proof.
  unfold Validate.
  repeat case_bool_decide; destruct (Config_EnableService c), (Config_AutoService c);
    simpl; naive_solver.
Qed.
