(* ===== verification/Load.v ===== *)
(** * Package [config]: the flags of [Load]

    [Load] starts from [newConfig], registers a flag for every field and parses
    the command line.  The flags registered before are those of [main] and of
    the packages it imports; they write to variables of their own, a state [S]. *)

From stdpp Require Import options.
From S2P Require Import Prelude GoStrings GoFlag Config.

Local Open Scope go_scope.

(** ** Definitions *)

(** *** The fields as variables *)

Module Field.
Definition GatewayName : Place Config string :=
  mkPlace Config_GatewayName (λ v '(mkConfig _ b c d e f g h i j k l m n o p q r s),
    mkConfig v b c d e f g h i j k l m n o p q r s).
Definition GatewayNamespace : Place Config string :=
  mkPlace Config_GatewayNamespace (λ v '(mkConfig a _ c d e f g h i j k l m n o p q r s),
    mkConfig a v c d e f g h i j k l m n o p q r s).
Definition Namespace : Place Config string :=
  mkPlace Config_Namespace (λ v '(mkConfig a b _ d e f g h i j k l m n o p q r s),
    mkConfig a b v d e f g h i j k l m n o p q r s).
Definition Output : Place Config string :=
  mkPlace Config_Output (λ v '(mkConfig a b c _ e f g h i j k l m n o p q r s),
    mkConfig a b c v e f g h i j k l m n o p q r s).
Definition SiteID : Place Config string :=
  mkPlace Config_SiteID (λ v '(mkConfig a b c d _ f g h i j k l m n o p q r s),
    mkConfig a b c d v f g h i j k l m n o p q r s).
Definition TargetHostname : Place Config string :=
  mkPlace Config_TargetHostname (λ v '(mkConfig a b c d e _ g h i j k l m n o p q r s),
    mkConfig a b c d e v g h i j k l m n o p q r s).
Definition TargetPort : Place Config Z :=
  mkPlace Config_TargetPort (λ v '(mkConfig a b c d e f _ h i j k l m n o p q r s),
    mkConfig a b c d e f v h i j k l m n o p q r s).
Definition TargetMethod : Place Config string :=
  mkPlace Config_TargetMethod (λ v '(mkConfig a b c d e f g _ i j k l m n o p q r s),
    mkConfig a b c d e f g v i j k l m n o p q r s).
Definition DenyCountries : Place Config string :=
  mkPlace Config_DenyCountries (λ v '(mkConfig a b c d e f g h _ j k l m n o p q r s),
    mkConfig a b c d e f g h v j k l m n o p q r s).
Definition SSL : Place Config bool :=
  mkPlace Config_SSL (λ v '(mkConfig a b c d e f g h i _ k l m n o p q r s),
    mkConfig a b c d e f g h i v k l m n o p q r s).
Definition AnnotationPrefix : Place Config string :=
  mkPlace Config_AnnotationPrefix (λ v '(mkConfig a b c d e f g h i j _ l m n o p q r s),
    mkConfig a b c d e f g h i j v l m n o p q r s).
Definition EnableService : Place Config bool :=
  mkPlace Config_EnableService (λ v '(mkConfig a b c d e f g h i j k _ m n o p q r s),
    mkConfig a b c d e f g h i j k v m n o p q r s).
Definition AutoService : Place Config bool :=
  mkPlace Config_AutoService (λ v '(mkConfig a b c d e f g h i j k l _ n o p q r s),
    mkConfig a b c d e f g h i j k l v n o p q r s).
Definition AllPorts : Place Config bool :=
  mkPlace Config_AllPorts (λ v '(mkConfig a b c d e f g h i j k l m _ o p q r s),
    mkConfig a b c d e f g h i j k l m v o p q r s).
Definition AuthSSORoles : Place Config string :=
  mkPlace Config_AuthSSORoles (λ v '(mkConfig a b c d e f g h i j k l m n _ p q r s),
    mkConfig a b c d e f g h i j k l m n v p q r s).
Definition AuthSSOUsers : Place Config string :=
  mkPlace Config_AuthSSOUsers (λ v '(mkConfig a b c d e f g h i j k l m n o _ q r s),
    mkConfig a b c d e f g h i j k l m n o v q r s).
Definition AuthSSOIDP : Place Config Z :=
  mkPlace Config_AuthSSOIDP (λ v '(mkConfig a b c d e f g h i j k l m n o p _ r s),
    mkConfig a b c d e f g h i j k l m n o p v r s).
Definition AuthWhitelistUsers : Place Config string :=
  mkPlace Config_AuthWhitelistUsers (λ v '(mkConfig a b c d e f g h i j k l m n o p q _ s),
    mkConfig a b c d e f g h i j k l m n o p q v s).
Definition HealthPort : Place Config Z :=
  mkPlace Config_HealthPort (λ v '(mkConfig a b c d e f g h i j k l m n o p q r _),
    mkConfig a b c d e f g h i j k l m n o p q r v).
End Field.

Section flags.
Import Field.

(** [Load]: each flag has the value of its variable for default, so that
    registering it changes nothing. *)
Definition config_flags : list (string * Flag Config) :=
  [("gateway-name", StringVar GatewayName);
   ("gateway-namespace", StringVar GatewayNamespace);
   ("namespace", StringVar Namespace);
   ("output", StringVar Output);
   ("site-id", StringVar SiteID);
   ("target-hostname", StringVar TargetHostname);
   ("target-port", IntVar TargetPort);
   ("target-method", StringVar TargetMethod);
   ("deny-countries", StringVar DenyCountries);
   ("ssl", BoolVar SSL);
   ("annotation-prefix", StringVar AnnotationPrefix);
   ("enable-service", BoolVar EnableService);
   ("auto-service", BoolVar AutoService);
   ("all-ports", BoolVar AllPorts);
   ("auth-sso-roles", StringVar AuthSSORoles);
   ("auth-sso-users", StringVar AuthSSOUsers);
   ("auth-sso-idp", IntVar AuthSSOIDP);
   ("auth-whitelist-users", StringVar AuthWhitelistUsers);
   ("health-port", IntVar HealthPort)].

End flags.

(** How a call ends when the process may end with it: by returning, with an exit
    status, or in a panic. *)
Inductive Ending (A : Type) : Type :=
| Returned (a : A)
| Exited (status : Z)
| Panicked
| Unfinished.
Arguments Returned {A} a.
Arguments Exited {A} status.
Arguments Panicked {A}.
Arguments Unfinished {A}.

Section load.
  Context {E S : Type} (env_Parse : Config → result E Config).
  Implicit Types (fs : FlagSet S) (s : S).

(** The flags known to [flag.Parse] when [Load] calls it. *)
Definition load_flags fs : option (FlagSet (S * Config)) :=
  register (map (λ '(name, flag), (name, snd_flag flag)) config_flags) (fst_flag <$> fs).

(** [Load] with the command line [args] without the name of the program: the
    configuration, or the error of the environment, with the other variables. *)
Definition Load (args : list string) fs s : Ending (result E Config * S) :=
  match newConfig env_Parse with
  | Err e => Returned (Err e, s)
  | Ok cfg =>
      match load_flags fs with
      | None => Panicked
      | Some fs =>
          match Parse fs (s, cfg) args with
          | None => Unfinished
          | Some (Err e) => Exited (exit_status e)
          | Some (Ok ((s, cfg), _)) => Returned (Ok cfg, s)
          end
      end
  end.

End load.

(** ** The table of flags *)

Lemma config_flag_names : forallb flag_name config_flags.*1 = true.
Proof. reflexivity. Qed.

Lemma config_flags_NoDup : NoDup config_flags.*1.
Proof. by apply (bool_decide_unpack _). Qed.

(** What the flags' variables hold, in the order of the table. *)
Definition fields (cfg : Config) : list Value := map (λ '(_, flag), read_flag flag cfg) config_flags.

(** Every flag writes the field it names and no other. *)
Lemma fields_Set j name flag text cfg cfg' :
  config_flags !! j = Some (name, flag) → Set_ flag text cfg = Some cfg' →
  ∃ v, parse_value flag text = Some v ∧ fields cfg' = <[ j := v ]> (fields cfg).
Proof.
  intros Hj Hs. destruct cfg.
  do 19 (destruct j as [|j];
    [cbn in Hj; injection Hj as <- <-; cbn [Set_ parse_value] in *;
     try (destruct (ParseBool text); [|done]); try (destruct (ParseInt0 text); [|done]);
     injection Hs as <-; eexists; split; reflexivity|]).
  done.
Qed.

Lemma fields_lookup j name flag cfg :
  config_flags !! j = Some (name, flag) → fields cfg !! j = Some (read_flag flag cfg).
Proof. intros Hj. unfold fields. by rewrite list_lookup_fmap, Hj. Qed.

#[export] Instance config_separated : Separated (list_to_map config_flags : FlagSet Config).
Proof.
  assert (∀ name flag, (list_to_map config_flags : FlagSet Config) !! name = Some flag →
    ∃ j, config_flags !! j = Some (name, flag)) as Hl
    by (intros; by apply list_elem_of_lookup, elem_of_list_to_map_2).
  split.
  - intros name flag text t t' [j Hj]%Hl Hs.
    destruct (fields_Set j name flag text t t' Hj Hs) as (v & -> & Hf).
    rewrite <- (fields_lookup j name flag t' Hj), Hf. apply list_lookup_insert_eq.
    apply lookup_lt_Some in Hj. unfold fields. by rewrite length_map.
  - intros name name' flag flag' text t t' [i Hi]%Hl [j Hj]%Hl Hn Hs.
    destruct (fields_Set j name' flag' text t t' Hj Hs) as (v & _ & Hf).
    apply (inj Some). rewrite <- (fields_lookup i name flag t' Hi), Hf.
    rewrite list_lookup_insert_ne by (intros ->; rewrite Hi in Hj; by simplify_eq).
    by apply fields_lookup with (name := name).
Qed.

Lemma fields_inj cfg cfg' : fields cfg = fields cfg' → cfg = cfg'.
Proof. destruct cfg, cfg'. cbn. by intros [=]; subst. Qed.

(** ** [Load] *)

Section load_lemmas.
  Context {E S : Type} (env_Parse : Config → result E Config).
  Implicit Types (fs : FlagSet S) (s : S).

(** The flags while [Load] parses. *)
Definition all_flags fs : FlagSet (S * Config) :=
  (snd_flag <$> (list_to_map config_flags : FlagSet Config)) ∪ (fst_flag <$> fs).

(** No flag was registered under a name of [Load]'s. *)
Definition names_free fs : Prop := Forall (λ name, fs !! name = None) config_flags.*1.

#[export] Instance names_free_dec fs : Decision (names_free fs).
Proof. apply _. Defined.

Lemma load_flags_spec fs :
  load_flags fs = if bool_decide (names_free fs) then Some (all_flags fs) else None.
Proof.
  unfold load_flags, names_free, all_flags.
  change (map _ config_flags) with (prod_map id (snd_flag (S1 := S)) <$> config_flags).
  assert ((prod_map id (snd_flag (S1 := S)) <$> config_flags).*1 = config_flags.*1) as Hnames
    by reflexivity.
  rewrite register_spec, Hnames
    by (rewrite ?Hnames; apply config_flag_names || apply config_flags_NoDup).
  rewrite list_to_map_fmap.
  erewrite bool_decide_ext; [reflexivity|].
  apply Forall_iff. intros name. by rewrite lookup_fmap, fmap_None.
Qed.

Lemma flags_lookup fs name flag :
  (name, flag) ∈ config_flags → all_flags fs !! name = Some (snd_flag flag).
Proof.
  intros Hin. unfold all_flags. apply lookup_union_Some_l. rewrite lookup_fmap.
  by rewrite (elem_of_list_to_map_1 _ _ _ config_flags_NoDup Hin).
Qed.

#[export] Instance all_flags_separated fs : Separated fs → Separated (all_flags fs).
Proof. intros. apply pair_separated; [done | apply config_separated]. Qed.

(** [Load] returns exactly when the environment parses, no name is taken and the
    command line is a list of spelled flags before arguments that are none. *)
Lemma Load_Ok args fs s cfg s' :
  Load env_Parse args fs s = Returned (Ok cfg, s') ↔
  ∃ cfg0 sps rest, newConfig env_Parse = Ok cfg0 ∧ names_free fs ∧
    args = concat (map spell sps) ++ rest ∧ is_Some (stops rest) ∧
    effects (all_flags fs) sps (s, cfg0) = Some (s', cfg).
Proof.
  unfold Load. destruct (newConfig env_Parse) as [cfg0|e]; [|naive_solver].
  rewrite load_flags_spec. case_bool_decide as Hfree; [|naive_solver].
  transitivity (∃ left_, Parse (all_flags fs) (s, cfg0) args = Some (Ok ((s', cfg), left_))).
  { destruct (Parse _ _ _) as [[[[s1 cfg1] left_]|e]|]; naive_solver. }
  setoid_rewrite Parse_spelled. split.
  - intros (left_ & sps & rest & -> & He & Hr). by exists cfg0, sps, rest.
  - intros (cfg1 & sps & rest & [= <-] & _ & -> & [left_ Hr] & He). by exists left_, sps, rest.
Qed.

End load_lemmas.

(** ** Properties *)

Lemma Load_finishes {E S} (env_Parse : Config → result E Config) args (fs : FlagSet S) s :
  Load env_Parse args fs s ≠ Unfinished.
Proof.
  unfold Load. destruct (newConfig env_Parse) as [cfg|e]; [|done].
  destruct (load_flags fs) as [fs'|]; [|done].
  destruct (Parse_total fs' (s, cfg) args) as [[[[s1 cfg1] left_]|e] ->]; done.
Qed.

(** [Load] comes to an end, whatever the command line: it returns a configuration
    or the error of the environment, exits with status 0 or 2, or panics because a
    name of its flags is taken. *)
Lemma Load_ends {E S} (env_Parse : Config → result E Config) args (fs : FlagSet S) s :
  match Load env_Parse args fs s with
  | Returned (Ok _, _) => True
  | Returned (Err e, s') => newConfig env_Parse = Err e ∧ s' = s
  | Exited status => status = 0%Z ∨ status = 2%Z
  | Panicked => ¬ names_free fs
  | Unfinished => False
  end.
Proof.
  pose proof (Load_finishes env_Parse args fs s) as Hf. unfold Load in *.
  destruct (newConfig env_Parse) as [cfg|e]; [|done].
  rewrite load_flags_spec in *. case_bool_decide; [|done].
  destruct (Parse _ _ _) as [[[[s1 cfg1] left_]|[]]|]; naive_solver.
Qed.

(** C17. The command line takes precedence over the environment, and the environment
    over the defaults: when [Load] returns a configuration, every field holds what
    the last flag of its name says, read the way the flag's type is, and what
    [newConfig] gave when there is none; the flags are those before the first
    argument that is none. *)
Theorem Load_precedence {E S} (env_Parse : Config → result E Config) args (fs : FlagSet S) s cfg s' :
  Separated fs → Load env_Parse args fs s = Returned (Ok cfg, s') →
  ∃ cfg0 sps rest, newConfig env_Parse = Ok cfg0 ∧
    args = concat (map spell sps) ++ rest ∧ is_Some (stops rest) ∧
    ∀ name flag, (name, flag) ∈ config_flags →
      Some (read_flag flag cfg) =
      match last_text name sps with
      | Some text => parse_value flag text
      | None => Some (read_flag flag cfg0)
      end.
Proof.
  intros Hfs (cfg0 & sps & rest & Hnew & _ & -> & Hr & He)%Load_Ok.
  exists cfg0, sps, rest. split_and!; [done..|]. intros name flag Hin.
  pose proof (effects_last (all_flags fs) sps _ _ name _ He (flags_lookup fs name flag Hin)) as Hl.
  destruct (last_text name sps); by rewrite ?parse_value_snd, !read_snd in Hl.
Qed.

(** The process ends in [Load] exactly at the first argument that is neither a
    flag in good form nor the end of the flags: with status 0 when help is asked
    for, with status 2 otherwise. *)
Theorem Load_exits {E S} (env_Parse : Config → result E Config) args (fs : FlagSet S) s status :
  Load env_Parse args fs s = Exited status ↔
  ∃ cfg0 sps rest t e, newConfig env_Parse = Ok cfg0 ∧ names_free fs ∧
    args = concat (map spell sps) ++ rest ∧ effects (all_flags fs) sps (s, cfg0) = Some t ∧
    parseOne (all_flags fs) t rest = Failed e ∧ status = exit_status e.
Proof.
  unfold Load. destruct (newConfig env_Parse) as [cfg0|e]; [|naive_solver].
  rewrite load_flags_spec. case_bool_decide as Hfree; [|naive_solver].
  transitivity (∃ e, Parse (all_flags fs) (s, cfg0) args = Some (Err e) ∧ status = exit_status e).
  { destruct (Parse _ _ _) as [[[[s1 cfg1] left_]|e]|]; naive_solver. }
  setoid_rewrite Parse_rounds. split.
  - intros (e & (sps & rest & t & -> & He & [(left_ & _ & [=])|(e' & Hf & [= <-])]) & ->).
    by exists cfg0, sps, rest, t, e.
  - intros (cfg1 & sps & rest & t & e & [= <-] & _ & -> & He & Hf & ->).
    exists e. split; [|done]. exists sps, rest, t. split_and!; eauto.
Qed.

(** What a value is written as on the command line. *)
Definition print_value (v : Value) : string :=
  match v with
  | VString s => s
  | VBool b => if b then "true" else "false"
  | VInt z => Itoa z
  end.

(** A command line that says everything a configuration holds. *)
Definition command_line (cfg : Config) : list Spelling :=
  map (λ '(name, flag), Joined true name (print_value (read_flag flag cfg))) config_flags.

Definition ints_ok (cfg : Config) : bool :=
  in_int64 (Config_TargetPort cfg) && in_int64 (Config_AuthSSOIDP cfg)
  && in_int64 (Config_HealthPort cfg).

Lemma parse_printed name flag cfg :
  ints_ok cfg = true → (name, flag) ∈ config_flags →
  parse_value flag (print_value (read_flag flag cfg)) = Some (read_flag flag cfg).
Proof.
  unfold ints_ok. rewrite !andb_true_iff. intros [[Hp Hi] Hh] [j Hj]%list_elem_of_lookup.
  assert (∀ z, read_flag flag cfg = VInt z → in_int64 z = true) as Hz.
  { do 19 (destruct j as [|j]; [cbn in Hj; injection Hj as <- <-; by intros z [= <-]|]). done. }
  destruct flag as [p|p|p]; cbn [read_flag parse_value print_value] in *.
  - done.
  - by destruct (read p cfg).
  - by rewrite ParseInt0_Itoa by by apply Hz.
Qed.

Lemma last_text_command_line name flag cfg :
  (name, flag) ∈ config_flags →
  last_text name (command_line cfg) = Some (print_value (read_flag flag cfg)).
Proof.
  intros [j Hj]%list_elem_of_lookup.
  do 19 (destruct j as [|j]; [cbn in Hj; injection Hj as <- <-; reflexivity|]). done.
Qed.

(** Joined flags of [Load]'s whose values parse all take effect, and leave the
    variables of others alone. *)
Lemma effects_joined {S} (fs : FlagSet S) sps s cfg0 :
  Forall (λ sp, ∃ d name flag text, sp = Joined d name text ∧ (name, flag) ∈ config_flags
    ∧ is_Some (parse_value flag text)) sps →
  ∃ cfg', effects (all_flags fs) sps (s, cfg0) = Some (s, cfg').
Proof.
  revert cfg0; induction sps as [|sp sps IH]; intros cfg0 Hall; [by exists cfg0|].
  apply Forall_cons in Hall as [(d & name & flag & text & -> & Hin & Hp) Hall].
  rewrite effects_cons. cbn [effect].
  assert (flag_name name = true) as ->.
  { pose proof config_flag_names as Hn. rewrite forallb_forall in Hn. apply Hn.
    apply list_elem_of_In, list_elem_of_fmap. by exists (name, flag). }
  rewrite (flags_lookup fs name flag Hin). cbn [mbind option_bind]. rewrite Set_snd. cbn [fst snd].
  assert (∃ cfg1, Set_ flag text cfg0 = Some cfg1) as [cfg1 ->].
  { destruct flag; cbn [Set_ parse_value] in *; [eauto|..];
      destruct Hp as [v Hp]; apply fmap_Some in Hp as (x & -> & _); eauto. }
  apply IH. done.
Qed.

(** C30. Every configuration can be given on the command line, whatever the
    environment says: [Load] reads back the one that is printed. *)
Theorem Load_command_line {E S} (env_Parse : Config → result E Config) (fs : FlagSet S) s cfg cfg0 :
  Separated fs → names_free fs → ints_ok cfg = true → newConfig env_Parse = Ok cfg0 →
  Load env_Parse (concat (map spell (command_line cfg))) fs s = Returned (Ok cfg, s).
Proof.
  intros Hfs Hfree Hints Hnew. apply Load_Ok. exists cfg0, (command_line cfg), [].
  rewrite app_nil_r. split_and!; [done..|by eexists|].
  destruct (effects_joined fs (command_line cfg) s cfg0) as [cfg' He].
  { apply Forall_forall. intros sp (nf & -> & Hin)%list_elem_of_fmap. destruct nf as [name flag].
    exists true, name, flag, (print_value (read_flag flag cfg)).
    rewrite (parse_printed name) by done. by split_and!. }
  rewrite He. do 2 f_equal. apply fields_inj, map_ext_in.
  intros [name flag] Hin%list_elem_of_In.
  pose proof (effects_last (all_flags fs) _ _ _ name _ He (flags_lookup fs name flag Hin)) as Hl.
  rewrite (last_text_command_line name flag cfg Hin), parse_value_snd, !read_snd in Hl.
  rewrite (parse_printed name) in Hl by done. by injection Hl.
Qed.

(** A boolean flag takes no argument of its own: written with one, as in
    [--ssl false], it is set to true, and the argument ends the flags, so that it
    and everything after it go unread without a message. *)
Theorem separate_bool_ignored {E S} (env_Parse : Config → result E Config) (fs : FlagSet S) s
    cfg0 sps t d name p v more :
  names_free fs → newConfig env_Parse = Ok cfg0 →
  effects (all_flags fs) sps (s, cfg0) = Some t →
  (name, BoolVar p) ∈ config_flags → is_Some (stops [v]) →
  Load env_Parse (concat (map spell sps) ++ spell_name d name :: v :: more) fs s
  = Returned (Ok (assign p true t.2), t.1).
Proof.
  intros Hfree Hnew He Hin Hv. apply Load_Ok.
  exists cfg0, (sps ++ [Bare d name]), (v :: more). split_and!; [done..| | |].
  - rewrite map_app, concat_app, <- app_assoc. done.
  - by apply stops_first.
  - unfold effects. rewrite foldl_app. change (foldl _ (Some _) sps) with (effects (all_flags fs) sps (s, cfg0)).
    rewrite He. cbn [foldl mbind option_bind effect].
    assert (flag_name name = true) as ->.
    { pose proof config_flag_names as Hn. rewrite forallb_forall in Hn. apply Hn.
      apply list_elem_of_In, list_elem_of_fmap. by exists (name, BoolVar p). }
    rewrite (flags_lookup fs name _ Hin). done.
Qed.

(** ** Witnesses *)

Definition no_flags : FlagSet unit := ∅.

#[export] Instance no_flags_separated : Separated no_flags.
Proof. by split. Qed.

Lemma no_flags_free : names_free no_flags.
Proof. apply Forall_forall. intros name _. apply lookup_empty. Qed.

(** An environment with a site and a port. *)
Definition demo_env (cfg : Config) : result () Config :=
  Ok (assign Field.SiteID "site-1" (assign Field.TargetPort 80%Z cfg)).

Example Load_demo :
  match Load demo_env ["--target-port"; "0x1F"; "-ssl=F"; "--gateway-name=a"; "--gateway-name"; "b"; "x"; "--h"]
          no_flags () with
  | Returned (Ok cfg, _) =>
      (Config_SiteID cfg, Config_TargetPort cfg, Config_SSL cfg, Config_GatewayName cfg,
       Config_TargetMethod cfg) = ("site-1", 31%Z, false, "b", "https")
  | _ => False
  end.
Proof. by vm_compute. Qed.

Example Load_demo_exits :
  (λ arg, Load demo_env ["--ssl"; arg] no_flags ()) <$>
    ["-h"; "--help=1"; "--nope"; "--site-id"; "--target-port=80x"; "---ssl"; "--ssl=yes"]
  = [Exited 0; Exited 0; Exited 2; Exited 2; Exited 2; Exited 2; Exited 2].
Proof. by vm_compute. Qed.

Lemma Load_precedence_witness :
  ∃ cfg0 sps rest, newConfig demo_env = Ok cfg0 ∧
    ["--site-id=x"; "--ssl"] = concat (map spell sps) ++ rest ∧ is_Some (stops rest) ∧
    ∀ name flag, (name, flag) ∈ config_flags →
      Some (read_flag flag (assign Field.SSL true (assign Field.SiteID "x"
              (assign Field.TargetPort 80%Z defaultConfig))))
      = match last_text name sps with
        | Some text => parse_value flag text
        | None => Some (read_flag flag cfg0)
        end.
Proof.
  apply (Load_precedence demo_env ["--site-id=x"; "--ssl"] no_flags () _ () no_flags_separated).
  vm_compute. reflexivity.
Defined.

Lemma Load_command_line_witness :
  Load demo_env (concat (map spell (command_line defaultConfig))) no_flags ()
  = Returned (Ok defaultConfig, ()).
Proof.
  by eapply (Load_command_line demo_env no_flags () defaultConfig); [apply no_flags_separated | apply no_flags_free | |].
Defined.

Lemma separate_bool_ignored_witness :
  Load demo_env ["--ssl"; "false"; "--site-id"; "site-2"] no_flags ()
  = Returned (Ok (assign Field.SSL true (assign Field.SiteID "site-1"
                    (assign Field.TargetPort 80%Z defaultConfig))), ()).
Proof.
  refine (separate_bool_ignored demo_env no_flags ()
            (assign Field.SiteID "site-1" (assign Field.TargetPort 80%Z defaultConfig)) [] _ true "ssl" Field.SSL "false"
            ["--site-id"; "site-2"] no_flags_free eq_refl eq_refl _ _).
  - apply list_elem_of_lookup. by exists 9.
  - by eexists.
Defined.
