(* ===== verification/Blueprint.v ===== *)
(** * Package [blueprint]: the data model and its builders

    The Pangolin blueprint types, the map keys, and the functions that turn
    annotations, secret data and configuration into resources.  Slices are
    nil or a list, pointers nil or a value. *)

From stdpp Require Import options.
From S2P Require Import Prelude GoStrings GoJson Config.

Local Open Scope go_scope.

(** ** Definitions *)

(** *** Types *)

Record Header : Type := mkHeader {
  Header_Name : string;
  Header_Value : string;
}.

Record BasicAuth : Type := mkBasicAuth {
  BasicAuth_User : string;
  BasicAuth_Password : string;
}.

Record HealthCheck : Type := mkHealthCheck {
  HealthCheck_Hostname : string;
  HealthCheck_Port : Z;
  HealthCheck_Enabled : option bool;
  HealthCheck_Path : string;
  HealthCheck_Scheme : string;
  HealthCheck_Mode : string;
  HealthCheck_Interval : Z;
  HealthCheck_UnhealthyInterval : Z;
  HealthCheck_Timeout : Z;
  HealthCheck_Headers : goslice Header;
  HealthCheck_FollowRedirects : option bool;
  HealthCheck_Method : string;
  HealthCheck_Status : Z;
}.

Record Maintenance : Type := mkMaintenance {
  Maintenance_Enabled : bool;
  Maintenance_Type : string;
  Maintenance_Title : string;
  Maintenance_Message : string;
  Maintenance_EstimatedTime : string;
}.

Record PrivateResource : Type := mkPrivateResource {
  PrivateResource_Name : string;
  PrivateResource_Mode : string;
  PrivateResource_Destination : string;
  PrivateResource_Site : string;
  PrivateResource_TCPPorts : string;
  PrivateResource_UDPPorts : string;
  PrivateResource_DisableICMP : bool;
  PrivateResource_Alias : string;
  PrivateResource_Roles : goslice string;
  PrivateResource_Users : goslice string;
  PrivateResource_Machines : goslice string;
}.

Record Auth : Type := mkAuth {
  Auth_Pincode : Z;
  Auth_Password : string;
  Auth_BasicAuth : option BasicAuth;
  Auth_SSOEnabled : bool;
  Auth_SSORoles : goslice string;
  Auth_SSOUsers : goslice string;
  Auth_WhitelistUsers : goslice string;
  Auth_AutoLoginIDP : Z;
}.

Record Rule : Type := mkRule {
  Rule_Action : string;
  Rule_Match : string;
  Rule_Value : string;
  Rule_Priority : Z;
}.

Record Target : Type := mkTarget {
  Target_Site : string;
  Target_Hostname : string;
  Target_Enabled : option bool;
  Target_Method : string;
  Target_Port : Z;
  Target_InternalPort : Z;
  Target_Path : string;
  Target_PathMatch : string;
  Target_RewritePath : string;
  Target_RewriteMatch : string;
  Target_Priority : Z;
  Target_HealthCheck : option HealthCheck;
}.

Record Resource : Type := mkResource {
  Resource_Name : string;
  Resource_Protocol : string;
  Resource_Enabled : option bool;
  Resource_SSL : bool;
  Resource_FullDomain : string;
  Resource_HostHeader : string;
  Resource_TLSServerName : string;
  Resource_ProxyPort : Z;
  Resource_Headers : goslice Header;
  Resource_Auth : option Auth;
  Resource_Maintenance : option Maintenance;
  Resource_Rules : goslice Rule;
  Resource_Targets : goslice Target;
}.

Record Blueprint : Type := mkBlueprint {
  Blueprint_PublicResources : gmap string Resource;
  Blueprint_PrivateResources : gmap string PrivateResource;
}.

#[export] Instance Header_eq_dec : EqDecision Header.
Proof. solve_decision. Defined.
#[export] Instance BasicAuth_eq_dec : EqDecision BasicAuth.
Proof. solve_decision. Defined.
#[export] Instance HealthCheck_eq_dec : EqDecision HealthCheck.
Proof. solve_decision. Defined.
#[export] Instance Maintenance_eq_dec : EqDecision Maintenance.
Proof. solve_decision. Defined.
#[export] Instance PrivateResource_eq_dec : EqDecision PrivateResource.
Proof. solve_decision. Defined.
#[export] Instance Auth_eq_dec : EqDecision Auth.
Proof. solve_decision. Defined.
#[export] Instance Rule_eq_dec : EqDecision Rule.
Proof. solve_decision. Defined.
#[export] Instance Target_eq_dec : EqDecision Target.
Proof. solve_decision. Defined.
#[export] Instance Resource_eq_dec : EqDecision Resource.
Proof. solve_decision. Defined.
#[export] Instance Blueprint_eq_dec : EqDecision Blueprint.
Proof. solve_decision. Defined.

(** *** Zero values *)

#[export] Instance zero_Header : Zero Header := mkHeader "" "".
#[export] Instance zero_Rule : Zero Rule := mkRule "" "" "" 0.
#[export] Instance zero_HealthCheck : Zero HealthCheck :=
  mkHealthCheck "" 0 None "" "" "" 0 0 0 None None "" 0.
#[export] Instance zero_Target : Zero Target :=
  mkTarget "" "" None "" 0 0 "" "" "" "" 0 None.

(** *** Map keys *)

Definition HostnameToKey (hostname : string) : string := ReplaceAll "." "-" hostname.

Definition ServiceToKey (namespace name port protocol : string) : string :=
  namespace +:+ "-" +:+ name +:+ "-" +:+ port +:+ "-" +:+ protocol.

(** *** Decoding of annotations

    The structs carry [yaml] tags only, so [encoding/json] knows their fields
    by the Go names. *)

Definition json_Header (cur : Header) (j : json) : option Header :=
  dec_struct ["Name"; "Value"]
    (λ h f v,
       if f == "Name" then s ← dec_string (Header_Name h) v; Some (mkHeader s (Header_Value h))
       else s ← dec_string (Header_Value h) v; Some (mkHeader (Header_Name h) s))
    cur j.

Definition json_Rule (cur : Rule) (j : json) : option Rule :=
  dec_struct ["Action"; "Match"; "Value"; "Priority"]
    (λ '(mkRule a m x p) f v,
       if f == "Action" then a ← dec_string a v; Some (mkRule a m x p)
       else if f == "Match" then m ← dec_string m v; Some (mkRule a m x p)
       else if f == "Value" then x ← dec_string x v; Some (mkRule a m x p)
       else p ← dec_int p v; Some (mkRule a m x p))
    cur j.

(** The second component is the array behind [Headers]. *)
Definition json_HealthCheck (cur : HealthCheck * list Header) (j : json)
    : option (HealthCheck * list Header) :=
  dec_struct
    ["Hostname"; "Port"; "Enabled"; "Path"; "Scheme"; "Mode"; "Interval"; "UnhealthyInterval";
     "Timeout"; "Headers"; "FollowRedirects"; "Method"; "Status"]
    (λ '(mkHealthCheck ho po en pa sc mo iv ui ti hs fr me st, b) f v,
       if f == "Hostname" then
         ho ← dec_string ho v; Some (mkHealthCheck ho po en pa sc mo iv ui ti hs fr me st, b)
       else if f == "Port" then
         po ← dec_int po v; Some (mkHealthCheck ho po en pa sc mo iv ui ti hs fr me st, b)
       else if f == "Enabled" then
         en ← dec_bool_ptr v; Some (mkHealthCheck ho po en pa sc mo iv ui ti hs fr me st, b)
       else if f == "Path" then
         pa ← dec_string pa v; Some (mkHealthCheck ho po en pa sc mo iv ui ti hs fr me st, b)
       else if f == "Scheme" then
         sc ← dec_string sc v; Some (mkHealthCheck ho po en pa sc mo iv ui ti hs fr me st, b)
       else if f == "Mode" then
         mo ← dec_string mo v; Some (mkHealthCheck ho po en pa sc mo iv ui ti hs fr me st, b)
       else if f == "Interval" then
         iv ← dec_int iv v; Some (mkHealthCheck ho po en pa sc mo iv ui ti hs fr me st, b)
       else if f == "UnhealthyInterval" then
         ui ← dec_int ui v; Some (mkHealthCheck ho po en pa sc mo iv ui ti hs fr me st, b)
       else if f == "Timeout" then
         ti ← dec_int ti v; Some (mkHealthCheck ho po en pa sc mo iv ui ti hs fr me st, b)
       else if f == "Headers" then
         '(hs, b) ← dec_slice json_Header zero b v;
         Some (mkHealthCheck ho po en pa sc mo iv ui ti hs fr me st, b)
       else if f == "FollowRedirects" then
         fr ← dec_bool_ptr v; Some (mkHealthCheck ho po en pa sc mo iv ui ti hs fr me st, b)
       else if f == "Method" then
         me ← dec_string me v; Some (mkHealthCheck ho po en pa sc mo iv ui ti hs fr me st, b)
       else
         st ← dec_int st v; Some (mkHealthCheck ho po en pa sc mo iv ui ti hs fr me st, b))
    cur j.

(** [json.Unmarshal] at the three types, into a fresh variable. *)
Definition Unmarshal_Rules (raw : string) : option (goslice Rule) :=
  j ← parse raw; fst <$> dec_slice json_Rule zero [] j.

Definition Unmarshal_Headers (raw : string) : option (goslice Header) :=
  j ← parse raw; fst <$> dec_slice json_Header zero [] j.

Definition Unmarshal_HealthCheck (raw : string) : option HealthCheck :=
  j ← parse raw; fst <$> json_HealthCheck (zero, []) j.

(** *** Rules *)

Definition buildDenyRules (cfg : Config) : goslice Rule :=
  if Config_DenyCountries cfg == "" then None else
  foldl (λ rules country,
           let country := TrimSpace country in
           if country != "" then append rules [mkRule "deny" "country" country 0] else rules)
        None (Split "," (Config_DenyCountries cfg)).

Definition isValidRule (r : Rule) : bool :=
  if negb (bool_decide (Rule_Action r ∈ ["allow"; "deny"; "pass"])) then false
  else if negb (bool_decide (Rule_Match r ∈ ["cidr"; "ip"; "path"; "country"])) then false
  else if Rule_Value r == "" then false
  else if (Rule_Priority r != 0%Z) && ((Rule_Priority r <? 1)%Z || (1000 <? Rule_Priority r)%Z)
  then false
  else true.

Definition BuildRules (annotations : gomap string) (prefix : string) (cfg : Config)
    : goslice Rule :=
  let rules : goslice Rule :=
    match annotations⟦prefix +:+ "/rules"⟧? with
    | Some raw =>
        if raw != "" then
          match Unmarshal_Rules raw with
          | None => None
          | Some annotationRules =>
              foldl (λ rules r, if isValidRule r then append rules [r] else rules)
                    None (elems annotationRules)
          end
        else None
    | None => None
    end in
  let rules := append_slice rules (buildDenyRules cfg) in
  match elems rules with [] => None | _ => rules end.

(** *** Small helpers *)

Definition isTruthy (v : string) : bool := (v == "true") || (v == "1").

Definition splitCSV (s : string) : goslice string :=
  if s == "" then None else
  foldl (λ out v,
           let v := TrimSpace v in
           if v != "" then append out [v] else out)
        None (Split "," s).

Definition BuildHeaders (annotations : gomap string) (prefix : string) : goslice Header :=
  match annotations⟦prefix +:+ "/headers"⟧? with
  | None => None
  | Some raw =>
      if raw == "" then None
      else match Unmarshal_Headers raw with None => None | Some headers => headers end
  end.

Definition BuildMaintenance (annotations : gomap string) (prefix : string)
    : option Maintenance :=
  match annotations⟦prefix +:+ "/maintenance-enabled"⟧? with
  | None => None
  | Some v =>
      if negb (isTruthy v) then None else
      Some {|
        Maintenance_Enabled := true;
        Maintenance_Type := annotations⟦prefix +:+ "/maintenance-type"⟧;
        Maintenance_Title := annotations⟦prefix +:+ "/maintenance-title"⟧;
        Maintenance_Message := annotations⟦prefix +:+ "/maintenance-message"⟧;
        Maintenance_EstimatedTime := annotations⟦prefix +:+ "/maintenance-estimated-time"⟧;
      |}
  end.

(** *** Targets *)

(** Assignment to one field of a [Target]. *)
Definition set_Enabled (b : option bool) (t : Target) : Target :=
  mkTarget (Target_Site t) (Target_Hostname t) b (Target_Method t) (Target_Port t)
    (Target_InternalPort t) (Target_Path t) (Target_PathMatch t) (Target_RewritePath t)
    (Target_RewriteMatch t) (Target_Priority t) (Target_HealthCheck t).
Definition set_InternalPort (p : Z) (t : Target) : Target :=
  mkTarget (Target_Site t) (Target_Hostname t) (Target_Enabled t) (Target_Method t)
    (Target_Port t) p (Target_Path t) (Target_PathMatch t) (Target_RewritePath t)
    (Target_RewriteMatch t) (Target_Priority t) (Target_HealthCheck t).
Definition set_Path (v : string) (t : Target) : Target :=
  mkTarget (Target_Site t) (Target_Hostname t) (Target_Enabled t) (Target_Method t)
    (Target_Port t) (Target_InternalPort t) v (Target_PathMatch t) (Target_RewritePath t)
    (Target_RewriteMatch t) (Target_Priority t) (Target_HealthCheck t).
Definition set_PathMatch (v : string) (t : Target) : Target :=
  mkTarget (Target_Site t) (Target_Hostname t) (Target_Enabled t) (Target_Method t)
    (Target_Port t) (Target_InternalPort t) (Target_Path t) v (Target_RewritePath t)
    (Target_RewriteMatch t) (Target_Priority t) (Target_HealthCheck t).
Definition set_RewritePath (v : string) (t : Target) : Target :=
  mkTarget (Target_Site t) (Target_Hostname t) (Target_Enabled t) (Target_Method t)
    (Target_Port t) (Target_InternalPort t) (Target_Path t) (Target_PathMatch t) v
    (Target_RewriteMatch t) (Target_Priority t) (Target_HealthCheck t).
Definition set_RewriteMatch (v : string) (t : Target) : Target :=
  mkTarget (Target_Site t) (Target_Hostname t) (Target_Enabled t) (Target_Method t)
    (Target_Port t) (Target_InternalPort t) (Target_Path t) (Target_PathMatch t)
    (Target_RewritePath t) v (Target_Priority t) (Target_HealthCheck t).
Definition set_Priority (p : Z) (t : Target) : Target :=
  mkTarget (Target_Site t) (Target_Hostname t) (Target_Enabled t) (Target_Method t)
    (Target_Port t) (Target_InternalPort t) (Target_Path t) (Target_PathMatch t)
    (Target_RewritePath t) (Target_RewriteMatch t) p (Target_HealthCheck t).
Definition set_HealthCheck (hc : option HealthCheck) (t : Target) : Target :=
  mkTarget (Target_Site t) (Target_Hostname t) (Target_Enabled t) (Target_Method t)
    (Target_Port t) (Target_InternalPort t) (Target_Path t) (Target_PathMatch t)
    (Target_RewritePath t) (Target_RewriteMatch t) (Target_Priority t) hc.

Definition BuildTargetExtras (base : Target) (annotations : gomap string) (prefix : string)
    : Target :=
  let t := base in
  let t :=
    let v := TrimSpace (annotations⟦prefix +:+ "/target-path"⟧) in
    if v != "" then set_Path v t else t in
  let t :=
    let v := TrimSpace (annotations⟦prefix +:+ "/target-path-match"⟧) in
    if v != "" then
      if bool_decide (v ∈ ["prefix"; "exact"; "regex"]) then set_PathMatch v t else t
    else t in
  let t :=
    let v := TrimSpace (annotations⟦prefix +:+ "/target-rewrite-path"⟧) in
    if v != "" then set_RewritePath v t else t in
  let t :=
    let v := TrimSpace (annotations⟦prefix +:+ "/target-rewrite-match"⟧) in
    if v != "" then
      if bool_decide (v ∈ ["exact"; "prefix"; "regex"; "stripPrefix"])
      then set_RewriteMatch v t else t
    else t in
  let t :=
    let v := TrimSpace (annotations⟦prefix +:+ "/target-priority"⟧) in
    if v != "" then
      match Atoi v with
      | Some parsed =>
          if (1 <=? parsed)%Z && (parsed <=? 1000)%Z then set_Priority parsed t else t
      | None => t
      end
    else t in
  let t :=
    let v := TrimSpace (annotations⟦prefix +:+ "/target-internal-port"⟧) in
    if v != "" then
      match Atoi v with
      | Some parsed =>
          if (1 <=? parsed)%Z && (parsed <=? 65535)%Z then set_InternalPort parsed t else t
      | None => t
      end
    else t in
  let t :=
    let v := annotations⟦prefix +:+ "/target-healthcheck"⟧ in
    if v != "" then
      match Unmarshal_HealthCheck v with
      | None => t
      | Some hc => set_HealthCheck (Some hc) t
      end
    else t in
  let t :=
    let v := TrimSpace (annotations⟦prefix +:+ "/target-enabled"⟧) in
    if v != "" then set_Enabled (Some (isTruthy v)) t else t in
  t.

(** *** Authentication *)

(** What the secret contributes: pincode, password and basic auth.  [nil]
    secret data contributes nothing. *)
Definition secretPincode (secretData : gomap string) : Z :=
  match secretData with
  | None => 0
  | Some _ =>
      match secretData⟦"pincode"⟧? with
      | Some v => if v != "" then default 0%Z (Atoi v) else 0
      | None => 0
      end
  end.

Definition secretPassword (secretData : gomap string) : string :=
  match secretData with
  | None => ""
  | Some _ => match secretData⟦"password"⟧? with Some v => v | None => "" end
  end.

Definition secretBasicAuth (secretData : gomap string) : option BasicAuth :=
  match secretData with
  | None => None
  | Some _ =>
      let baUser := secretData⟦"basic-auth-user"⟧ in
      let baPass := secretData⟦"basic-auth-password"⟧ in
      if (baUser != "") || (baPass != "") then Some (mkBasicAuth baUser baPass) else None
  end.

Definition BuildAuth (annotations secretData : gomap string) (cfg : Config) : option Auth :=
  let prefix := Config_AnnotationPrefix cfg in
  let ssoEnabled :=
    match annotations⟦prefix +:+ "/auth-sso"⟧? with
    | Some v => isTruthy v
    | None => false
    end in
  let '(ssoRoles, ssoUsers, idp) :=
    if ssoEnabled : bool then
      let rolesRaw :=
        match annotations⟦prefix +:+ "/auth-sso-roles"⟧? with
        | Some av => av | None => Config_AuthSSORoles cfg
        end in
      let usersRaw :=
        match annotations⟦prefix +:+ "/auth-sso-users"⟧? with
        | Some av => av | None => Config_AuthSSOUsers cfg
        end in
      let idp :=
        match annotations⟦prefix +:+ "/auth-sso-idp"⟧? with
        | Some av =>
            match Atoi av with
            | Some parsed => if (0 <? parsed)%Z then parsed else Config_AuthSSOIDP cfg
            | None => Config_AuthSSOIDP cfg
            end
        | None => Config_AuthSSOIDP cfg
        end in
      (splitCSV rolesRaw, splitCSV usersRaw, idp)
    else (None, None, 0%Z) in
  let whitelistRaw :=
    match annotations⟦prefix +:+ "/auth-whitelist-users"⟧? with
    | Some av => av | None => Config_AuthWhitelistUsers cfg
    end in
  let whitelistUsers := splitCSV whitelistRaw in
  let pincode := secretPincode secretData in
  let password := secretPassword secretData in
  let basicAuth := secretBasicAuth secretData in
  if negb ssoEnabled && bool_decide (elems whitelistUsers = []) && (pincode == 0%Z)
     && (password == "") && bool_decide (basicAuth = None)
  then None
  else Some {|
    Auth_Pincode := pincode;
    Auth_Password := password;
    Auth_BasicAuth := basicAuth;
    Auth_SSOEnabled := ssoEnabled;
    Auth_SSORoles := ssoRoles;
    Auth_SSOUsers := ssoUsers;
    Auth_WhitelistUsers := whitelistUsers;
    Auth_AutoLoginIDP := idp;
  |}.

(** *** Resources *)

Definition BuildResource (routeName hostname : string) (annotations secretData : gomap string)
    (cfg : Config) : Resource :=
  let annotations := match annotations with None => Some ∅ | _ => annotations end in
  let prefix := Config_AnnotationPrefix cfg in
  let name :=
    match annotations⟦prefix +:+ "/name"⟧? with
    | Some v => if v != "" then v else routeName
    | None => routeName
    end in
  let ssl :=
    match annotations⟦prefix +:+ "/ssl"⟧? with
    | Some v => isTruthy v
    | None => Config_SSL cfg
    end in
  let enabled :=
    match annotations⟦prefix +:+ "/enabled"⟧? with
    | Some v => Some (isTruthy v)
    | None => None
    end in
  let tlsServerName :=
    let v := TrimSpace (annotations⟦prefix +:+ "/tls-server-name"⟧) in
    if v != "" then v else hostname in
  {|
    Resource_Name := name;
    Resource_Protocol := "http";
    Resource_Enabled := enabled;
    Resource_SSL := ssl;
    Resource_FullDomain := hostname;
    Resource_HostHeader := annotations⟦prefix +:+ "/host-header"⟧;
    Resource_TLSServerName := tlsServerName;
    Resource_ProxyPort := 0;
    Resource_Headers := BuildHeaders annotations prefix;
    Resource_Auth := BuildAuth annotations secretData cfg;
    Resource_Maintenance := BuildMaintenance annotations prefix;
    Resource_Rules := BuildRules annotations prefix cfg;
    Resource_Targets := Some [
      BuildTargetExtras {|
        Target_Site := Config_SiteID cfg;
        Target_Hostname := Config_TargetHostname cfg;
        Target_Enabled := None;
        Target_Method := Config_TargetMethod cfg;
        Target_Port := Config_TargetPort cfg;
        Target_InternalPort := 0;
        Target_Path := "";
        Target_PathMatch := "";
        Target_RewritePath := "";
        Target_RewriteMatch := "";
        Target_Priority := 0;
        Target_HealthCheck := None;
      |} annotations prefix];
  |}.

Record ServicePort : Type := mkServicePort {
  ServicePort_Name : string;
  ServicePort_Protocol : string;
  ServicePort_ProxyPort : Z;
  ServicePort_TargetPort : Z;
  ServicePort_TargetHostname : string;
  ServicePort_FullDomain : string;
  ServicePort_TLSServerName : string;
  ServicePort_Method : string;
  ServicePort_SSL : bool;
  ServicePort_HostHeader : string;
  ServicePort_Headers : goslice Header;
  ServicePort_Maintenance : option Maintenance;
  ServicePort_Auth : option Auth;
  ServicePort_Rules : goslice Rule;
  ServicePort_TargetEnabled : option bool;
  ServicePort_TargetPath : string;
  ServicePort_TargetPathMatch : string;
  ServicePort_TargetRewritePath : string;
  ServicePort_TargetRewriteMatch : string;
  ServicePort_TargetPriority : Z;
  ServicePort_TargetInternalPort : Z;
  ServicePort_TargetHealthCheck : option HealthCheck;
}.

#[export] Instance zero_ServicePort : Zero ServicePort :=
  mkServicePort "" "" 0 0 "" "" "" "" false "" None None None None None "" "" "" "" 0 0 None.

Definition BuildServiceResource (sp : ServicePort) (cfg : Config) : Resource :=
  if ServicePort_FullDomain sp != "" then
    let tlsServerName :=
      if ServicePort_TLSServerName sp != "" then ServicePort_TLSServerName sp
      else ServicePort_FullDomain sp in
    {|
      Resource_Name := ServicePort_Name sp;
      Resource_Protocol := "http";
      Resource_Enabled := None;
      Resource_SSL := ServicePort_SSL sp;
      Resource_FullDomain := ServicePort_FullDomain sp;
      Resource_HostHeader := ServicePort_HostHeader sp;
      Resource_TLSServerName := tlsServerName;
      Resource_ProxyPort := 0;
      Resource_Headers := ServicePort_Headers sp;
      Resource_Auth := ServicePort_Auth sp;
      Resource_Maintenance := ServicePort_Maintenance sp;
      Resource_Rules := ServicePort_Rules sp;
      Resource_Targets := Some [{|
        Target_Site := Config_SiteID cfg;
        Target_Hostname := ServicePort_TargetHostname sp;
        Target_Enabled := ServicePort_TargetEnabled sp;
        Target_Method := ServicePort_Method sp;
        Target_Port := ServicePort_TargetPort sp;
        Target_InternalPort := ServicePort_TargetInternalPort sp;
        Target_Path := ServicePort_TargetPath sp;
        Target_PathMatch := ServicePort_TargetPathMatch sp;
        Target_RewritePath := ServicePort_TargetRewritePath sp;
        Target_RewriteMatch := ServicePort_TargetRewriteMatch sp;
        Target_Priority := ServicePort_TargetPriority sp;
        Target_HealthCheck := ServicePort_TargetHealthCheck sp;
      |}];
    |}
  else
    {|
      Resource_Name := ServicePort_Name sp;
      Resource_Protocol := ServicePort_Protocol sp;
      Resource_Enabled := None;
      Resource_SSL := false;
      Resource_FullDomain := "";
      Resource_HostHeader := "";
      Resource_TLSServerName := "";
      Resource_ProxyPort := ServicePort_ProxyPort sp;
      Resource_Headers := None;
      Resource_Auth := None;
      Resource_Maintenance := None;
      Resource_Rules := None;
      Resource_Targets := Some [{|
        Target_Site := Config_SiteID cfg;
        Target_Hostname := ServicePort_TargetHostname sp;
        Target_Enabled := None;
        Target_Method := "";
        Target_Port := ServicePort_TargetPort sp;
        Target_InternalPort := 0;
        Target_Path := "";
        Target_PathMatch := "";
        Target_RewritePath := "";
        Target_RewriteMatch := "";
        Target_Priority := 0;
        Target_HealthCheck := None;
      |}];
    |}.
