(* ===== verification/BlueprintProps.v ===== *)
(** * What the builders of package [blueprint] guarantee

    Rules, comma-separated lists, target extras, authentication, map keys and
    the decoding of the health-check annotation. *)

From stdpp Require Import options.
From S2P Require Import Prelude GoStrings GoJson Config Blueprint.

Local Open Scope go_scope.

(** ** Reference definitions *)

(** The nil slice for nothing, the list otherwise. *)
Definition of_nonempty {A} (l : list A) : goslice A :=
  match l with [] => None | _ => Some l end.

(** The non-empty trimmed parts of a comma-separated list. *)
Definition csv_items (s : string) : list string :=
  filter (λ v, v ≠ "") (TrimSpace <$> Split "," s).

(** The rules an annotation spells out, before validation. *)
Definition annotation_rules (annotations : gomap string) (prefix : string) : list Rule :=
  match annotations⟦prefix +:+ "/rules"⟧? with
  | Some raw => match Unmarshal_Rules raw with Some rs => elems rs | None => [] end
  | None => []
  end.

Definition deny_rule (country : string) : Rule := mkRule "deny" "country" country 0.

(** The shape Pangolin accepts. *)
Definition rule_ok (r : Rule) : Prop :=
  (Rule_Action r = "allow" ∨ Rule_Action r = "deny" ∨ Rule_Action r = "pass")
  ∧ (Rule_Match r = "cidr" ∨ Rule_Match r = "ip" ∨ Rule_Match r = "path"
     ∨ Rule_Match r = "country")
  ∧ Rule_Value r ≠ ""
  ∧ (Rule_Priority r = 0 ∨ 1 ≤ Rule_Priority r ≤ 1000)%Z.

(** ** Loops that append *)

Section appending.
  Context {A B : Type}.

(** A loop that appends what it keeps, as [map] and [filter]. *)
Lemma foldl_append (P : B → Prop) `{∀ x, Decision (P x)} (f : A → B) (g : goslice B → A → goslice B)
    (s : goslice B) (l : list A) :
  (∀ s x, g s x = if bool_decide (P (f x)) then append s [f x] else s) →
  foldl g s l = append s (filter P (f <$> l)).
Proof.
  intros Hg. revert s. induction l as [|x l IH]; intros s; [done|].
  change (foldl g s (x :: l)) with (foldl g (g s x) l).
  rewrite IH, Hg, fmap_cons, filter_cons. case_bool_decide as HP.
  - rewrite decide_True by done. destruct (filter P (f <$> l)); simpl; [done|].
    by rewrite <- app_assoc.
  - by rewrite decide_False by done.
Qed.

Lemma append_None (l : list B) : append None l = of_nonempty l.
Proof. by destruct l. Qed.

End appending.

Lemma splitCSV_items s : splitCSV s = of_nonempty (csv_items s).
Proof.
  unfold splitCSV. case_bool_decide as Hs; [by subst|].
  rewrite (foldl_append (λ v, v ≠ "") TrimSpace), append_None; [done|].
  intros out v. simpl. repeat case_bool_decide; naive_solver.
Qed.

Lemma elems_of_nonempty {A} (l : list A) : elems (of_nonempty l) = l.
Proof. by destruct l. Qed.

Lemma buildDenyRules_items cfg :
  buildDenyRules cfg = of_nonempty (deny_rule <$> csv_items (Config_DenyCountries cfg)).
Proof.
  unfold buildDenyRules. case_bool_decide as Hs; [by rewrite Hs|].
  rewrite (foldl_append (λ r, Rule_Value r ≠ "") (λ c, deny_rule (TrimSpace c))), append_None.
  - f_equal. unfold csv_items. generalize (Split "," (Config_DenyCountries cfg)). intros l.
    induction l as [|c l IH]; [done|]. simpl. rewrite !filter_cons.
    repeat case_decide; simpl in *; [by f_equal | done | done | done].
  - intros out v. simpl. repeat case_bool_decide; naive_solver.
Qed.

Lemma isValidRule_ok r : isValidRule r = true ↔ rule_ok r.
Proof.
  assert (isValidRule r =
    bool_decide (Rule_Action r ∈ ["allow"; "deny"; "pass"])
    && (bool_decide (Rule_Match r ∈ ["cidr"; "ip"; "path"; "country"])
    && ((Rule_Value r != "")
    && ((Rule_Priority r == 0%Z)
        || negb ((Rule_Priority r <? 1)%Z || (1000 <? Rule_Priority r)%Z))))) as ->.
  { unfold isValidRule.
    destruct (bool_decide (Rule_Action r ∈ _)), (bool_decide (Rule_Match r ∈ _)),
      (Rule_Value r == ""), (Rule_Priority r == 0%Z),
      ((Rule_Priority r <? 1)%Z || (1000 <? Rule_Priority r)%Z); done. }
  unfold rule_ok.
  rewrite !andb_true_iff, orb_true_iff, !negb_true_iff, orb_false_iff,
    !bool_decide_eq_true, bool_decide_eq_false, Z.ltb_ge, Z.ltb_ge.
  rewrite !elem_of_cons, !elem_of_nil. intuition lia.
Qed.

(** ** Rules *)

Lemma filter_all {A} (P : A → Prop) `{∀ x, Decision (P x)} (l : list A) :
  Forall P l → filter P l = l.
Proof. induction 1; [done|]. rewrite filter_cons_True by done. by f_equal. Qed.

Lemma BuildRules_elems annotations prefix cfg :
  BuildRules annotations prefix cfg =
    of_nonempty (filter (λ r, isValidRule r = true) (annotation_rules annotations prefix)
                 ++ (deny_rule <$> csv_items (Config_DenyCountries cfg))).
Proof.
  unfold BuildRules, annotation_rules. rewrite buildDenyRules_items.
  generalize (deny_rule <$> csv_items (Config_DenyCountries cfg)). intros deny.
  assert (∀ rs : list Rule,
    foldl (λ rules r, if isValidRule r then append rules [r] else rules) None rs
    = of_nonempty (filter (λ r, isValidRule r = true) rs)) as Hfold.
  { intros rs. rewrite (foldl_append (λ r, isValidRule r = true) id), list_fmap_id.
    - by rewrite append_None.
    - intros s x. unfold id. destruct (isValidRule x); case_bool_decide; congruence. }
  assert (∀ s l, s = of_nonempty l →
    match elems (append_slice s (of_nonempty deny)) with
    | [] => None | _ => append_slice s (of_nonempty deny) end = of_nonempty (l ++ deny)) as Happ.
  { intros s l ->. rewrite elems_append_slice, !elems_of_nonempty.
    unfold append_slice. rewrite elems_of_nonempty.
    destruct l, deny; simpl; by rewrite ?app_nil_r. }
  apply Happ. destruct (annotations⟦_⟧?) as [raw|]; [|done].
  case_bool_decide as Hraw; [by subst|]. simpl.
  destruct (Unmarshal_Rules raw); [|done]. apply Hfold.
Qed.


Lemma csv_items_ok s v : v ∈ csv_items s →
  v ≠ "" ∧ TrimSpace v = v ∧ contains "," v = false.
Proof.
  unfold csv_items. rewrite list_elem_of_filter, list_elem_of_fmap.
  intros (Hne & p & -> & Hp). split_and!; [done | apply TrimSpace_idemp |].
  apply TrimSpace_contains. pose proof (Split_free "," s) as Hf.
  rewrite Forall_forall in Hf. by apply Hf.
Qed.

(** C29. What [BuildRules] returns: the annotation's rules that pass
    [isValidRule], in order, followed by one deny rule per country of the
    configuration, in order; nil when there is none, and an annotation that is
    not a JSON array of rules counts as absent. *)
Theorem BuildRules_spec annotations prefix cfg :
  BuildRules annotations prefix cfg =
    of_nonempty (filter (λ r, isValidRule r = true) (annotation_rules annotations prefix)
                 ++ (deny_rule <$> csv_items (Config_DenyCountries cfg))).
Proof. apply BuildRules_elems. Qed.

(** Every rule [BuildRules] lets through has an action and a match Pangolin
    knows, a non-empty value, and a priority that is 0 or between 1 and 1000,
    whatever the annotation and the configuration hold. *)
Theorem BuildRules_valid annotations prefix cfg :
  Forall rule_ok (elems (BuildRules annotations prefix cfg)).
Proof.
  rewrite BuildRules_elems, elems_of_nonempty. apply Forall_app. split.
  - apply Forall_forall. intros r [Hr _]%list_elem_of_filter. by apply isValidRule_ok.
  - apply Forall_fmap, Forall_forall. intros c (Hc & _)%csv_items_ok.
    unfold rule_ok. simpl. auto 10.
Qed.

(** ** Comma-separated lists *)

(** Splitting what [Join] glued gives the list back: every list of
    non-empty trimmed comma-free items survives a configuration flag. *)
Theorem splitCSV_Join l :
  l ≠ [] → Forall (λ v, v ≠ "" ∧ TrimSpace v = v ∧ contains "," v = false) l →
  splitCSV (Join l ",") = Some l.
Proof.
  intros Hne Hl. rewrite splitCSV_items. unfold csv_items.
  rewrite Split_Join; [|done|eapply Forall_impl; [apply Hl | naive_solver]].
  assert (TrimSpace <$> l = l) as ->.
  { clear Hne. induction Hl as [|v l (_ & Hv & _) _ IH]; [done|].
    rewrite fmap_cons, Hv. by f_equal. }
  rewrite filter_all by (eapply Forall_impl; [apply Hl | naive_solver]).
  by destruct l.
Qed.

Lemma splitCSV_Join_witness :
  (["Member"; "Dev Ops"] ≠ [] ∧
   Forall (λ v, v ≠ "" ∧ TrimSpace v = v ∧ contains "," v = false) ["Member"; "Dev Ops"])
  ∧ splitCSV "Member,Dev Ops" = Some ["Member"; "Dev Ops"].
Proof.
  assert (["Member"; "Dev Ops"] ≠ [] ∧
    Forall (λ v, v ≠ "" ∧ TrimSpace v = v ∧ contains "," v = false) ["Member"; "Dev Ops"])
    as [H1 H2] by (split; [done | repeat constructor; done]).
  split; [split; [exact H1 | exact H2] | exact (splitCSV_Join _ H1 H2)].
Defined.

(** The items [splitCSV] returns are non-empty, trimmed and free of commas,
    and it never returns an empty slice that is not nil. *)
Theorem splitCSV_items_clean s :
  Forall (λ v, v ≠ "" ∧ TrimSpace v = v ∧ contains "," v = false) (elems (splitCSV s))
  ∧ splitCSV s ≠ Some [].
Proof.
  rewrite splitCSV_items. split.
  - rewrite elems_of_nonempty. apply Forall_forall. apply csv_items_ok.
  - by destruct (csv_items s).
Qed.

(** ** Target extras *)

(** What a target may hold in the fields the annotations control. *)
Definition target_ok (t : Target) : Prop :=
  (Target_Priority t = 0 ∨ 1 ≤ Target_Priority t ≤ 1000)%Z
  ∧ (Target_InternalPort t = 0 ∨ 1 ≤ Target_InternalPort t ≤ 65535)%Z
  ∧ Target_PathMatch t ∈ [""; "prefix"; "exact"; "regex"]
  ∧ Target_RewriteMatch t ∈ [""; "exact"; "prefix"; "regex"; "stripPrefix"].

(** The fields the annotations do not control. *)
Definition target_base (t : Target) : string * string * string * Z :=
  (Target_Site t, Target_Hostname t, Target_Method t, Target_Port t).

(** Relation between a target before and after some of the assignments. *)
Definition extends (t t' : Target) : Prop :=
  target_base t' = target_base t ∧ (target_ok t → target_ok t').

#[export] Instance extends_preorder : PreOrder extends.
Proof.
  split; [by intros t; split|].
  intros t1 t2 t3 [Hb1 Ho1] [Hb2 Ho2]. split; [by rewrite Hb2 | tauto].
Qed.

(** One guarded assignment keeps [extends]. *)
Lemma extends_if (b : bool) (t t1 : Target) (f : Target → Target) :
  extends t t1 → (b = true → extends t1 (f t1)) → extends t (if b then f t1 else t1).
Proof. destruct b; intros H Hf; [|done]. etrans; eauto. Qed.

Lemma extends_Atoi (o : option Z) (lo hi : Z) (t t1 : Target) (f : Z → Target → Target) :
  extends t t1 → (∀ p, (lo ≤ p ≤ hi)%Z → extends t1 (f p t1)) →
  extends t (match o with
             | Some p => if (lo <=? p)%Z && (p <=? hi)%Z then f p t1 else t1
             | None => t1
             end).
Proof.
  intros H Hf. destruct o as [p|]; [|done].
  apply (extends_if _ _ _ (f p)); [done|]. intros Hb. go_bool. by apply Hf.
Qed.

Ltac extends_field :=
  split; [done|]; unfold target_ok; simpl; intros (? & ? & ? & ?); split_and!;
    go_bool; try done; auto; by apply elem_of_cons; right.

(** Goes on from the value a [let] binds to the rest of the function. *)
Ltac extends_step :=
  lazymatch goal with
  | |- extends ?b (let t := ?v in @?k t) =>
      let H := fresh in
      cut (∀ t, extends b t → extends b (k t));
      [ intros H; apply (H v); clear H; cbv zeta
      | let t := fresh "t" in intros t ?; cbv beta ]
  end.

Lemma BuildTargetExtras_extends base annotations prefix :
  extends base (BuildTargetExtras base annotations prefix).
Proof.
  cbv beta delta [BuildTargetExtras].
  extends_step; [done|].
  extends_step; [apply (extends_if _ _ _ (set_Path _)); [done | intros _; extends_field]|].
  extends_step; [apply (extends_if _ _ _ (λ t, if bool_decide _ then set_PathMatch _ t else t));
    [done | intros _; apply (extends_if _ _ _ (set_PathMatch _)); [done | intros; extends_field]]|].
  extends_step; [apply (extends_if _ _ _ (set_RewritePath _)); [done | intros _; extends_field]|].
  extends_step;
    [apply (extends_if _ _ _ (λ t, if bool_decide _ then set_RewriteMatch _ t else t));
    [done | intros _; apply (extends_if _ _ _ (set_RewriteMatch _)); [done | intros; extends_field]]|].
  extends_step; [case_bool_decide; [done|];
    apply (extends_Atoi _ 1 1000 _ _ set_Priority); [done | intros; extends_field]|].
  extends_step; [case_bool_decide; [done|];
    apply (extends_Atoi _ 1 65535 _ _ set_InternalPort); [done | intros; extends_field]|].
  extends_step; [case_bool_decide; [done|]; simpl;
    case_match; [etrans; [done | extends_field] | done]|].
  cbv zeta. apply (extends_if _ _ _ (set_Enabled _)); [done | intros _; extends_field].
Qed.

(** C38. [BuildTargetExtras] never puts an out-of-range priority (1 to 1000) or
    internal port (1 to 65535) or an unknown match type on a target that had
    none, and never touches site, hostname, method and port. *)
Theorem BuildTargetExtras_ok base annotations prefix :
  target_base (BuildTargetExtras base annotations prefix) = target_base base
  ∧ (target_ok base → target_ok (BuildTargetExtras base annotations prefix)).
Proof. apply BuildTargetExtras_extends. Qed.

(** ** Authentication *)

(** The two inputs of [BuildAuth] that do not come from the secret. *)
Definition sso_annotation (annotations : gomap string) (prefix : string) : bool :=
  match annotations⟦prefix +:+ "/auth-sso"⟧? with Some v => isTruthy v | None => false end.

Definition whitelist_raw (annotations : gomap string) (cfg : Config) : string :=
  match annotations⟦Config_AnnotationPrefix cfg +:+ "/auth-whitelist-users"⟧? with
  | Some av => av | None => Config_AuthWhitelistUsers cfg
  end.

(** Is there a usable credential in the secret data? *)
Definition secret_empty (secretData : gomap string) : Prop :=
  secretPincode secretData = 0%Z ∧ secretPassword secretData = "" ∧
  secretBasicAuth secretData = None.

Lemma BuildAuth_cases annotations secretData cfg :
  let sso := sso_annotation annotations (Config_AnnotationPrefix cfg) in
  let wl := splitCSV (whitelist_raw annotations cfg) in
  (BuildAuth annotations secretData cfg = None ∧
     sso = false ∧ elems wl = [] ∧ secret_empty secretData)
  ∨ (∃ roles users idp,
      BuildAuth annotations secretData cfg =
        Some (mkAuth (secretPincode secretData) (secretPassword secretData)
                (secretBasicAuth secretData) sso roles users wl idp)
      ∧ (sso = false → roles = None ∧ users = None ∧ idp = 0%Z)
      ∧ ¬ (sso = false ∧ elems wl = [] ∧ secret_empty secretData)).
Proof.
  cbv zeta. unfold secret_empty, BuildAuth.
  change (match annotations⟦Config_AnnotationPrefix cfg +:+ "/auth-sso"⟧? with
          | Some v => isTruthy v | None => false end)
    with (sso_annotation annotations (Config_AnnotationPrefix cfg)).
  change (match annotations⟦Config_AnnotationPrefix cfg +:+ "/auth-whitelist-users"⟧? with
          | Some av => av | None => Config_AuthWhitelistUsers cfg end)
    with (whitelist_raw annotations cfg).
  generalize (sso_annotation annotations (Config_AnnotationPrefix cfg)) as sso.
  generalize (splitCSV (whitelist_raw annotations cfg)) as wl.
  generalize (secretPincode secretData) as pin, (secretPassword secretData) as pw,
    (secretBasicAuth secretData) as ba.
  intros ba pw pin wl sso.
  destruct (negb sso && _ && _ && _ && _) eqn:E; go_bool.
  - left. destruct sso; [done|]. go_bool. done.
  - right. destruct sso; simpl; do 3 eexists; (split; [done|]); split; try done;
      intros (? & ? & ? & ? & ?); simplify_eq/=.
    rewrite !bool_decide_eq_true_2 in E by done. done.
Qed.

Lemma BuildResource_no_auth name h annotations cfg :
  sso_annotation annotations (Config_AnnotationPrefix cfg) = false →
  elems (splitCSV (whitelist_raw annotations cfg)) = [] →
  Resource_Auth (BuildResource name h annotations None cfg) = None.
Proof.
  intros Hsso Hwl. simpl.
  destruct (BuildAuth_cases (match annotations with None => Some ∅ | a => a end) None cfg)
    as [[Hauth _] | (roles & users & idp & _ & _ & Hne)]; [exact Hauth|].
  destruct Hne. unfold sso_annotation, whitelist_raw in *. rewrite !map_get_or_empty. done.
Qed.

(** [BuildAuth] returns nil exactly when SSO is not switched on by the
    annotation, the whitelist is empty and the secret yields no pincode, no
    password and no basic auth. *)
Theorem BuildAuth_nil_iff annotations secretData cfg :
  BuildAuth annotations secretData cfg = None ↔
    sso_annotation annotations (Config_AnnotationPrefix cfg) = false
    ∧ elems (splitCSV (whitelist_raw annotations cfg)) = []
    ∧ secret_empty secretData.
Proof.
  destruct (BuildAuth_cases annotations secretData cfg)
    as [(-> & H) | (roles & users & idp & -> & _ & H)]; [done | split; [done | tauto]].
Qed.

(** C32. Sensitive values come from the secret only: pincode, password and basic
    auth of the block are functions of the secret data, whatever the annotations
    and the configuration, and without secret data all three are empty. *)
Theorem BuildAuth_secrets annotations secretData cfg auth :
  BuildAuth annotations secretData cfg = Some auth →
  Auth_Pincode auth = secretPincode secretData
  ∧ Auth_Password auth = secretPassword secretData
  ∧ Auth_BasicAuth auth = secretBasicAuth secretData
  ∧ (secretData = None →
     Auth_Pincode auth = 0%Z ∧ Auth_Password auth = "" ∧ Auth_BasicAuth auth = None).
Proof.
  intros H. destruct (BuildAuth_cases annotations secretData cfg)
    as [[H' _] | (roles & users & idp & H' & _)]; rewrite H in H'; simplify_eq/=.
  split_and!; [done..|]. by intros ->.
Qed.

Lemma BuildAuth_secrets_witness :
  BuildAuth None (Some {[ "password" := "s3cr3t" ]}) defaultConfig
    = Some (mkAuth 0 "s3cr3t" None false None None None 0)
  ∧ secretPassword (Some {[ "password" := "s3cr3t" ]}) = "s3cr3t".
Proof.
  assert (BuildAuth None (Some {[ "password" := "s3cr3t" ]}) defaultConfig
    = Some (mkAuth 0 "s3cr3t" None false None None None 0)) as H by reflexivity.
  split; [exact H|]. exact (eq_sym (proj1 (proj2 (BuildAuth_secrets _ _ _ _ H)))).
Defined.

(** SSO is opt-in per resource: without a truthy [auth-sso] annotation no
    global default switches it on, and the block carries no SSO role, user or
    identity provider. *)
Theorem BuildAuth_sso_opt_in annotations secretData cfg auth :
  BuildAuth annotations secretData cfg = Some auth →
  sso_annotation annotations (Config_AnnotationPrefix cfg) = false →
  Auth_SSOEnabled auth = false ∧ Auth_SSORoles auth = None ∧ Auth_SSOUsers auth = None
  ∧ Auth_AutoLoginIDP auth = 0%Z.
Proof.
  intros H Hsso. destruct (BuildAuth_cases annotations secretData cfg)
    as [[H' _] | (roles & users & idp & H' & Hno & _)]; rewrite H in H'; simplify_eq/=.
  destruct (Hno Hsso) as (-> & -> & ->). done.
Qed.

Lemma BuildAuth_sso_opt_in_witness :
  let cfg := mkConfig "" "" "" "" "s" "" 443 "https" "" true "p" true false false
               "Admins" "a@b" 3 "u@x" 0 in
  sso_annotation None "p" = false ∧
  ∃ auth, BuildAuth None None cfg = Some auth ∧ Auth_SSOEnabled auth = false
          ∧ Auth_AutoLoginIDP auth = 0%Z.
Proof.
  simpl. split; [reflexivity|]. eexists. split; [reflexivity|].
  destruct (BuildAuth_sso_opt_in None None
    (mkConfig "" "" "" "" "s" "" 443 "https" "" true "p" true false false
       "Admins" "a@b" 3 "u@x" 0) _ eq_refl eq_refl) as (H1 & _ & _ & H2).
  exact (conj H1 H2).
Defined.

(** The secret enters [BuildAuth] through the three values only. *)
Lemma BuildAuth_secret_ext annotations sd1 sd2 cfg :
  secretPincode sd1 = secretPincode sd2 → secretPassword sd1 = secretPassword sd2 →
  secretBasicAuth sd1 = secretBasicAuth sd2 →
  BuildAuth annotations sd1 cfg = BuildAuth annotations sd2 cfg.
Proof. intros H1 H2 H3. unfold BuildAuth. by rewrite H1, H2, H3. Qed.

(** A pincode of zeros is no pincode: a secret whose [pincode] parses to 0
    (such as 0000) gives the auth block of the secret without that key, which
    is nil when nothing else protects the resource. *)
Theorem BuildAuth_zero_pincode annotations sd v cfg :
  Atoi v = Some 0%Z →
  BuildAuth annotations (Some (<[ "pincode" := v ]> sd)) cfg
  = BuildAuth annotations (Some (delete "pincode" sd)) cfg.
Proof.
  intros Hv. apply BuildAuth_secret_ext; unfold secretPincode, secretPassword,
    secretBasicAuth, map_index, map_get; simpl.
  - rewrite lookup_insert_eq, lookup_delete_eq, Hv. by case_bool_decide.
  - by rewrite lookup_insert_ne, lookup_delete_ne.
  - by rewrite !lookup_insert_ne, !lookup_delete_ne.
Qed.

Lemma BuildAuth_zero_pincode_witness :
  Atoi "0000" = Some 0%Z ∧
  BuildAuth None (Some {[ "pincode" := "0000" ]}) defaultConfig = None.
Proof.
  split; [reflexivity|].
  exact (eq_trans (BuildAuth_zero_pincode None ∅ "0000" defaultConfig eq_refl) eq_refl).
Defined.

(** ** Map keys *)

(** What [HostnameToKey] cannot tell apart. *)
Definition same_key_byte (c d : ascii) : Prop :=
  c = d ∨ (c = "."%char ∧ d = "-"%char) ∨ (c = "-"%char ∧ d = "."%char).

(** Two hostnames share a map key exactly when they agree byte by byte up
    to dots against dashes; so keys are unique among hostnames without dashes,
    and [a-b.com] and [a.b.com] collide. *)
Theorem HostnameToKey_eq_iff h1 h2 :
  HostnameToKey h1 = HostnameToKey h2 ↔ Forall2 same_key_byte (to_bytes h1) (to_bytes h2).
Proof.
  unfold HostnameToKey. revert h2; induction h1 as [|c h1 IH]; intros [|d h2]; simpl.
  - split; [constructor | done].
  - split; [done | by inversion 1].
  - split; [done | by inversion 1].
  - rewrite Forall2_cons, <- IH. unfold same_key_byte. split.
    + intros [= Hc Hh]. split; [|done]. repeat case_bool_decide; naive_solver.
    + intros [Hc ->]. f_equal.
      destruct Hc as [-> | [[-> ->] | [-> ->]]]; [done | by repeat case_bool_decide..].
Qed.

(** For one Service the keys of two ports coincide only for the same port
    and protocol, whatever the names contain. *)
Theorem ServiceToKey_inj namespace name port1 port2 proto1 proto2 :
  (0 ≤ port1)%Z → (0 ≤ port2)%Z →
  ServiceToKey namespace name (Itoa port1) proto1 = ServiceToKey namespace name (Itoa port2) proto2 →
  port1 = port2 ∧ proto1 = proto2.
Proof.
  intros H1 H2 Heq. unfold ServiceToKey in Heq.
  do 4 apply (inj (String.append _)) in Heq.
  apply (append_sep_inj "-" (Itoa port1) proto1 (Itoa port2) proto2) in Heq;
    [|by apply contains_Itoa..].
  destruct Heq as [Hp ->]. split; [by apply Itoa_inj | done].
Qed.

Lemma ServiceToKey_inj_witness :
  ((0 ≤ 7777)%Z ∧ ServiceToKey "default" "gameserver" (Itoa 7777) "tcp"
                  = "default-gameserver-7777-tcp") ∧
  (7777 = 7777)%Z ∧ "tcp" = "tcp".
Proof.
  split; [split; [lia | reflexivity]|].
  exact (ServiceToKey_inj "default" "gameserver" 7777 7777 "tcp" "tcp"
           ltac:(lia) ltac:(lia) eq_refl).
Defined.

(** Across Services the key is ambiguous: a dash may move from the
    namespace to the name without changing it. *)
Theorem ServiceToKey_collision a b c port protocol :
  ServiceToKey (a +:+ "-" +:+ b) c port protocol = ServiceToKey a (b +:+ "-" +:+ c) port protocol.
Proof. unfold ServiceToKey. by rewrite !append_assoc. Qed.

(** ** The health-check annotation *)

Definition healthcheck_fields : list string :=
  ["Hostname"; "Port"; "Enabled"; "Path"; "Scheme"; "Mode"; "Interval"; "UnhealthyInterval";
   "Timeout"; "Headers"; "FollowRedirects"; "Method"; "Status"].

(** A member whose key stands for no field is skipped wherever it is. *)
Lemma dec_struct_skip {A} fields (set : A → string → json → option A) cur ms1 ms2 k v :
  field_for fields k = None →
  dec_struct fields set cur (JObj (ms1 ++ (k, v) :: ms2))
  = dec_struct fields set cur (JObj (ms1 ++ ms2)).
Proof.
  intros Hk. simpl. rewrite !foldl_app. simpl. rewrite Hk. f_equal.
  by destruct (foldl _ (Some cur) ms1).
Qed.

(** The documented keys [unhealthy-interval] and [follow-redirects] of the
    health-check annotation are ignored: [encoding/json] knows the fields as
    UnhealthyInterval and FollowRedirects, and a member with the dashed key
    changes nothing, whatever its value and position. *)
Theorem healthcheck_dashed_keys_ignored cur ms1 ms2 v :
  json_HealthCheck cur (JObj (ms1 ++ ("unhealthy-interval", v) :: ms2))
    = json_HealthCheck cur (JObj (ms1 ++ ms2))
  ∧ json_HealthCheck cur (JObj (ms1 ++ ("follow-redirects", v) :: ms2))
    = json_HealthCheck cur (JObj (ms1 ++ ms2)).
Proof. split; apply dec_struct_skip; reflexivity. Qed.

Example healthcheck_readme :
  Unmarshal_HealthCheck (quoted "{ 'hostname': 'app.svc', 'port': 8080, 'enabled': true,
    'path': '/health', 'interval': 30, 'timeout': 5, 'method': 'GET', 'status': 200,
    'unhealthy-interval': 7, 'unhealthyInterval': 9 }")
  = Some (mkHealthCheck "app.svc" 8080 (Some true) "/health" "" "" 30 9 5 None None "GET" 200).
Proof. vm_compute. reflexivity. Qed.
