(* ===== verification/Annotations.v ===== *)
(** * What the JSON annotations can express

    The rules, headers and health-check annotations are JSON of the Go values.
    Every value whose strings are valid UTF-8 and whose numbers fit an [int] has
    an annotation that decodes to it: the builders of [blueprint] undo the
    writing of [JsonPrint]. *)

From stdpp Require Import options.
From S2P Require Import Prelude GoStrings GoJson JsonPrint Config Blueprint BlueprintProps.

Local Open Scope go_scope.

(** ** Definitions *)

Definition header_json (h : Header) : json :=
  JObj [("Name", JStr (Header_Name h)); ("Value", JStr (Header_Value h))].

Definition rule_json (r : Rule) : json :=
  JObj [("Action", JStr (Rule_Action r)); ("Match", JStr (Rule_Match r));
        ("Value", JStr (Rule_Value r)); ("Priority", JNum (Itoa (Rule_Priority r)))].

Definition bool_json (b : option bool) : json :=
  match b with Some b => JBool b | None => JNull end.

Definition slice_json {A} (f : A → json) (s : goslice A) : json :=
  match s with Some l => JArr (map f l) | None => JNull end.

Definition healthcheck_json (hc : HealthCheck) : json :=
  JObj [("Hostname", JStr (HealthCheck_Hostname hc));
        ("Port", JNum (Itoa (HealthCheck_Port hc)));
        ("Enabled", bool_json (HealthCheck_Enabled hc));
        ("Path", JStr (HealthCheck_Path hc));
        ("Scheme", JStr (HealthCheck_Scheme hc));
        ("Mode", JStr (HealthCheck_Mode hc));
        ("Interval", JNum (Itoa (HealthCheck_Interval hc)));
        ("UnhealthyInterval", JNum (Itoa (HealthCheck_UnhealthyInterval hc)));
        ("Timeout", JNum (Itoa (HealthCheck_Timeout hc)));
        ("Headers", slice_json header_json (HealthCheck_Headers hc));
        ("FollowRedirects", bool_json (HealthCheck_FollowRedirects hc));
        ("Method", JStr (HealthCheck_Method hc));
        ("Status", JNum (Itoa (HealthCheck_Status hc)))].

(** The values that can be written. *)
Definition header_ok (h : Header) : Prop := valid (Header_Name h) ∧ valid (Header_Value h).

Definition rule_writable (r : Rule) : Prop :=
  valid (Rule_Action r) ∧ valid (Rule_Match r) ∧ valid (Rule_Value r)
  ∧ in_int64 (Rule_Priority r) = true.

Definition healthcheck_ok (hc : HealthCheck) : Prop :=
  Forall valid [HealthCheck_Hostname hc; HealthCheck_Path hc; HealthCheck_Scheme hc;
                HealthCheck_Mode hc; HealthCheck_Method hc]
  ∧ Forall (λ z, in_int64 z = true)
      [HealthCheck_Port hc; HealthCheck_Interval hc; HealthCheck_UnhealthyInterval hc;
       HealthCheck_Timeout hc; HealthCheck_Status hc]
  ∧ Forall header_ok (elems (HealthCheck_Headers hc)).

(** ** Decoding what was written *)

Lemma print_nonempty d j : printable d j → print j ≠ "".
Proof.
  intros Hj E. pose proof (starts_print d j [] Hj) as Hs. rewrite app_nil_r in Hs.
  unfold print in E. apply (f_equal to_bytes) in E. rewrite bytes_of_bytes in E. by rewrite E in Hs.
Qed.

(** A slice that is decoded into nothing. *)
Lemma dec_slice_map {A B} (dec : A → json → option A) z (enc : B → json) (f : B → A) l :
  Forall (λ x, dec z (enc x) = Some (f x)) l →
  dec_slice dec z [] (JArr (map enc l)) = Some (Some (map f l), map f l).
Proof.
  intros Hl.
  assert (dec_elems dec z [] (map enc l) = Some (map f l)) as He.
  { induction Hl as [|x l Hx _ IH]; [done|]. cbn. by rewrite Hx, IH. }
  destruct l as [|x l]; [done|]. cbn [map dec_slice] in *. rewrite He. cbn.
  by rewrite length_map, take_ge by (rewrite length_map; lia).
Qed.

(** An object whose next key is the name of a field. *)
Lemma dec_struct_cons {A} fields (set : A → string → json → option A) cur cur' f v ms :
  bool_decide (f ∈ fields) = true → set cur f v = Some cur' →
  dec_struct fields set cur (JObj ((f, v) :: ms)) = dec_struct fields set cur' (JObj ms).
Proof.
  intros Hf Hs. unfold dec_struct. simpl. unfold field_for. by rewrite Hf, Hs.
Qed.

Lemma bool_json_ptr b : dec_bool_ptr (bool_json b) = Some b.
Proof. by destruct b. Qed.

(** Decodes an object field by field; [lem] is tried on the value of a field. *)
Ltac decode lem :=
  repeat (erewrite dec_struct_cons;
    [| reflexivity
     | first [ reflexivity
             | cbn -[Atoi Itoa dec_slice]; rewrite Atoi_Itoa by done; reflexivity
             | cbn -[dec_slice]; rewrite lem; reflexivity ]]);
  try reflexivity.

Lemma json_Header_header h : json_Header zero (header_json h) = Some h.
Proof. destruct h. unfold json_Header, header_json. decode bool_json_ptr. Qed.

Lemma json_Rule_rule r : in_int64 (Rule_Priority r) = true → json_Rule zero (rule_json r) = Some r.
Proof. destruct r as [a m v p]. intros Hp. unfold json_Rule, rule_json. decode bool_json_ptr. Qed.

Lemma dec_slice_headers hs :
  dec_slice json_Header zero [] (slice_json header_json hs) = Some (hs, elems hs).
Proof.
  destruct hs as [l|]; [|done]. cbn [slice_json].
  rewrite (dec_slice_map _ _ _ id); [by rewrite map_id|].
  apply Forall_forall. intros h _. apply json_Header_header.
Qed.

Lemma json_HealthCheck_healthcheck hc : healthcheck_ok hc →
  fst <$> json_HealthCheck (zero, []) (healthcheck_json hc) = Some hc.
Proof.
  destruct hc as [ho po en pa sc mo iv ui ti hs fr me st].
  intros (_ & Hn & _). repeat (apply Forall_cons in Hn as [? Hn]).
  unfold json_HealthCheck, healthcheck_json.
  cbn [HealthCheck_Hostname HealthCheck_Port HealthCheck_Enabled HealthCheck_Path HealthCheck_Scheme
    HealthCheck_Mode HealthCheck_Interval HealthCheck_UnhealthyInterval HealthCheck_Timeout
    HealthCheck_Headers HealthCheck_FollowRedirects HealthCheck_Method HealthCheck_Status].
  decode bool_json_ptr. decode dec_slice_headers. decode bool_json_ptr.
Qed.

(** ** The annotations *)

Lemma printable_header h : header_ok h → printable 1 (header_json h).
Proof. intros []. simpl. repeat constructor; done. Qed.

Lemma printable_rule r : rule_writable r → printable 1 (rule_json r).
Proof. intros (? & ? & ? & _). simpl. repeat constructor; eauto. Qed.

Lemma printable_mono d d' j : printable d j → d ≤ d' → printable d' j.
Proof.
  revert d' j; induction d as [|d IH]; intros d' j Hj Hd.
  - destruct j, d'; done.
  - destruct d' as [|d']; [lia|]. destruct j as [| | | |l|ms]; simpl in *; try done.
    + eapply Forall_impl; [done|]. intros j Hj'. apply IH; [done|lia].
    + eapply Forall_impl; [done|]. intros [k v] [? ?]. split; [done|]. apply IH; [done|lia].
Qed.

Lemma printable_slice {A} (f : A → json) d l :
  Forall (λ x, printable d (f x)) l → printable (S d) (JArr (map f l)).
Proof. intros Hl. simpl. by apply Forall_fmap. Qed.

Lemma printable_healthcheck hc : healthcheck_ok hc → printable 3 (healthcheck_json hc).
Proof.
  intros (Hs & _ & Hh). repeat (apply Forall_cons in Hs as [? Hs]).
  assert (∀ b, printable 2 (bool_json b)) as Hb by (by intros []).
  assert (printable 2 (slice_json header_json (HealthCheck_Headers hc))) as Hsl.
  { destruct (HealthCheck_Headers hc) as [l|]; [|done].
    apply printable_slice. eapply Forall_impl; [exact Hh|]. apply printable_header. }
  unfold healthcheck_json. cbn [printable].
  repeat (apply Forall_cons; split; [split; [by apply (utf8_check_sound 20)|]; first [done | by eexists | apply Hb]|]).
  constructor.
Qed.

(** Decoding an annotation that was written. *)
Lemma Unmarshal_Rules_print rules : Forall rule_writable rules →
  Unmarshal_Rules (print (JArr (map rule_json rules))) = Some (Some rules).
Proof.
  intros Hr. unfold Unmarshal_Rules.
  rewrite (parse_print 2); [|apply printable_slice; eapply Forall_impl; [exact Hr | apply printable_rule] | by vm_compute].
  cbn [mbind option_bind]. rewrite (dec_slice_map _ _ _ id); [by rewrite map_id|].
  eapply Forall_impl; [exact Hr|]. intros r (_ & _ & _ & Hp). by apply json_Rule_rule.
Qed.

Lemma Unmarshal_Headers_print hs : Forall header_ok hs →
  Unmarshal_Headers (print (JArr (map header_json hs))) = Some (Some hs).
Proof.
  intros Hh. unfold Unmarshal_Headers.
  rewrite (parse_print 2); [|apply printable_slice; eapply Forall_impl; [exact Hh | apply printable_header] | by vm_compute].
  cbn [mbind option_bind]. pose proof (dec_slice_headers (Some hs)) as E. cbn [slice_json] in E.
  by rewrite E.
Qed.

Lemma Unmarshal_HealthCheck_print hc : healthcheck_ok hc →
  Unmarshal_HealthCheck (print (healthcheck_json hc)) = Some hc.
Proof.
  intros Hc. unfold Unmarshal_HealthCheck.
  rewrite (parse_print 3); [|by apply printable_healthcheck | by vm_compute].
  cbn [mbind option_bind]. by apply json_HealthCheck_healthcheck.
Qed.

(** Only the last assignments of [BuildTargetExtras] come after the one of the
    health check, and they leave it alone. *)
Lemma BuildTargetExtras_healthcheck base annotations prefix v hc :
  annotations⟦prefix +:+ "/target-healthcheck"⟧ = v → v ≠ "" → Unmarshal_HealthCheck v = Some hc →
  Target_HealthCheck (BuildTargetExtras base annotations prefix) = Some hc.
Proof.
  intros Hv Hne Hu. unfold BuildTargetExtras. rewrite Hv, Hu.
  rewrite (bool_decide_false (v = "")) by done. cbv zeta. cbn [negb].
  case_match; reflexivity.
Qed.

(** C11. The annotations can express every value: rules, custom headers and a
    health check written as JSON of the Go values come out of the builders as
    they were written, the rules without the invalid ones and followed by the
    deny rules of the configuration. *)
Theorem annotations_roundtrip annotations prefix cfg base rules hs hc :
  Forall rule_writable rules → Forall header_ok hs → healthcheck_ok hc →
  annotations⟦prefix +:+ "/rules"⟧? = Some (print (JArr (map rule_json rules))) →
  annotations⟦prefix +:+ "/headers"⟧? = Some (print (JArr (map header_json hs))) →
  annotations⟦prefix +:+ "/target-healthcheck"⟧? = Some (print (healthcheck_json hc)) →
  BuildRules annotations prefix cfg
    = of_nonempty (filter (λ r, isValidRule r = true) rules
                   ++ (deny_rule <$> csv_items (Config_DenyCountries cfg)))
  ∧ BuildHeaders annotations prefix = Some hs
  ∧ Target_HealthCheck (BuildTargetExtras base annotations prefix) = Some hc.
Proof.
  intros Hr Hh Hc Ar Ah Ac. split_and!.
  - rewrite BuildRules_elems. unfold annotation_rules. rewrite Ar.
    by rewrite Unmarshal_Rules_print by done.
  - unfold BuildHeaders. rewrite Ah.
    rewrite bool_decide_false by (apply (print_nonempty 2), printable_slice;
      eapply Forall_impl; [exact Hh | apply printable_header]).
    by rewrite Unmarshal_Headers_print by done.
  - apply (BuildTargetExtras_healthcheck _ _ _ (print (healthcheck_json hc)));
      [|by apply (print_nonempty 3), printable_healthcheck | by apply Unmarshal_HealthCheck_print].
    unfold map_index. by rewrite Ac.
Qed.

(** A rule with a quote and an accent, an invalid one, a header and a health
    check with everything set. *)
Definition written_rules : list Rule :=
  [mkRule "allow" "path" (quoted "/caf\'" +:+ String "195" (String "169" "")) 7;
   mkRule "refuse" "path" "/" 0].
Definition written_headers : list Header := [mkHeader "X-A" "line
break"].
Definition written_healthcheck : HealthCheck :=
  mkHealthCheck "h" 8080 (Some true) "/up" "http" "http" 10 (-3) 5 (Some written_headers)
    (Some false) "GET" 200.
Definition written_annotations : gomap string :=
  Some (<[ "p/rules" := print (JArr (map rule_json written_rules)) ]>
       (<[ "p/headers" := print (JArr (map header_json written_headers)) ]>
       {[ "p/target-healthcheck" := print (healthcheck_json written_healthcheck) ]})).

Lemma annotations_roundtrip_witness :
  BuildRules written_annotations "p" defaultConfig = Some (take 1 written_rules)
  ∧ BuildHeaders written_annotations "p" = Some written_headers
  ∧ Target_HealthCheck (BuildTargetExtras zero written_annotations "p")
    = Some written_healthcheck.
Proof.
  refine (annotations_roundtrip written_annotations "p" defaultConfig zero written_rules
    written_headers written_healthcheck _ _ _ _ _ _);
    [| | |reflexivity|reflexivity|reflexivity].
  - repeat constructor; apply (utf8_check_sound 20); reflexivity.
  - repeat constructor; apply (utf8_check_sound 20); reflexivity.
  - repeat split; repeat constructor; apply (utf8_check_sound 20); reflexivity.
Defined.
