(* ===== verification/StateManager.v ===== *)
(** * Package [state]: the manager of the blueprint and its file

    [Manager] keeps the two resource maps and writes the blueprint file through a
    temporary file and a rename.  A method holds the mutex from its first to its last
    statement, so it is one transition of the state [SM], the manager and the part of
    the machine it touches; [Mutex] shows that this is right. *)

From stdpp Require Import options.
From S2P Require Import Prelude GoStrings Blueprint.

Local Open Scope go_scope.

(** ** Definitions *)

(** An [error] value that is not nil. *)
Record GoError : Type := mkError { GoError_msg : string }.

#[export] Instance GoError_eq_dec : EqDecision GoError.
Proof. solve_decision. Defined.

(** [time.Time] as nanoseconds since the zero time; [time.Duration] likewise. *)
Definition IsZero (t : Z) : bool := t == 0%Z.

(** [time.Time.Sub] saturates at the bounds of [Duration]. *)
Definition Sub (t u : Z) : Z := (Z.max (- 2 ^ 63) (Z.min (2 ^ 63 - 1) (t - u)))%Z.

(** What a call to [os.WriteFile] does: writes everything, or fails and leaves
    the file as it was ([None]) or with some contents ([Some]). *)
Inductive WriteOutcome : Type :=
| WriteDone
| WriteFailed (e : GoError) (leaves : option string).

(** The machine: [yaml.Marshal] of the third-party package yaml.v3, and, for
    the n-th call to the operating system, its outcome and the time. *)
Class Env : Type := {
  yaml_Marshal : Blueprint → result GoError string;
  write_outcome : nat → WriteOutcome;
  rename_outcome : nat → option GoError;
  remove_outcome : nat → option GoError;
  clock : nat → Z;
}.

(** The files, the number of calls made, and the files after every call made
    (the newest first): what another process can see at any time. *)
Record World : Type := mkWorld {
  World_files : gmap string string;
  World_calls : nat;
  World_log : list (gmap string string);
}.

Record Manager : Type := mkManager {
  Manager_resources : gmap string Resource;
  Manager_privateResources : gmap string PrivateResource;
  Manager_outputFile : string;
  Manager_lastWriteErr : option GoError;
  Manager_lastWriteTime : Z;
}.

Record SM : Type := mkSM { SM_manager : Manager; SM_world : World }.

(** Computations on the state. *)
Definition M (A : Type) : Type := SM → A * SM.

#[export] Instance M_ret : MRet M := λ A a s, (a, s).
#[export] Instance M_bind : MBind M := λ A B k m s, let '(a, s') := m s in k a s'.

Definition get : M Manager := λ s, (SM_manager s, s).
Definition modify (f : Manager → Manager) : M unit :=
  λ s, (tt, mkSM (f (SM_manager s)) (SM_world s)).

Definition set_resources (r : gmap string Resource) (m : Manager) : Manager :=
  mkManager r (Manager_privateResources m) (Manager_outputFile m) (Manager_lastWriteErr m)
    (Manager_lastWriteTime m).
Definition set_privateResources (r : gmap string PrivateResource) (m : Manager) : Manager :=
  mkManager (Manager_resources m) r (Manager_outputFile m) (Manager_lastWriteErr m)
    (Manager_lastWriteTime m).
Definition set_lastWriteErr (e : option GoError) (m : Manager) : Manager :=
  mkManager (Manager_resources m) (Manager_privateResources m) (Manager_outputFile m) e
    (Manager_lastWriteTime m).
Definition set_lastWriteTime (t : Z) (m : Manager) : Manager :=
  mkManager (Manager_resources m) (Manager_privateResources m) (Manager_outputFile m)
    (Manager_lastWriteErr m) t.

(** *** The operating system *)

(** One call: the files become [f], the result is [a]. *)
Definition os_call {A} (call : nat → gmap string string → A * gmap string string) : M A :=
  λ s, let w := SM_world s in
       let '(a, files) := call (World_calls w) (World_files w) in
       (a, mkSM (SM_manager s) (mkWorld files (S (World_calls w)) (files :: World_log w))).

Section with_env.
  Context `{Env}.

Definition os_WriteFile (path data : string) : M (option GoError) :=
  os_call (λ n files,
    match write_outcome n with
    | WriteDone => (None, <[ path := data ]> files)
    | WriteFailed e None => (Some e, files)
    | WriteFailed e (Some part) => (Some e, <[ path := part ]> files)
    end).

Definition os_Rename (old new : string) : M (option GoError) :=
  os_call (λ n files,
    match rename_outcome n, files !! old with
    | Some e, _ => (Some e, files)
    | None, Some data => (None, <[ new := data ]> (delete old files))
    | None, None => (Some (mkError "no such file or directory"), files)
    end).

Definition os_Remove (path : string) : M (option GoError) :=
  os_call (λ n files,
    match remove_outcome n with
    | Some e => (Some e, files)
    | None => (None, delete path files)
    end).

Definition time_Now : M Z := λ s, (clock (World_calls (SM_world s)), s).

(** *** The manager *)

Definition NewManager (outputFile : string) : Manager := {|
  Manager_resources := ∅;
  Manager_privateResources := ∅;
  Manager_outputFile := outputFile;
  Manager_lastWriteErr := None;
  Manager_lastWriteTime := 0;
|}.

(** The [bp] of [writeState]. *)
Definition blueprint_of (m : Manager) : Blueprint :=
  mkBlueprint (Manager_resources m) (Manager_privateResources m).

Definition writeState : M unit :=
  m ← get;
  match yaml_Marshal (blueprint_of m) with
  | Err err => modify (set_lastWriteErr (Some err))
  | Ok yamlData =>
      let tmp := Manager_outputFile m +:+ ".tmp" in
      err ← os_WriteFile tmp yamlData;
      match err with
      | Some err => modify (set_lastWriteErr (Some err))
      | None =>
          err ← os_Rename tmp (Manager_outputFile m);
          match err with
          | Some err =>
              _ ← os_Remove tmp;
              modify (set_lastWriteErr (Some err))
          | None =>
              _ ← modify (set_lastWriteErr None);
              now ← time_Now;
              modify (set_lastWriteTime now)
          end
      end
  end.

Definition AddOrUpdate (key : string) (r : Resource) (write : bool) : M bool :=
  m ← get;
  if match Manager_resources m !! key with Some existing => DeepEqual existing r | None => false end
  then mret false
  else
    _ ← modify (set_resources (<[ key := r ]> (Manager_resources m)));
    _ ← (if write then writeState else mret tt);
    mret true.

Definition AddOrUpdatePrivate (key : string) (r : PrivateResource) (write : bool) : M bool :=
  m ← get;
  if match Manager_privateResources m !! key with
     | Some existing => DeepEqual existing r | None => false end
  then mret false
  else
    _ ← modify (set_privateResources (<[ key := r ]> (Manager_privateResources m)));
    _ ← (if write then writeState else mret tt);
    mret true.

Definition RemovePrivate (key : string) : M bool :=
  m ← get;
  match Manager_privateResources m !! key with
  | None => mret false
  | Some _ =>
      _ ← modify (set_privateResources (delete key (Manager_privateResources m)));
      _ ← writeState;
      mret true
  end.

Definition Remove (key : string) : M bool :=
  m ← get;
  match Manager_resources m !! key with
  | None => mret false
  | Some _ =>
      _ ← modify (set_resources (delete key (Manager_resources m)));
      _ ← writeState;
      mret true
  end.

Definition ForceWrite : M unit := writeState.

(** [now] is the reading of the clock [time.Since] takes. *)
Definition WriteHealthy (m : Manager) (now threshold : Z) : bool :=
  match Manager_lastWriteErr m with
  | Some _ => false
  | None =>
      if IsZero (Manager_lastWriteTime m) then true
      else (Sub now (Manager_lastWriteTime m) <=? threshold)%Z
  end.

End with_env.

(** A call of one of the mutating methods. *)
Inductive Cmd : Type :=
| CAddOrUpdate (key : string) (r : Resource) (write : bool)
| CAddOrUpdatePrivate (key : string) (r : PrivateResource) (write : bool)
| CRemove (key : string)
| CRemovePrivate (key : string)
| CForceWrite.

Definition exec `{Env} (c : Cmd) (s : SM) : SM :=
  match c with
  | CAddOrUpdate key r write => snd (AddOrUpdate key r write s)
  | CAddOrUpdatePrivate key r write => snd (AddOrUpdatePrivate key r write s)
  | CRemove key => snd (Remove key s)
  | CRemovePrivate key => snd (RemovePrivate key s)
  | CForceWrite => snd (ForceWrite s)
  end.

(** The methods called one after the other, in the order they take the mutex. *)
Definition run `{Env} (cs : list Cmd) (s : SM) : SM := foldl (λ s c, exec c s) s cs.

(** ** Reference definitions *)

(** The blueprint, the output file's path and its contents. *)
Definition bp (s : SM) : Blueprint := blueprint_of (SM_manager s).
Definition out_path (s : SM) : string := Manager_outputFile (SM_manager s).
Definition out_file (s : SM) : option string := World_files (SM_world s) !! out_path s.

(** What the methods promise of the two maps, whatever the disk does. *)
Definition abs_exec (c : Cmd) (b : Blueprint) : Blueprint :=
  let '(mkBlueprint pub priv) := b in
  match c with
  | CAddOrUpdate key r _ => mkBlueprint (<[ key := r ]> pub) priv
  | CAddOrUpdatePrivate key r _ => mkBlueprint pub (<[ key := r ]> priv)
  | CRemove key => mkBlueprint (delete key pub) priv
  | CRemovePrivate key => mkBlueprint pub (delete key priv)
  | CForceWrite => b
  end.

(** Does the method write the file when it changes the maps? *)
Definition writes (c : Cmd) : bool :=
  match c with
  | CAddOrUpdate _ _ w | CAddOrUpdatePrivate _ _ w => w
  | _ => true
  end.

(** The output file holds the current blueprint, unless the last write failed. *)
Definition fresh `{Env} (s : SM) : Prop :=
  Manager_lastWriteErr (SM_manager s) = None →
  ∃ y, yaml_Marshal (bp s) = Ok y ∧ out_file s = Some y.

(** ** One write *)

(** Every state of the files another process saw between [s] and [s'] has
    contents satisfying [P] at the output path. *)
Definition seen (P : option string → Prop) (s s' : SM) : Prop :=
  ∃ new, World_log (SM_world s') = new ++ World_log (SM_world s)
         ∧ Forall (λ f, P (f !! out_path s)) new.

Lemma seen_refl P s : seen P s s.
Proof. exists []. by split. Qed.

Lemma seen_trans P s1 s2 s3 :
  out_path s2 = out_path s1 → seen P s1 s2 → seen P s2 s3 → seen P s1 s3.
Proof.
  intros Hp (n1 & H1 & F1) (n2 & H2 & F2). exists (n2 ++ n1). split.
  - by rewrite H2, H1, app_assoc.
  - rewrite Hp in F2. by apply Forall_app.
Qed.

Lemma seen_mono (P Q : option string → Prop) s s' :
  (∀ o, P o → Q o) → seen P s s' → seen Q s s'.
Proof. intros HPQ (n & H & F). exists n. split; [done|]. eapply Forall_impl; [done|]. intros. by apply HPQ. Qed.

Lemma tmp_ne s : s ≠ s +:+ ".tmp".
Proof.
  intros H. apply (f_equal String.length) in H. revert H.
  assert (String.length (s +:+ ".tmp") = String.length s + 4) as ->; [|lia].
  induction s as [|c s IH]; simpl; [done|]. by rewrite IH.
Qed.

(** Runs a computation on the state. *)
Ltac run_M :=
  unfold os_WriteFile, os_Rename, os_Remove, os_call, time_Now, get, modify,
    mbind, M_bind, mret, M_ret; cbn.

(** Reads the files after a sequence of updates at the output path. *)
Ltac files_at :=
  unfold out_file, out_path; cbn;
  rewrite ?lookup_insert_eq, ?lookup_delete_ne, ?lookup_insert_ne by done.

Section one_write.
  Context `{Env}.

(** The two ways a write ends. *)
Inductive write_ends (s s' : SM) : Prop :=
| write_ok y :
    yaml_Marshal (bp s) = Ok y → out_file s' = Some y →
    Manager_lastWriteErr (SM_manager s') = None →
    (∃ n, Manager_lastWriteTime (SM_manager s') = clock n) →
    seen (λ o, o = out_file s ∨ o = Some y) s s' →
    write_ends s s'
| write_failed e :
    out_file s' = out_file s →
    Manager_lastWriteErr (SM_manager s') = Some e →
    Manager_lastWriteTime (SM_manager s') = Manager_lastWriteTime (SM_manager s) →
    seen (λ o, o = out_file s) s s' →
    write_ends s s'.

Lemma writeState_ends s : write_ends s (snd (writeState s)).
Proof.
  destruct s as [m [files n log]].
  pose proof (not_eq_sym (tmp_ne (Manager_outputFile m))) as Htmp.
  unfold writeState. run_M.
  destruct (yaml_Marshal (blueprint_of m)) as [y|e] eqn:Hy; cbn;
    [|by eapply (write_failed _ _ e); try done; exists []].
  destruct (write_outcome n) as [|e [part|]]; cbn.
  - destruct (rename_outcome (S n)) as [e|]; cbn.
    + destruct (remove_outcome (S (S n))) as [e'|]; cbn.
      * eapply (write_failed _ _ e); try done; [by files_at|].
        eexists [_; _; _]. split; [done|]. repeat constructor; by files_at.
      * eapply (write_failed _ _ e); try done; [by files_at|].
        eexists [_; _; _]. split; [done|]. repeat constructor; by files_at.
    + rewrite lookup_insert_eq. cbn.
      eapply (write_ok _ _ y); try done; [by files_at | by eexists|].
      eexists [_; _]. split; [done|].
      apply Forall_cons; split; [right | apply Forall_singleton; left]; by files_at.
  - eapply (write_failed _ _ e); try done; [by files_at|].
    eexists [_]. split; [done|]. repeat constructor; by files_at.
  - eapply (write_failed _ _ e); try done. eexists [_]. split; [done|]. by repeat constructor.
Qed.

Lemma writeState_keeps s :
  bp (snd (writeState s)) = bp s ∧ out_path (snd (writeState s)) = out_path s.
Proof.
  destruct s as [m [files n log]]. unfold writeState. run_M.
  repeat (case_match; simplify_eq/=; try done).
Qed.

Lemma fresh_writeState s : fresh (snd (writeState s)).
Proof.
  intros He. rewrite (proj1 (writeState_keeps s)).
  destruct (writeState_ends s) as [y Hy Hout _ _ _ | e _ Herr _ _]; [by exists y | congruence].
Qed.

End one_write.
