(* ===== verification/Store.v ===== *)
(** * What the controllers use of the state manager

    The controllers call three methods of the manager and depend on nothing
    else of it.  [StoreLaws] is what those methods promise of the public
    resources; the theorems about the controllers are proved from it and
    [StateManager] discharges it. *)

From stdpp Require Import options.
From S2P Require Import Prelude Blueprint.

Class Store (St : Type) : Type := {
  store_AddOrUpdate : string → Resource → bool → St → bool * St;
  store_Remove : string → St → bool * St;
  store_ForceWrite : St → St;
  (** the public resources the store holds *)
  store_view : St → gmap string Resource;
}.

Class StoreLaws (St : Type) `{Store St} : Prop := {
  view_AddOrUpdate key r write s :
    store_view (snd (store_AddOrUpdate key r write s)) = <[ key := r ]> (store_view s);
  view_Remove key s :
    store_view (snd (store_Remove key s)) = delete key (store_view s);
  view_ForceWrite s : store_view (store_ForceWrite s) = store_view s;
}.

#[export] Hint Rewrite @view_AddOrUpdate @view_Remove @view_ForceWrite using typeclasses eauto : go.
