(* ===== verification/StateProps.v ===== *)
(** * What the state manager guarantees

    The two maps refine two abstract maps whatever the disk does; another
    process sees whole blueprints only; the file is up to date unless the last
    write failed; the health probe. *)

From stdpp Require Import options.
From S2P Require Import Prelude GoStrings Config Blueprint StateManager Store.

Local Open Scope go_scope.

Section manager.
  Context `{Env}.

(** ** One method *)

(** [s0] is [s] with other maps. *)
Definition touched (s s0 : SM) : Prop :=
  SM_world s0 = SM_world s ∧ out_path s0 = out_path s
  ∧ Manager_lastWriteErr (SM_manager s0) = Manager_lastWriteErr (SM_manager s)
  ∧ Manager_lastWriteTime (SM_manager s0) = Manager_lastWriteTime (SM_manager s).

(** A method does nothing, or changes the maps, or changes them and writes. *)
Inductive exec_ends (c : Cmd) (s : SM) : SM → Prop :=
| ends_same : abs_exec c (bp s) = bp s → exec_ends c s s
| ends_quiet s0 :
    touched s s0 → bp s0 = abs_exec c (bp s) → writes c = false → exec_ends c s s0
| ends_write s0 :
    touched s s0 → bp s0 = abs_exec c (bp s) → writes c = true →
    exec_ends c s (snd (writeState s0)).

(** Exhibits the state a method hands to [writeState]. *)
Ltac write_ends :=
  match goal with
  | |- context [writeState ?s0] =>
      rewrite (surjective_pairing (writeState s0)); apply (ends_write _ _ s0)
  end.

Lemma exec_cases c s : exec_ends c s (exec c s).
Proof.
  destruct s as [[pub priv out err t] w].
  destruct c as [key r wr|key r wr|key|key|]; cbn [exec].
  - unfold AddOrUpdate. run_M. case_match eqn:E; cbn.
    + apply ends_same. destruct (pub !! key) eqn:Hk; [|done].
      apply bool_decide_eq_true in E as ->. unfold bp, blueprint_of; cbn. by rewrite insert_id.
    + destruct wr; [by write_ends | by apply ends_quiet].
  - unfold AddOrUpdatePrivate. run_M. case_match eqn:E; cbn.
    + apply ends_same. destruct (priv !! key) eqn:Hk; [|done].
      apply bool_decide_eq_true in E as ->. unfold bp, blueprint_of; cbn. by rewrite insert_id.
    + destruct wr; [by write_ends | by apply ends_quiet].
  - unfold Remove. run_M. destruct (pub !! key) eqn:Hk; cbn.
    + by write_ends.
    + apply ends_same. unfold bp, blueprint_of; cbn. by rewrite delete_id.
  - unfold RemovePrivate. run_M. destruct (priv !! key) eqn:Hk; cbn.
    + by write_ends.
    + apply ends_same. unfold bp, blueprint_of; cbn. by rewrite delete_id.
  - by apply ends_write.
Qed.

Lemma exec_keeps c s : bp (exec c s) = abs_exec c (bp s) ∧ out_path (exec c s) = out_path s.
Proof.
  destruct (exec_cases c s) as [Hsame | s0 (_ & Hp & _) Hb _ | s0 (_ & Hp & _) Hb _];
    [done | done |].
  destruct (writeState_keeps s0) as [-> ->]. done.
Qed.

(** A method that would not change the maps does nothing at all. *)
Lemma exec_same c s : abs_exec c (bp s) = bp s → c ≠ CForceWrite → exec c s = s.
Proof.
  destruct s as [[pub priv out err t] w]. unfold bp, blueprint_of.
  destruct c as [key r wr|key r wr|key|key|]; cbn; intros Hm Hf; [..|done];
    injection Hm as Hm.
  - assert (pub !! key = Some r) as Hk by (rewrite <- Hm; apply lookup_insert_eq).
    unfold AddOrUpdate. run_M. rewrite Hk. unfold DeepEqual. by rewrite bool_decide_eq_true_2.
  - assert (priv !! key = Some r) as Hk by (rewrite <- Hm; apply lookup_insert_eq).
    unfold AddOrUpdatePrivate. run_M. rewrite Hk.
    unfold DeepEqual. by rewrite bool_decide_eq_true_2.
  - assert (pub !! key = None) as Hk by (rewrite <- Hm; apply lookup_delete_eq).
    unfold Remove. run_M. by rewrite Hk.
  - assert (priv !! key = None) as Hk by (rewrite <- Hm; apply lookup_delete_eq).
    unfold RemovePrivate. run_M. by rewrite Hk.
Qed.

Lemma run_app cs1 cs2 s : run (cs1 ++ cs2) s = run cs2 (run cs1 s).
Proof. unfold run. by rewrite foldl_app. Qed.

Lemma run_out_path cs s : out_path (run cs s) = out_path s.
Proof.
  induction cs as [|c cs IH] using rev_ind; [done|].
  rewrite run_app. simpl. by rewrite (proj2 (exec_keeps _ _)).
Qed.

Lemma run_bp cs s : bp (run cs s) = foldl (λ b c, abs_exec c b) (bp s) cs.
Proof.
  revert s; induction cs as [|c cs IH]; intros s; [done|].
  change (run (c :: cs) s) with (run cs (exec c s)).
  by rewrite IH, (proj1 (exec_keeps c s)).
Qed.

(** C15. Refinement: whatever the operating system and the YAML library do,
    the two maps evolve as two plain maps under insert and delete. *)
Theorem run_refines cs s : bp (run cs s) = foldl (λ b c, abs_exec c b) (bp s) cs.
Proof. apply run_bp. Qed.

(** ** The file *)

(** [o] is complete: the whole text of the blueprint after some prefix of [cs]. *)
Definition complete (cs : list Cmd) (s : SM) (o : option string) : Prop :=
  o = out_file s
  ∨ ∃ cs1 cs2 y, cs = cs1 ++ cs2 ∧ yaml_Marshal (bp (run cs1 s)) = Ok y ∧ o = Some y.

Lemma complete_snoc cs c s o : complete cs s o → complete (cs ++ [c]) s o.
Proof.
  intros [->|(cs1 & cs2 & y & -> & Hy & ->)]; [by left|].
  right. exists cs1, (cs2 ++ [c]), y. by rewrite app_assoc.
Qed.

Lemma seen_exec c s :
  let P o := o = out_file s ∨ ∃ y, yaml_Marshal (bp (exec c s)) = Ok y ∧ o = Some y in
  seen P s (exec c s) ∧ P (out_file (exec c s)).
Proof.
  cbv zeta. destruct (exec_cases c s) as [_ | s0 (Hw & Hp & _) _ _ | s0 (Hw & Hp & _) Hb _].
  - split; [apply seen_refl | by left].
  - unfold seen, out_file. rewrite Hw, Hp. split; [by exists [] | by left].
  - destruct (writeState_keeps s0) as [Hbp _]. rewrite Hbp.
    assert (out_file s0 = out_file s) as Hf by (unfold out_file; by rewrite Hw, Hp).
    destruct (writeState_ends s0) as [y Hy Hout _ _ Hseen | e Hout _ _ Hseen]; split.
    + destruct Hseen as (new & Hl & HF). exists new. rewrite <- Hw. split; [done|].
      rewrite Hp in HF. eapply Forall_impl; [exact HF|]. cbn. rewrite Hf. naive_solver.
    + right. by exists y.
    + destruct Hseen as (new & Hl & HF). exists new. rewrite <- Hw. split; [done|].
      rewrite Hp in HF. eapply Forall_impl; [exact HF|]. cbn. rewrite Hf. naive_solver.
    + left. congruence.
Qed.

Lemma seen_run cs s : seen (complete cs s) s (run cs s) ∧ complete cs s (out_file (run cs s)).
Proof.
  induction cs as [|c cs [Hseen Hout]] using rev_ind.
  { split; [apply seen_refl | by left]. }
  rewrite run_app. simpl. destruct (seen_exec c (run cs s)) as [Hs Ho].
  assert (∀ o, o = out_file (run cs s)
    ∨ (∃ y, yaml_Marshal (bp (exec c (run cs s))) = Ok y ∧ o = Some y) →
    complete (cs ++ [c]) s o) as Himp.
  { intros o [->|(y & Hy & ->)]; [by apply complete_snoc|].
    right. exists (cs ++ [c]), [], y. rewrite app_nil_r, run_app. done. }
  split; [|by apply Himp].
  eapply seen_trans; [apply run_out_path | |].
  - eapply seen_mono; [|exact Hseen]. intros o. apply complete_snoc.
  - eapply seen_mono; [|exact Hs]. exact Himp.
Qed.

(** The state the program starts the manager in. *)
Definition start (outputFile : string) (files : gmap string string) : SM :=
  mkSM (NewManager outputFile) (mkWorld files 0 []).

(** Another process never sees a partial blueprint: after every single
    call to the operating system, of any sequence of methods and with any
    failures, the output file holds what it held at the start or the whole text
    of the blueprint the manager had after one of the methods. *)
Theorem output_file_complete outputFile files cs :
  Forall (λ f, complete cs (start outputFile files) (f !! outputFile))
    (World_log (SM_world (run cs (start outputFile files)))).
Proof.
  destruct (seen_run cs (start outputFile files)) as [(new & -> & HF) _].
  by rewrite app_nil_r.
Qed.

(** C25. A write either puts the whole current blueprint in the file, clears
    the error and records the time, or records an error and leaves the file and
    the time of the last successful write alone. *)
Theorem ForceWrite_ends s :
  let s' := snd (ForceWrite s) in
  bp s' = bp s ∧
  ((Manager_lastWriteErr (SM_manager s') = None
    ∧ (∃ y, yaml_Marshal (bp s) = Ok y ∧ out_file s' = Some y)
    ∧ ∃ n, Manager_lastWriteTime (SM_manager s') = clock n)
   ∨ (∃ e, Manager_lastWriteErr (SM_manager s') = Some e
      ∧ out_file s' = out_file s
      ∧ Manager_lastWriteTime (SM_manager s') = Manager_lastWriteTime (SM_manager s))).
Proof.
  split; [apply writeState_keeps|].
  destruct (writeState_ends s) as [y Hy Hout He Ht _ | e Hout He Ht _]; [left | right]; eauto 6.
Qed.

Lemma fresh_exec c s : writes c = true → fresh s → fresh (exec c s).
Proof.
  intros Hw Hf. destruct (exec_cases c s) as [_ | | s0]; [done | congruence |].
  apply fresh_writeState.
Qed.

Lemma fresh_run cs s : forallb writes cs = true → fresh s → fresh (run cs s).
Proof.
  revert s; induction cs as [|c cs IH]; intros s Hcs Hf; [done|]. simpl in *. go_bool.
  apply IH; [done|]. by apply fresh_exec.
Qed.

(** From a forced write on, as long as every update is made with
    [write = true], the file holds the current blueprint whenever the last
    write did not fail. *)
Theorem run_fresh cs0 cs s :
  forallb writes cs = true → fresh (run (cs0 ++ CForceWrite :: cs) s).
Proof.
  intros Hcs. rewrite run_app.
  change (run (CForceWrite :: cs) (run cs0 s)) with (run cs (exec CForceWrite (run cs0 s))).
  apply (fresh_run cs); [done | apply fresh_writeState].
Qed.

(** The calls after [s] that leave the file alone: they change the maps without
    writing, or nothing. *)
Fixpoint unwritten (cs : list Cmd) (s : SM) : Prop :=
  match cs with
  | [] => True
  | c :: cs =>
      (writes c = false ∨ (abs_exec c (bp s) = bp s ∧ c ≠ CForceWrite)) ∧ unwritten cs (exec c s)
  end.

Lemma unwritten_app cs1 cs2 s :
  unwritten (cs1 ++ cs2) s ↔ unwritten cs1 s ∧ unwritten cs2 (run cs1 s).
Proof.
  revert s; induction cs1 as [|c cs1 IH]; intros s; [by intuition|]. simpl.
  rewrite IH. change (run (c :: cs1) s) with (run cs1 (exec c s)). by rewrite assoc by apply _.
Qed.

(** A call that does not write leaves the file and the error. *)
Lemma unwritten_keeps c s :
  writes c = false ∨ (abs_exec c (bp s) = bp s ∧ c ≠ CForceWrite) →
  out_file (exec c s) = out_file s
  ∧ Manager_lastWriteErr (SM_manager (exec c s)) = Manager_lastWriteErr (SM_manager s).
Proof.
  intros [Hw|[Hs Hc]]; [|by rewrite exec_same].
  destruct (exec_cases c s) as [_ | s0 (Hw' & Hp & He & _) _ _ | s0 _ _ Hw']; [done | | congruence].
  unfold out_file. by rewrite Hw', Hp.
Qed.

(** A call leaves the file alone or attempts to write the current blueprint. *)
Lemma exec_writes c s :
  (writes c = false ∨ (abs_exec c (bp s) = bp s ∧ c ≠ CForceWrite)) ∨ fresh (exec c s).
Proof.
  assert (c = CForceWrite ∨ c ≠ CForceWrite) as [->|Hc] by (destruct c; auto).
  { right. apply fresh_writeState. }
  destruct (exec_cases c s) as [Hs | s0 _ _ Hw | s0 _ _ _];
    [by left; right | by left; left | right; apply fresh_writeState].
Qed.

(** C10. What the file holds at any time, from a forced write on: unless the last
    write failed, it is the text of the blueprint the manager had at some
    earlier moment, and every call since then left the maps alone or changed
    them with [write = false].  So with [write = true] throughout the file is
    the current blueprint, and one call that writes brings it up to date. *)
Theorem file_lags cs0 cs s :
  let s0 := run (cs0 ++ [CForceWrite]) s in
  Manager_lastWriteErr (SM_manager (run cs s0)) = None →
  ∃ cs1 cs2 y,
    cs = cs1 ++ cs2 ∧ unwritten cs2 (run cs1 s0)
    ∧ yaml_Marshal (bp (run cs1 s0)) = Ok y ∧ out_file (run cs s0) = Some y.
Proof.
  intros s0. induction cs as [|c cs IH] using rev_ind; intros He.
  - assert (fresh s0) as Hf by (subst s0; rewrite run_app; apply fresh_writeState).
    destruct (Hf He) as (y & Hy & Hout). by exists [], [], y.
  - rewrite run_app in He |- *. change (run [c] (run cs s0)) with (exec c (run cs s0)) in *.
    destruct (exec_writes c (run cs s0)) as [Hq|Hf].
    + destruct (unwritten_keeps _ _ Hq) as [-> He']. rewrite He' in He.
      destruct (IH He) as (cs1 & cs2 & y & -> & Hu & Hy & Hout).
      exists cs1, (cs2 ++ [c]), y. rewrite app_assoc. split; [done|]. split; [|done].
      apply unwritten_app. split; [done|]. rewrite run_app in Hq. by split.
    + destruct (Hf He) as (y & Hy & Hout). exists (cs ++ [c]), [], y.
      rewrite app_nil_r, run_app. done.
Qed.

(** An update is idempotent and never retried: after [AddOrUpdate] of a
    resource, with or without a write and whether that write succeeded or not,
    the same update with [write = true] reports no change, and does nothing. *)
Theorem AddOrUpdate_again key r write s :
  let s' := snd (AddOrUpdate key r write s) in
  Manager_resources (SM_manager s') !! key = Some r
  ∧ AddOrUpdate key r true s' = (false, s').
Proof.
  cbv zeta. set (s' := snd _).
  assert (Manager_resources (SM_manager s') !! key = Some r) as Hk.
  { pose proof (proj1 (exec_keeps (CAddOrUpdate key r write) s)) as Hb.
    change (exec (CAddOrUpdate key r write) s) with s' in Hb.
    unfold bp, blueprint_of in Hb. cbn in Hb. injection Hb as -> _. apply lookup_insert_eq. }
  split; [done|]. unfold AddOrUpdate. run_M. rewrite Hk.
  unfold DeepEqual. by rewrite bool_decide_eq_true_2.
Qed.

(** The boolean [AddOrUpdate] and [Remove] return says whether the public
    resources changed; when they did not, nothing else did and no file was
    written. *)
Theorem change_reported key r write s :
  (let '(b, s') := AddOrUpdate key r write s in
   b = bool_decide (bp s' ≠ bp s) ∧ (b = false → s' = s))
  ∧ (let '(b, s') := Remove key s in
     b = bool_decide (bp s' ≠ bp s) ∧ (b = false → s' = s)).
Proof.
  destruct s as [[pub priv out err t] w]. split.
  - unfold AddOrUpdate. run_M.
    destruct (match pub !! key with Some _ => _ | None => _ end) eqn:E; cbn.
    + split; [symmetry; apply bool_decide_eq_false; by intros H' | done].
    + destruct write; cbn;
        [match goal with |- context [writeState ?s0] =>
           rewrite (surjective_pairing (writeState s0)), (proj1 (writeState_keeps s0)) end|];
        (split; [|done]); symmetry; apply bool_decide_eq_true; unfold bp, blueprint_of; cbn;
        intros [= Hm]; rewrite <- Hm, lookup_insert_eq in E; unfold DeepEqual in E;
        by rewrite bool_decide_eq_true_2 in E.
  - unfold Remove. run_M. destruct (pub !! key) eqn:E; cbn.
    + match goal with |- context [writeState ?s0] =>
        rewrite (surjective_pairing (writeState s0)), (proj1 (writeState_keeps s0)) end.
      split; [|done]. symmetry; apply bool_decide_eq_true; unfold bp, blueprint_of; cbn.
      intros [= Hm]. by rewrite <- Hm, lookup_delete_eq in E.
    + split; [symmetry; apply bool_decide_eq_false; by intros H' | done].
Qed.

End manager.

(** A machine where everything works: a stand-in for the YAML text and a clock
    that ticks with every call. *)
Definition quiet_env : Env := {|
  yaml_Marshal b := Ok ("public: " +:+ Itoa (Z.of_nat (size (Blueprint_PublicResources b))));
  write_outcome _ := WriteDone;
  rename_outcome _ := None;
  remove_outcome _ := None;
  clock n := (1000 + Z.of_nat n)%Z;
|}.

Definition some_resource : Resource := BuildServiceResource zero defaultConfig.

Lemma run_fresh_witness :
  let cs := [CAddOrUpdate "k" some_resource true; CRemove "k"] in
  forallb writes cs = true ∧
  @fresh quiet_env (@run quiet_env ([] ++ CForceWrite :: cs) (start "bp.yaml" ∅)).
Proof. split; [reflexivity|]. by apply (@run_fresh quiet_env []). Defined.

Lemma file_lags_witness :
  let s0 := @run quiet_env ([] ++ [CForceWrite]) (start "bp.yaml" ∅) in
  let cs := [CAddOrUpdate "k" some_resource false; CRemove "x"] in
  Manager_lastWriteErr (SM_manager (@run quiet_env cs s0)) = None
  ∧ ∃ cs1 cs2 y, cs = cs1 ++ cs2 ∧ @unwritten quiet_env cs2 (@run quiet_env cs1 s0)
      ∧ @yaml_Marshal quiet_env (bp (@run quiet_env cs1 s0)) = Ok y
      ∧ out_file (@run quiet_env cs s0) = Some y.
Proof.
  split; [reflexivity|].
  apply (@file_lags quiet_env [] [CAddOrUpdate "k" some_resource false; CRemove "x"]
    (start "bp.yaml" ∅)). reflexivity.
Defined.

(** ** The health probe *)

(** [WriteHealthy]: no failed write, and either no write yet or a last
    successful write no older than the threshold. *)
Lemma WriteHealthy_spec m now threshold :
  WriteHealthy m now threshold = true ↔
    Manager_lastWriteErr m = None ∧
    (Manager_lastWriteTime m = 0%Z ∨ (Sub now (Manager_lastWriteTime m) ≤ threshold)%Z).
Proof.
  unfold WriteHealthy, IsZero. destruct (Manager_lastWriteErr m); [naive_solver|].
  case_bool_decide; [naive_solver|]. rewrite Z.leb_le. naive_solver.
Qed.

(** C39. An idle manager becomes unhealthy: updates that change nothing write
    nothing, so once the threshold has passed since the last successful write
    the probe fails, although no write ever failed. *)
Theorem idle_becomes_unhealthy `{Env} cs s now threshold :
  Forall (λ c, abs_exec c (bp s) = bp s ∧ c ≠ CForceWrite) cs →
  Manager_lastWriteErr (SM_manager s) = None →
  Manager_lastWriteTime (SM_manager s) ≠ 0%Z →
  (0 ≤ threshold < 2 ^ 63 - 1)%Z →
  (Manager_lastWriteTime (SM_manager s) + threshold < now)%Z →
  run cs s = s ∧ WriteHealthy (SM_manager (run cs s)) now threshold = false.
Proof.
  intros Hcs He Ht Hth Hnow.
  assert (run cs s = s) as ->.
  { induction Hcs as [|c cs [Hc Hf] _ IH]; [done|].
    change (run (c :: cs) s) with (run cs (exec c s)). rewrite (exec_same c s); done. }
  split; [done|]. apply not_true_iff_false. rewrite WriteHealthy_spec.
  intros [_ [H0|H1]]; [done|]. unfold Sub in H1. lia.
Qed.

Lemma idle_becomes_unhealthy_witness :
  let s := @run quiet_env [CAddOrUpdate "k" some_resource true] (start "bp.yaml" ∅) in
  (1001 + 600000000000 < 600000002000)%Z ∧
  WriteHealthy (SM_manager (@run quiet_env [CAddOrUpdate "k" some_resource true; CRemove "x"] s))
    600000002000 600000000000 = false.
Proof.
  split; [lia|].
  refine (proj2 (@idle_becomes_unhealthy quiet_env
    [CAddOrUpdate "k" some_resource true; CRemove "x"]
    (@run quiet_env [CAddOrUpdate "k" some_resource true] (start "bp.yaml" ∅))
    600000002000 600000000000 _ _ _ _ _)).
  - repeat constructor; try discriminate; vm_compute; reflexivity.
  - vm_compute. reflexivity.
  - vm_compute. discriminate.
  - lia.
  - vm_compute. reflexivity.
Defined.

(** ** The interface the controllers use *)

#[export] Instance manager_store `{Env} : Store SM := {|
  store_AddOrUpdate := AddOrUpdate;
  store_Remove := Remove;
  store_ForceWrite s := snd (ForceWrite s);
  store_view s := Manager_resources (SM_manager s);
|}.

#[export] Instance manager_store_laws `{Env} : StoreLaws SM.
Proof.
  split; intros; simpl.
  - pose proof (proj1 (exec_keeps (CAddOrUpdate key r write) s)) as Hb.
    unfold bp, blueprint_of in Hb. cbn in Hb. by injection Hb as -> _.
  - pose proof (proj1 (exec_keeps (CRemove key) s)) as Hb.
    unfold bp, blueprint_of in Hb. cbn in Hb. by injection Hb as -> _.
  - pose proof (proj1 (exec_keeps CForceWrite s)) as Hb.
    unfold bp, blueprint_of in Hb. cbn in Hb. by injection Hb as -> _.
Qed.
