(* ===== verification/Yaml.v ===== *)
(** * What the blueprint file says: the [yaml] tags of package [blueprint]

    [yaml.Marshal] writes a struct as a mapping, under the names of the tags,
    and leaves out a field with [omitempty] that is false, zero, empty or nil.
    This file gives the tree that is written for a blueprint, and its reading,
    and shows that nothing is lost but the difference between nil and empty
    slices.  The text of a tree is the library's. *)

From stdpp Require Import options.
From S2P Require Import Prelude GoStrings GoJson JsonPrint Config Blueprint BlueprintProps.
From S2P Require Import StateManager StateProps.

Local Open Scope go_scope.

(** ** Definitions *)

(** A tree; a mapping is a list of its entries, in an order that does not matter
    (the library sorts the keys of a map). *)
Inductive yaml : Type :=
| YBool (b : bool)
| YInt (z : Z)
| YStr (s : string)
| YSeq (l : list yaml)
| YMap (l : list (string * yaml)).

(** *** Writing *)

(** The fields of a struct under their names; [None] is left out. *)
Definition present (fs : list (string * option yaml)) : list (string * yaml) :=
  omap (λ f, pair f.1 <$> f.2) fs.
Definition struct (fs : list (string * option yaml)) : yaml := YMap (present fs).

(** Field values without and with [omitempty]. *)
Definition str (s : string) : option yaml := Some (YStr s).
Definition int (z : Z) : option yaml := Some (YInt z).
Definition boolean (b : bool) : option yaml := Some (YBool b).
Definition slice {A} (f : A → yaml) (s : goslice A) : option yaml :=
  Some (YSeq (map f (elems s))).
Definition str_omitempty (s : string) : option yaml := if s == "" then None else str s.
Definition int_omitempty (z : Z) : option yaml := if z == 0%Z then None else int z.
Definition bool_omitempty (b : bool) : option yaml := if b then boolean b else None.
Definition ptr_omitempty {A} (f : A → yaml) (p : option A) : option yaml := f <$> p.
Definition slice_omitempty {A} (f : A → yaml) (s : goslice A) : option yaml :=
  match elems s with [] => None | _ => slice f s end.
Definition map_omitempty {A} (f : A → yaml) (m : gmap string A) : option yaml :=
  if decide (m = ∅) then None else Some (YMap (map_to_list (f <$> m))).

Definition yaml_Header (h : Header) : yaml := struct
  [("name", str (Header_Name h)); ("value", str (Header_Value h))].

Definition yaml_BasicAuth (b : BasicAuth) : yaml := struct
  [("user", str (BasicAuth_User b)); ("password", str (BasicAuth_Password b))].

Definition yaml_HealthCheck (h : HealthCheck) : yaml := struct
  [("hostname", str (HealthCheck_Hostname h));
   ("port", int (HealthCheck_Port h));
   ("enabled", ptr_omitempty YBool (HealthCheck_Enabled h));
   ("path", str_omitempty (HealthCheck_Path h));
   ("scheme", str_omitempty (HealthCheck_Scheme h));
   ("mode", str_omitempty (HealthCheck_Mode h));
   ("interval", int_omitempty (HealthCheck_Interval h));
   ("unhealthy-interval", int_omitempty (HealthCheck_UnhealthyInterval h));
   ("timeout", int_omitempty (HealthCheck_Timeout h));
   ("headers", slice_omitempty yaml_Header (HealthCheck_Headers h));
   ("follow-redirects", ptr_omitempty YBool (HealthCheck_FollowRedirects h));
   ("method", str_omitempty (HealthCheck_Method h));
   ("status", int_omitempty (HealthCheck_Status h))].

Definition yaml_Maintenance (m : Maintenance) : yaml := struct
  [("enabled", boolean (Maintenance_Enabled m));
   ("type", str_omitempty (Maintenance_Type m));
   ("title", str_omitempty (Maintenance_Title m));
   ("message", str_omitempty (Maintenance_Message m));
   ("estimated-time", str_omitempty (Maintenance_EstimatedTime m))].

Definition yaml_PrivateResource (p : PrivateResource) : yaml := struct
  [("name", str (PrivateResource_Name p));
   ("mode", str (PrivateResource_Mode p));
   ("destination", str (PrivateResource_Destination p));
   ("site", str (PrivateResource_Site p));
   ("tcp-ports", str_omitempty (PrivateResource_TCPPorts p));
   ("udp-ports", str_omitempty (PrivateResource_UDPPorts p));
   ("disable-icmp", bool_omitempty (PrivateResource_DisableICMP p));
   ("alias", str_omitempty (PrivateResource_Alias p));
   ("roles", slice_omitempty YStr (PrivateResource_Roles p));
   ("users", slice_omitempty YStr (PrivateResource_Users p));
   ("machines", slice_omitempty YStr (PrivateResource_Machines p))].

Definition yaml_Auth (a : Auth) : yaml := struct
  [("pincode", int_omitempty (Auth_Pincode a));
   ("password", str_omitempty (Auth_Password a));
   ("basic-auth", ptr_omitempty yaml_BasicAuth (Auth_BasicAuth a));
   ("sso-enabled", boolean (Auth_SSOEnabled a));
   ("sso-roles", slice_omitempty YStr (Auth_SSORoles a));
   ("sso-users", slice_omitempty YStr (Auth_SSOUsers a));
   ("whitelist-users", slice_omitempty YStr (Auth_WhitelistUsers a));
   ("auto-login-idp", int_omitempty (Auth_AutoLoginIDP a))].

Definition yaml_Rule (r : Rule) : yaml := struct
  [("action", str (Rule_Action r)); ("match", str (Rule_Match r));
   ("value", str (Rule_Value r)); ("priority", int_omitempty (Rule_Priority r))].

Definition yaml_Target (t : Target) : yaml := struct
  [("site", str_omitempty (Target_Site t));
   ("hostname", str (Target_Hostname t));
   ("enabled", ptr_omitempty YBool (Target_Enabled t));
   ("method", str_omitempty (Target_Method t));
   ("port", int (Target_Port t));
   ("internal-port", int_omitempty (Target_InternalPort t));
   ("path", str_omitempty (Target_Path t));
   ("path-match", str_omitempty (Target_PathMatch t));
   ("rewrite-path", str_omitempty (Target_RewritePath t));
   ("rewrite-match", str_omitempty (Target_RewriteMatch t));
   ("priority", int_omitempty (Target_Priority t));
   ("healthcheck", ptr_omitempty yaml_HealthCheck (Target_HealthCheck t))].

Definition yaml_Resource (r : Resource) : yaml := struct
  [("name", str_omitempty (Resource_Name r));
   ("protocol", str_omitempty (Resource_Protocol r));
   ("enabled", ptr_omitempty YBool (Resource_Enabled r));
   ("ssl", bool_omitempty (Resource_SSL r));
   ("full-domain", str_omitempty (Resource_FullDomain r));
   ("host-header", str_omitempty (Resource_HostHeader r));
   ("tls-server-name", str_omitempty (Resource_TLSServerName r));
   ("proxy-port", int_omitempty (Resource_ProxyPort r));
   ("headers", slice_omitempty yaml_Header (Resource_Headers r));
   ("auth", ptr_omitempty yaml_Auth (Resource_Auth r));
   ("maintenance", ptr_omitempty yaml_Maintenance (Resource_Maintenance r));
   ("rules", slice_omitempty yaml_Rule (Resource_Rules r));
   ("targets", slice yaml_Target (Resource_Targets r))].

Definition yaml_Blueprint (b : Blueprint) : yaml := struct
  [("public-resources", map_omitempty yaml_Resource (Blueprint_PublicResources b));
   ("private-resources", map_omitempty yaml_PrivateResource (Blueprint_PrivateResources b))].

(** *** Reading *)

Fixpoint assoc {A} (k : string) (l : list (string * A)) : option A :=
  match l with [] => None | (k', v) :: l => if String.eqb k' k then Some v else assoc k l end.

Definition members (y : yaml) : list (string * yaml) := match y with YMap l => l | _ => [] end.

(** A field of a struct; one that is not there is zero. *)
Definition un_str (o : option yaml) : string := match o with Some (YStr s) => s | _ => "" end.
Definition un_int (o : option yaml) : Z := match o with Some (YInt z) => z | _ => 0%Z end.
Definition un_bool (o : option yaml) : bool := match o with Some (YBool b) => b | _ => false end.
Definition un_bool_ptr (o : option yaml) : option bool :=
  match o with Some (YBool b) => Some b | _ => None end.
Definition un_ptr {A} (f : yaml → A) (o : option yaml) : option A := f <$> o.
Definition un_slice {A} (f : yaml → A) (o : option yaml) : goslice A :=
  match o with Some (YSeq l) => Some (map f l) | _ => None end.
Definition un_map {A} (f : yaml → A) (o : option yaml) : gmap string A :=
  match o with Some (YMap l) => list_to_map (map (prod_map id f) l) | _ => ∅ end.
Definition un_string (y : yaml) : string := un_str (Some y).

Definition un_Header (y : yaml) : Header :=
  let f k := assoc k (members y) in
  mkHeader (un_str (f "name")) (un_str (f "value")).

Definition un_BasicAuth (y : yaml) : BasicAuth :=
  let f k := assoc k (members y) in
  mkBasicAuth (un_str (f "user")) (un_str (f "password")).

Definition un_HealthCheck (y : yaml) : HealthCheck :=
  let f k := assoc k (members y) in
  mkHealthCheck (un_str (f "hostname")) (un_int (f "port")) (un_bool_ptr (f "enabled"))
    (un_str (f "path")) (un_str (f "scheme")) (un_str (f "mode")) (un_int (f "interval"))
    (un_int (f "unhealthy-interval")) (un_int (f "timeout")) (un_slice un_Header (f "headers"))
    (un_bool_ptr (f "follow-redirects")) (un_str (f "method")) (un_int (f "status")).

Definition un_Maintenance (y : yaml) : Maintenance :=
  let f k := assoc k (members y) in
  mkMaintenance (un_bool (f "enabled")) (un_str (f "type")) (un_str (f "title"))
    (un_str (f "message")) (un_str (f "estimated-time")).

Definition un_PrivateResource (y : yaml) : PrivateResource :=
  let f k := assoc k (members y) in
  mkPrivateResource (un_str (f "name")) (un_str (f "mode")) (un_str (f "destination"))
    (un_str (f "site")) (un_str (f "tcp-ports")) (un_str (f "udp-ports"))
    (un_bool (f "disable-icmp")) (un_str (f "alias")) (un_slice un_string (f "roles"))
    (un_slice un_string (f "users")) (un_slice un_string (f "machines")).

Definition un_Auth (y : yaml) : Auth :=
  let f k := assoc k (members y) in
  mkAuth (un_int (f "pincode")) (un_str (f "password")) (un_ptr un_BasicAuth (f "basic-auth"))
    (un_bool (f "sso-enabled")) (un_slice un_string (f "sso-roles"))
    (un_slice un_string (f "sso-users")) (un_slice un_string (f "whitelist-users"))
    (un_int (f "auto-login-idp")).

Definition un_Rule (y : yaml) : Rule :=
  let f k := assoc k (members y) in
  mkRule (un_str (f "action")) (un_str (f "match")) (un_str (f "value")) (un_int (f "priority")).

Definition un_Target (y : yaml) : Target :=
  let f k := assoc k (members y) in
  mkTarget (un_str (f "site")) (un_str (f "hostname")) (un_bool_ptr (f "enabled"))
    (un_str (f "method")) (un_int (f "port")) (un_int (f "internal-port")) (un_str (f "path"))
    (un_str (f "path-match")) (un_str (f "rewrite-path")) (un_str (f "rewrite-match"))
    (un_int (f "priority")) (un_ptr un_HealthCheck (f "healthcheck")).

Definition un_Resource (y : yaml) : Resource :=
  let f k := assoc k (members y) in
  mkResource (un_str (f "name")) (un_str (f "protocol")) (un_bool_ptr (f "enabled"))
    (un_bool (f "ssl")) (un_str (f "full-domain")) (un_str (f "host-header"))
    (un_str (f "tls-server-name")) (un_int (f "proxy-port")) (un_slice un_Header (f "headers"))
    (un_ptr un_Auth (f "auth")) (un_ptr un_Maintenance (f "maintenance"))
    (un_slice un_Rule (f "rules")) (un_slice un_Target (f "targets")).

Definition un_Blueprint (y : yaml) : Blueprint :=
  let f k := assoc k (members y) in
  mkBlueprint (un_map un_Resource (f "public-resources"))
    (un_map un_PrivateResource (f "private-resources")).

(** ** Reference definitions

    What is kept: everything but the difference between a nil slice and an empty
    one. *)

Definition kept_slice {A} (s : goslice A) : goslice A := of_nonempty (elems s).

Definition kept_HealthCheck (h : HealthCheck) : HealthCheck :=
  let '(mkHealthCheck ho po en pa sc mo iv ui ti hs fr me st) := h in
  mkHealthCheck ho po en pa sc mo iv ui ti (kept_slice hs) fr me st.

Definition kept_Auth (a : Auth) : Auth :=
  let '(mkAuth pin pw ba sso roles users wl idp) := a in
  mkAuth pin pw ba sso (kept_slice roles) (kept_slice users) (kept_slice wl) idp.

Definition kept_Target (t : Target) : Target :=
  set_HealthCheck (kept_HealthCheck <$> Target_HealthCheck t) t.

Definition kept_PrivateResource (p : PrivateResource) : PrivateResource :=
  let '(mkPrivateResource na mo de si tc ud ic al ro us ma) := p in
  mkPrivateResource na mo de si tc ud ic al (kept_slice ro) (kept_slice us) (kept_slice ma).

Definition kept_Resource (r : Resource) : Resource :=
  let '(mkResource na pr en ssl fd hh tls pp hs au ma ru ta) := r in
  mkResource na pr en ssl fd hh tls pp (kept_slice hs) (kept_Auth <$> au) ma (kept_slice ru)
    (Some (map kept_Target (elems ta))).

Definition kept_Blueprint (b : Blueprint) : Blueprint :=
  mkBlueprint (kept_Resource <$> Blueprint_PublicResources b)
    (kept_PrivateResource <$> Blueprint_PrivateResources b).

(** ** Reading what was written *)

Lemma assoc_not_in {A} k (l : list (string * A)) : k ∉ l.*1 → assoc k l = None.
Proof.
  induction l as [|[k' v] l IH]; [done|]. cbn. rewrite not_elem_of_cons. intros [Hk Hl].
  destruct (String.eqb_spec k' k); [congruence | by apply IH].
Qed.

Lemma present_keys fs k : k ∉ fs.*1 → k ∉ (present fs).*1.
Proof.
  induction fs as [|[k' [v|]] fs IH]; [done|..]; cbn; rewrite !not_elem_of_cons; naive_solver.
Qed.

(** A field is found under its name. *)
Lemma assoc_present fs k :
  bool_decide (NoDup fs.*1) = true → assoc k (members (struct fs)) = mjoin (assoc k fs).
Proof.
  intros Hnd%bool_decide_eq_true. cbn. revert Hnd.
  induction fs as [|[k' o] fs IH]; [done|]. rewrite fmap_cons. intros [Hk Hnd]%NoDup_cons.
  cbn. destruct (String.eqb_spec k' k) as [->|Hne].
  - destruct o as [v|]; cbn; [by rewrite String.eqb_refl|]. by apply assoc_not_in, present_keys.
  - destruct o as [v|]; cbn; [|by apply IH].
    destruct (String.eqb_spec k' k); [done | by apply IH].
Qed.

Lemma un_str_omitempty s : un_str (str_omitempty s) = s.
Proof. unfold str_omitempty. by case_bool_decide; subst. Qed.
Lemma un_int_omitempty z : un_int (int_omitempty z) = z.
Proof. unfold int_omitempty. by case_bool_decide; subst. Qed.
Lemma un_bool_omitempty b : un_bool (bool_omitempty b) = b.
Proof. by destruct b. Qed.
Lemma un_bool_ptr_omitempty p : un_bool_ptr (ptr_omitempty YBool p) = p.
Proof. by destruct p. Qed.
Lemma un_ptr_omitempty {A B} (f : A → yaml) (g : yaml → B) (h : A → B) p : (∀ x, g (f x) = h x) →
  un_ptr g (ptr_omitempty f p) = h <$> p.
Proof. intros Hg. destruct p; [|done]. cbn. by rewrite Hg. Qed.
Lemma un_slice_slice {A B} (f : A → yaml) (g : yaml → B) (h : A → B) s : (∀ x, g (f x) = h x) →
  un_slice g (slice f s) = Some (map h (elems s)).
Proof. intros Hg. cbn. f_equal. rewrite map_map. by apply map_ext. Qed.
Lemma un_slice_omitempty {A} (f : A → yaml) g s : (∀ x, g (f x) = x) →
  un_slice g (slice_omitempty f s) = kept_slice s.
Proof.
  intros Hg. unfold slice_omitempty, kept_slice. destruct (elems s) as [|x l] eqn:E; [done|].
  rewrite (un_slice_slice _ _ id) by done. by rewrite map_id, E.
Qed.
Lemma un_map_omitempty {A B} (f : A → yaml) (g : yaml → B) (h : A → B) (m : gmap string A) : (∀ x, g (f x) = h x) →
  un_map g (map_omitempty f m) = h <$> m.
Proof.
  intros Hg. unfold map_omitempty. case_decide as Hm; [by subst; rewrite fmap_empty|]. cbn.
  change (map (prod_map id g)) with (fmap (M := list) (prod_map (@id string) g)).
  rewrite list_to_map_fmap, list_to_map_to_list, <- map_fmap_compose.
  apply map_fmap_ext. intros k x _. apply Hg.
Qed.

(** Reads every field of a struct that was written. *)
Ltac read_fields :=
  cbv zeta; rewrite !assoc_present by reflexivity;
  cbn [assoc mjoin option_join String.eqb Ascii.eqb Bool.eqb];
  rewrite ?un_str_omitempty, ?un_int_omitempty, ?un_bool_omitempty, ?un_bool_ptr_omitempty.

Lemma un_Header_Header h : un_Header (yaml_Header h) = h.
Proof. by destruct h. Qed.

Lemma un_BasicAuth_BasicAuth b : un_BasicAuth (yaml_BasicAuth b) = b.
Proof. by destruct b. Qed.

Lemma un_Rule_Rule r : un_Rule (yaml_Rule r) = r.
Proof. destruct r. unfold un_Rule, yaml_Rule. read_fields. done. Qed.

Lemma un_Maintenance_Maintenance m : un_Maintenance (yaml_Maintenance m) = m.
Proof. destruct m. unfold un_Maintenance, yaml_Maintenance. by read_fields. Qed.

Lemma kept_slice_strings s : un_slice un_string (slice_omitempty YStr s) = kept_slice s.
Proof. by apply un_slice_omitempty. Qed.

Lemma kept_slice_headers s : un_slice un_Header (slice_omitempty yaml_Header s) = kept_slice s.
Proof. apply un_slice_omitempty, un_Header_Header. Qed.

Lemma un_HealthCheck_HealthCheck h : un_HealthCheck (yaml_HealthCheck h) = kept_HealthCheck h.
Proof.
  destruct h. unfold un_HealthCheck, yaml_HealthCheck. read_fields. by rewrite kept_slice_headers.
Qed.

Lemma un_Auth_Auth a : un_Auth (yaml_Auth a) = kept_Auth a.
Proof.
  destruct a as [pin pw ba sso roles users wl idp]. unfold un_Auth, yaml_Auth. read_fields.
  rewrite !kept_slice_strings, (un_ptr_omitempty _ _ id) by apply un_BasicAuth_BasicAuth.
  by rewrite option_fmap_id.
Qed.

Lemma un_Target_Target t : un_Target (yaml_Target t) = kept_Target t.
Proof.
  destruct t. unfold un_Target, yaml_Target. read_fields.
  by rewrite (un_ptr_omitempty _ _ kept_HealthCheck) by apply un_HealthCheck_HealthCheck.
Qed.

Lemma un_PrivateResource_PrivateResource p :
  un_PrivateResource (yaml_PrivateResource p) = kept_PrivateResource p.
Proof.
  destruct p. unfold un_PrivateResource, yaml_PrivateResource. read_fields.
  by rewrite !kept_slice_strings.
Qed.

Lemma un_Resource_Resource r : un_Resource (yaml_Resource r) = kept_Resource r.
Proof.
  destruct r as [na pr en ssl fd hh tls pp hs au ma ru ta].
  unfold un_Resource, yaml_Resource. read_fields.
  rewrite kept_slice_headers, (un_ptr_omitempty _ _ kept_Auth) by apply un_Auth_Auth.
  rewrite (un_ptr_omitempty _ _ id) by apply un_Maintenance_Maintenance.
  rewrite (un_slice_omitempty _ un_Rule) by apply un_Rule_Rule.
  rewrite (un_slice_slice _ _ kept_Target) by apply un_Target_Target.
  by rewrite option_fmap_id.
Qed.

Lemma un_Blueprint_Blueprint b : un_Blueprint (yaml_Blueprint b) = kept_Blueprint b.
Proof.
  unfold un_Blueprint, yaml_Blueprint. read_fields.
  rewrite (un_map_omitempty _ _ kept_Resource) by apply un_Resource_Resource.
  by rewrite (un_map_omitempty _ _ kept_PrivateResource) by apply un_PrivateResource_PrivateResource.
Qed.

(** ** The file *)

Section text.
  (** The text of a tree, and a reader of such texts. *)
  Variable render : yaml → result GoError string.
  Variable reads : string → option yaml.
  Hypothesis reads_rendered : ∀ t y, render t = Ok y → reads y = Some t.
  Context `{Env}.
  Hypothesis marshals : ∀ b, yaml_Marshal b = render (yaml_Blueprint b).
  Local Set Default Proof Using "Type*".

(** C9. What the file says: unless the last write failed, reading the output
    file under the names of the tags gives the two maps of the manager back, after
    a forced write and any calls that write what they change; nil and empty slices
    aside, since the fields that are left out are zero. *)
Theorem file_reads_back cs0 cs s :
  let s' := run (cs0 ++ CForceWrite :: cs) s in
  forallb writes cs = true → Manager_lastWriteErr (SM_manager s') = None →
  ∃ y t, out_file s' = Some y ∧ reads y = Some t ∧ un_Blueprint t = kept_Blueprint (bp s').
Proof.
  cbv zeta. intros Hcs He.
  assert (fresh (run (cs0 ++ CForceWrite :: cs) s)) as Hf.
  { rewrite run_app.
    change (run (CForceWrite :: cs) (run cs0 s)) with (run cs (exec CForceWrite (run cs0 s))).
    apply (fresh_run cs); [done | apply fresh_writeState]. }
  destruct (Hf He) as (y & Hy & Hout). rewrite marshals in Hy.
  eexists y, _. split; [done|]. split; [by apply reads_rendered | apply un_Blueprint_Blueprint].
Qed.

End text.

(** ** JSON is YAML

    A renderer that satisfies the hypotheses: trees of moderate depth in flow
    style, that is, as JSON. *)

Fixpoint to_json (y : yaml) : json :=
  match y with
  | YBool b => JBool b
  | YInt z => JNum (Itoa z)
  | YStr s => JStr s
  | YSeq l => JArr (map to_json l)
  | YMap l => JObj (map (prod_map id to_json) l)
  end.

Fixpoint of_json (j : json) : yaml :=
  match j with
  | JNull => YStr ""
  | JBool b => YBool b
  | JNum n => YInt (default 0%Z (Atoi n))
  | JStr s => YStr s
  | JArr l => YSeq (map of_json l)
  | JObj l => YMap (map (prod_map id of_json) l)
  end.

Definition utf8_string (s : string) : bool := utf8_check (String.length s) (to_bytes s).

Fixpoint renderable (d : nat) (y : yaml) : bool :=
  match y with
  | YBool _ => true
  | YInt z => in_int64 z
  | YStr s => utf8_string s
  | YSeq l => match d with O => false | S d => forallb (renderable d) l end
  | YMap l =>
      match d with O => false | S d => forallb (λ p, utf8_string p.1 && renderable d p.2) l end
  end.

Definition render_json (y : yaml) : result GoError string :=
  if renderable 9 y then Ok (print (to_json y)) else Err (mkError "cannot be written").
Definition reads_json (s : string) : option yaml := of_json <$> parse s.

Lemma renderable_json d y :
  renderable d y = true → printable d (to_json y) ∧ of_json (to_json y) = y.
Proof.
  revert y; induction d as [|d IH]; intros [b|z|s|l|l]; simpl; try done.
  1, 3: intros Hz; split; [by eexists | by rewrite Atoi_Itoa].
  1, 2: intros Hs; split; [by eapply utf8_check_sound | done].
  - rewrite forallb_forall. intros Hl. split.
    + apply Forall_fmap, Forall_forall. intros y Hy. apply IH, Hl. by apply list_elem_of_In.
    + f_equal. rewrite map_map. etrans; [|apply map_id]. apply map_ext_in. intros y Hy.
      by apply IH, Hl.
  - rewrite forallb_forall. intros Hl. split.
    + apply Forall_fmap, Forall_forall. intros [k y] Hy. cbn.
      apply list_elem_of_In, Hl, andb_true_iff in Hy as [Hk Hy].
      split; [by eapply utf8_check_sound | by apply IH].
    + f_equal. rewrite map_map. etrans; [|apply map_id]. apply map_ext_in. intros [k y] Hy. cbn.
      apply Hl, andb_true_iff in Hy as [_ Hy]. f_equal. by apply IH.
Qed.

Lemma reads_render_json t y : render_json t = Ok y → reads_json y = Some t.
Proof.
  unfold render_json. destruct (renderable 9 t) eqn:E; [|done]. intros [= <-].
  apply renderable_json in E as [Hp Ht]. unfold reads_json.
  rewrite (parse_print 9) by (done || by vm_compute). cbn. by rewrite Ht.
Qed.

Definition json_env : Env := {|
  yaml_Marshal b := render_json (yaml_Blueprint b);
  write_outcome _ := WriteDone;
  rename_outcome _ := None;
  remove_outcome _ := None;
  clock n := Z.of_nat n;
|}.

Lemma file_reads_back_witness :
  let cs := [CAddOrUpdate "k" some_resource true; CRemove "x"] in
  let s' := @run json_env ([] ++ CForceWrite :: cs) (start "bp.yaml" ∅) in
  size (Blueprint_PublicResources (bp s')) = 1
  ∧ ∃ y t, out_file s' = Some y ∧ reads_json y = Some t ∧ un_Blueprint t = kept_Blueprint (bp s').
Proof.
  split; [vm_compute; reflexivity|].
  apply (file_reads_back render_json reads_json reads_render_json (H := json_env) (λ _, eq_refl) []
    [CAddOrUpdate "k" some_resource true; CRemove "x"] (start "bp.yaml" ∅)).
  - reflexivity.
  - vm_compute. reflexivity.
Defined.
