(* ===== verification/Mutex.v ===== *)
(** * The mutex of the state manager

    [StateManager] takes a method of [Manager] as one transition.  Here a method
    is the sequence of its accesses to the fields, to the operating system and
    to the mutex, any number of goroutines run methods at the same time, and a
    step of the program is one access of one of them.  The methods are shown to
    be linearizable (every interleaving does what the one-transition methods do
    in the order in which they took the mutex), free of data races, and to
    return. *)

From stdpp Require Import options.
From S2P Require Import Prelude GoStrings Blueprint StateManager StateProps.

Local Open Scope go_scope.

(** ** Definitions *)

(** *** Programs *)

(** What a goroutine still has to do before it returns a value of type [A]. *)
Inductive Prog (A : Type) : Type :=
| Done (a : A)
| Lock (p : Prog A)
| Unlock (p : Prog A)
| Access (B : Type) (f : M B) (k : B → Prog A).
Arguments Done {_} _.
Arguments Lock {_} _.
Arguments Unlock {_} _.
Arguments Access {_ _} _ _.

Fixpoint prog_bind {A B} (k : A → Prog B) (p : Prog A) : Prog B :=
  match p with
  | Done a => k a
  | Lock p => Lock (prog_bind k p)
  | Unlock p => Unlock (prog_bind k p)
  | Access f g => Access f (λ b, prog_bind k (g b))
  end.

#[export] Instance Prog_ret : MRet Prog := @Done.
#[export] Instance Prog_bind : MBind Prog := λ A B k p, prog_bind k p.

(** One access, a read of a field and a write to the manager. *)
Definition access {A} (f : M A) : Prog A := Access f Done.
Definition read {A} (f : Manager → A) : Prog A := access (λ s, (f (SM_manager s), s)).
Definition write (f : Manager → Manager) : Prog unit := access (modify f).

(** [m.mu.Lock()], [defer m.mu.Unlock()] and the rest of the method: the mutex
    is released when the value to return is known. *)
Definition synchronized {A} (body : Prog A) : Prog A :=
  Lock (a ← body; Unlock (Done a)).

Section methods.
  Context `{Env}.

(** *** The methods, access by access *)

(** [bp] holds references to the two maps: what is marshalled is what they
    contain by then. *)
Definition writeState_body : Prog unit :=
  marshalled ← read (λ m, yaml_Marshal (blueprint_of m));
  match marshalled with
  | Err err => write (set_lastWriteErr (Some err))
  | Ok yamlData =>
      outputFile ← read Manager_outputFile;
      let tmp := outputFile +:+ ".tmp" in
      err ← access (os_WriteFile tmp yamlData);
      match err with
      | Some err => write (set_lastWriteErr (Some err))
      | None =>
          outputFile ← read Manager_outputFile;
          err ← access (os_Rename tmp outputFile);
          match err with
          | Some err =>
              _ ← access (os_Remove tmp);
              write (set_lastWriteErr (Some err))
          | None =>
              _ ← write (set_lastWriteErr None);
              now ← access time_Now;
              _ ← write (set_lastWriteTime now);
              _ ← read (λ m, (Manager_outputFile m, size (Manager_resources m),
                              size (Manager_privateResources m)));
              mret tt
          end
      end
  end.

Definition AddOrUpdate_body (key : string) (r : Resource) (w : bool) : Prog bool :=
  existing ← read (λ m, Manager_resources m !! key);
  if match existing with Some existing => DeepEqual existing r | None => false end
  then mret false
  else
    _ ← write (λ m, set_resources (<[ key := r ]> (Manager_resources m)) m);
    _ ← (if w then writeState_body else mret tt);
    mret true.

Definition AddOrUpdatePrivate_body (key : string) (r : PrivateResource) (w : bool) : Prog bool :=
  existing ← read (λ m, Manager_privateResources m !! key);
  if match existing with Some existing => DeepEqual existing r | None => false end
  then mret false
  else
    _ ← write (λ m, set_privateResources (<[ key := r ]> (Manager_privateResources m)) m);
    _ ← (if w then writeState_body else mret tt);
    mret true.

Definition RemovePrivate_body (key : string) : Prog bool :=
  existing ← read (λ m, Manager_privateResources m !! key);
  match existing with
  | None => mret false
  | Some _ =>
      _ ← write (λ m, set_privateResources (delete key (Manager_privateResources m)) m);
      _ ← writeState_body;
      mret true
  end.

Definition Remove_body (key : string) : Prog bool :=
  existing ← read (λ m, Manager_resources m !! key);
  match existing with
  | None => mret false
  | Some _ =>
      _ ← write (λ m, set_resources (delete key (Manager_resources m)) m);
      _ ← writeState_body;
      mret true
  end.

Definition WriteHealthy_body (threshold : Z) : Prog bool :=
  lastWriteErr ← read Manager_lastWriteErr;
  match lastWriteErr with
  | Some _ => mret false
  | None =>
      lastWriteTime ← read Manager_lastWriteTime;
      if IsZero lastWriteTime then mret true
      else
        lastWriteTime ← read Manager_lastWriteTime;
        now ← access time_Now;
        mret (Sub now lastWriteTime <=? threshold)%Z
  end.

End methods.

(** A call of a method: a mutating one or the probe of the health server.  The
    reply is what the method returns, [None] for a method without a result. *)
Inductive Call : Type :=
| Mutate (c : Cmd)
| Probe (threshold : Z).

Definition Reply : Type := option bool.

Section goroutines.
  Context `{Env}.

Definition method_body (c : Call) : Prog Reply :=
  match c with
  | Mutate (CAddOrUpdate key r w) => b ← AddOrUpdate_body key r w; mret (Some b)
  | Mutate (CAddOrUpdatePrivate key r w) => b ← AddOrUpdatePrivate_body key r w; mret (Some b)
  | Mutate (CRemove key) => b ← Remove_body key; mret (Some b)
  | Mutate (CRemovePrivate key) => b ← RemovePrivate_body key; mret (Some b)
  | Mutate CForceWrite => _ ← writeState_body; mret None
  | Probe threshold => b ← WriteHealthy_body threshold; mret (Some b)
  end.

Definition method (c : Call) : Prog Reply := synchronized (method_body c).

(** *** Goroutines *)

Inductive Goroutine : Type :=
| Idle
| Running (c : Call) (p : Prog Reply).

(** [sync.Mutex] does not know who holds it. *)
Record Config : Type := mkConfig {
  locked : bool;
  shared : SM;
  goroutines : list Goroutine;
}.

Inductive Event : Type :=
| Invoke (i : nat) (c : Call)
| Return (i : nat) (c : Call) (r : Reply).

(** One step of one goroutine.  [Lock] waits; [Unlock] of a free mutex is the
    fatal error of [sync.Mutex], see [panics]. *)
Inductive step : option Event → Config → Config → Prop :=
| step_invoke i c l s gs :
    gs !! i = Some Idle →
    step (Some (Invoke i c)) (mkConfig l s gs) (mkConfig l s (<[ i := Running c (method c) ]> gs))
| step_lock i c p s gs :
    gs !! i = Some (Running c (Lock p)) →
    step None (mkConfig false s gs) (mkConfig true s (<[ i := Running c p ]> gs))
| step_access i c B (f : M B) k l s gs :
    gs !! i = Some (Running c (Access f k)) →
    step None (mkConfig l s gs)
      (mkConfig l (snd (f s)) (<[ i := Running c (k (fst (f s))) ]> gs))
| step_unlock i c p s gs :
    gs !! i = Some (Running c (Unlock p)) →
    step None (mkConfig true s gs) (mkConfig false s (<[ i := Running c p ]> gs))
| step_return i c r l s gs :
    gs !! i = Some (Running c (Done r)) →
    step (Some (Return i c r)) (mkConfig l s gs) (mkConfig l s (<[ i := Idle ]> gs)).

Definition panics (cfg : Config) : Prop :=
  locked cfg = false ∧ ∃ i c p, goroutines cfg !! i = Some (Running c (Unlock p)).

(** The steps and their labels, in order. *)
Inductive steps : list (option Event) → Config → Config → Prop :=
| steps_nil cfg : steps [] cfg cfg
| steps_snoc es e cfg cfg' cfg'' :
    steps es cfg cfg' → step e cfg' cfg'' → steps (es ++ [e]) cfg cfg''.

(** [n] goroutines, none of them in a method. *)
Definition launch (n : nat) (s : SM) : Config := mkConfig false s (replicate n Idle).

(** What a scheduler chooses: a call of an idle goroutine, or the next step of a
    running one; and what then happens, [None] when the goroutine must wait. *)
Inductive Choice : Type :=
| Start (i : nat) (c : Call)
| Next (i : nat).

Definition advance (ch : Choice) (cfg : Config) : option (option Event * Config) :=
  let '(mkConfig l s gs) := cfg in
  match ch with
  | Start i c =>
      match gs !! i with
      | Some Idle => Some (Some (Invoke i c), mkConfig l s (<[ i := Running c (method c) ]> gs))
      | _ => None
      end
  | Next i =>
      match gs !! i with
      | Some (Running c (Lock p)) =>
          if l then None else Some (None, mkConfig true s (<[ i := Running c p ]> gs))
      | Some (Running c (Access f k)) =>
          Some (None, mkConfig l (snd (f s)) (<[ i := Running c (k (fst (f s))) ]> gs))
      | Some (Running c (Unlock p)) =>
          if l then Some (None, mkConfig false s (<[ i := Running c p ]> gs)) else None
      | Some (Running c (Done r)) => Some (Some (Return i c r), mkConfig l s (<[ i := Idle ]> gs))
      | _ => None
      end
  end.

(** A whole schedule. *)
Fixpoint play (chs : list Choice) (cfg : Config) : option (list (option Event) * Config) :=
  match chs with
  | [] => Some ([], cfg)
  | ch :: chs =>
      '(e, cfg') ← advance ch cfg;
      '(es, cfg'') ← play chs cfg';
      Some (e :: es, cfg'')
  end.

End goroutines.

(** ** Reference definitions *)

(** A program that nothing interferes with: [None] when it waits for itself or
    panics. *)
Fixpoint alone {A} (p : Prog A) (l : bool) (s : SM) : option (A * bool * SM) :=
  match p with
  | Done a => Some (a, l, s)
  | Lock p => if l then None else alone p true s
  | Unlock p => if l then alone p false s else None
  | Access f k => alone (k (fst (f s))) l (snd (f s))
  end.

(** A method in one transition: the methods of [StateManager]. *)
Definition atomic `{Env} (c : Call) : M Reply :=
  match c with
  | Mutate (CAddOrUpdate key r w) => b ← AddOrUpdate key r w; mret (Some b)
  | Mutate (CAddOrUpdatePrivate key r w) => b ← AddOrUpdatePrivate key r w; mret (Some b)
  | Mutate (CRemove key) => b ← Remove key; mret (Some b)
  | Mutate (CRemovePrivate key) => b ← RemovePrivate key; mret (Some b)
  | Mutate CForceWrite => _ ← ForceWrite; mret None
  | Probe threshold =>
      m ← get; now ← time_Now; mret (Some (WriteHealthy m now threshold))
  end.

(** A call that was carried out: who made it, and the reply. *)
Definition Performed : Type := nat * Call * Reply.

(** The calls one after the other give these replies and lead from [s] to [s']. *)
Inductive replays `{Env} : list Performed → SM → SM → Prop :=
| replays_nil s : replays [] s s
| replays_snoc lin i c s s' :
    replays lin s s' →
    replays (lin ++ [(i, c, fst (atomic c s'))]) s (snd (atomic c s')).

(** The calls a goroutine has made, has finished (with the reply), and those of
    a list of performed calls that are its own. *)
Definition invoked (i : nat) (es : list (option Event)) : list Call :=
  omap (λ e, match e with Some (Invoke j c) => if decide (i = j) then Some c else None
             | _ => None end) es.
Definition returned (i : nat) (es : list (option Event)) : list (Call * Reply) :=
  omap (λ e, match e with Some (Return j c r) => if decide (i = j) then Some (c, r) else None
             | _ => None end) es.
Definition performed (i : nat) (lin : list Performed) : list (Call * Reply) :=
  omap (λ '(j, c, r), if decide (i = j) then Some (c, r) else None) lin.

(** Every call of a goroutine returned is a performed one, with its reply, and
    every performed one was invoked: in the order of the goroutine. *)
Definition fits (es : list (option Event)) (lin : list Performed) : Prop :=
  ∀ i, returned i es `prefix_of` performed i lin
       ∧ (performed i lin).*1 `prefix_of` invoked i es.

(** [lin] is a linearization of the history [es]: it fits, and so does a prefix
    of it at every earlier moment, so that a call that returned before another
    was invoked comes before it. *)
Definition linearization (es : list (option Event)) (lin : list Performed) : Prop :=
  fits es lin ∧ ∀ es1, es1 `prefix_of` es → ∃ lin1, lin1 `prefix_of` lin ∧ fits es1 lin1.

(** The mutating methods of a list of performed calls. *)
Definition mutations (lin : list Performed) : list Cmd :=
  omap (λ '(_, c, _), match c with Mutate c => Some c | Probe _ => None end) lin.

(** The log of the machine only grows. *)
Definition extends_log (s s' : SM) : Prop :=
  World_log (SM_world s) `suffix_of` World_log (SM_world s').

(** At most [n] accesses, and a result. *)
Inductive accesses {A} : nat → Prog A → Prop :=
| accesses_done n a : accesses n (Done a)
| accesses_access n B (f : M B) k :
    (∀ s, extends_log s (snd (f s))) → (∀ b, accesses n (k b)) → accesses (S n) (Access f k).

(** At most [n] accesses, the release of the mutex, and a result. *)
Inductive inside {A} : nat → Prog A → Prop :=
| inside_unlock n a : inside n (Unlock (Done a))
| inside_access n B (f : M B) k :
    (∀ s, extends_log s (snd (f s))) → (∀ b, inside n (k b)) → inside (S n) (Access f k).

(** At most [n] steps to the end of the method, its return included. *)
Inductive lasts : nat → Goroutine → Prop :=
| lasts_idle n : lasts n Idle
| lasts_done n c r : lasts (S n) (Running c (Done r))
| lasts_lock n c p : lasts n (Running c p) → lasts (S n) (Running c (Lock p))
| lasts_unlock n c p : lasts n (Running c p) → lasts (S n) (Running c (Unlock p))
| lasts_access n c B (f : M B) k :
    (∀ b, lasts n (Running c (k b))) → lasts (S n) (Running c (Access f k)).

(** The most accesses a method makes; with its invocation, the two operations on
    the mutex and its return, the most steps it takes. *)
Definition most_accesses : nat := 11.
Definition most_steps : nat := 15.

Definition is_invoke (e : option Event) : bool :=
  match e with Some (Invoke _ _) => true | _ => false end.
Definition invocations (es : list (option Event)) : nat := length (filter is_invoke es).

(** Goroutine [i] is about to access a field, the clock or the disk. *)
Definition accessing (cfg : Config) (i : nat) : Prop :=
  ∃ c B (f : M B) k, goroutines cfg !! i = Some (Running c (Access f k)).

(** ** One method alone *)

Lemma accesses_mono {A} n m (p : Prog A) : accesses n p → n ≤ m → accesses m p.
Proof.
  intros Hp. revert m. induction Hp as [|n B f k Hf _ IH]; intros m Hm; [constructor|].
  destruct m as [|m]; [lia|]. constructor; [done|]. intros b. apply IH. lia.
Qed.

Lemma accesses_bind {A B} n m (p : Prog A) (k : A → Prog B) :
  accesses n p → (∀ a, accesses m (k a)) → accesses (n + m) (p ≫= k).
Proof.
  intros Hp Hk. induction Hp as [n a|n C f g Hf _ IH].
  - apply (accesses_mono m); [apply Hk | lia].
  - by constructor.
Qed.

Lemma accesses_then {A B} n (f : M A) (k : A → Prog B) :
  (∀ s, extends_log s (snd (f s))) → (∀ a, accesses n (k a)) → accesses (S n) (access f ≫= k).
Proof. intros Hf Hk. by constructor. Qed.

#[export] Instance extends_log_preorder : PreOrder extends_log.
Proof. split; [by intros s; exists [] | unfold extends_log; intros s1 s2 s3 H1 H2; by etrans]. Qed.

Lemma extends_log_modify f s : extends_log s (snd (modify f s)).
Proof. by exists []. Qed.

Lemma extends_log_os_call {A} (call : nat → gmap string string → A * gmap string string) s :
  extends_log s (snd (os_call call s)).
Proof. unfold os_call. destruct (call _ _) as [a files]. by exists [files]. Qed.

(** For an access to a field, to the clock or to the operating system. *)
Ltac log_grows :=
  intros ?; first [reflexivity | apply extends_log_modify | apply extends_log_os_call].

Lemma inside_of {A} n (p : Prog A) : accesses n p → inside n (a ← p; Unlock (Done a)).
Proof. induction 1; constructor; auto. Qed.

(** Counts the accesses of a program written with the notations of the monad. *)
Ltac count_accesses :=
  repeat first
    [ apply accesses_done
    | case_match
    | apply accesses_access; [log_grows | intros ?; cbn] ].

Section alone.
  Context `{Env}.

Lemma writeState_accesses : accesses 9 writeState_body.
Proof. unfold writeState_body. cbn. count_accesses. Qed.

Lemma write_if_accesses (w : bool) : accesses 9 (if w then writeState_body else mret tt).
Proof. destruct w; [apply writeState_accesses | constructor]. Qed.

Lemma then_result {A B} n (p : Prog A) (k : A → Prog B) :
  accesses n p → (∀ a, accesses 0 (k a)) → accesses n (p ≫= k).
Proof. intros Hp Hk. rewrite <- (Nat.add_0_r n). by apply accesses_bind. Qed.

Lemma method_body_accesses c : accesses most_accesses (method_body c).
Proof.
  destruct c as [[key r w|key r w|key|key|]|threshold]; cbn [method_body];
    (apply then_result; [|intros; constructor]).
  - apply accesses_then; [log_grows|intros existing]. case_match; [constructor|].
    apply accesses_then; [log_grows|intros u]. apply then_result; [apply write_if_accesses | intros; constructor].
  - apply accesses_then; [log_grows|intros existing]. case_match; [constructor|].
    apply accesses_then; [log_grows|intros u]. apply then_result; [apply write_if_accesses | intros; constructor].
  - apply accesses_then; [log_grows|intros existing]. case_match; [|constructor].
    apply accesses_then; [log_grows|intros u]. apply then_result; [apply writeState_accesses | intros; constructor].
  - apply accesses_then; [log_grows|intros existing]. case_match; [|constructor].
    apply accesses_then; [log_grows|intros u]. apply then_result; [apply writeState_accesses | intros; constructor].
  - apply (accesses_mono 9); [apply writeState_accesses | unfold most_accesses; lia].
  - unfold WriteHealthy_body, most_accesses. cbn. count_accesses.
Qed.

Lemma method_shape c :
  ∃ p, method c = Lock p ∧ inside most_accesses p.
Proof. eexists; split; [done|]. apply inside_of, method_body_accesses. Qed.

Lemma alone_bind {A B} (p : Prog A) (k : A → Prog B) l s :
  alone (p ≫= k) l s = '(a, l', s') ← alone p l s; alone (k a) l' s'.
Proof.
  revert l s. induction p as [a|p IH|p IH|C f g IH]; intros l s; cbn.
  - done.
  - destruct l; [done | apply IH].
  - destruct l; [apply IH | done].
  - apply IH.
Qed.

(** A body alone is a function of the state. *)
Definition body_is {A} (p : Prog A) (f : M A) : Prop :=
  ∀ s, alone p true s = Some (fst (f s), true, snd (f s)).

Lemma body_is_bind {A B} (p : Prog A) (f : M A) (k : A → Prog B) (g : A → M B) :
  body_is p f → (∀ a, body_is (k a) (g a)) → body_is (p ≫= k) (f ≫= g).
Proof.
  intros Hp Hk s. rewrite alone_bind, Hp. cbn. rewrite Hk.
  unfold mbind, M_bind. by destruct (f s).
Qed.

Lemma body_is_ret {A} (a : A) : body_is (mret a) (mret a).
Proof. done. Qed.

Lemma writeState_is : body_is writeState_body writeState.
Proof.
  intros [m [files n log]]. unfold writeState_body, writeState. run_M.
  destruct (yaml_Marshal (blueprint_of m)) as [y|e]; cbn; [|done].
  destruct (write_outcome n) as [|e [part|]]; cbn; try done.
  destruct (rename_outcome (S n)) as [e|]; cbn; [by destruct (remove_outcome _)|].
  rewrite lookup_insert_eq. done.
Qed.

Lemma write_if_is (w : bool) :
  body_is (if w then writeState_body else mret tt) (if w then writeState else mret tt).
Proof. destruct w; [apply writeState_is | apply body_is_ret]. Qed.

(** Reads the map first: both sides decide on the same entry. *)
Lemma body_is_get {A B} (f : Manager → A) (k : A → Prog B) (g : Manager → M B) :
  (∀ s, alone (k (f (SM_manager s))) true s
        = Some (fst (g (SM_manager s) s), true, snd (g (SM_manager s) s))) →
  body_is (read f ≫= k) (get ≫= g).
Proof. intros Hk s. apply Hk. Qed.

Lemma body_is_modify {B} (f : Manager → Manager) s (k : Prog B) (g : M B) :
  body_is k g →
  alone (_ ← write f; k) true s
  = Some (fst ((_ ← modify (λ _, f (SM_manager s)); g) s), true,
          snd ((_ ← modify (λ _, f (SM_manager s)); g) s)).
Proof. intros Hk. apply Hk. Qed.

Lemma method_body_is c : body_is (method_body c) (atomic c).
Proof.
  destruct c as [[key r w|key r w|key|key|]|threshold]; cbn [method_body atomic];
    try (apply body_is_bind; [|intros; apply body_is_ret]).
  - apply body_is_get. intros s. destruct (match _ !! key with Some _ => _ | None => _ end);
      [done|]. apply body_is_modify, body_is_bind; [apply write_if_is | done].
  - apply body_is_get. intros s. destruct (match _ !! key with Some _ => _ | None => _ end);
      [done|]. apply body_is_modify, body_is_bind; [apply write_if_is | done].
  - apply body_is_get. intros s. destruct (_ !! key); [|done].
    apply body_is_modify, body_is_bind; [apply writeState_is | done].
  - apply body_is_get. intros s. destruct (_ !! key); [|done].
    apply body_is_modify, body_is_bind; [apply writeState_is | done].
  - apply writeState_is.
  - intros [m w]. unfold WriteHealthy_body, WriteHealthy. run_M.
    destruct (Manager_lastWriteErr m); cbn; [done|]. by destruct (IsZero _).
Qed.

Lemma method_alone c s :
  alone (method c) false s = Some (fst (atomic c s), false, snd (atomic c s)).
Proof. unfold method, synchronized. cbn. by rewrite alone_bind, method_body_is. Qed.

Lemma atomic_exec c s : snd (atomic (Mutate c) s) = exec c s.
Proof.
  destruct c; cbn [atomic exec]; unfold mbind, M_bind, mret, M_ret;
    match goal with |- context [let '(_, _) := ?x in _] => by destruct x end.
Qed.

Lemma atomic_probe threshold s : snd (atomic (Probe threshold) s) = s.
Proof. done. Qed.

End alone.

(** ** Linearizability *)

Section linearizable.
  Context `{Env}.

(** Where goroutine [i] is, when [h] holds the mutex, the state is [s] and the
    performed calls lead to [s']: the calls it invoked, had performed and
    returned from.  A call is performed when it takes the mutex. *)
Inductive stage (h : option nat) (s s' : SM) (i : nat) :
    option Goroutine → list Call → list (Call * Reply) → list (Call * Reply) → Prop :=
| at_none : h ≠ Some i → stage h s s' i None [] [] []
| at_idle p : h ≠ Some i → stage h s s' i (Some Idle) p.*1 p p
| at_waiting c p :
    h ≠ Some i → stage h s s' i (Some (Running c (method c))) (p.*1 ++ [c]) p p
| at_inside c p n q r :
    h = Some i → inside n q → alone q true s = Some (r, false, s') →
    stage h s s' i (Some (Running c q)) (p.*1 ++ [c]) (p ++ [(c, r)]) p
| at_end c p r :
    h ≠ Some i →
    stage h s s' i (Some (Running c (Done r))) (p.*1 ++ [c]) (p ++ [(c, r)]) p.

Record invariant (h : option nat) (es : list (option Event)) (lin : list Performed)
    (s0 s' : SM) (cfg : Config) : Prop := mkInvariant {
  inv_locked : locked cfg = bool_decide (h ≠ None);
  inv_free : h = None → shared cfg = s';
  inv_replays : replays lin s0 s';
  inv_linearization : linearization es lin;
  inv_stage i : stage h (shared cfg) s' i (goroutines cfg !! i)
                  (invoked i es) (performed i lin) (returned i es);
}.

(** A goroutine that neither held nor holds the mutex is not concerned. *)
Lemma stage_frame h h2 s s2 s' s2' i g inv p ret :
  stage h s s' i g inv p ret → h ≠ Some i → h2 ≠ Some i → stage h2 s2 s2' i g inv p ret.
Proof.
  intros Hst Hh Hh2. destruct Hst; [..|done|]; by econstructor.
Qed.

Lemma stage_fits h s s' i g inv p ret :
  stage h s s' i g inv p ret → ret `prefix_of` p ∧ p.*1 `prefix_of` inv.
Proof.
  destruct 1; rewrite ?fmap_app; split; try done; try by apply prefix_app_r.
  all: by eexists.
Qed.

(** The histories after one more event. *)
Lemma invoked_snoc i es e :
  invoked i (es ++ [e]) = invoked i es ++ invoked i [e].
Proof. apply omap_app. Qed.
Lemma returned_snoc i es e :
  returned i (es ++ [e]) = returned i es ++ returned i [e].
Proof. apply omap_app. Qed.
Lemma performed_snoc i lin j c r :
  performed i (lin ++ [(j, c, r)])
  = performed i lin ++ (if decide (i = j) then [(c, r)] else []).
Proof. unfold performed. rewrite omap_app. simpl. by case_decide. Qed.

Lemma linearization_snoc es e lin lin' :
  linearization es lin → lin `prefix_of` lin' → fits (es ++ [e]) lin' →
  linearization (es ++ [e]) lin'.
Proof.
  intros [_ Hlin] Hp Hf. split; [done|]. intros es1 [es2 Hes].
  destruct es2 as [|e2 es2 _] using rev_ind.
  - rewrite app_nil_r in Hes. subst es1. by exists lin'.
  - rewrite app_assoc in Hes. apply app_inj_tail in Hes as [-> ->].
    destruct (Hlin es1) as (lin1 & Hl & Hf1); [by eexists|].
    exists lin1. split; [by etrans|done].
Qed.

(** The invariant after a step of goroutine [i], from its new stage. *)
Lemma invariant_step h h2 es e lin lin2 s0 s' s2' cfg l2 s2 i g2 :
  invariant h es lin s0 s' cfg →
  (∀ j, j ≠ i → h ≠ Some j ∧ h2 ≠ Some j ∨ h2 = h ∧ s2 = shared cfg ∧ s2' = s') →
  (∀ j, j ≠ i → invoked j [e] = [] ∧ returned j [e] = [] ∧ performed j lin2 = performed j lin) →
  i < length (goroutines cfg) →
  l2 = bool_decide (h2 ≠ None) → (h2 = None → s2 = s2') → replays lin2 s0 s2' →
  lin `prefix_of` lin2 →
  stage h2 s2 s2' i (Some g2) (invoked i (es ++ [e])) (performed i lin2) (returned i (es ++ [e])) →
  invariant h2 (es ++ [e]) lin2 s0 s2' (mkConfig l2 s2 (<[ i := g2 ]> (goroutines cfg))).
Proof.
  intros [Hl Hfree Hrep Hlin Hst] Hframe Hother Hi Hl2 Hfree2 Hrep2 Hpre Hsti.
  assert (∀ j, stage h2 s2 s2' j (<[ i := g2 ]> (goroutines cfg) !! j)
    (invoked j (es ++ [e])) (performed j lin2) (returned j (es ++ [e]))) as Hst2.
  { intros j. destruct (decide (j = i)) as [->|Hj].
    - by rewrite list_lookup_insert_eq by done.
    - rewrite list_lookup_insert_ne by done. rewrite invoked_snoc, returned_snoc.
      destruct (Hother j Hj) as (-> & -> & ->). rewrite !app_nil_r.
      destruct (Hframe j Hj) as [[? ?]|(-> & -> & ->)]; [|apply Hst].
      by eapply stage_frame. }
  split; try done. apply (linearization_snoc _ _ lin); [done..|].
  intros j. eapply stage_fits, Hst2.
Qed.

Lemma invariant_launch n s : invariant None [] [] s s (launch n s).
Proof.
  split; try done.
  - constructor.
  - split; [by intros i|]. intros es1 Hes. apply prefix_nil_inv in Hes as ->.
    by exists [].
  - intros i. simpl. destruct (decide (i < n)) as [Hi|Hi].
    + rewrite lookup_replicate_2 by done. by apply (at_idle _ _ _ _ []).
    + rewrite lookup_ge_None_2 by (rewrite length_replicate; lia). by apply at_none.
Qed.

Lemma inside_access_inv {A} n B (f : M B) (k : B → Prog A) :
  inside n (Access f k) → ∃ m, n = S m ∧ ∀ b, inside m (k b).
Proof.
  intros Hin. change (match Access f k with
    | Access _ k => ∃ m, n = S m ∧ ∀ b, inside m (k b) | _ => True end).
  destruct Hin; eauto.
Qed.

Lemma inside_unlock_inv {A} n (p : Prog A) : inside n (Unlock p) → ∃ a, p = Done a.
Proof. inversion 1; eauto. Qed.

Lemma not_inside {A} n (p : Prog A) :
  inside n p → (∀ a, p ≠ Done a) ∧ (∀ q, p ≠ Lock q).
Proof. by destruct 1. Qed.

(** Where a goroutine is, from what it does next. *)
Lemma stage_lock h s s' i c q inv p ret :
  stage h s s' i (Some (Running c (Lock q))) inv p ret →
  h ≠ Some i ∧ Lock q = method c ∧ inv = p.*1 ++ [c] ∧ ret = p.
Proof.
  inversion 1; subst; [done|]. exfalso.
  match goal with Hin : inside _ (Lock _) |- _ => by apply not_inside in Hin as [_ Hn]; eapply Hn end.
Qed.

(** The three forms of a goroutine that is past the mutex. *)
Lemma stage_access h s s' i c B (f : M B) k inv p ret :
  stage h s s' i (Some (Running c (Access f k))) inv p ret →
  h = Some i ∧ stage h (snd (f s)) s' i (Some (Running c (k (fst (f s))))) inv p ret.
Proof.
  inversion 1; subst. split; [done|].
  match goal with Hin : inside _ _ |- _ => apply inside_access_inv in Hin as (m & -> & Hin) end.
  by eapply at_inside.
Qed.

Lemma stage_unlock h s s' i c q inv p ret :
  stage h s s' i (Some (Running c (Unlock q))) inv p ret →
  h = Some i ∧ s = s' ∧ (∃ r, q = Done r) ∧ stage None s s' i (Some (Running c q)) inv p ret.
Proof.
  inversion 1; subst. split; [done|].
  match goal with Hin : inside _ _ |- _ => apply inside_unlock_inv in Hin as [a ->] end.
  cbn in *. simplify_eq. split_and!; [done | by eexists | by apply at_end].
Qed.

Lemma stage_done h s s' i c r inv p ret :
  stage h s s' i (Some (Running c (Done r))) inv p ret →
  h ≠ Some i ∧ inv = p.*1 ∧ p = ret ++ [(c, r)].
Proof.
  inversion 1; subst.
  - match goal with Hin : inside _ (Done _) |- _ => by apply not_inside in Hin as [Hn _]; destruct (Hn _ eq_refl) end.
  - by rewrite fmap_app.
Qed.

Lemma stage_idle h s s' i inv p ret :
  stage h s s' i (Some Idle) inv p ret → h ≠ Some i ∧ inv = p.*1 ∧ ret = p.
Proof. by inversion 1. Qed.

(** Each step keeps the invariant.  A call that is invoked waits. *)
Lemma invariant_invoke h es lin s0 s' cfg i c cfg' :
  invariant h es lin s0 s' cfg → step (Some (Invoke i c)) cfg cfg' →
  invariant h (es ++ [Some (Invoke i c)]) lin s0 s' cfg'.
Proof.
  intros Hinv Hstep. pose proof Hinv as [Hl Hfree Hrep _ Hst].
  inversion Hstep as [i' c' l s gs Hg| | | |]; subst.
  pose proof (Hst i) as Hi. cbn in Hi, Hl, Hfree. rewrite Hg in Hi.
  pose proof (lookup_lt_Some _ _ _ Hg) as Hlt. apply stage_idle in Hi as (Hne & Ei & Er).
  apply (invariant_step h h es _ lin lin s0 s' s' _ _ _ _ _ Hinv);
    try done; [by right | by intros j Hj; cbn; rewrite decide_False |].
  rewrite invoked_snoc, returned_snoc, Ei, Er. cbn. rewrite decide_True by done.
  rewrite app_nil_r. by apply at_waiting.
Qed.

(** The call that takes the mutex is performed. *)
Lemma invariant_lock h es lin s0 s' s gs i c q :
  invariant h es lin s0 s' (mkConfig false s gs) → gs !! i = Some (Running c (Lock q)) →
  invariant (Some i) (es ++ [None]) (lin ++ [(i, c, fst (atomic c s'))]) s0 (snd (atomic c s'))
    (mkConfig true s (<[ i := Running c q ]> gs)).
Proof.
  intros Hinv Hg. pose proof Hinv as [Hl Hfree Hrep _ Hst]. cbn in Hl, Hfree.
  pose proof (lookup_lt_Some _ _ _ Hg) as Hlt.
  pose proof (Hst i) as Hi. cbn in Hi. rewrite Hg in Hi. apply stage_lock in Hi as (Hne & Em & Ei & Er).
  destruct h as [j|]; [done|]. specialize (Hfree eq_refl) as ->.
  apply (invariant_step _ _ es _ lin _ s0 s' _ _ _ _ _ _ Hinv); try done.
  - intros j Hj. left. naive_solver.
  - intros j Hj. rewrite performed_snoc, decide_False by done. by rewrite app_nil_r.
  - by constructor.
  - by apply prefix_app_r.
  - rewrite invoked_snoc, returned_snoc, performed_snoc, decide_True, Ei, Er by done. cbn.
    rewrite !app_nil_r. destruct (method_shape c) as (b & Eb & Hin).
    assert (q = b) as -> by congruence.
    apply (at_inside _ _ _ _ _ _ _ _ _ eq_refl Hin).
    change (alone b true s') with (alone (Lock b) false s').
    rewrite <- Eb. apply method_alone.
Qed.

(** The others change neither the order of the calls nor the state they lead to. *)
Lemma invariant_other h es lin s0 s' cfg e cfg' :
  invariant h es lin s0 s' cfg → step e cfg cfg' → is_invoke e = false →
  (∃ i c q, locked cfg = false ∧ goroutines cfg !! i = Some (Running c (Lock q)) ∧ e = None
            ∧ cfg' = mkConfig true (shared cfg) (<[ i := Running c q ]> (goroutines cfg)))
  ∨ ∃ h2, invariant h2 (es ++ [e]) lin s0 s' cfg'.
Proof.
  intros Hinv Hstep He. pose proof Hinv as [Hl Hfree Hrep _ Hst].
  destruct Hstep as [i c l s gs Hg|i c q s gs Hg|i c B f k l s gs Hg|i c q s gs Hg|i c r l s gs Hg];
    [done|left; by exists i, c, q|right..];
    pose proof (Hst i) as Hi; cbn in Hi, Hl, Hfree;
    pose proof (lookup_lt_Some _ _ _ Hg) as Hlt; rewrite Hg in Hi.
  - apply stage_access in Hi as [-> Hi].
    exists (Some i). apply (invariant_step _ _ es _ lin _ s0 s' _ _ _ _ _ _ Hinv); try done.
    + intros j Hj. left. naive_solver.
    + rewrite invoked_snoc, returned_snoc. cbn. by rewrite !app_nil_r.
  - apply stage_unlock in Hi as (-> & -> & _ & Hi).
    exists None. apply (invariant_step _ _ es _ lin _ s0 s' _ _ _ _ _ _ Hinv); try done.
    + intros j Hj. left. naive_solver.
    + rewrite invoked_snoc, returned_snoc. cbn. by rewrite !app_nil_r.
  - apply stage_done in Hi as (Hne & Ei & Er).
    exists h. apply (invariant_step h h es _ lin lin s0 s' s' _ _ _ _ _ Hinv);
      try done; [by right | by intros j Hj; cbn; rewrite decide_False |].
    rewrite invoked_snoc, returned_snoc, Ei. cbn. rewrite decide_True by done.
    rewrite app_nil_r, <- Er. by apply at_idle.
Qed.

Lemma invariant_preserved h es lin s0 s' cfg e cfg' :
  invariant h es lin s0 s' cfg → step e cfg cfg' →
  ∃ h2 lin2 s2', invariant h2 (es ++ [e]) lin2 s0 s2' cfg'.
Proof.
  intros Hinv Hstep. destruct (is_invoke e) eqn:He.
  - destruct e as [[i c|]|]; try done. eauto using invariant_invoke.
  - destruct (invariant_other _ _ _ _ _ _ _ _ Hinv Hstep He) as [(i & c & q & Hl & Hg & -> & ->)|[h2 ?]];
      [|eauto].
    destruct cfg as [l s gs]. cbn in *. subst l. eauto using invariant_lock.
Qed.

Lemma invariant_steps n s0 es cfg :
  steps es (launch n s0) cfg → ∃ h lin s', invariant h es lin s0 s' cfg.
Proof.
  intros Hsteps. remember (launch n s0) as cfg0 eqn:E.
  induction Hsteps as [|es e cfg0 cfg cfg' _ IH Hstep].
  - subst. eexists _, _, _. apply invariant_launch.
  - destruct (IH E) as (h & lin & s' & Hinv). eauto using invariant_preserved.
Qed.

(** ** Termination *)

Lemma lasts_inside c n p : inside n p → lasts (n + 2) (Running c p).
Proof.
  induction 1 as [n a|n B f k _ _ IH].
  - replace (n + 2) with (S (S n)) by lia. repeat constructor.
  - simpl. by constructor.
Qed.

Lemma lasts_method c : lasts (most_accesses + 3) (Running c (method c)).
Proof.
  destruct (method_shape c) as (p & -> & Hin).
  replace (most_accesses + 3) with (S (most_accesses + 2)) by lia.
  by apply lasts_lock, lasts_inside.
Qed.

Lemma lasts_access_inv n c B (f : M B) k :
  lasts n (Running c (Access f k)) → ∃ m, n = S m ∧ ∀ b, lasts m (Running c (k b)).
Proof.
  intros Hl. change (match Running c (Access f k) with
    | Running c (Access _ k) => ∃ m, n = S m ∧ ∀ b, lasts m (Running c (k b)) | _ => True end).
  destruct Hl; eauto.
Qed.

Lemma sum_list_insert (ns : list nat) i x y :
  ns !! i = Some x → sum_list (<[ i := y ]> ns) + x = sum_list ns + y.
Proof.
  revert i; induction ns as [|n ns IH]; intros [|i] Hi; simplify_eq/=; [lia|].
  specialize (IH i Hi). lia.
Qed.

Lemma invocations_snoc es e :
  invocations (es ++ [e]) = invocations es + (if is_invoke e then 1 else 0).
Proof. unfold invocations. rewrite filter_app, length_app. by destruct e as [[]|]. Qed.

(** A step other than an invocation takes one off what is left of a method. *)
Lemma lasts_step e cfg cfg' ns :
  step e cfg cfg' → Forall2 lasts ns (goroutines cfg) →
  ∃ ns', Forall2 lasts ns' (goroutines cfg')
         ∧ sum_list ns' + 1 ≤ sum_list ns + (if is_invoke e then most_steps else 0).
Proof.
  intros Hstep Hns.
  assert (∀ i g g' k, goroutines cfg !! i = Some g → goroutines cfg' = <[ i := g' ]> (goroutines cfg) →
    (∀ m, lasts m g → ∃ m', lasts m' g' ∧ m' + 1 ≤ m + k) →
    ∃ ns', Forall2 lasts ns' (goroutines cfg') ∧ sum_list ns' + 1 ≤ sum_list ns + k) as Hupd.
  { intros i g g' k Hi -> Hg. destruct (Forall2_lookup_r _ _ _ _ _ Hns Hi) as (m & Hm & Hl).
    destruct (Hg m Hl) as (m' & Hl' & Hle). exists (<[ i := m' ]> ns).
    split; [by apply Forall2_insert|]. pose proof (sum_list_insert ns i m m' Hm). lia. }
  destruct Hstep as [i c l s gs Hg|i c q s gs Hg|i c B f k l s gs Hg|i c q s gs Hg|i c r l s gs Hg];
    (eapply Hupd; [exact Hg | done |]); intros m Hm; cbn.
  - exists (most_accesses + 3). split; [apply lasts_method|]. unfold most_accesses, most_steps. lia.
  - inversion Hm as [|?|m' c' q' Hq| |]; subst. exists m'. split; [done|lia].
  - apply lasts_access_inv in Hm as (m' & -> & Hk). exists m'. split; [done|lia].
  - inversion Hm as [|?| |m' c' q' Hq|]; subst. exists m'. split; [done|lia].
  - inversion Hm; subst. exists 0. split; [constructor|lia].
Qed.

Lemma steps_bound n s0 es cfg :
  steps es (launch n s0) cfg → length es ≤ most_steps * invocations es.
Proof.
  intros Hsteps. remember (launch n s0) as cfg0 eqn:E.
  assert (∃ ns, Forall2 lasts ns (goroutines cfg)
    ∧ length es + sum_list ns ≤ most_steps * invocations es) as (ns & _ & ?); [|lia].
  induction Hsteps as [|es e cfg0 cfg cfg' _ IH Hstep]; subst.
  - exists (replicate n 0). simpl. split; [apply Forall2_replicate; constructor|].
    induction n; simpl; lia.
  - destruct (IH eq_refl) as (ns & Hns & Hle). destruct (lasts_step e cfg cfg' ns Hstep Hns) as (ns' & ? & ?).
    exists ns'. split; [done|]. rewrite length_app, invocations_snoc. simpl. unfold most_steps in *. destruct (is_invoke e); lia.
Qed.

(** ** Progress *)

Lemma advance_step ch cfg e cfg' : advance ch cfg = Some (e, cfg') → step e cfg cfg'.
Proof.
  destruct cfg as [l s gs], ch as [i c|i]; cbn; destruct (gs !! i) as [[|c' p]|] eqn:Hi; try done.
  - intros [= <- <-]. by constructor.
  - destruct p, l; try done; intros [= <- <-]; by econstructor.
Qed.

Lemma advance_Next i cfg e cfg' : advance (Next i) cfg = Some (e, cfg') → is_invoke e = false.
Proof.
  destruct cfg as [l s gs]; cbn. destruct (gs !! i) as [[|c p]|]; try done.
  by destruct p, l; intros [= <- <-].
Qed.

Lemma steps_trans es1 es2 cfg1 cfg2 cfg3 :
  steps es1 cfg1 cfg2 → steps es2 cfg2 cfg3 → steps (es1 ++ es2) cfg1 cfg3.
Proof.
  intros H1 H2. induction H2 as [|es e cfg cfg' cfg'' _ IH Hstep]; [by rewrite app_nil_r|].
  rewrite app_assoc. by eapply steps_snoc; [apply IH|].
Qed.

Lemma play_steps chs cfg es cfg' : play chs cfg = Some (es, cfg') → steps es cfg cfg'.
Proof.
  revert cfg es. induction chs as [|ch chs IH]; intros cfg es; cbn.
  - intros [= <- <-]. constructor.
  - destruct (advance ch cfg) as [[e cfg1]|] eqn:Ha; cbn; [|done].
    destruct (play chs cfg1) as [[es2 cfg2]|] eqn:Hp; cbn; [|done].
    intros [= <- <-]. change (e :: es2) with ([e] ++ es2).
    eapply steps_trans; [|by apply IH].
    apply (steps_snoc [] e cfg cfg); [constructor | by eapply advance_step].
Qed.

#[export] Instance Idle_dec g : Decision (g = Idle).
Proof. destruct g; [by left | by right]. Defined.

(** When a goroutine runs, one can take its next step. *)
Lemma invariant_progress h es lin s0 s' cfg :
  invariant h es lin s0 s' cfg →
  (∀ i g, goroutines cfg !! i = Some g → g = Idle) ∨ ∃ i e cfg', advance (Next i) cfg = Some (e, cfg').
Proof.
  intros [Hl _ _ _ Hst]. destruct cfg as [l s gs]; cbn in *.
  destruct h as [j|].
  - specialize (Hst j). right. exists j. cbn.
    inversion Hst as [| | |c p n q r Hh Hin| ]; subst; try done.
    destruct Hin; cbn; eauto.
  - destruct (decide (Forall (λ g, g = Idle) gs)) as [Hall|Hex].
    + left. intros i g Hi. by eapply Forall_lookup_1 in Hall.
    + right. apply not_Forall_Exists, Exists_exists in Hex as (g & Hg & Hne); [|apply _].
      apply list_elem_of_lookup in Hg as [i Hi]. exists i. cbn. specialize (Hst i).
      rewrite Hi in *. inversion Hst; subst; try done.
      * by destruct Hne.
      * match goal with |- context [method ?c] => destruct (method_shape c) as (p & -> & _) end.
        eauto.
      * eauto.
Qed.

(** ** The log of the machine *)

Lemma inside_log {A} n (p : Prog A) s a l s' :
  inside n p → alone p true s = Some (a, l, s') → extends_log s s'.
Proof.
  intros Hin. revert s. induction Hin as [n b|n B f k Hf _ IH]; intros s; cbn.
  - intros [= <- <- <-]. done.
  - intros Hal. etrans; [apply Hf | by eapply IH].
Qed.

Lemma invariant_log h es lin s0 s' cfg :
  invariant h es lin s0 s' cfg → extends_log (shared cfg) s'.
Proof.
  intros [_ Hfree _ _ Hst]. destruct h as [j|].
  - specialize (Hst j). inversion Hst; subst; try done. by eapply inside_log.
  - rewrite Hfree by done. by exists [].
Qed.

Lemma replays_run lin s s' : replays lin s s' → s' = run (mutations lin) s.
Proof.
  induction 1 as [|lin i c s s' _ ->]; [done|].
  unfold mutations. rewrite omap_app, run_app. fold (mutations lin).
  destruct c as [c|threshold]; [|done]. apply atomic_exec.
Qed.

(** ** The theorems *)

(** C4. The manager is linearizable: whatever calls any number of goroutines
    make of its methods, and however their accesses to the fields, to the clock
    and to the disk are interleaved, the calls can be put in one order in which
    they give the same replies one after the other, each in one transition, and,
    whenever the mutex is free, the same state.  The order keeps that of every
    goroutine and that of calls of which one returned before the other began. *)
Theorem linearizable n s es cfg :
  steps es (launch n s) cfg →
  ∃ lin s', linearization es lin ∧ replays lin s s' ∧ (locked cfg = false → shared cfg = s').
Proof.
  intros (h & lin & s' & [Hl Hfree Hrep Hlin _])%invariant_steps. exists lin, s'.
  split; [done|]. split; [done|]. intros E. apply Hfree. rewrite Hl in E. by destruct h.
Qed.

(** C20. No data race, no deadlock of a goroutine with itself and no unlock of
    a free mutex: two goroutines are never both about to access the fields of
    the manager, its file or the clock, and one that is holds the mutex. *)
Theorem mutual_exclusion n s es cfg :
  steps es (launch n s) cfg →
  ¬ panics cfg ∧ ∀ i j, accessing cfg i → accessing cfg j → locked cfg = true ∧ i = j.
Proof.
  intros (h & lin & s' & [Hl _ _ _ Hst])%invariant_steps. split.
  - intros (Hf & i & c & p & Hi). specialize (Hst i). rewrite Hi in Hst.
    apply stage_unlock in Hst as [-> _]. by rewrite Hl in Hf.
  - intros i j (c1 & B1 & f1 & k1 & H1) (c2 & B2 & f2 & k2 & H2).
    pose proof (Hst i) as Hi. pose proof (Hst j) as Hj. rewrite H1 in Hi. rewrite H2 in Hj.
    apply stage_access in Hi as [-> _], Hj as [[= ->] _]. by rewrite Hl.
Qed.

(** C21. Every call returns: an execution has at most fifteen steps per call,
    whatever the disk does and however the goroutines are scheduled, and as long
    as a call has not returned one of the goroutines can take a step. *)
Theorem calls_return n s es cfg :
  steps es (launch n s) cfg →
  length es ≤ 15 * invocations es
  ∧ ((∀ i g, goroutines cfg !! i = Some g → g = Idle)
     ∨ ∃ i e cfg', step e cfg cfg' ∧ advance (Next i) cfg = Some (e, cfg')).
Proof.
  intros Hsteps. split; [exact (steps_bound _ _ _ _ Hsteps)|].
  destruct (invariant_steps _ _ _ _ Hsteps) as (h & lin & s' & Hinv).
  destruct (invariant_progress _ _ _ _ _ _ Hinv) as [?|(i & e & cfg' & Ha)]; [by left|].
  right. exists i, e, cfg'. split; [by eapply advance_step | done].
Qed.

(** C5. Another process never sees a partial blueprint while goroutines run:
    after every call to the operating system the output file holds what it held
    at the start or the whole text of the blueprint after some prefix of the
    calls in a linearization; when the mutex is free, the manager is as if the
    calls had been made one after the other. *)
Theorem concurrent_file_complete outputFile files n es cfg :
  steps es (launch n (start outputFile files)) cfg →
  ∃ lin, linearization es lin
    ∧ Forall (λ f, complete (mutations lin) (start outputFile files) (f !! outputFile))
        (World_log (SM_world (shared cfg)))
    ∧ (locked cfg = false → shared cfg = run (mutations lin) (start outputFile files)).
Proof.
  intros (h & lin & s' & Hinv)%invariant_steps. exists lin.
  pose proof (invariant_log _ _ _ _ _ _ Hinv) as [later Hlog].
  destruct Hinv as [Hl Hfree Hrep Hlin _]. split; [done|].
  apply replays_run in Hrep as ->. split.
  - destruct (seen_run (mutations lin) (start outputFile files)) as [(new & Hnew & HF) _].
    cbn in Hnew. rewrite app_nil_r in Hnew. rewrite Hlog in Hnew. subst new.
    by apply Forall_app in HF as [_ HF].
  - intros E. apply Hfree. rewrite Hl in E. by destruct h.
Qed.

End linearizable.

(** Three goroutines: one updates an entry, one removes it, one probes; the
    second and the third come while the first holds the mutex, and the probe
    passes the removal. *)
Definition schedule : list Choice :=
  [Start 0 (Mutate (CAddOrUpdate "k" some_resource true)); Next 0; Next 0;
   Start 1 (Mutate (CRemove "k")); Next 0; Start 2 (Probe 600000000000); Next 0; Next 0; Next 0;
   Next 0; Next 0; Next 0; Next 0; Next 0; Next 0; Next 0; Next 2; Next 0; Next 2; Next 2; Next 2;
   Next 2; Next 2; Next 1; Next 2; Next 1; Next 1; Next 1].

Definition played : option (list (option Event) * Config) :=
  @play quiet_env schedule (@launch 3 (start "bp.yaml" ∅)).

Lemma played_some : (if played is Some _ then true else false) = true.
Proof. vm_compute. reflexivity. Qed.

Lemma played_steps es cfg :
  played = Some (es, cfg) → @steps quiet_env es (@launch 3 (start "bp.yaml" ∅)) cfg.
Proof. apply (@play_steps quiet_env). Qed.

Lemma linearizable_witness :
  match played with
  | Some (es, cfg) =>
      ∃ lin s', linearization es lin ∧ @replays quiet_env lin (start "bp.yaml" ∅) s'
        ∧ (locked cfg = false → shared cfg = s')
  | None => False
  end.
Proof.
  pose proof played_some as Hs. destruct played as [[es cfg]|] eqn:E; [|discriminate Hs].
  exact (@linearizable quiet_env 3 _ es cfg (played_steps es cfg E)).
Defined.

Lemma mutual_exclusion_witness :
  match played with
  | Some (es, cfg) => ¬ panics cfg
      ∧ ∀ i j, accessing cfg i → accessing cfg j → locked cfg = true ∧ i = j
  | None => False
  end.
Proof.
  pose proof played_some as Hs. destruct played as [[es cfg]|] eqn:E; [|discriminate Hs].
  exact (@mutual_exclusion quiet_env 3 _ es cfg (played_steps es cfg E)).
Defined.

Lemma calls_return_witness :
  match played with
  | Some (es, cfg) => length es ≤ 15 * invocations es
  | None => False
  end.
Proof.
  pose proof played_some as Hs. destruct played as [[es cfg]|] eqn:E; [|discriminate Hs].
  exact (proj1 (@calls_return quiet_env 3 _ es cfg (played_steps es cfg E))).
Defined.

Lemma concurrent_file_complete_witness :
  match played with
  | Some (es, cfg) =>
      ∃ lin, linearization es lin
        ∧ Forall (λ f, @complete quiet_env (mutations lin) (start "bp.yaml" ∅) (f !! "bp.yaml"))
            (World_log (SM_world (shared cfg)))
        ∧ (locked cfg = false → shared cfg = @run quiet_env (mutations lin) (start "bp.yaml" ∅))
  | None => False
  end.
Proof.
  pose proof played_some as Hs. destruct played as [[es cfg]|] eqn:E; [|discriminate Hs].
  exact (@concurrent_file_complete quiet_env "bp.yaml" ∅ 3 es cfg (played_steps es cfg E)).
Defined.
