(* ===== verification/Health.v ===== *)
(** * Package [health]: the HTTP probes

    The handlers, against the interface they are written for, which the manager
    implements; the address and the routes of the server.  The HTTP server itself
    is the standard library's. *)

From stdpp Require Import options.
From S2P Require Import Prelude GoStrings Blueprint StateManager StateProps.

Local Open Scope go_scope.

(** ** Definitions *)

(** Durations in nanoseconds. *)
Definition Minute : Z := (60 * 1000 * 1000 * 1000)%Z.

(** The Go interface [WriteHealthChecker], at a reading of the clock. *)
Class WriteHealthChecker (C : Type) : Type := checkWriteHealthy : C → Z → Z → bool.

#[export] Instance Manager_WriteHealthChecker : WriteHealthChecker Manager := WriteHealthy.

Definition StatusOK : Z := 200.
Definition StatusServiceUnavailable : Z := 503.

(** The status the handlers write. *)
Definition handleLiveness : Z := StatusOK.

Definition handleReadiness `{WriteHealthChecker C} (checker : C) (now : Z) : Z :=
  if checkWriteHealthy checker now (10 * Minute)%Z then StatusOK else StatusServiceUnavailable.

(** [http.ServeMux] as [Serve] uses it: patterns that are fixed paths, each with
    its handler, which gives a status at a reading of the clock. *)
Definition ServeMux : Type := list (string * (Z → Z)).

Definition StatusNotFound : Z := 404.

(** What a request for a path is answered; the path is clean, that is, without
    [.], [..], empty or escaped parts, which the server redirects. *)
Definition ServeHTTP (mux : ServeMux) (path : string) (now : Z) : Z :=
  match list_find (λ p, p.1 = path) mux with
  | Some (_, (_, handler)) => handler now
  | None => StatusNotFound
  end.

(** The address and the routes [Serve] hands to [http.ListenAndServe]. *)
Definition Serve `{WriteHealthChecker C} (port : Z) (checker : C) : string * ServeMux :=
  let mux := [("/healthz", λ _, handleLiveness); ("/readyz", handleReadiness checker)] in
  let addr := ":" +:+ Itoa port in
  (addr, mux).

(** ** Properties *)

(** The server answers the two paths and no other, and different ports give
    different addresses. *)
Lemma Serve_routes `{WriteHealthChecker C} port port' (checker : C) path now :
  (ServeHTTP (Serve port checker).2 path now
   = if path == "/healthz" then 200
     else if path == "/readyz" then handleReadiness checker now else 404)%Z
  ∧ ((Serve port checker).1 = (Serve port' checker).1 → port = port').
Proof.
  split.
  - unfold ServeHTTP, Serve. cbn.
    destruct (decide (path = "/healthz")) as [->|H1]; [done|].
    destruct (decide (path = "/readyz")) as [->|H2]; [done|].
    rewrite !decide_False by congruence. by rewrite !bool_decide_false.
  - cbn. intros E. apply Itoa_inj. by injection E.
Qed.

(** Readiness after any sequence of methods: the probe answers 200 or 503,
    and 200 exactly when the last write did not fail and either nothing was
    written yet or the last successful write is at most ten minutes old. *)
Theorem readiness_status `{Env} cs outputFile files now :
  let m := SM_manager (run cs (start outputFile files)) in
  handleReadiness m now
  = if decide (Manager_lastWriteErr m = None
               ∧ (Manager_lastWriteTime m = 0
                  ∨ Sub now (Manager_lastWriteTime m) ≤ 600 * 1000 * 1000 * 1000)%Z)
    then 200%Z else 503%Z.
Proof.
  cbv zeta. unfold handleReadiness.
  pose proof (WriteHealthy_spec (SM_manager (run cs (start outputFile files))) now (10 * Minute)) as Hw.
  change (checkWriteHealthy ?m) with (WriteHealthy m).
  case_decide as Hd.
  - by rewrite (proj2 Hw Hd).
  - destruct (WriteHealthy _ _ _); [|done]. by destruct Hd; apply Hw.
Qed.
