(* ===== verification/Resources.v ===== *)
(** * Package [resources]: definitions of watched types and their handler

    The Kubernetes objects carry the fields the program reads.  The conversion
    from unstructured objects is [runtime.DefaultUnstructuredConverter], a
    parameter. *)

From stdpp Require Import options.
From S2P Require Import Prelude GoStrings Config Blueprint StateManager.

Local Open Scope go_scope.

(** ** Definitions *)

(** *** Kubernetes objects *)

Record ObjectMeta : Type := mkMeta {
  Meta_Name : string;
  Meta_Namespace : string;
  Meta_Annotations : gomap string;
}.

(** [corev1.ServicePort]; [Port] is an [int32]. *)
Record SvcPort : Type := mkSvcPort {
  SvcPort_Name : string;
  SvcPort_Protocol : string;
  SvcPort_Port : Z;
}.

Record Service : Type := mkService {
  Service_Meta : ObjectMeta;
  Service_Ports : list SvcPort;
}.

(** [gatewayv1.ParentReference]; [Namespace] is a pointer. *)
Record ParentReference : Type := mkParentRef {
  ParentRef_Name : string;
  ParentRef_Namespace : option string;
}.

Record HTTPRoute : Type := mkHTTPRoute {
  HTTPRoute_Meta : ObjectMeta;
  HTTPRoute_ParentRefs : list ParentReference;
  HTTPRoute_Hostnames : list string;
}.

(** A [metav1.Object] with its dynamic type. *)
Inductive Object : Type :=
| OService (s : Service)
| OHTTPRoute (r : HTTPRoute)
| OOther (m : ObjectMeta).

Definition object_meta (o : Object) : ObjectMeta :=
  match o with
  | OService s => Service_Meta s
  | OHTTPRoute r => HTTPRoute_Meta r
  | OOther m => m
  end.

Definition GetName (o : Object) : string := Meta_Name (object_meta o).
Definition GetNamespace (o : Object) : string := Meta_Namespace (object_meta o).
Definition GetAnnotations (o : Object) : gomap string := Meta_Annotations (object_meta o).

(** *** Definitions of watched types *)

Record GroupVersionResource : Type := mkGVR {
  GVR_Group : string;
  GVR_Version : string;
  GVR_Resource : string;
}.

(** The [reflect.Type] a conversion targets. *)
Inductive TargetType : Type := TService | THTTPRoute.

Definition TargetType_Name (t : TargetType) : string :=
  match t with TService => "Service" | THTTPRoute => "HTTPRoute" end.

Class K8s : Type := {
  Unstructured : Type;
  (** [DefaultUnstructuredConverter.FromUnstructured] into a fresh object *)
  FromUnstructured : TargetType → Unstructured → result GoError Object;
}.

Definition CreateConvertFunc `{K8s} (targetType : TargetType) (u : Unstructured)
    : result GoError Object :=
  match FromUnstructured targetType u with
  | Err err =>
      Err (mkError ("failed to convert to " +:+ TargetType_Name targetType +:+ ": "
                    +:+ GoError_msg err))
  | Ok obj => Ok obj
  end.

Record ResourceDefinition `{K8s} : Type := mkDefinition {
  RD_GVR : GroupVersionResource;
  RD_ConvertFunc : Unstructured → result GoError Object;
  RD_AutoConfigFunc : option (Config → bool);
  RD_FilterFunc : option (Object → Config → bool);
  RD_BuildEntries : option (Object → gomap string → Config → gomap Resource);
}.

(** *** The handler *)

(** The Go interface [ResourceHandler]. *)
Class ResourceHandler (H : Type) : Type := {
  ShouldProcess : H → Object → Config → bool;
  BuildEntries : H → Object → gomap string → Config → gomap Resource;
}.

Definition isOptOut (obj : Object) (cfg : Config) : bool :=
  let annotations := GetAnnotations obj in
  match annotations with
  | None => false
  | Some _ =>
      match annotations⟦Config_AnnotationPrefix cfg +:+ "/enabled"⟧? with
      | None => false
      | Some val => (val == "false") || (val == "0")
      end
  end.

Definition HasRequiredAnnotations (obj : Object) (cfg : Config) : bool :=
  let annotations := GetAnnotations obj in
  match annotations with
  | None => false
  | Some _ =>
      match annotations⟦Config_AnnotationPrefix cfg +:+ "/enabled"⟧? with
      | None => false
      | Some val => (val == "true") || (val == "1")
      end
  end.

Section handler.
  Context `{K8s}.

Record Handler : Type := NewHandler { Handler_definition : ResourceDefinition }.

Definition Handler_ShouldProcess (h : Handler) (obj : Object) (cfg : Config) : bool :=
  if isOptOut obj cfg then false
  else if match RD_FilterFunc (Handler_definition h) with
          | Some f => negb (f obj cfg)
          | None => false
          end
  then false
  else match RD_AutoConfigFunc (Handler_definition h) with
       | None => true
       | Some auto => if auto cfg then true else HasRequiredAnnotations obj cfg
       end.

Definition Handler_BuildEntries (h : Handler) (obj : Object) (secretData : gomap string)
    (cfg : Config) : gomap Resource :=
  match RD_BuildEntries (Handler_definition h) with
  | None => None
  | Some f => f obj secretData cfg
  end.

#[export] Instance Handler_ResourceHandler : ResourceHandler Handler := {|
  ShouldProcess := Handler_ShouldProcess;
  BuildEntries := Handler_BuildEntries;
|}.

End handler.

(** ** What the handler lets through *)

(** The value of the [enabled] annotation. *)
Definition enabled_annotation (obj : Object) (cfg : Config) : option string :=
  (GetAnnotations obj)⟦Config_AnnotationPrefix cfg +:+ "/enabled"⟧?.

Lemma isOptOut_iff obj cfg :
  isOptOut obj cfg = true ↔
    enabled_annotation obj cfg = Some "false" ∨ enabled_annotation obj cfg = Some "0".
Proof.
  unfold isOptOut, enabled_annotation. destruct (GetAnnotations obj) as [m|]; [|naive_solver].
  destruct (_⟦_⟧?) as [v|]; [|naive_solver].
  rewrite orb_true_iff, !bool_decide_eq_true. naive_solver.
Qed.

Lemma HasRequiredAnnotations_iff obj cfg :
  HasRequiredAnnotations obj cfg = true ↔
    enabled_annotation obj cfg = Some "true" ∨ enabled_annotation obj cfg = Some "1".
Proof.
  unfold HasRequiredAnnotations, enabled_annotation.
  destruct (GetAnnotations obj) as [m|]; [|naive_solver].
  destruct (_⟦_⟧?) as [v|]; [|naive_solver].
  rewrite orb_true_iff, !bool_decide_eq_true. naive_solver.
Qed.

(** When a handler processes an object: it is not opted out, it passes
    the filter if there is one, and it is in opt-out mode (no auto function), in
    auto mode, or opted in. *)
Theorem ShouldProcess_iff `{K8s} (h : Handler) obj cfg :
  ShouldProcess h obj cfg = true ↔
    enabled_annotation obj cfg ≠ Some "false" ∧ enabled_annotation obj cfg ≠ Some "0"
    ∧ (∀ f, RD_FilterFunc (Handler_definition h) = Some f → f obj cfg = true)
    ∧ (RD_AutoConfigFunc (Handler_definition h) = None
       ∨ (∃ auto, RD_AutoConfigFunc (Handler_definition h) = Some auto ∧ auto cfg = true)
       ∨ enabled_annotation obj cfg = Some "true" ∨ enabled_annotation obj cfg = Some "1").
Proof.
  simpl. unfold Handler_ShouldProcess. rewrite <- HasRequiredAnnotations_iff.
  pose proof (isOptOut_iff obj cfg) as Ho.
  destruct (isOptOut obj cfg); [split; [done | naive_solver]|].
  assert (enabled_annotation obj cfg ≠ Some "false" ∧ enabled_annotation obj cfg ≠ Some "0")
    as [H1 H2] by (split; intros E; destruct Ho as [_ Ho]; by (discriminate Ho; auto)).
  destruct (RD_FilterFunc (Handler_definition h)) as [f|].
  - destruct (f obj cfg) eqn:Hf; simpl.
    + destruct (RD_AutoConfigFunc _) as [auto|]; [destruct (auto cfg) eqn:Ha|]; naive_solver.
    + split; [done|]. intros (_ & _ & Hall & _). specialize (Hall f eq_refl). congruence.
  - destruct (RD_AutoConfigFunc _) as [auto|]; [destruct (auto cfg) eqn:Ha|]; naive_solver.
Qed.
