(* ===== verification/HttpRoute.v ===== *)
(** * Package [httproute]: HTTPRoutes to blueprint entries

    The definition handed to the controller, the gateway filter and the
    builder: one entry per hostname. *)

From stdpp Require Import options.
From S2P Require Import Prelude GoStrings Config Blueprint StateManager Resources.

Local Open Scope go_scope.

(** ** Definitions *)

Fixpoint referencesGateway (parents : list ParentReference) (gatewayName gatewayNamespace : string)
    : bool :=
  match parents with
  | [] => false
  | parent :: rest =>
      if ParentRef_Name parent != gatewayName then
        referencesGateway rest gatewayName gatewayNamespace
      else if (gatewayNamespace != "")
              && match ParentRef_Namespace parent with
                 | Some ns => ns != gatewayNamespace
                 | None => false
                 end
      then referencesGateway rest gatewayName gatewayNamespace
      else true
  end.

Definition filterByGateway (obj : Object) (cfg : Config) : bool :=
  match obj with
  | OHTTPRoute route =>
      if Config_GatewayName cfg == "" then true
      else referencesGateway (HTTPRoute_ParentRefs route)
             (Config_GatewayName cfg) (Config_GatewayNamespace cfg)
  | _ => false
  end.

Definition httproute_buildEntries (obj : Object) (secretData : gomap string) (cfg : Config)
    : gomap Resource :=
  match obj with
  | OHTTPRoute route =>
      let annotations :=
        match GetAnnotations obj with None => Some ∅ | annotations => annotations end in
      Some (foldl (λ entries hostname,
        let key := HostnameToKey hostname in
        <[ key := BuildResource (Meta_Name (HTTPRoute_Meta route)) hostname annotations
                    secretData cfg ]> entries)
        ∅ (HTTPRoute_Hostnames route))
  | _ => None
  end.

Definition httproute_Definition `{K8s} : ResourceDefinition := {|
  RD_GVR := mkGVR "gateway.networking.k8s.io" "v1" "httproutes";
  RD_ConvertFunc := CreateConvertFunc THTTPRoute;
  RD_AutoConfigFunc := None;
  RD_FilterFunc := Some filterByGateway;
  RD_BuildEntries := Some httproute_buildEntries;
|}.

(** ** Lemmas *)

(** A loop that inserts under a computed key: the last insertion wins. *)
Lemma foldl_insert_lookup {A B} (key : A → string) (val : A → B) (l : list A) (m : gmap string B) k :
  foldl (λ m x, <[ key x := val x ]> m) m l !! k
  = match last (filter (λ x, key x = k) l) with
    | Some x => Some (val x)
    | None => m !! k
    end.
Proof.
  induction l as [|x l IH] using rev_ind; [done|].
  rewrite foldl_app, filter_app, filter_cons. simpl.
  case_decide as Hk.
  - rewrite filter_nil, last_snoc. rewrite <- Hk. by rewrite lookup_insert_eq.
  - rewrite filter_nil, app_nil_r. by rewrite lookup_insert_ne.
Qed.

(** The gateway filter: some parent reference has the gateway's name, and
    either no gateway namespace is configured, or the reference names that
    namespace, or it names none at all, in which case any configured namespace
    is accepted, whatever the namespace of the route. *)
Theorem referencesGateway_iff parents gatewayName gatewayNamespace :
  referencesGateway parents gatewayName gatewayNamespace = true ↔
    ∃ parent, parent ∈ parents ∧ ParentRef_Name parent = gatewayName ∧
      (gatewayNamespace = "" ∨ ParentRef_Namespace parent = None
       ∨ ParentRef_Namespace parent = Some gatewayNamespace).
Proof.
  induction parents as [|p ps IH]; simpl; [set_solver|].
  assert (∀ P : ParentReference → Prop, ¬ P p →
    (∃ q, q ∈ ps ∧ P q) ↔ (∃ q, q ∈ p :: ps ∧ P q)) as Hskip.
  { intros P HP. split.
    - intros (q & Hq & HPq). exists q. split; [by right | done].
    - intros (q & [->|Hq]%elem_of_cons & HPq); [done | by exists q]. }
  case_bool_decide as Hn; simpl.
  - destruct ((gatewayNamespace != "") && _) eqn:E.
    + rewrite IH. apply Hskip. intros [_ Hns]. go_bool.
      destruct (ParentRef_Namespace p) as [ns|]; [|done]. go_bool. naive_solver.
    + split; [intros _|done]. exists p. split; [by left|]. split; [done|].
      apply andb_false_iff in E as [E|E]; go_bool; [by left|].
      destruct (ParentRef_Namespace p) as [ns|]; [|auto]. go_bool. subst. auto.
  - rewrite IH. apply Hskip. naive_solver.
Qed.

Lemma httproute_entries route secretData cfg key :
  map_get (httproute_buildEntries (OHTTPRoute route) secretData cfg) key
  = (λ hostname, BuildResource (Meta_Name (HTTPRoute_Meta route)) hostname
                   (Meta_Annotations (HTTPRoute_Meta route)) secretData cfg)
    <$> last (filter (λ h, HostnameToKey h = key) (HTTPRoute_Hostnames route)).
Proof.
  unfold httproute_buildEntries, map_get. simpl. rewrite foldl_insert_lookup, lookup_empty.
  destruct (last _) as [h|]; simpl; [|done]. f_equal.
  unfold GetAnnotations. simpl. by destruct (Meta_Annotations _).
Qed.

Lemma httproute_entry route secretData cfg h :
  h ∈ HTTPRoute_Hostnames route →
  ∃ h', map_get (httproute_buildEntries (OHTTPRoute route) secretData cfg) (HostnameToKey h)
        = Some (BuildResource (Meta_Name (HTTPRoute_Meta route)) h'
                  (Meta_Annotations (HTTPRoute_Meta route)) secretData cfg).
Proof.
  intros Hh. rewrite httproute_entries.
  assert (h ∈ filter (λ h', HostnameToKey h' = HostnameToKey h) (HTTPRoute_Hostnames route)) as Hin
    by (by apply list_elem_of_filter).
  destruct (last _) as [h'|] eqn:E; [by exists h'|].
  apply last_None in E. rewrite E in Hin. by apply not_elem_of_nil in Hin.
Qed.

(** The entries of an HTTPRoute: under each key, the resource built for
    the last of its hostnames with that key, and nothing else.  Annotations,
    secret data and name are those of the route. *)
Theorem httproute_buildEntries_lookup route secretData cfg key :
  map_get (httproute_buildEntries (OHTTPRoute route) secretData cfg) key
  = (λ hostname, BuildResource (Meta_Name (HTTPRoute_Meta route)) hostname
                   (Meta_Annotations (HTTPRoute_Meta route)) secretData cfg)
    <$> last (filter (λ h, HostnameToKey h = key) (HTTPRoute_Hostnames route)).
Proof. apply httproute_entries. Qed.

(** The keys of a route's entries are exactly the keys of its hostnames:
    no hostname is dropped and nothing else is published. *)
Theorem httproute_buildEntries_dom route secretData cfg :
  dom (entries_of (httproute_buildEntries (OHTTPRoute route) secretData cfg))
  = list_to_set (HostnameToKey <$> HTTPRoute_Hostnames route).
Proof.
  apply set_eq. intros key.
  rewrite elem_of_dom, elem_of_list_to_set, list_elem_of_fmap.
  change (entries_of ?m !! key) with (map_get m key). split.
  - rewrite httproute_entries, fmap_is_Some. intros [h Hh].
    apply last_Some_elem_of, list_elem_of_filter in Hh as [<- Hh]. by exists h.
  - intros (h & -> & Hh). destruct (httproute_entry route secretData cfg h Hh) as [h' ->]. by eexists.
Qed.
