(* ===== verification/Service.v ===== *)
(** * Package [service]: Services to blueprint entries

    Single-port and all-ports mode, TCP/UDP and HTTP mode, the selection of the
    port, and the definition handed to the controller. *)

From stdpp Require Import options.
From S2P Require Import Prelude GoStrings Config Blueprint BlueprintProps StateManager Resources HttpRoute.

Local Open Scope go_scope.

(** ** Definitions *)

(** [corev1.ProtocolUDP] is the string UDP. *)
Definition serviceProtocol (p : string) : string :=
  if p == "UDP" then "udp" else "tcp".

Definition resolveAllPorts (annotations : gomap string) (cfg : Config) : bool :=
  match annotations⟦Config_AnnotationPrefix cfg +:+ "/all-ports"⟧? with
  | Some v => (v == "true") || (v == "1")
  | None => Config_AllPorts cfg
  end.

(** The name of a port, its number when it has none. *)
Definition portName (p : SvcPort) : string :=
  if SvcPort_Name p == "" then Itoa (SvcPort_Port p) else SvcPort_Name p.

Definition allPortKey (svc : Service) (p : SvcPort) : string :=
  ServiceToKey (Meta_Namespace (Service_Meta svc)) (Meta_Name (Service_Meta svc))
    (Itoa (SvcPort_Port p)) (serviceProtocol (SvcPort_Protocol p)).

(** The [ServicePort] literal of the loop body. *)
Definition allPortServicePort (svc : Service) (clusterHostname : string) (p : SvcPort)
    : ServicePort :=
  {|
    ServicePort_Name := Meta_Name (Service_Meta svc) +:+ "-" +:+ portName p;
    ServicePort_Protocol := serviceProtocol (SvcPort_Protocol p);
    ServicePort_ProxyPort := SvcPort_Port p;
    ServicePort_TargetPort := SvcPort_Port p;
    ServicePort_TargetHostname := clusterHostname;
    ServicePort_FullDomain := "";
    ServicePort_TLSServerName := "";
    ServicePort_Method := "";
    ServicePort_SSL := false;
    ServicePort_HostHeader := "";
    ServicePort_Headers := None;
    ServicePort_Maintenance := None;
    ServicePort_Auth := None;
    ServicePort_Rules := None;
    ServicePort_TargetEnabled := None;
    ServicePort_TargetPath := "";
    ServicePort_TargetPathMatch := "";
    ServicePort_TargetRewritePath := "";
    ServicePort_TargetRewriteMatch := "";
    ServicePort_TargetPriority := 0;
    ServicePort_TargetInternalPort := 0;
    ServicePort_TargetHealthCheck := None;
  |}.

Definition buildAllPortEntries (svc : Service) (clusterHostname : string) (cfg : Config)
    : gomap Resource :=
  match Service_Ports svc with
  | [] => None
  | ports =>
      Some (foldl (λ entries p,
        <[ allPortKey svc p :=
             BuildServiceResource (allPortServicePort svc clusterHostname p) cfg ]> entries)
        ∅ ports)
  end.

(** The port [resolvePort] exposes: the one the annotation names by number or
    by name, else the only one, else the one named [http]. *)
Definition selectPort (ports : list SvcPort) (annotations : gomap string) (prefix : string)
    : option SvcPort :=
  match annotations⟦prefix +:+ "/port"⟧? with
  | Some v =>
      let v := TrimSpace v in
      snd <$> list_find (λ p, Itoa (SvcPort_Port p) = v ∨ SvcPort_Name p = v) ports
  | None =>
      match ports with
      | [p] => Some p
      | _ => snd <$> list_find (λ p, SvcPort_Name p = "http") ports
      end
  end.

Definition resolvePort (svc : Service) (annotations secretData : gomap string) (prefix : string)
    (clusterHostname : string) (cfg : Config) : option ServicePort :=
  let fullDomain := TrimSpace (annotations⟦prefix +:+ "/full-domain"⟧) in
  let httpMode := fullDomain != "" in
  selected ← selectPort (Service_Ports svc) annotations prefix;
  let displayName :=
    match annotations⟦prefix +:+ "/name"⟧? with
    | Some v =>
        if v != "" then v else Meta_Name (Service_Meta svc) +:+ "-" +:+ portName selected
    | None => Meta_Name (Service_Meta svc) +:+ "-" +:+ portName selected
    end in
  if httpMode : bool then
    let method :=
      match annotations⟦prefix +:+ "/method"⟧? with
      | Some v =>
          let v := ToLower (TrimSpace v) in
          if (v == "https") || (v == "h2c") then v else "http"
      | None => "http"
      end in
    let ssl :=
      match annotations⟦prefix +:+ "/ssl"⟧? with
      | Some v => (v == "true") || (v == "1")
      | None => Config_SSL cfg
      end in
    let extras := BuildTargetExtras zero annotations prefix in
    Some {|
      ServicePort_Name := displayName;
      ServicePort_Protocol := "";
      ServicePort_ProxyPort := 0;
      ServicePort_TargetPort := SvcPort_Port selected;
      ServicePort_TargetHostname := clusterHostname;
      ServicePort_FullDomain := fullDomain;
      ServicePort_TLSServerName := TrimSpace (annotations⟦prefix +:+ "/tls-server-name"⟧);
      ServicePort_Method := method;
      ServicePort_SSL := ssl;
      ServicePort_HostHeader := annotations⟦prefix +:+ "/host-header"⟧;
      ServicePort_Headers := BuildHeaders annotations prefix;
      ServicePort_Maintenance := BuildMaintenance annotations prefix;
      ServicePort_Auth := BuildAuth annotations secretData cfg;
      ServicePort_Rules := BuildRules annotations prefix cfg;
      ServicePort_TargetEnabled := Target_Enabled extras;
      ServicePort_TargetPath := Target_Path extras;
      ServicePort_TargetPathMatch := Target_PathMatch extras;
      ServicePort_TargetRewritePath := Target_RewritePath extras;
      ServicePort_TargetRewriteMatch := Target_RewriteMatch extras;
      ServicePort_TargetPriority := Target_Priority extras;
      ServicePort_TargetInternalPort := Target_InternalPort extras;
      ServicePort_TargetHealthCheck := Target_HealthCheck extras;
    |}
  else
    let protocol :=
      match annotations⟦prefix +:+ "/protocol"⟧? with
      | Some v =>
          let v := ToLower (TrimSpace v) in
          if (v == "tcp") || (v == "udp") then v
          else serviceProtocol (SvcPort_Protocol selected)
      | None => serviceProtocol (SvcPort_Protocol selected)
      end in
    Some {|
      ServicePort_Name := displayName;
      ServicePort_Protocol := protocol;
      ServicePort_ProxyPort := SvcPort_Port selected;
      ServicePort_TargetPort := SvcPort_Port selected;
      ServicePort_TargetHostname := clusterHostname;
      ServicePort_FullDomain := "";
      ServicePort_TLSServerName := "";
      ServicePort_Method := "";
      ServicePort_SSL := false;
      ServicePort_HostHeader := "";
      ServicePort_Headers := None;
      ServicePort_Maintenance := None;
      ServicePort_Auth := None;
      ServicePort_Rules := None;
      ServicePort_TargetEnabled := None;
      ServicePort_TargetPath := "";
      ServicePort_TargetPathMatch := "";
      ServicePort_TargetRewritePath := "";
      ServicePort_TargetRewriteMatch := "";
      ServicePort_TargetPriority := 0;
      ServicePort_TargetInternalPort := 0;
      ServicePort_TargetHealthCheck := None;
    |}.

Definition buildSinglePortEntry (svc : Service) (annotations secretData : gomap string)
    (cfg : Config) (clusterHostname : string) : gomap Resource :=
  match resolvePort svc annotations secretData (Config_AnnotationPrefix cfg) clusterHostname cfg with
  | None => None
  | Some sp =>
      let key :=
        if ServicePort_FullDomain sp != "" then HostnameToKey (ServicePort_FullDomain sp)
        else ServiceToKey (Meta_Namespace (Service_Meta svc)) (Meta_Name (Service_Meta svc))
               (Itoa (ServicePort_ProxyPort sp)) (ServicePort_Protocol sp) in
      Some {[ key := BuildServiceResource sp cfg ]}
  end.

Definition clusterHostnameOf (svc : Service) : string :=
  Meta_Name (Service_Meta svc) +:+ "." +:+ Meta_Namespace (Service_Meta svc)
  +:+ ".svc.cluster.local".

Definition service_buildEntries (obj : Object) (secretData : gomap string) (cfg : Config)
    : gomap Resource :=
  match obj with
  | OService svc =>
      let annotations :=
        match GetAnnotations obj with None => Some ∅ | annotations => annotations end in
      let clusterHostname := clusterHostnameOf svc in
      let hasFullDomain :=
        TrimSpace (annotations⟦Config_AnnotationPrefix cfg +:+ "/full-domain"⟧) != "" in
      if negb hasFullDomain && resolveAllPorts annotations cfg
      then buildAllPortEntries svc clusterHostname cfg
      else buildSinglePortEntry svc annotations secretData cfg clusterHostname
  | _ => None
  end.

Definition service_Definition `{K8s} : ResourceDefinition := {|
  RD_GVR := mkGVR "" "v1" "services";
  RD_ConvertFunc := CreateConvertFunc TService;
  RD_AutoConfigFunc := Some Config_AutoService;
  RD_FilterFunc := None;
  RD_BuildEntries := Some service_buildEntries;
|}.
