(* ===== verification/ServiceProps.v ===== *)
(** * What the entries of a Service look like

    The selected port, the shape of the entries in each mode, all-ports mode,
    and the agreement of HTTP mode with the resources built for HTTPRoutes. *)

From stdpp Require Import options.
From S2P Require Import Prelude GoStrings Config Blueprint BlueprintProps StateManager Resources.
From S2P Require Import HttpRoute Service.

Local Open Scope go_scope.

(** ** Reference definitions *)

(** The annotations with nil read as empty, and the public domain they ask for. *)
Definition annotations_of (svc : Service) : gomap string :=
  match Meta_Annotations (Service_Meta svc) with None => Some ∅ | a => a end.

Definition full_domain (svc : Service) (cfg : Config) : string :=
  TrimSpace ((annotations_of svc)⟦Config_AnnotationPrefix cfg +:+ "/full-domain"⟧).

(** A port answers to its number and to its name. *)
Definition port_matches (v : string) (p : SvcPort) : Prop :=
  Itoa (SvcPort_Port p) = v ∨ SvcPort_Name p = v.

(** One target, the Service itself on the given port. *)
Definition targets_service (svc : Service) (cfg : Config) (p : SvcPort) (r : Resource) : Prop :=
  ∃ t, Resource_Targets r = Some [t] ∧ Target_Hostname t = clusterHostnameOf svc
       ∧ Target_Port t = SvcPort_Port p ∧ Target_Site t = Config_SiteID cfg.

(** A raw TCP or UDP tunnel: nothing that belongs to HTTP. *)
Definition raw_tunnel (p : SvcPort) (r : Resource) : Prop :=
  (Resource_Protocol r = "tcp" ∨ Resource_Protocol r = "udp")
  ∧ Resource_ProxyPort r = SvcPort_Port p
  ∧ Resource_FullDomain r = "" ∧ Resource_TLSServerName r = "" ∧ Resource_SSL r = false
  ∧ Resource_Auth r = None ∧ Resource_Rules r = None ∧ Resource_Headers r = None.

(** An HTTP resource at a public domain, with a backend method Pangolin knows. *)
Definition http_resource (domain : string) (r : Resource) : Prop :=
  Resource_Protocol r = "http" ∧ Resource_FullDomain r = domain ∧ Resource_ProxyPort r = 0%Z
  ∧ Resource_TLSServerName r ≠ ""
  ∧ Forall (λ t, Target_Method t ∈ ["http"; "https"; "h2c"]) (elems (Resource_Targets r)).

(** ** The selected port *)

Lemma list_find_cases {A} (P : A → Prop) `{∀ x, Decision (P x)} (l : list A) :
  match snd <$> list_find P l with
  | Some x => x ∈ l ∧ P x
  | None => ∀ x, x ∈ l → ¬ P x
  end.
Proof.
  destruct (list_find P l) as [[i x]|] eqn:E; simpl.
  - apply list_find_Some in E as (Hi & HP & _). split; [by eapply list_elem_of_lookup_2 | done].
  - apply list_find_None in E. rewrite Forall_forall in E. auto.
Qed.

Lemma selectPort_cases ports annotations prefix :
  match annotations⟦prefix +:+ "/port"⟧?, selectPort ports annotations prefix with
  | Some v, Some p => p ∈ ports ∧ port_matches (TrimSpace v) p
  | Some v, None => ∀ p, p ∈ ports → ¬ port_matches (TrimSpace v) p
  | None, Some p => p ∈ ports ∧ (ports = [p] ∨ SvcPort_Name p = "http")
  | None, None => length ports ≠ 1 ∧ ∀ p, p ∈ ports → SvcPort_Name p ≠ "http"
  end.
Proof.
  unfold selectPort. destruct (annotations⟦_⟧?) as [v|].
  - apply (list_find_cases (port_matches (TrimSpace v))).
  - destruct ports as [|p [|q ps]]; [by set_solver | by set_solver |].
    pose proof (list_find_cases (λ p, SvcPort_Name p = "http") (p :: q :: ps)) as Hf.
    destruct (snd <$> _) as [x|]; [destruct Hf; auto | done].
Qed.


Lemma selectPort_in ports annotations prefix p :
  selectPort ports annotations prefix = Some p → p ∈ ports.
Proof.
  intros H. pose proof (selectPort_cases ports annotations prefix) as Hs.
  rewrite H in Hs. case_match; tauto.
Qed.

(** The port single-port mode exposes: one the annotation names, by number
    or by name; without annotation the only port, or else one named [http].
    There is none exactly when no port fits. *)
Theorem selectPort_spec ports annotations prefix :
  match annotations⟦prefix +:+ "/port"⟧?, selectPort ports annotations prefix with
  | Some v, Some p => p ∈ ports ∧ port_matches (TrimSpace v) p
  | Some v, None => ∀ p, p ∈ ports → ¬ port_matches (TrimSpace v) p
  | None, Some p => p ∈ ports ∧ (ports = [p] ∨ SvcPort_Name p = "http")
  | None, None => length ports ≠ 1 ∧ ∀ p, p ∈ ports → SvcPort_Name p ≠ "http"
  end.
Proof. apply selectPort_cases. Qed.

(** ** The shape of the entries *)

Lemma entries_foldl {A} (key : A → string) (val : A → Resource) (l : list A) (P : string → Resource → Prop) :
  (∀ x, x ∈ l → P (key x) (val x)) →
  map_Forall P (foldl (λ m x, <[ key x := val x ]> m) (∅ : gmap string Resource) l).
Proof.
  intros HP k r. rewrite foldl_insert_lookup, lookup_empty.
  destruct (last _) as [x|] eqn:E; [|done]. intros [= <-].
  apply last_Some_elem_of, list_elem_of_filter in E as [<- Hx]. by apply HP.
Qed.

Lemma BuildServiceResource_raw sp cfg :
  ServicePort_FullDomain sp = "" →
  BuildServiceResource sp cfg =
    mkResource (ServicePort_Name sp) (ServicePort_Protocol sp) None false "" "" ""
      (ServicePort_ProxyPort sp) None None None None
      (Some [mkTarget (Config_SiteID cfg) (ServicePort_TargetHostname sp) None ""
               (ServicePort_TargetPort sp) 0 "" "" "" "" 0 None]).
Proof. intros H. unfold BuildServiceResource. by rewrite H. Qed.

Lemma serviceProtocol_cases p : serviceProtocol p = "tcp" ∨ serviceProtocol p = "udp".
Proof. unfold serviceProtocol. case_bool_decide; auto. Qed.

(** What [resolvePort] returns, by mode. *)
Lemma resolvePort_shape svc annotations sd prefix ch cfg sp :
  let d := TrimSpace (annotations⟦prefix +:+ "/full-domain"⟧) in
  resolvePort svc annotations sd prefix ch cfg = Some sp →
  ∃ p, selectPort (Service_Ports svc) annotations prefix = Some p
       ∧ ServicePort_FullDomain sp = d ∧ ServicePort_TargetHostname sp = ch
       ∧ ServicePort_TargetPort sp = SvcPort_Port p
       ∧ (d = "" → (ServicePort_Protocol sp = "tcp" ∨ ServicePort_Protocol sp = "udp")
                   ∧ ServicePort_ProxyPort sp = SvcPort_Port p)
       ∧ (d ≠ "" → ServicePort_Method sp ∈ ["http"; "https"; "h2c"]).
Proof.
  cbv zeta. unfold resolvePort. intros (p & Hp & H)%bind_Some. exists p. split; [done|].
  revert H. case_bool_decide as Hd; simpl; intros [= <-]; simpl.
  - split_and!; try done. intros _. split; [|done].
    destruct (annotations⟦prefix +:+ "/protocol"⟧?) as [v|]; [|apply serviceProtocol_cases].
    repeat case_bool_decide; simpl; auto using serviceProtocol_cases.
  - split_and!; try done. intros _.
    destruct (annotations⟦prefix +:+ "/method"⟧?) as [v|]; [|by left].
    rewrite !elem_of_cons. case_bool_decide as E1; simpl; [by auto|].
    case_bool_decide as E2; simpl; by auto.
Qed.

(** Every entry of a Service has exactly one target: the Service's own
    cluster name on one of its declared ports, at the configured site. *)
Theorem service_entries_target svc sd cfg :
  map_Forall (λ _ r, ∃ p, p ∈ Service_Ports svc ∧ targets_service svc cfg p r)
    (entries_of (service_buildEntries (OService svc) sd cfg)).
Proof.
  unfold service_buildEntries, GetAnnotations. simpl.
  fold (annotations_of svc). destruct (negb _ && _).
  - unfold buildAllPortEntries. destruct (Service_Ports svc) as [|q qs] eqn:Hports; [done|].
    apply (entries_foldl (allPortKey svc)). intros p Hp. exists p. split; [done|].
    rewrite BuildServiceResource_raw by done. by eexists.
  - unfold buildSinglePortEntry.
    destruct (resolvePort _ _ _ _ _ _) as [sp|] eqn:Hsp; [|done]. simpl.
    apply map_Forall_singleton.
    apply resolvePort_shape in Hsp as (p & Hp & _ & Hh & Ht & _).
    exists p. split; [by eapply selectPort_in|].
    unfold BuildServiceResource. case_bool_decide; simpl; by eexists.
Qed.

(** The shape of the entries in the mode the annotations select. *)
Lemma service_entries_shape svc sd cfg :
  map_Forall (λ key r,
      if full_domain svc cfg == ""
      then ∃ p, p ∈ Service_Ports svc ∧ raw_tunnel p r
      else key = HostnameToKey (full_domain svc cfg) ∧ http_resource (full_domain svc cfg) r)
    (entries_of (service_buildEntries (OService svc) sd cfg)).
Proof.
  unfold service_buildEntries, GetAnnotations. simpl.
  fold (annotations_of svc). fold (full_domain svc cfg).
  destruct (decide (full_domain svc cfg = "")) as [Hd|Hd].
  - rewrite (bool_decide_eq_true_2 (full_domain svc cfg = "")) by done. simpl.
    destruct (resolveAllPorts _ _).
    + unfold buildAllPortEntries. destruct (Service_Ports svc) as [|q qs] eqn:Hports; [done|].
      apply (entries_foldl (allPortKey svc)). intros p Hp. exists p. split; [done|].
      rewrite BuildServiceResource_raw by done. unfold raw_tunnel; simpl.
      auto 10 using serviceProtocol_cases.
    + unfold buildSinglePortEntry.
      destruct (resolvePort _ _ _ _ _ _) as [sp|] eqn:Hsp; [|done]. simpl.
      apply map_Forall_singleton.
      apply resolvePort_shape in Hsp as (p & Hp & Hf & Hh & Ht & Hraw & _).
      destruct (Hraw Hd) as [Hproto Hproxy].
      exists p. split; [by eapply selectPort_in|].
      rewrite BuildServiceResource_raw by (rewrite Hf; exact Hd). unfold raw_tunnel; simpl.
      rewrite Hproxy. auto 10.
  - rewrite (bool_decide_eq_false_2 (full_domain svc cfg = "")) by done. simpl.
    unfold buildSinglePortEntry.
    destruct (resolvePort _ _ _ _ _ _) as [sp|] eqn:Hsp; [|done]. simpl.
    apply map_Forall_singleton.
    apply resolvePort_shape in Hsp as (p & Hp & Hf & Hh & Ht & _ & Hm).
    change (ServicePort_FullDomain sp = full_domain svc cfg) in Hf. rewrite Hf.
    unfold BuildServiceResource. rewrite Hf, !bool_decide_eq_false_2 by done. simpl.
    split; [done|]. split_and!; simpl; try done.
    + case_bool_decide; done.
    + apply Forall_singleton. by apply Hm.
Qed.

(** C36. The mode is decided by the full-domain annotation alone: with a
    non-blank value every entry is an HTTP resource at that domain, all-ports
    or not; otherwise every entry is a raw TCP or UDP tunnel of a declared port
    without authentication, rules, headers or TLS. *)
Theorem service_entries_mode svc sd cfg :
  map_Forall (λ key r,
      if full_domain svc cfg == ""
      then ∃ p, p ∈ Service_Ports svc ∧ raw_tunnel p r
      else key = HostnameToKey (full_domain svc cfg) ∧ http_resource (full_domain svc cfg) r)
    (entries_of (service_buildEntries (OService svc) sd cfg)).
Proof. apply service_entries_shape. Qed.

(** ** All-ports mode *)

(** Port number and tunnel protocol: what tells two entries apart. *)
Definition port_id (p : SvcPort) : Z * string :=
  (SvcPort_Port p, serviceProtocol (SvcPort_Protocol p)).

Lemma allPortKey_inj svc p q :
  (0 ≤ SvcPort_Port p)%Z → (0 ≤ SvcPort_Port q)%Z →
  allPortKey svc p = allPortKey svc q → port_id p = port_id q.
Proof.
  intros Hp Hq Heq. unfold allPortKey, ServiceToKey in Heq.
  do 4 apply (inj (String.append _)) in Heq.
  apply (append_sep_inj "-" (Itoa _) _ (Itoa _)) in Heq as [Hport Hproto];
    [|by apply contains_Itoa..].
  unfold port_id. f_equal; [by apply Itoa_inj | done].
Qed.

Lemma filter_unique {A B} `{EqDecision B} (f : A → B) (l : list A) (x : A) :
  NoDup (f <$> l) → x ∈ l → filter (λ y, f y = f x) l = [x].
Proof.
  induction l as [|y l IH]; [by set_solver|].
  rewrite fmap_cons, NoDup_cons, filter_cons. intros [Hy Hnd] [->|Hx]%elem_of_cons.
  - rewrite decide_True by done. f_equal.
    assert (∀ z, z ∈ l → f z ≠ f y) as Hne.
    { intros z Hz He. apply Hy. apply list_elem_of_fmap. by exists z. }
    clear -Hne. induction l as [|z l IH]; [done|].
    rewrite filter_cons_False by (apply Hne; by left). apply IH. intros w Hw. apply Hne. by right.
  - rewrite decide_False; [by apply IH|].
    intros He. apply Hy. apply list_elem_of_fmap. by exists x.
Qed.

(** C28. All-ports mode loses no port: when the declared ports differ in number
    or tunnel protocol (as the API server demands of TCP and UDP ports), each
    port has its own entry, a tunnel of exactly that port, and there are as many
    entries as ports. *)
Theorem all_ports_complete svc cfg ch :
  Service_Ports svc ≠ [] →
  Forall (λ p, 0 ≤ SvcPort_Port p)%Z (Service_Ports svc) →
  NoDup (port_id <$> Service_Ports svc) →
  (∀ p, p ∈ Service_Ports svc →
     map_get (buildAllPortEntries svc ch cfg) (allPortKey svc p)
     = Some (BuildServiceResource (allPortServicePort svc ch p) cfg))
  ∧ size (entries_of (buildAllPortEntries svc ch cfg)) = length (Service_Ports svc).
Proof.
  intros Hne Hpos Hnd. rewrite Forall_forall in Hpos.
  assert (buildAllPortEntries svc ch cfg = Some (foldl (λ entries p,
    <[ allPortKey svc p := BuildServiceResource (allPortServicePort svc ch p) cfg ]> entries)
    ∅ (Service_Ports svc))) as -> by (unfold buildAllPortEntries; by destruct (Service_Ports svc)).
  unfold map_get; simpl.
  assert (NoDup (allPortKey svc <$> Service_Ports svc)) as Hkeys.
  { revert Hpos Hnd. clear. generalize (Service_Ports svc). intros l Hpos.
    induction l as [|p l IH]; [constructor|]. rewrite !fmap_cons, !NoDup_cons.
    intros [Hp Hl]. split; [|by apply IH; [intros q Hq; apply Hpos; right|]].
    rewrite list_elem_of_fmap. intros (q & Hq & Hin). apply Hp, list_elem_of_fmap.
    exists q. split; [|done]. apply (allPortKey_inj svc); [|by apply Hpos; right|done].
    apply Hpos. by left. }
  split.
  - intros p Hp. rewrite foldl_insert_lookup. by rewrite filter_unique.
  - revert Hkeys. clear. induction (Service_Ports svc) as [|p l IH] using rev_ind; [done|].
    rewrite fmap_app, NoDup_app, foldl_app, length_app. intros (Hl & Hd & _). simpl.
    rewrite map_size_insert_None; [by rewrite IH, Nat.add_comm|].
    rewrite foldl_insert_lookup, lookup_empty. destruct (last _) as [x|] eqn:E; [|done].
    apply last_Some_elem_of, list_elem_of_filter in E as [Hx Hin].
    exfalso. apply (Hd (allPortKey svc x)); [by apply list_elem_of_fmap_2|].
    rewrite Hx. by left.
Qed.

Definition gameserver : Service :=
  mkService (mkMeta "gameserver" "default" None)
    [mkSvcPort "tcp-game" "TCP" 7777; mkSvcPort "udp-game" "UDP" 7777].

Lemma all_ports_complete_witness :
  (Service_Ports gameserver ≠ [] ∧ NoDup (port_id <$> Service_Ports gameserver)) ∧
  size (entries_of (buildAllPortEntries gameserver "gameserver.default" defaultConfig)) = 2.
Proof.
  assert (NoDup (port_id <$> Service_Ports gameserver)) as Hnd.
  { change (port_id <$> Service_Ports gameserver) with [(7777%Z, "tcp"); (7777%Z, "udp")].
    repeat constructor; set_solver. }
  split; [split; [discriminate | exact Hnd]|].
  refine (proj2 (all_ports_complete gameserver defaultConfig "gameserver.default" _ _ Hnd)).
  - discriminate.
  - repeat constructor; simpl; lia.
Defined.

(** A port of any other protocol, such as SCTP, is taken for TCP: it gets the
    entry of the TCP port with its number. *)
Lemma sctp_is_tcp svc name name' n :
  allPortKey svc (mkSvcPort name "SCTP" n) = allPortKey svc (mkSvcPort name' "TCP" n).
Proof. done. Qed.

(** ** HTTP mode against HTTPRoutes *)

(** The configuration with another backend. *)
Definition with_backend (hostname method : string) (port : Z) (cfg : Config) : Config :=
  mkConfig (Config_GatewayName cfg) (Config_GatewayNamespace cfg) (Config_Namespace cfg)
    (Config_Output cfg) (Config_SiteID cfg) hostname port method (Config_DenyCountries cfg)
    (Config_SSL cfg) (Config_AnnotationPrefix cfg) (Config_EnableService cfg)
    (Config_AutoService cfg) (Config_AllPorts cfg) (Config_AuthSSORoles cfg)
    (Config_AuthSSOUsers cfg) (Config_AuthSSOIDP cfg) (Config_AuthWhitelistUsers cfg)
    (Config_HealthPort cfg).

Definition without_enabled (r : Resource) : Resource :=
  mkResource (Resource_Name r) (Resource_Protocol r) None (Resource_SSL r) (Resource_FullDomain r)
    (Resource_HostHeader r) (Resource_TLSServerName r) (Resource_ProxyPort r) (Resource_Headers r)
    (Resource_Auth r) (Resource_Maintenance r) (Resource_Rules r) (Resource_Targets r).

(** The backend method the annotations ask for. *)
Definition method_of (annotations : gomap string) (prefix : string) : string :=
  match annotations⟦prefix +:+ "/method"⟧? with
  | Some v =>
      let v := ToLower (TrimSpace v) in if (v == "https") || (v == "h2c") then v else "http"
  | None => "http"
  end.

(** [t] at another site, host, method and port. *)
Definition rebase (b t : Target) : Target :=
  mkTarget (Target_Site b) (Target_Hostname b) (Target_Enabled t) (Target_Method b) (Target_Port b)
    (Target_InternalPort t) (Target_Path t) (Target_PathMatch t) (Target_RewritePath t)
    (Target_RewriteMatch t) (Target_Priority t) (Target_HealthCheck t).

(** Pushes [rebase] through one assignment of [BuildTargetExtras]. *)
Ltac rebase_step :=
  lazymatch goal with
  | |- (let t := ?v in @?k t) = rebase ?b (let t' := ?w in @?k' t') =>
      let H := fresh in
      cut (∀ t, k (rebase b t) = rebase b (k' t));
      [ intros H; refine (eq_trans (f_equal k (_ : v = rebase b w)) (H w)); clear H;
        cbv zeta; repeat case_match; done
      | let t := fresh "t" in intros t; cbv beta ]
  end.

Lemma BuildTargetExtras_rebase b t annotations prefix :
  BuildTargetExtras (rebase b t) annotations prefix
  = rebase b (BuildTargetExtras t annotations prefix).
Proof.
  cbv beta delta [BuildTargetExtras].
  do 8 rebase_step. cbv zeta. by case_match.
Qed.

(** C35. HTTP mode publishes what an HTTPRoute would: for the selected port the
    one entry of the Service is the resource [BuildResource] makes of the same
    annotations for that domain, with the Service as backend and the display name
    [<svc>-<port>] in place of the route's where no annotation gives one, except
    that the [enabled] field is never set. *)
Theorem http_mode_like_httproute svc m sd cfg ch p :
  let prefix := Config_AnnotationPrefix cfg in
  let domain := TrimSpace ((Some m)⟦prefix +:+ "/full-domain"⟧) in
  domain ≠ "" →
  selectPort (Service_Ports svc) (Some m) prefix = Some p →
  buildSinglePortEntry svc (Some m) sd cfg ch
  = Some {[ HostnameToKey domain :=
      without_enabled
        (BuildResource (Meta_Name (Service_Meta svc) +:+ "-" +:+ portName p) domain (Some m) sd
           (with_backend ch (method_of (Some m) prefix) (SvcPort_Port p) cfg)) ]}.
Proof.
  cbv zeta. intros Hd Hp. unfold buildSinglePortEntry, resolvePort. rewrite Hp. simpl.
  rewrite (bool_decide_eq_false_2 (TrimSpace _ = "")) by done. simpl.
  rewrite (bool_decide_eq_false_2 (TrimSpace _ = "")) by done. simpl.
  do 2 f_equal. unfold BuildServiceResource, BuildResource, without_enabled. simpl.
  rewrite (bool_decide_eq_false_2 (TrimSpace _ = "")) by done. simpl.
  set (base := mkTarget (Config_SiteID cfg) ch None (method_of (Some m) (Config_AnnotationPrefix cfg))
                 (SvcPort_Port p) 0 "" "" "" "" 0 None).
  change base with (rebase base zero). rewrite BuildTargetExtras_rebase. f_equal.
Qed.

Definition gameserver_admin : gmap string string :=
  {[ "newt-sidecar/full-domain" := " game.example.com"; "newt-sidecar/port" := "tcp-game";
     "newt-sidecar/auth-sso" := "true" ]}.

Lemma http_mode_like_httproute_witness :
  map_get (buildSinglePortEntry gameserver (Some gameserver_admin) None defaultConfig "gs")
    "game-example-com"
  = Some (without_enabled (BuildResource "gameserver-tcp-game" "game.example.com"
            (Some gameserver_admin) None (with_backend "gs" "http" 7777 defaultConfig))).
Proof.
  rewrite (http_mode_like_httproute gameserver gameserver_admin None defaultConfig "gs"
             (mkSvcPort "tcp-game" "TCP" 7777)); vm_compute; [reflexivity | discriminate | reflexivity].
Defined.
