(* ===== verification/Controller.v ===== *)
(** * Package [controller]: from informer events to the state manager

    One controller per watched type.  It remembers which blueprint keys each
    object produced ([resourceKeys]) and turns add, update and delete events
    into calls of the store.  It is written against the interfaces
    [ResourceHandler] and [Store].  The context is left out: it reaches the
    clientset only, whose answers are arguments here. *)

From stdpp Require Import options.
From S2P Require Import Prelude GoStrings Config Blueprint StateManager Store Resources.

Local Open Scope go_scope.

(** ** Definitions *)

(** The order in which [range] visits a map: any order, chosen anew for every
    loop. *)
Record RangeOrder : Type := mkRangeOrder {
  order_keys : gmap string Resource → list string;
  order_entries : gmap string Resource → list (string * Resource);
  order_keys_ok m : order_keys m ≡ₚ (map_to_list m).*1;
  order_entries_ok m : order_entries m ≡ₚ map_to_list m;
}.

(** [clientset.CoreV1().Secrets(ns).Get(ctx, name)]: the secret's data. *)
Definition Secrets : Type := string → string → result GoError (gmap string string).

(** What an informer hands to an event handler. *)
Inductive EventObj `{K8s} : Type :=
| EvUnstructured (u : Unstructured)
| EvTombstone (o : EventObj)
| EvOther.

Section controller.
  Context `{K8s} {Hd : Type} `{!ResourceHandler Hd} {St : Type} `{!Store St}.

Record Controller : Type := mkController {
  Controller_resourceKeys : gmap string (list string);
  Controller_gvr : GroupVersionResource;
  Controller_convert : Unstructured → result GoError Object;
  Controller_handler : Hd;
  Controller_cfg : Config;
  Controller_synced : bool;
}.

Definition set_resourceKeys (m : gmap string (list string)) (c : Controller) : Controller :=
  mkController m (Controller_gvr c) (Controller_convert c) (Controller_handler c)
    (Controller_cfg c) (Controller_synced c).

Definition set_synced (b : bool) (c : Controller) : Controller :=
  mkController (Controller_resourceKeys c) (Controller_gvr c) (Controller_convert c)
    (Controller_handler c) (Controller_cfg c) b.

Definition toMetaObj (c : Controller) (obj : EventObj) : result GoError Object :=
  match obj with
  | EvUnstructured u => Controller_convert c u
  | _ => Err (mkError "unexpected object type")
  end.

Definition resolveAuthSecret (c : Controller) (secrets : Secrets) (obj : Object) : gomap string :=
  let secretName :=
    (GetAnnotations obj)⟦Config_AnnotationPrefix (Controller_cfg c) +:+ "/auth-secret"⟧ in
  if secretName == "" then None else
  let ns := GetNamespace obj in
  match secrets ns secretName with
  | Err _ => None
  | Ok data => Some data
  end.

Definition objKeyOf (obj : Object) : string := GetNamespace obj +:+ "/" +:+ GetName obj.

(** The keys recorded for an object; nil, hence none, when it has no record. *)
Definition keys_of (c : Controller) (objKey : string) : list string :=
  default [] (Controller_resourceKeys c !! objKey).

Definition removeObject (c : Controller) (objKey : string) (st : St) : Controller * St :=
  let keys := keys_of c objKey in
  let c' := set_resourceKeys (delete objKey (Controller_resourceKeys c)) c in
  (c', foldl (λ st key, snd (store_Remove key st)) st keys).

Definition processObject (ord : RangeOrder) (secrets : Secrets) (c : Controller) (obj : Object)
    (write : bool) (st : St) : Controller * St :=
  let objKey := objKeyOf obj in
  if negb (ShouldProcess (Controller_handler c) obj (Controller_cfg c)) then
    removeObject c objKey st
  else
    let secretData := resolveAuthSecret c secrets obj in
    let entries :=
      entries_of (BuildEntries (Controller_handler c) obj secretData (Controller_cfg c)) in
    if size entries =? 0 then removeObject c objKey st
    else
      let newKeys := order_keys ord entries in
      let oldKeys := keys_of c objKey in
      let c' := set_resourceKeys (<[ objKey := newKeys ]> (Controller_resourceKeys c)) c in
      let newSet : gset string := list_to_set newKeys in
      let st :=
        foldl (λ st old,
          if bool_decide (old ∈ newSet) then st else snd (store_Remove old st)) st oldKeys in
      (c', foldl (λ st '(key, resource), snd (store_AddOrUpdate key resource write st)) st
             (order_entries ord entries)).

Definition onAdd (ord : RangeOrder) (secrets : Secrets) (c : Controller) (obj : EventObj) (st : St)
    : Controller * St :=
  match toMetaObj c obj with
  | Err _ => (c, st)
  | Ok metaObj => processObject ord secrets c metaObj (Controller_synced c) st
  end.

Definition onUpdate (ord : RangeOrder) (secrets : Secrets) (c : Controller)
    (_ newObj : EventObj) (st : St) : Controller * St :=
  match toMetaObj c newObj with
  | Err _ => (c, st)
  | Ok metaObj => processObject ord secrets c metaObj (Controller_synced c) st
  end.

Definition onDelete (c : Controller) (obj : EventObj) (st : St) : Controller * St :=
  let obj := match obj with EvTombstone o => o | _ => obj end in
  match toMetaObj c obj with
  | Err _ => (c, st)
  | Ok metaObj => removeObject c (GetNamespace metaObj +:+ "/" +:+ GetName metaObj) st
  end.

(** [Run] up to its wait for the context: [hasSynced] is the answer of
    [WaitForCacheSync].  The forced write and the flag are two steps; other
    goroutines may come in between (see [Sidecar]). *)
Definition Run (hasSynced : bool) (c : Controller) (st : St) : result GoError (Controller * St) :=
  if negb hasSynced
  then Err (mkError ("cache sync timed out for " +:+ GVR_Resource (Controller_gvr c)))
  else
    let st := store_ForceWrite st in
    Ok (set_synced true c, st).

Definition GVRString (c : Controller) : string := GVR_Resource (Controller_gvr c).

End controller.

Arguments Controller {_} Hd.

(** [New] for a definition: the handler wraps it, nothing is recorded yet. *)
Definition New `{K8s} (definition : ResourceDefinition) (cfg : Config) : Controller Handler := {|
  Controller_resourceKeys := ∅;
  Controller_gvr := RD_GVR definition;
  Controller_convert := RD_ConvertFunc definition;
  Controller_handler := NewHandler definition;
  Controller_cfg := cfg;
  Controller_synced := false;
|}.
