(* ===== verification/ControllerProps.v ===== *)
(** * What a controller does to the public resources

    The effect of one event, the refinement of a whole run to "the union of
    what the live objects contribute", and what happens when two objects claim
    the same key. *)

From stdpp Require Import options.
From S2P Require Import Prelude GoStrings Config Blueprint BlueprintProps StateManager Store.
From S2P Require Import StateProps Resources HttpRoute Service Controller.

Local Open Scope go_scope.

(** ** Reference definitions *)

(** The specification: what every live object contributes, by object key. *)
Abbreviation Live := (gmap string (gmap string Resource)).

Section spec.
  Context `{K8s} {Hd : Type} `{!ResourceHandler Hd}.

(** The entries an object contributes: none unless the handler processes it. *)
Definition contribution (c : Controller Hd) (secrets : Secrets) (obj : Object)
    : gmap string Resource :=
  if ShouldProcess (Controller_handler c) obj (Controller_cfg c) then
    entries_of (BuildEntries (Controller_handler c) obj (resolveAuthSecret c secrets obj)
                  (Controller_cfg c))
  else ∅.

(** An event of the informer, with the secrets at that time and the orders in
    which the loops of the handler visit the entries, or the start of [Run]. *)
Inductive Event : Type :=
| EAdd (ord : RangeOrder) (secrets : Secrets) (obj : EventObj)
| EUpdate (ord : RangeOrder) (secrets : Secrets) (old new : EventObj)
| EDelete (obj : EventObj)
| ERun (hasSynced : bool).

Definition handle {St : Type} `{!Store St} (ev : Event) (cs : Controller Hd * St)
    : Controller Hd * St :=
  let '(c, st) := cs in
  match ev with
  | EAdd ord secrets obj => onAdd ord secrets c obj st
  | EUpdate ord secrets old new => onUpdate ord secrets c old new st
  | EDelete obj => onDelete c obj st
  | ERun hasSynced => match Run hasSynced c st with Ok cs' => cs' | Err _ => (c, st) end
  end.

Definition handle_all {St : Type} `{!Store St} (evs : list Event) (cs : Controller Hd * St)
    : Controller Hd * St := foldl (λ cs ev, handle ev cs) cs evs.

Definition spec_set (objKey : string) (es : gmap string Resource) (live : Live) : Live :=
  if decide (es = ∅) then delete objKey live else <[ objKey := es ]> live.

Definition spec_event (c : Controller Hd) (live : Live) (ev : Event) : Live :=
  match ev with
  | EAdd _ secrets obj | EUpdate _ secrets _ obj =>
      match toMetaObj c obj with
      | Ok o => spec_set (objKeyOf o) (contribution c secrets o) live
      | Err _ => live
      end
  | EDelete obj =>
      match toMetaObj c (match obj with EvTombstone o => o | _ => obj end) with
      | Ok o => delete (objKeyOf o) live
      | Err _ => live
      end
  | ERun _ => live
  end.

Definition spec_run (c : Controller Hd) (live : Live) (evs : list Event) : Live :=
  foldl (spec_event c) live evs.

(** No key is claimed twice, by two live objects or by a live object and the
    [frame], the entries that belong to the other components. *)
Definition exclusive (frame : gmap string Resource) (live : Live) : Prop :=
  map_Forall (λ o1 es1, es1 ##ₘ frame ∧ map_Forall (λ o2 es2, o1 = o2 ∨ es1 ##ₘ es2) live) live.

#[export] Instance exclusive_dec frame live : Decision (exclusive frame live).
Proof. apply _. Defined.

(** The public resources are those of the frame and of the live objects. *)
Definition shows (frame : gmap string Resource) (live : Live) (view : gmap string Resource) : Prop :=
  ∀ k r, view !! k = Some r ↔
    frame !! k = Some r ∨ ∃ o es, live !! o = Some es ∧ es !! k = Some r.

(** The controller's records list the keys of what is live. *)
Definition records (live : Live) (c : Controller Hd) : Prop :=
  ∀ o, option_Forall2 (λ ks (es : gmap string Resource), ∀ k, k ∈ ks ↔ is_Some (es !! k))
         (Controller_resourceKeys c !! o) (live !! o).

(** The fields no event changes. *)
Definition static (c c' : Controller Hd) : Prop :=
  Controller_gvr c' = Controller_gvr c ∧ Controller_convert c' = Controller_convert c
  ∧ Controller_handler c' = Controller_handler c ∧ Controller_cfg c' = Controller_cfg c.

#[export] Instance static_preorder : PreOrder static.
Proof.
  split; [by intros c; split_and!|].
  intros c1 c2 c3 (? & ? & ? & ?) (? & ? & ? & ?). split_and!; congruence.
Qed.

End spec.

(** ** Loops over the store *)

Section loops.
  Context {St : Type} `{!Store St, !StoreLaws St}.
  Local Set Default Proof Using "Type*".

Lemma removes_view (P : string → bool) keys st k :
  store_view (foldl (λ st key, if P key then st else snd (store_Remove key st)) st keys) !! k
  = if decide (k ∈ keys ∧ P k = false) then None else store_view st !! k.
Proof.
  revert st; induction keys as [|key keys IH]; intros st; cbn [foldl].
  - rewrite decide_False; [done|]. by intros [?%elem_of_nil _].
  - rewrite IH. destruct (P key) eqn:HP.
    + apply decide_ext. split; intros [Hin HPk]; (split; [|done]); [by right|].
      apply elem_of_cons in Hin as [->|]; [congruence | done].
    + rewrite view_Remove. destruct (decide (k = key)) as [->|Hk].
      * rewrite lookup_delete_eq, (decide_True (P := key ∈ key :: keys ∧ _)) by (split; [by left | done]).
        by case_decide.
      * rewrite lookup_delete_ne by done. apply decide_ext.
        split; intros [Hin HPk]; (split; [|done]); [by right|].
        by apply elem_of_cons in Hin as [->|].
Qed.

Lemma updates_view write l st :
  NoDup l.*1 →
  store_view (foldl (λ st '(key, r), snd (store_AddOrUpdate key r write st)) st l)
  = list_to_map l ∪ store_view st.
Proof.
  revert st; induction l as [|[key r] l IH]; intros st; simpl; [by rewrite map_empty_union|].
  intros [Hk Hl]%NoDup_cons. rewrite IH, view_AddOrUpdate by done.
  rewrite <- insert_union_r by (by apply not_elem_of_list_to_map_1).
  by rewrite insert_union_l.
Qed.

Lemma entries_view ord write es st :
  store_view (foldl (λ st '(key, r), snd (store_AddOrUpdate key r write st)) st
                (order_entries ord es))
  = es ∪ store_view st.
Proof.
  pose proof (order_entries_ok ord es) as Hp.
  assert (NoDup (order_entries ord es).*1) as Hnd by (rewrite Hp; apply NoDup_fst_map_to_list).
  rewrite updates_view by done. f_equal.
  rewrite (list_to_map_proper _ _ Hnd Hp). apply list_to_map_to_list.
Qed.

End loops.

Lemma order_keys_elem ord (es : gmap string Resource) k :
  k ∈ order_keys ord es ↔ is_Some (es !! k).
Proof.
  rewrite (order_keys_ok ord es), list_elem_of_fmap. split.
  - intros ([k' r] & -> & Hr%elem_of_map_to_list). by exists r.
  - intros [r Hr]. exists (k, r). split; [done|]. by apply elem_of_map_to_list.
Qed.

(** ** The specification, one object at a time *)

Lemma spec_set_lookup objKey es live o es' :
  spec_set objKey es live !! o = Some es' ↔
    (o = objKey ∧ es' = es ∧ es ≠ ∅) ∨ (o ≠ objKey ∧ live !! o = Some es').
Proof.
  unfold spec_set. case_decide as He.
  - rewrite lookup_delete_Some. naive_solver.
  - rewrite lookup_insert_Some. naive_solver.
Qed.

(** The entries after an object was processed: its own, then what was there
    before less what the object had produced. *)
Definition replaced (es : gmap string Resource) (old : list string) (v v' : gmap string Resource)
    : Prop :=
  ∀ k, v' !! k = match es !! k with
                 | Some r => Some r
                 | None => if decide (k ∈ old) then None else v !! k
                 end.

Lemma exclusive_alt frame live :
  exclusive frame live →
  (∀ o1 o2 es1 es2 k, live !! o1 = Some es1 → live !! o2 = Some es2 →
     is_Some (es1 !! k) → is_Some (es2 !! k) → o1 = o2)
  ∧ (∀ o es k, live !! o = Some es → is_Some (es !! k) → frame !! k = None).
Proof.
  intros Hx. split.
  - intros o1 o2 es1 es2 k H1 H2 [r1 Hr1] [r2 Hr2]. destruct (Hx o1 es1 H1) as [_ Hd].
    destruct (Hd o2 es2 H2) as [|Hdisj]; [done|]. 
    by rewrite (map_disjoint_Some_l _ _ _ _ Hdisj Hr1) in Hr2.
  - intros o es k Ho [r Hr]. destruct (Hx o es Ho) as [Hd _]. by eapply map_disjoint_Some_l.
Qed.

Lemma shows_set frame live objKey es old v v' :
  (∀ k, k ∈ old ↔ ∃ es0, live !! objKey = Some es0 ∧ is_Some (es0 !! k)) →
  replaced es old v v' →
  exclusive frame live → exclusive frame (spec_set objKey es live) →
  shows frame live v → shows frame (spec_set objKey es live) v'.
Proof.
  intros Hold Hv' [Hx Hf]%exclusive_alt [Hx' Hf']%exclusive_alt Hs k r. rewrite Hv'.
  setoid_rewrite spec_set_lookup.
  destruct (es !! k) as [r0|] eqn:Hk.
  - assert (es ≠ ∅) as Hne by (intros ->; by rewrite lookup_empty in Hk).
    assert (spec_set objKey es live !! objKey = Some es) as Hself
      by (apply spec_set_lookup; by left).
    pose proof (Hf' _ _ k Hself ltac:(by eexists)) as Hfr. split.
    + intros [= ->]. right. exists objKey, es. split; [by left | done].
    + rewrite Hfr. intros [?|(o & es' & [(-> & -> & _)|[Ho Hl]] & Hr)]; [done | congruence |].
      exfalso. apply Ho. eapply (Hx' o objKey es' es k); [|done|by eexists|by eexists].
      apply spec_set_lookup. by right.
  - case_decide as Hin.
    + apply Hold in Hin as (es0 & Hl0 & Hk0). split; [done|].
      rewrite (Hf _ _ _ Hl0 Hk0).
      intros [?|(o & es' & [(-> & -> & _)|[Ho Hl]] & Hr)]; [done | congruence |].
      exfalso. apply Ho. by eapply (Hx o objKey es' es0 k); [| |eexists|].
    + rewrite (Hs k r). split; (intros [?|(o & es' & Hl & Hr)]; [by left | right; exists o, es']).
      * split; [|done]. destruct (decide (o = objKey)) as [->|]; [|by right].
        destruct Hin. apply Hold. exists es'. split; [done | by eexists].
      * split; [|done]. destruct Hl as [(-> & -> & _)|[_ ?]]; [congruence | done].
Qed.

(** ** One event *)

Section events.
  Context `{K8s} {Hd : Type} `{!ResourceHandler Hd} {St : Type} `{!Store St, !StoreLaws St}.
  Local Set Default Proof Using "Type*".
  Implicit Types (c : Controller Hd) (st : St).

(** What the records say of the object that was processed, and of the others. *)
Definition recorded (objKey : string) (es : gmap string Resource) (c c' : Controller Hd) : Prop :=
  (∀ k, k ∈ keys_of c' objKey ↔ is_Some (es !! k))
  ∧ (is_Some (Controller_resourceKeys c' !! objKey) ↔ es ≠ ∅)
  ∧ (∀ o, o ≠ objKey → Controller_resourceKeys c' !! o = Controller_resourceKeys c !! o).

Lemma removeObject_ends c objKey st :
  let '(c', st') := removeObject c objKey st in
  static c c' ∧ recorded objKey ∅ c c'
  ∧ replaced ∅ (keys_of c objKey) (store_view st) (store_view st').
Proof.
  unfold removeObject. split_and!; [done | split_and! | ..]; unfold keys_of; simpl.
  - intros k. rewrite lookup_delete_eq, lookup_empty. simpl.
    rewrite elem_of_nil, is_Some_alt. done.
  - rewrite lookup_delete_eq, is_Some_alt. naive_solver.
  - intros o Ho. by rewrite lookup_delete_ne.
  - intros k. rewrite lookup_empty, (removes_view (λ _, false)). apply decide_ext. naive_solver.
Qed.

Lemma processObject_ends ord secrets c obj write st :
  let es := contribution c secrets obj in
  let '(c', st') := processObject ord secrets c obj write st in
  static c c' ∧ recorded (objKeyOf obj) es c c'
  ∧ replaced es (keys_of c (objKeyOf obj)) (store_view st) (store_view st').
Proof.
  cbv zeta. unfold contribution, processObject.
  destruct (ShouldProcess _ obj _); cbn [negb]; [|apply removeObject_ends].
  set (es := entries_of _). cbv zeta.
  destruct (size es =? 0) eqn:Hz.
  { apply Nat.eqb_eq, map_size_empty_iff in Hz as ->. apply removeObject_ends. }
  apply Nat.eqb_neq in Hz. split_and!; [done | split_and! | ..]; unfold keys_of; simpl.
  - intros k. rewrite lookup_insert_eq. apply order_keys_elem.
  - rewrite lookup_insert_eq. split; [|by eexists]. intros _ ->. by rewrite map_size_empty in Hz.
  - intros o Ho. by rewrite lookup_insert_ne.
  - intros k. rewrite entries_view, lookup_union.
    rewrite (removes_view (λ old, bool_decide (old ∈ list_to_set (C := gset string) (order_keys ord es)))).
    destruct (es !! k) as [r|] eqn:Hk; [by rewrite union_Some_l |].
    rewrite left_id by apply _. apply decide_ext. split; [naive_solver|].
    intros Hin. split; [done|]. apply bool_decide_eq_false.
    rewrite elem_of_list_to_set, order_keys_elem, Hk. by intros [? [=]].
Qed.

(** C24. What one event does, whatever the order of the two loops: under every
    key the resource the object contributes now; the keys it contributed before
    and no more are gone; every other key is as it was.  Afterwards the record of
    the object lists exactly what it contributes and no other record changed. *)
Theorem processObject_effect ord secrets c obj write st :
  let es := contribution c secrets obj in
  let '(c', st') := processObject ord secrets c obj write st in
  replaced es (keys_of c (objKeyOf obj)) (store_view st) (store_view st')
  ∧ recorded (objKeyOf obj) es c c'.
Proof.
  pose proof (processObject_ends ord secrets c obj write st) as Hp. cbv zeta in *.
  destruct (processObject _ _ _ _ _ _). tauto.
Qed.

(** ** Runs *)

Lemma handle_static ev c st : static c (handle ev (c, st)).1.
Proof.
  destruct ev as [ord secrets obj|ord secrets old new|obj|hasSynced]; simpl.
  - unfold onAdd. destruct (toMetaObj c obj); [|done].
    pose proof (processObject_ends ord secrets c a (Controller_synced c) st) as Hp.
    cbv zeta in Hp. by destruct (processObject _ _ _ _ _ _), Hp.
  - unfold onUpdate. destruct (toMetaObj c new); [|done].
    pose proof (processObject_ends ord secrets c a (Controller_synced c) st) as Hp.
    cbv zeta in Hp. by destruct (processObject _ _ _ _ _ _), Hp.
  - unfold onDelete. by destruct (toMetaObj c _).
  - unfold Run. by destruct hasSynced.
Qed.

Lemma handle_all_static evs c st : static c (handle_all evs (c, st)).1.
Proof.
  revert c st; induction evs as [|ev evs IH]; intros c st; [done|].
  change (handle_all (ev :: evs) (c, st)) with (handle_all evs (handle ev (c, st))).
  pose proof (handle_static ev c st) as Hs. destruct (handle ev (c, st)) as [c' st'].
  etrans; [exact Hs | apply IH].
Qed.

Lemma static_toMetaObj c c' obj : static c c' → toMetaObj c' obj = toMetaObj c obj.
Proof. intros (_ & Hconv & _). destruct obj; simpl; congruence. Qed.

Lemma static_contribution c c' secrets o :
  static c c' → contribution c' secrets o = contribution c secrets o.
Proof. intros (_ & _ & Hh & Hcfg). unfold contribution, resolveAuthSecret. by rewrite Hh, Hcfg. Qed.

Lemma static_spec_event c c' live ev : static c c' → spec_event c' live ev = spec_event c live ev.
Proof.
  intros Hs. destruct ev; simpl; rewrite ?(static_toMetaObj c c') by done; try done;
    destruct (toMetaObj c _); by rewrite ?(static_contribution c c').
Qed.

(** An event replaces the entries of one object, or changes nothing. *)
Inductive event_effect (c : Controller Hd) (st : St) (live : Live) :
    Controller Hd → St → Live → Prop :=
| effect_none c' st' :
    Controller_resourceKeys c' = Controller_resourceKeys c → store_view st' = store_view st →
    event_effect c st live c' st' live
| effect_replaced objKey es c' st' :
    recorded objKey es c c' →
    replaced es (keys_of c objKey) (store_view st) (store_view st') →
    event_effect c st live c' st' (spec_set objKey es live).

Lemma handle_effect ev c st live :
  let '(c', st') := handle ev (c, st) in
  event_effect c st live c' st' (spec_event c live ev).
Proof.
  assert (∀ ord secrets o, let '(c', st') := processObject ord secrets c o (Controller_synced c) st in
    event_effect c st live c' st' (spec_set (objKeyOf o) (contribution c secrets o) live)) as Hproc.
  { intros ord secrets o.
    pose proof (processObject_ends ord secrets c o (Controller_synced c) st) as Hp. cbv zeta in Hp.
    destruct (processObject _ _ _ _ _ _), Hp as (_ & ? & ?). by apply effect_replaced. }
  destruct ev as [ord secrets obj|ord secrets old new|obj|hasSynced]; simpl.
  - unfold onAdd. destruct (toMetaObj c obj); [apply Hproc | by apply effect_none].
  - unfold onUpdate. destruct (toMetaObj c new); [apply Hproc | by apply effect_none].
  - unfold onDelete. destruct (toMetaObj c _) as [o|]; [|by apply effect_none].
    pose proof (removeObject_ends c (objKeyOf o) st) as Hp. unfold removeObject in *.
    replace (delete (objKeyOf o) live) with (spec_set (objKeyOf o) ∅ live)
      by (unfold spec_set; by rewrite decide_True).
    destruct Hp as (_ & ? & ?). by apply effect_replaced.
  - unfold Run. destruct hasSynced; simpl; apply effect_none; [done | apply view_ForceWrite | done..].
Qed.

Lemma handle_all_ind (P : Controller Hd → St → Live → Prop) c st live evs :
  P c st live →
  (∀ n c1 st1 live1 c2 st2,
     P c1 st1 live1 → live1 = spec_run c live (take n evs) →
     event_effect c1 st1 live1 c2 st2 (spec_run c live (take (S n) evs)) →
     P c2 st2 (spec_run c live (take (S n) evs))) →
  let '(c', st') := handle_all evs (c, st) in P c' st' (spec_run c live evs).
Proof.
  intros H0 Hstep.
  cut (∀ n, static c (handle_all (take n evs) (c, st)).1
    ∧ let '(c', st') := handle_all (take n evs) (c, st) in
      P c' st' (spec_run c live (take n evs))).
  { intros Hn. destruct (Hn (length evs)) as [_ Hl]. by rewrite firstn_all in Hl. }
  induction n as [|n [Hst IH]]; [done|].
  destruct (evs !! n) as [ev|] eqn:Hev.
    2:{ apply lookup_ge_None in Hev. rewrite !take_ge in * by lia. done. }
  pose proof (Hstep n) as Hs. rewrite (take_S_r _ _ _ Hev) in *.
  unfold handle_all, spec_run in *. rewrite !foldl_app in *. simpl in *.
  destruct (foldl _ _ _) as [c1 st1] eqn:E in *. simpl in Hst.
  pose proof (handle_static ev c1 st1) as Hst'.
  pose proof (handle_effect ev c1 st1 (foldl (spec_event c) live (take n evs))) as He.
  destruct (handle ev (c1, st1)) as [c2 st2]. simpl in *.
  split; [by transitivity c1|].
  rewrite (static_spec_event c c1) in He by done.
  exact (Hs _ _ _ _ _ IH eq_refl He).
Qed.

Lemma records_keys live c objKey k :
  records live c →
  k ∈ keys_of c objKey ↔ ∃ es0, live !! objKey = Some es0 ∧ is_Some (es0 !! k).
Proof.
  intros Hr. specialize (Hr objKey). unfold keys_of.
  destruct Hr as [ks es Hks|]; simpl.
  - rewrite Hks. split; [by exists es | by intros (? & [= <-] & ?)].
  - split; [by intros ?%elem_of_nil | by intros (? & [=] & _)].
Qed.

Lemma records_set live objKey es c c' :
  recorded objKey es c c' → records live c → records (spec_set objKey es live) c'.
Proof.
  intros (Hk & Hs & Ho) Hr o. unfold keys_of in Hk.
  destruct (decide (o = objKey)) as [->|Hne].
  - unfold spec_set. case_decide as He.
    + rewrite lookup_delete_eq. destruct (Controller_resourceKeys c' !! objKey); [|constructor].
      destruct Hs as [Hs _]. by destruct (Hs ltac:(by eexists)).
    + rewrite lookup_insert_eq. apply Hs in He as [ks Hks]. rewrite Hks in *. by constructor.
  - rewrite Ho by done. specialize (Hr o). unfold spec_set.
    case_decide; by rewrite ?lookup_delete_ne, ?lookup_insert_ne.
Qed.

Lemma replaced_none c st live objKey k :
  records live c → ¬ k ∈ keys_of c objKey → ∀ o es,
  live !! o = Some es → is_Some (es !! k) → o ≠ objKey.
Proof.
  intros Hr Hk o es Hl Hes ->. apply Hk. apply (records_keys live); [done | by exists es].
Qed.

Lemma handle_all_live c st evs :
  Controller_resourceKeys c = ∅ →
  (∀ n, exclusive (store_view st) (spec_run c ∅ (take n evs))) →
  let '(c', st') := handle_all evs (c, st) in
  shows (store_view st) (spec_run c ∅ evs) (store_view st').
Proof.
  intros Hc Hx.
  pose proof (handle_all_ind
    (λ c' st' live, records live c' ∧ shows (store_view st) live (store_view st')) c st ∅ evs) as Hi.
  destruct (handle_all evs (c, st)) as [c' st']. apply Hi.
  - split; [intros o; rewrite Hc, !lookup_empty; constructor|].
    intros k r. setoid_rewrite lookup_empty. naive_solver.
  - intros n c1 st1 live1 c2 st2 [Hr Hs] -> He. pose proof (Hx n) as Hn. pose proof (Hx (S n)) as Hn'.
    destruct He as [c2 st2 Hk Hv | objKey es c2 st2 Hrec Hrep].
    + split; [|by rewrite Hv]. intros o. rewrite Hk. apply Hr.
    + split; [by eapply records_set|].
      eapply shows_set; [|done..]. intros k. by apply records_keys.
Qed.

(** C2. Refinement: started with no records, and as long as no two live
    objects claim the same key and none claims a key of the rest of the store,
    the public resources after any sequence of events are exactly those of the
    rest and what the live objects contribute. *)
Theorem handle_all_shows c st evs :
  Controller_resourceKeys c = ∅ →
  (∀ n, exclusive (store_view st) (spec_run c ∅ (take n evs))) →
  let '(c', st') := handle_all evs (c, st) in
  shows (store_view st) (spec_run c ∅ evs) (store_view st').
Proof. exact (handle_all_live c st evs). Qed.

Lemma orphan_free c st evs :
  Controller_resourceKeys c = ∅ →
  let '(c', st') := handle_all evs (c, st) in
  ∀ k, is_Some (store_view st' !! k) →
    is_Some (store_view st !! k)
    ∨ ∃ o es, spec_run c ∅ evs !! o = Some es ∧ is_Some (es !! k).
Proof.
  intros Hc.
  pose proof (handle_all_ind
    (λ c' st' live, records live c' ∧ ∀ k, is_Some (store_view st' !! k) →
       is_Some (store_view st !! k) ∨ ∃ o es, live !! o = Some es ∧ is_Some (es !! k))
    c st ∅ evs) as Hi.
  destruct (handle_all evs (c, st)) as [c' st']. apply Hi.
  - split; [intros o; rewrite Hc, !lookup_empty; constructor | auto].
  - intros n c1 st1 live1 c2 st2 [Hr Hs] -> He.
    destruct He as [c2 st2 Hk Hv | objKey es c2 st2 Hrec Hrep].
    + split; [|by rewrite Hv]. intros o. rewrite Hk. apply Hr.
    + split; [by eapply records_set|]. intros k. rewrite Hrep.
      setoid_rewrite spec_set_lookup. destruct (es !! k) as [r|] eqn:Hk.
      * intros _. right. exists objKey, es. rewrite Hk.
        split; [|done]. left. split_and!; [done..|]. intros ->. by rewrite lookup_empty in Hk.
      * case_decide as Hold; [by intros [? [=]]|].
        intros [?|(o & es' & Hl & Hes)]%Hs; [by left|]. right. exists o, es'. split; [|done].
        right. split; [by eapply replaced_none | done].
Qed.

(** C23. Nothing stale stays published, shared keys or not: after any sequence
    of events every public key was there at the start or is contributed by an
    object that is live now. *)
Theorem no_orphans c st evs :
  Controller_resourceKeys c = ∅ →
  let '(c', st') := handle_all evs (c, st) in
  ∀ k, is_Some (store_view st' !! k) →
    is_Some (store_view st !! k)
    ∨ ∃ o es, spec_run c ∅ evs !! o = Some es ∧ is_Some (es !! k).
Proof. apply orphan_free. Qed.

Lemma handle_EAdd ord secrets c u o st :
  toMetaObj c u = Ok o →
  handle (EAdd ord secrets u) (c, st) = processObject ord secrets c o (Controller_synced c) st.
Proof. intros Hu. simpl. unfold onAdd. by rewrite Hu. Qed.

(** What happens to a shared key: when two objects contribute the same key
    and one of them is deleted, the key is gone, although the other object is
    live, and its record still lists the key. *)
Theorem shared_key_lost ord secrets c st u1 u2 o1 o2 k :
  toMetaObj c u1 = Ok o1 → toMetaObj c u2 = Ok o2 → objKeyOf o1 ≠ objKeyOf o2 →
  is_Some (contribution c secrets o1 !! k) → is_Some (contribution c secrets o2 !! k) →
  let '(c', st') :=
    handle_all [EAdd ord secrets u1; EAdd ord secrets u2; EDelete u1] (c, st) in
  store_view st' !! k = None ∧ k ∈ keys_of c' (objKeyOf o2).
Proof.
  intros H1 H2 Hne Hk1 Hk2.
  change (handle_all _ _) with (handle (EDelete u1) (handle (EAdd ord secrets u2)
    (handle (EAdd ord secrets u1) (c, st)))).
  rewrite (handle_EAdd _ _ _ _ o1) by done.
  pose proof (processObject_ends ord secrets c o1 (Controller_synced c) st) as Hp1. cbv zeta in Hp1.
  destruct (processObject _ _ _ _ _ _) as [c1 st1], Hp1 as (Hst1 & (Hr1 & _ & _) & _).
  assert (contribution c1 secrets o2 = contribution c secrets o2) as Hc2.
  { destruct Hst1 as (_ & _ & Hh & Hcfg). unfold contribution, resolveAuthSecret.
    by rewrite Hh, Hcfg. }
  assert (∀ u, toMetaObj c1 u = toMetaObj c u) as Hm1.
  { destruct Hst1 as (_ & Hc & _). intros []; simpl; congruence. }
  rewrite (handle_EAdd _ _ _ _ o2) by (by rewrite Hm1).
  pose proof (processObject_ends ord secrets c1 o2 (Controller_synced c1) st1) as Hp2. cbv zeta in Hp2.
  destruct (processObject _ _ _ _ _ _) as [c2 st2], Hp2 as (Hst2 & (Hr2 & _ & Ho2) & _).
  assert (toMetaObj c2 u1 = Ok o1) as Hm2.
  { destruct Hst2 as (_ & Hc & _). rewrite <- H1, <- Hm1. destruct u1; simpl; congruence. }
  assert (match u1 with EvTombstone o => o | _ => u1 end = u1) as Hu1 by (by destruct u1).
  cbn [handle]. unfold onDelete. rewrite Hu1, Hm2.
  fold (objKeyOf o1).
  pose proof (removeObject_ends c2 (objKeyOf o1) st2) as Hp3.
  destruct (removeObject _ _ _) as [c3 st3], Hp3 as (_ & (_ & _ & Ho3) & Hrep). split.
  - rewrite Hrep, lookup_empty, decide_True; [done|].
    unfold keys_of. rewrite Ho2 by done. by apply Hr1.
  - unfold keys_of. rewrite Ho3 by done. apply Hr2. by rewrite Hc2.
Qed.

End events.

Section fail_open.
  Context `{K8s} {St : Type} `{!Store St, !StoreLaws St}.
  Local Set Default Proof Using "Type*".

(** Nothing is read: the route is published as it would be without a secret. *)
Lemma published_without_secret ord secrets c route write st h :
  let annotations := Meta_Annotations (HTTPRoute_Meta route) in
  let cfg := Controller_cfg c in
  Controller_handler c = NewHandler httproute_Definition →
  ShouldProcess (Controller_handler c) (OHTTPRoute route) cfg = true →
  h ∈ HTTPRoute_Hostnames route →
  (∀ ns name, ∃ e, secrets ns name = Err e) →
  sso_annotation annotations (Config_AnnotationPrefix cfg) = false →
  elems (splitCSV (whitelist_raw annotations cfg)) = [] →
  ∃ r, store_view (processObject ord secrets c (OHTTPRoute route) write st).2 !! HostnameToKey h
       = Some r ∧ Resource_Auth r = None.
Proof.
  cbv zeta. intros Hh Hsp Hin Hs Hsso Hwl.
  pose proof (processObject_ends ord secrets c (OHTTPRoute route) write st) as Hp. cbv zeta in Hp.
  destruct (processObject _ _ _ _ _ _) as [c' st'], Hp as (_ & _ & Hrep). cbn [snd].
  assert (resolveAuthSecret c secrets (OHTTPRoute route) = None) as Hsec.
  { unfold resolveAuthSecret. case_bool_decide; [done|].
    match goal with |- context [secrets ?ns ?n] => destruct (Hs ns n) as [e ->] end. done. }
  destruct (httproute_entry route None (Controller_cfg c) h Hin) as [h' Hr].
  specialize (Hrep (HostnameToKey h)). unfold contribution in Hrep. rewrite Hsp, Hsec in Hrep.
  rewrite Hh in Hrep. unfold map_get in Hr. simpl in Hrep, Hr. rewrite Hr in Hrep.
  eexists. split; [exact Hrep|]. by apply BuildResource_no_auth.
Qed.

(** The controller fails open: a route whose auth secret cannot be read is
    published all the same, and, unless SSO or a whitelist is configured, with no
    authentication at all. *)
Theorem unreadable_secret_published ord secrets c route write st h :
  let annotations := Meta_Annotations (HTTPRoute_Meta route) in
  let cfg := Controller_cfg c in
  Controller_handler c = NewHandler httproute_Definition →
  ShouldProcess (Controller_handler c) (OHTTPRoute route) cfg = true →
  h ∈ HTTPRoute_Hostnames route →
  (∀ ns name, ∃ e, secrets ns name = Err e) →
  sso_annotation annotations (Config_AnnotationPrefix cfg) = false →
  elems (splitCSV (whitelist_raw annotations cfg)) = [] →
  let '(_, st') := processObject ord secrets c (OHTTPRoute route) write st in
  ∃ r, store_view st' !! HostnameToKey h = Some r ∧ Resource_Auth r = None.
Proof.
  cbv zeta. intros Hh Hsp Hin Hs Hsso Hwl.
  pose proof (published_without_secret ord secrets c route write st h Hh Hsp Hin Hs Hsso Hwl) as Hp.
  by destruct (processObject _ _ _ _ _ _).
Qed.

End fail_open.

(** ** A small cluster *)

(** Objects that convert to themselves, and loops in the order of the keys. *)
Definition demo_k8s : K8s := {| Unstructured := Object; FromUnstructured _ u := Ok u |}.

Definition key_order : RangeOrder :=
  mkRangeOrder (λ m, (map_to_list m).*1) map_to_list (λ _, reflexivity _) (λ _, reflexivity _).

Definition route (name : string) (annotations : gomap string) (hostnames : list string) : Object :=
  OHTTPRoute (mkHTTPRoute (mkMeta name "apps" annotations) [mkParentRef "gw" None] hostnames).

Definition no_secrets : Secrets := λ _ _, Err (mkError "forbidden").

Section demo.
  Local Existing Instances quiet_env demo_k8s.

Definition demo : Controller Handler := New httproute_Definition defaultConfig.

Definition add (o : Object) : Event := EAdd key_order no_secrets (EvUnstructured o).
Definition del (o : Object) : Event := EDelete (EvTombstone (EvUnstructured o)).

Definition web : Object := route "web" None ["a.example.com"; "b.example.com"].
Definition web' : Object := route "web" None ["c.example.com"].
Definition api : Object := route "api" None ["api.example.com"].
Definition copy : Object := route "copy" None ["a.example.com"].

Definition demo_events : list Event :=
  [add web; ERun true; add api; add web'; del api].

Lemma demo_exclusive n :
  exclusive (store_view (start "bp.yaml" ∅)) (spec_run demo ∅ (take n demo_events)).
Proof.
  apply (bool_decide_unpack _).
  do 6 (destruct n as [|n]; [vm_compute; exact I|]). vm_compute. exact I.
Qed.

Lemma handle_all_shows_witness :
  let '(c', st') := handle_all demo_events (demo, start "bp.yaml" ∅) in
  shows (store_view (start "bp.yaml" ∅)) (spec_run demo ∅ demo_events) (store_view st').
Proof.
  pose proof (handle_all_shows demo (start "bp.yaml" ∅) demo_events eq_refl demo_exclusive) as Hs.
  exact Hs.
Defined.

Lemma no_orphans_witness :
  let '(c', st') := handle_all demo_events (demo, start "bp.yaml" ∅) in
  ∀ k, is_Some (store_view st' !! k) →
    is_Some (store_view (start "bp.yaml" ∅) !! k)
    ∨ ∃ o es, spec_run demo ∅ demo_events !! o = Some es ∧ is_Some (es !! k).
Proof. pose proof (no_orphans demo (start "bp.yaml" ∅) demo_events eq_refl) as Hn. exact Hn. Defined.

Lemma processObject_effect_witness :
  let '(c', st') := processObject key_order no_secrets demo web false (start "bp.yaml" ∅) in
  replaced (contribution demo no_secrets web) (keys_of demo (objKeyOf web))
    (store_view (start "bp.yaml" ∅)) (store_view st')
  ∧ recorded (objKeyOf web) (contribution demo no_secrets web) demo c'.
Proof.
  pose proof (processObject_effect key_order no_secrets demo web false (start "bp.yaml" ∅)) as Hp.
  exact Hp.
Defined.

Lemma shared_key_lost_witness :
  let '(c', st') := handle_all [add web; add copy; EDelete (EvUnstructured web)]
                      (demo, start "bp.yaml" ∅) in
  store_view st' !! "a-example-com" = None ∧ "a-example-com" ∈ keys_of c' (objKeyOf copy).
Proof.
  assert (is_Some (contribution demo no_secrets web !! "a-example-com")) as Hw
    by (eexists; vm_compute; reflexivity).
  assert (is_Some (contribution demo no_secrets copy !! "a-example-com")) as Hc
    by (eexists; vm_compute; reflexivity).
  assert (objKeyOf web ≠ objKeyOf copy) as Hne by discriminate.
  pose proof (shared_key_lost key_order no_secrets demo (start "bp.yaml" ∅) (EvUnstructured web)
    (EvUnstructured copy) web copy "a-example-com" eq_refl eq_refl Hne Hw Hc) as Hs.
  exact Hs.
Defined.

Definition pin_route : HTTPRoute :=
  mkHTTPRoute (mkMeta "pin" "apps" (Some {[ "newt-sidecar/auth-secret" := "pin" ]})) []
    ["pin.example.com"].

Lemma unreadable_secret_published_witness :
  let '(_, st') :=
    processObject key_order no_secrets demo (OHTTPRoute pin_route) true (start "bp.yaml" ∅) in
  ∃ r, store_view st' !! HostnameToKey "pin.example.com" = Some r ∧ Resource_Auth r = None.
Proof.
  assert (∀ ns name, ∃ e, no_secrets ns name = Err e) as Hno by (by eexists).
  assert ("pin.example.com" ∈ HTTPRoute_Hostnames pin_route) as Hin by by left.
  pose proof (unreadable_secret_published key_order no_secrets demo pin_route true
    (start "bp.yaml" ∅) "pin.example.com" eq_refl eq_refl Hin Hno eq_refl eq_refl) as Hp.
  exact Hp.
Defined.

End demo.
