(* ===== verification/Modes.v ===== *)
(** * One object over time

    The annotations of a Service select its mode and its hostname, and may change
    from one event to the next.  What is published in the end is what the last
    version alone would produce. *)

From stdpp Require Import options.
From S2P Require Import Prelude GoStrings Config Blueprint BlueprintProps StateManager Store.
From S2P Require Import StateProps Resources HttpRoute Service ServiceProps Controller ControllerProps.

Local Open Scope go_scope.

Section one_object.
  Context `{K8s} {Hd : Type} `{!ResourceHandler Hd} {St : Type} `{!Store St} `{!StoreLaws St}.
  Local Set Default Proof Using "Type*".
  Implicit Types (c : Controller Hd) (evs : list Event).

(** The object an event is about, and the entries it brings. *)
Definition event_key c (ev : Event) : option string :=
  match ev with
  | EAdd _ _ obj | EUpdate _ _ _ obj =>
      match toMetaObj c obj with Ok o => Some (objKeyOf o) | Err _ => None end
  | EDelete obj =>
      match toMetaObj c (match obj with EvTombstone o => o | _ => obj end) with
      | Ok o => Some (objKeyOf o)
      | Err _ => None
      end
  | ERun _ => None
  end.

Definition brings c (ev : Event) : gmap string Resource :=
  match ev with
  | EAdd _ secrets obj | EUpdate _ secrets _ obj =>
      match toMetaObj c obj with Ok o => contribution c secrets o | Err _ => ∅ end
  | _ => ∅
  end.

(** All events are about one object, or none. *)
Definition all_about c (objKey : string) evs : Prop :=
  Forall (λ ev, default objKey (event_key c ev) = objKey) evs.

Lemma spec_set_again objKey es es' (live : Live) :
  spec_set objKey es (spec_set objKey es' live) = spec_set objKey es live.
Proof. apply map_eq. intros o. apply option_eq. intros x. rewrite !spec_set_lookup. naive_solver. Qed.

Lemma delete_spec_set objKey es : delete objKey (spec_set objKey es (∅ : Live)) = spec_set objKey ∅ ∅.
Proof.
  apply map_eq. intros o. apply option_eq. intros x.
  rewrite lookup_delete_Some, !spec_set_lookup. naive_solver.
Qed.

(** At most the one object is live, with entries one of the events brought. *)
Lemma one_live c objKey evs (frame : gmap string Resource) :
  all_about c objKey evs → Forall (λ ev, brings c ev ##ₘ frame) evs →
  ∃ es, spec_run c ∅ evs = spec_set objKey es ∅ ∧ es ##ₘ frame.
Proof.
  unfold all_about, spec_run. induction evs as [|ev evs IH] using rev_ind.
  - intros _ _. exists ∅. split; [|apply map_disjoint_empty_l]. unfold spec_set.
    rewrite decide_True by done. by rewrite delete_empty.
  - rewrite !Forall_app, !Forall_singleton, foldl_app. cbn [foldl]. intros [Ha Hev] [Hb Hbr].
    destruct (IH Ha Hb) as (es & -> & Hes).
    destruct ev as [ord secrets obj|ord secrets old obj|obj|b]; cbn [spec_event event_key brings] in *.
    1,2: destruct (toMetaObj c obj) as [o|e]; cbn in Hev; [subst objKey|by exists es];
      exists (contribution c secrets o); by rewrite spec_set_again.
    + destruct (toMetaObj c _) as [o|e]; cbn in Hev; [subst objKey|by exists es].
      exists ∅. rewrite delete_spec_set. split; [done | apply map_disjoint_empty_l].
    + by exists es.
Qed.

Lemma one_exclusive objKey es (frame : gmap string Resource) :
  es ##ₘ frame → exclusive frame (spec_set objKey es ∅).
Proof.
  intros Hdis o1 es1 [(-> & -> & _)|[_ [=]]]%spec_set_lookup. split; [done|].
  intros o2 es2 [(-> & -> & _)|[_ [=]]]%spec_set_lookup. by left.
Qed.

Lemma latest_view c st evs objKey :
  Controller_resourceKeys c = ∅ →
  all_about c objKey evs → Forall (λ ev, brings c ev ##ₘ store_view st) evs →
  ∃ es, spec_run c ∅ evs = spec_set objKey es ∅
    ∧ store_view (handle_all evs (c, st)).2 = es ∪ store_view st.
Proof.
  intros Hc Ha Hb. destruct (one_live c objKey evs _ Ha Hb) as (es & Hlive & Hes).
  exists es. split; [done|].
  assert (∀ n, exclusive (store_view st) (spec_run c ∅ (take n evs))) as Hx.
  { intros n. destruct (one_live c objKey (take n evs) (store_view st)) as (es' & -> & ?);
      [by apply Forall_take..|]. by apply one_exclusive. }
  pose proof (handle_all_live c st evs Hc Hx) as Hs. destruct (handle_all evs (c, st)) as [c' st'].
  cbn. apply map_eq. intros k. apply option_eq. intros r.
  rewrite (Hs k r), Hlive, lookup_union_Some by done. setoid_rewrite spec_set_lookup. split.
  - intros [?|(o & es' & [(-> & -> & _)|[_ [=]]] & ?)]; auto.
  - intros [Hk|Hk]; [right|by left]. exists objKey, es. split; [|done]. left. split_and!; [done..|].
    intros ->. by rewrite lookup_empty in Hk.
Qed.

(** The last event decides alone. *)
Lemma latest_update c st evs ord secrets old obj o :
  Controller_resourceKeys c = ∅ → toMetaObj c obj = Ok o → all_about c (objKeyOf o) evs →
  Forall (λ ev, brings c ev ##ₘ store_view st) (evs ++ [EUpdate ord secrets old obj]) →
  store_view (handle_all (evs ++ [EUpdate ord secrets old obj]) (c, st)).2
  = contribution c secrets o ∪ store_view st.
Proof.
  intros Hc Ho Ha Hb.
  assert (event_key c (EUpdate ord secrets old obj) = Some (objKeyOf o)) as Hk by (cbn; by rewrite Ho).
  destruct (latest_view c st (evs ++ [EUpdate ord secrets old obj]) (objKeyOf o) Hc) as (es & Hlive & ->);
    [apply Forall_app_2; [done | apply Forall_singleton; by rewrite Hk] | done |].
  assert (∃ es0, spec_run c ∅ evs = spec_set (objKeyOf o) es0 ∅) as [es0 Hes0]
    by (apply Forall_app in Hb as [Hb _]; destruct (one_live c (objKeyOf o) evs _ Ha Hb) as (es0 & ? & _); eauto).
  unfold spec_run in Hlive, Hes0. rewrite foldl_app, Hes0 in Hlive. cbn in Hlive.
  rewrite Ho, spec_set_again in Hlive. f_equal.
  unfold spec_set in Hlive. repeat case_decide; subst; rewrite ?delete_empty in Hlive; [done|..].
  - symmetry in Hlive. by apply insert_non_empty in Hlive.
  - by apply insert_non_empty in Hlive.
  - apply (f_equal (lookup (objKeyOf o))) in Hlive. rewrite !lookup_insert_eq in Hlive. by injection Hlive.
Qed.

Lemma latest_delete c st evs obj o :
  Controller_resourceKeys c = ∅ →
  toMetaObj c (match obj with EvTombstone o => o | _ => obj end) = Ok o →
  all_about c (objKeyOf o) evs → Forall (λ ev, brings c ev ##ₘ store_view st) evs →
  store_view (handle_all (evs ++ [EDelete obj]) (c, st)).2 = store_view st.
Proof.
  intros Hc Ho Ha Hb.
  assert (event_key c (EDelete obj) = Some (objKeyOf o)) as Hk by (cbn; by rewrite Ho).
  destruct (latest_view c st (evs ++ [EDelete obj]) (objKeyOf o) Hc) as (es & Hlive & ->);
    [apply Forall_app_2; [done | apply Forall_singleton; by rewrite Hk]
    |apply Forall_app_2; [done | apply Forall_singleton, map_disjoint_empty_l] |].
  destruct (one_live c (objKeyOf o) evs _ Ha Hb) as (es0 & Hes0 & _).
  unfold spec_run in Hlive, Hes0. rewrite foldl_app, Hes0 in Hlive. cbn [foldl spec_event] in Hlive.
  rewrite Ho, delete_spec_set in Hlive. unfold spec_set in Hlive.
  rewrite decide_True, delete_empty in Hlive by done. case_decide; subst.
  - apply (left_id_L ∅ (∪)).
  - symmetry in Hlive. by apply insert_non_empty in Hlive.
Qed.

End one_object.

(** ** Services *)

(** C13. A Service whose annotations move it between all-ports, single-port and
    HTTP mode, or from one hostname to another, leaves nothing behind: after any
    events about it, whatever their secrets and iteration orders, an update leaves
    what the new version alone produces, in its own mode, beside what other
    components published, and a deletion leaves the latter only. *)
Theorem service_over_time `{K8s, StoreLaws St} cfg (st : St) evs ord secrets old obj svc :
  let c := New service_Definition cfg in
  toMetaObj c obj = Ok (OService svc) → all_about c (objKeyOf (OService svc)) evs →
  Forall (λ ev, brings c ev ##ₘ store_view st) (evs ++ [EUpdate ord secrets old obj]) →
  let new :=
    if ShouldProcess (NewHandler service_Definition) (OService svc) cfg
    then entries_of (service_buildEntries (OService svc) (resolveAuthSecret c secrets (OService svc)) cfg)
    else ∅ in
  store_view (handle_all (evs ++ [EUpdate ord secrets old obj]) (c, st)).2 = new ∪ store_view st
  ∧ map_Forall (λ key r,
      if full_domain svc cfg == ""
      then ∃ p, p ∈ Service_Ports svc ∧ raw_tunnel p r
      else key = HostnameToKey (full_domain svc cfg) ∧ http_resource (full_domain svc cfg) r) new
  ∧ store_view (handle_all (evs ++ [EDelete obj]) (c, st)).2 = store_view st.
Proof.
  cbv zeta. intros Ho Ha Hb. split_and!.
  - by rewrite (latest_update (New service_Definition cfg) st evs ord secrets old obj (OService svc)).
  - destruct (ShouldProcess _ _ _); [apply service_entries_shape | apply map_Forall_empty].
  - apply (latest_delete (New service_Definition cfg) _ _ _ (OService svc)); [done| |done|by apply Forall_app in Hb as [Hb _]].
    destruct obj; cbn in *; try done.
Qed.

(** ** A Service that becomes public *)

Section demo.
  Local Existing Instances quiet_env demo_k8s.

Definition game (annotations : gomap string) : Service :=
  mkService (mkMeta "game" "apps" annotations)
    [mkSvcPort "query" "UDP" 7777; mkSvcPort "http" "TCP" 80].

(** First both ports as tunnels, then the web port under a hostname. *)
Definition game_ports : Service :=
  game (Some {[ "newt-sidecar/enabled" := "true"; "newt-sidecar/all-ports" := "true" ]}).
Definition game_web : Service :=
  game (Some {[ "newt-sidecar/enabled" := "true"; "newt-sidecar/all-ports" := "true";
                "newt-sidecar/full-domain" := "game.example.com" ]}).

Definition game_update : Event :=
  EUpdate key_order no_secrets (EvUnstructured (OService game_ports)) (EvUnstructured (OService game_web)).

Definition game_handler : Controller Handler := New service_Definition defaultConfig.

Lemma game_ports_published :
  dom (store_view (handle_all [add (OService game_ports)] (game_handler, start "bp.yaml" ∅)).2)
  = {[ "apps-game-7777-udp"; "apps-game-80-tcp" ]}.
Proof. apply (bool_decide_unpack _). vm_compute. exact I. Qed.

Lemma game_processed :
  ShouldProcess (NewHandler service_Definition) (OService game_web) defaultConfig = true.
Proof. vm_compute. reflexivity. Qed.

(** The tunnels are gone. *)
Lemma service_over_time_witness :
  store_view (handle_all ([add (OService game_ports)] ++ [game_update])
                (game_handler, start "bp.yaml" ∅)).2
  = entries_of (service_buildEntries (OService game_web)
      (resolveAuthSecret game_handler no_secrets (OService game_web)) defaultConfig) ∪ ∅.
Proof.
  assert (all_about game_handler (objKeyOf (OService game_web)) [add (OService game_ports)]) as Ha
    by (apply Forall_singleton; reflexivity).
  assert (Forall (λ ev, brings game_handler ev ##ₘ store_view (start "bp.yaml" ∅))
    ([add (OService game_ports)] ++ [game_update])) as Hb
    by (apply Forall_forall; intros ev _; apply map_disjoint_empty_r).
  pose proof (service_over_time defaultConfig (start "bp.yaml" ∅) [add (OService game_ports)] key_order
    no_secrets (EvUnstructured (OService game_ports)) (EvUnstructured (OService game_web)) game_web
    eq_refl Ha Hb) as (Hview & _).
  rewrite game_processed in Hview. exact Hview.
Defined.

End demo.
