(* ===== verification/Resync.v ===== *)
(** * What a resync repairs

    Two objects that claim the same key overwrite each other, and when one goes
    the entry goes although the other is still there.  Every five minutes the
    informer hands every object of its cache to [onUpdate] again; after that,
    every key a live object claims is published. *)

From stdpp Require Import options.
From S2P Require Import Prelude GoStrings Config Blueprint BlueprintProps StateManager Store.
From S2P Require Import StateProps Resources HttpRoute Service Controller ControllerProps Modes.

Local Open Scope go_scope.

(** The update events of a resync, with the orders and secrets of the moment. *)
Definition resync_events `{K8s} (cache : list (RangeOrder * Secrets * EventObj)) : list Event :=
  (λ '(ord, secrets, obj), EUpdate ord secrets obj obj) <$> cache.

Section resync.
  Context `{K8s} {Hd : Type} `{!ResourceHandler Hd} {St : Type} `{!Store St} `{!StoreLaws St}.
  Local Set Default Proof Using "Type*".
  Implicit Types (c : Controller Hd) (live : Live) (view : gmap string Resource).

(** The cache is what is live: it brings nothing new and leaves nothing out. *)
Definition up_to_date c live (cache : list (RangeOrder * Secrets * EventObj)) : Prop :=
  Forall (λ ev, spec_event c live ev = live) (resync_events cache)
  ∧ ∀ objKey, is_Some (live !! objKey) →
      ∃ ord secrets obj o, (ord, secrets, obj) ∈ cache ∧ toMetaObj c obj = Ok o ∧ objKeyOf o = objKey.

Lemma records_after c st evs :
  Controller_resourceKeys c = ∅ → records (spec_run c ∅ evs) (handle_all evs (c, st)).1.
Proof.
  intros Hc. pose proof (handle_all_ind (λ c' _ live, records live c') c st ∅ evs) as Hi.
  destruct (handle_all evs (c, st)) as [c' st']. apply Hi.
  - intros o. rewrite Hc, !lookup_empty. constructor.
  - intros n c1 st1 live1 c2 st2 Hr -> He.
    destruct He as [c2 st2 Hk _ | objKey es c2 st2 Hrec _]; [|by eapply records_set].
    intros o. rewrite Hk. apply Hr.
Qed.

(** An object handled again adds its entries. *)
Lemma again live objKey es c st st' c' :
  records live c → spec_set objKey es live = live →
  recorded objKey es c c' → replaced es (keys_of c objKey) (store_view st) (store_view st') →
  records live c' ∧ ∀ k, store_view st' !! k = match es !! k with Some r => Some r | None => store_view st !! k end.
Proof.
  intros Hr Hsame Hrec Hrep. split; [rewrite <- Hsame; by eapply records_set|].
  intros k. rewrite Hrep. destruct (es !! k) as [r|] eqn:Hk; [done|]. case_decide as Hold; [|done].
  exfalso. apply (records_keys live c objKey k Hr) in Hold as (es0 & Hl & Hes0).
  rewrite <- Hsame in Hl. apply spec_set_lookup in Hl as [(_ & -> & _)|[Hne _]]; [|done].
  rewrite Hk in Hes0. by destruct Hes0.
Qed.

Lemma resync_step c st live ord secrets obj :
  let ev := EUpdate ord secrets obj obj in
  records live c → spec_event c live ev = live →
  let '(c', st') := handle ev (c, st) in
  records live c'
  ∧ ∀ k, store_view st' !! k = match brings c ev !! k with Some r => Some r | None => store_view st !! k end.
Proof.
  cbn. unfold onUpdate. intros Hr Hsame.
  destruct (toMetaObj c obj) as [o|e]; [|split; [done|]; intros k; by rewrite lookup_empty].
  pose proof (processObject_ends ord secrets c o (Controller_synced c) st) as Hp. cbv zeta in Hp.
  destruct (processObject _ _ _ _ _ _) as [c' st'], Hp as (_ & Hrec & Hrep). by eapply again.
Qed.

(** What the last object handed to [onUpdate] that claims a key brings for it. *)
Definition last_brought c k (cache : list (RangeOrder * Secrets * EventObj)) : option Resource :=
  last (omap (λ ev, brings c ev !! k) (resync_events cache)).

Lemma static_brings c c' ev : static c c' → brings c' ev = brings c ev.
Proof.
  intros Hs. destruct ev; cbn; rewrite ?(static_toMetaObj c c') by done; try done;
    destruct (toMetaObj c _); by rewrite ?(static_contribution c c').
Qed.

Lemma static_last_brought c c' k cache : static c c' → last_brought c' k cache = last_brought c k cache.
Proof.
  intros Hs. unfold last_brought. f_equal.
  apply list_omap_ext, Forall2_same_length_lookup_2; [done|]. intros ? ? ? ? ?. simplify_eq.
  by rewrite (static_brings c c').
Qed.

Lemma resync_view c st live cache :
  records live c → Forall (λ ev, spec_event c live ev = live) (resync_events cache) →
  ∀ k, store_view (handle_all (resync_events cache) (c, st)).2 !! k
    = match last_brought c k cache with Some r => Some r | None => store_view st !! k end.
Proof.
  unfold handle_all. revert c st; induction cache as [|[[ord secrets] obj] cache IH]; intros c st Hr HF k; [done|].
  apply Forall_cons in HF as [Hsame HF].
  pose proof (resync_step c st live ord secrets obj Hr Hsame) as Hstep.
  pose proof (handle_static (EUpdate ord secrets obj obj) c st) as Hst.
  change (resync_events ((ord, secrets, obj) :: cache))
    with (EUpdate ord secrets obj obj :: resync_events cache) in *. cbn [foldl].
  destruct (handle (EUpdate ord secrets obj obj) (c, st)) as [c1 st1]. destruct Hstep as [Hr1 Hview].
  rewrite (IH c1 st1 Hr1); [|eapply Forall_impl; [exact HF|]; intros ev; by rewrite (static_spec_event c c1)].
  rewrite (static_last_brought c c1) by done. rewrite Hview. unfold last_brought.
  change (resync_events ((ord, secrets, obj) :: cache))
    with (EUpdate ord secrets obj obj :: resync_events cache). cbn [omap list_omap].
  destruct (brings c (EUpdate ord secrets obj obj) !! k) as [r|]; [rewrite last_cons|done].
  by destruct (last _).
Qed.

Lemma spec_run_resync c live cache :
  Forall (λ ev, spec_event c live ev = live) (resync_events cache) →
  spec_run c live (resync_events cache) = live.
Proof. unfold spec_run. intros HF. induction HF as [|ev evs Hev _ IH]; [done|]. cbn. by rewrite Hev. Qed.

(** A key of a live object is brought by some object of the cache, and what is
    brought is live. *)
Lemma last_brought_live c live cache k :
  up_to_date c live cache →
  (∃ o es, live !! o = Some es ∧ is_Some (es !! k)) →
  ∃ r o es, last_brought c k cache = Some r ∧ live !! o = Some es ∧ es !! k = Some r.
Proof.
  intros [HF Hall] (objKey & es & Hl & [r Hr]).
  assert (∀ ev, ev ∈ resync_events cache → ∀ r, brings c ev !! k = Some r →
    ∃ o es, live !! o = Some es ∧ es !! k = Some r) as Hlive.
  { intros ev Hev r' Hr'. rewrite Forall_forall in HF. specialize (HF ev Hev).
    apply list_elem_of_fmap in Hev as ([[ord secrets] obj] & -> & _). cbn in *.
    destruct (toMetaObj c obj) as [o|e]; [|by rewrite lookup_empty in Hr'].
    exists (objKeyOf o), (contribution c secrets o). split; [|done]. rewrite <- HF.
    apply spec_set_lookup. left. split_and!; [done..|]. intros E. by rewrite E, lookup_empty in Hr'. }
  destruct (last_brought c k cache) as [r1|] eqn:Hlast.
  - exists r1. pose proof Hlast as Hin. apply last_Some_elem_of, list_elem_of_omap in Hin as (ev & Hev & Hb).
    destruct (Hlive ev Hev r1 Hb) as (o & es1 & ? & ?). by exists o, es1.
  - exfalso. destruct (Hall objKey) as (ord & secrets & obj & o & Hin & Ho & <-); [by eexists|].
    rewrite Forall_forall in HF.
    assert (EUpdate ord secrets obj obj ∈ resync_events cache) as Hev
      by (apply list_elem_of_fmap; by exists (ord, secrets, obj)).
    specialize (HF _ Hev). cbn in HF. rewrite Ho in HF. rewrite <- HF in Hl.
    apply spec_set_lookup in Hl as [(_ & -> & _)|[Hne _]]; [|done].
    apply last_None in Hlast.
    assert (r ∈ omap (λ ev, brings c ev !! k) (resync_events cache)) as Hr'
      by (apply list_elem_of_omap; eexists; split; [exact Hev | cbn; by rewrite Ho]).
    rewrite Hlast in Hr'. by apply elem_of_nil in Hr'.
Qed.

(** C12. A resync repairs what shared keys have broken: after any events, when the
    informer hands all it has in its cache to [onUpdate] once more, every key that
    some live object claims is published, with the entry of the last object handed
    over that claims it, and every other public key was there at the start. *)
Theorem resync_repairs c st evs cache :
  Controller_resourceKeys c = ∅ → up_to_date c (spec_run c ∅ evs) cache →
  let live := spec_run c ∅ evs in
  let view := store_view (handle_all (evs ++ resync_events cache) (c, st)).2 in
  ∀ k,
    if decide (map_Exists (λ _ es, is_Some (es !! k)) live)
    then ∃ r, view !! k = Some r ∧ last_brought c k cache = Some r
           ∧ map_Exists (λ _ es, es !! k = Some r) live
    else is_Some (view !! k) → is_Some (store_view st !! k).
Proof.
  intros Hc Hup. cbv zeta. intros k.
  pose proof (orphan_free c st (evs ++ resync_events cache) Hc) as Ho.
  pose proof (records_after c st evs Hc) as Hr. pose proof (handle_all_static evs c st) as Hs.
  unfold handle_all, spec_run in *. rewrite !foldl_app in *.
  fold (spec_run c ∅ evs) in *. fold (spec_run c (spec_run c ∅ evs) (resync_events cache)) in *.
  rewrite spec_run_resync in Ho by apply Hup.
  destruct (foldl _ (c, st) evs) as [c1 st1]. cbn [fst] in *.
  pose proof (resync_view c1 st1 (spec_run c ∅ evs) cache Hr) as Hv. unfold handle_all in Hv.
  destruct (foldl _ (c1, st1) _) as [c2 st2]. cbn [snd] in *. case_decide as Hk.
  - destruct (last_brought_live c _ cache k Hup Hk) as (r & o & es & Hlast & Hl & Hes).
    exists r. split_and!; [|done|by exists o, es].
    rewrite Hv; [|eapply Forall_impl; [apply Hup|]; intros ev; cbn; by rewrite (static_spec_event c c1)].
    by rewrite (static_last_brought c c1), Hlast.
  - intros Hview. destruct (Ho k Hview) as [?|Hex]; [done|]. by destruct Hk.
Qed.

End resync.

(** Two routes with a common hostname, of which one goes: its entry is lost, and
    the next resync brings it back. *)
Section demo.
  Local Existing Instances quiet_env demo_k8s.

Definition clash : list Event := [add web; add copy; EDelete (EvUnstructured web)].

Definition clash_cache : list (RangeOrder * Secrets * EventObj) :=
  [(key_order, no_secrets, EvUnstructured copy)].

Lemma clash_live : spec_run demo ∅ clash = {[ "apps/copy" := contribution demo no_secrets copy ]}.
Proof. apply (bool_decide_unpack _). vm_compute. exact I. Qed.

Lemma clash_up_to_date : up_to_date demo (spec_run demo ∅ clash) clash_cache.
Proof.
  rewrite clash_live. split.
  - apply Forall_singleton, (bool_decide_unpack _). vm_compute. exact I.
  - intros o [es [<- _]%lookup_singleton_Some].
    eexists _, _, _, copy. split; [by left | by split].
Qed.

Lemma resync_repairs_witness :
  store_view (handle_all clash (demo, start "bp.yaml" ∅)).2 !! "a-example-com" = None
  ∧ is_Some (store_view (handle_all (clash ++ resync_events clash_cache) (demo, start "bp.yaml" ∅)).2
               !! "a-example-com").
Proof.
  split; [vm_compute; reflexivity|].
  pose proof (resync_repairs demo (start "bp.yaml" ∅) clash clash_cache eq_refl clash_up_to_date
    "a-example-com") as Hr.
  rewrite decide_True in Hr.
  - destruct Hr as (r & Hr & _). exists r. exact Hr.
  - rewrite clash_live. exists "apps/copy", (contribution demo no_secrets copy).
    split; [reflexivity | vm_compute; eexists; reflexivity].
Defined.

End demo.
