(* ===== verification/Lifetime.v ===== *)
(** * The context of a controller, from its start to the shutdown

    [Controller] takes the answers of the clientset as arguments.  Here the
    controller has its context: [context.Background] until [Run] stores the one
    that [main] derives from the signals, which a signal cancels.  A request of
    the clientset fails under a cancelled context, and the process does not end
    before its goroutines have noticed the signal. *)

From stdpp Require Import options.
From S2P Require Import Prelude GoStrings Config Blueprint BlueprintProps StateManager Store.
From S2P Require Import StateProps Resources HttpRoute Service Controller ControllerProps.

Local Open Scope go_scope.

(** ** Definitions *)

(** The value of the field [ctx]. *)
Inductive Context : Type := Background | Notified.

(** [ctx.Err()], once the signal has come or before. *)
Definition ctx_Err (signalled : bool) (ctx : Context) : option GoError :=
  match ctx with
  | Background => None
  | Notified => if signalled then Some (mkError "context canceled") else None
  end.

(** The clientset: what a request is answered under a context with the given
    error, and the promise of client-go that a request under a context that is
    done fails. *)
Definition Clientset : Type := option GoError → Secrets.

Definition honours_context (clientset : Clientset) : Prop :=
  ∀ e ns name, ∃ e', clientset (Some e) ns name = Err e'.

Section lifetime.
  Context `{K8s} {Hd : Type} `{!ResourceHandler Hd} {St : Type} `{!Store St}.

(** Has the signal come, the field [ctx], the rest of the controller, the store. *)
Record Life : Type := mkLife {
  life_signalled : bool;
  life_ctx : Context;
  life_controller : Controller Hd;
  life_store : St;
}.

(** [New] ends with [c.ctx = context.Background()]. *)
Definition born (c : Controller Hd) (st : St) : Life := mkLife false Background c st.

(** What happens to a controller: events of the informer, with the clientset as
    it answers then; the two parts of [Run], before and after it waits for the
    caches; the signal. *)
Inductive Happening : Type :=
| Added (ord : RangeOrder) (clientset : Clientset) (obj : EventObj)
| Updated (ord : RangeOrder) (clientset : Clientset) (old new : EventObj)
| Deleted (obj : EventObj)
| RunStarted
| RunSynced (hasSynced : bool)
| Signalled.

(** A handler copies the context under the lock and passes it to the clientset. *)
Definition happen (h : Happening) (l : Life) : Life :=
  let '(mkLife sig ctx c st) := l in
  match h with
  | Added ord clientset obj =>
      let '(c', st') := onAdd ord (clientset (ctx_Err sig ctx)) c obj st in mkLife sig ctx c' st'
  | Updated ord clientset old new =>
      let '(c', st') := onUpdate ord (clientset (ctx_Err sig ctx)) c old new st in
      mkLife sig ctx c' st'
  | Deleted obj => let '(c', st') := onDelete c obj st in mkLife sig ctx c' st'
  | RunStarted => mkLife sig Notified c st
  | RunSynced hasSynced =>
      match Run hasSynced c st with
      | Ok (c', st') => mkLife sig ctx c' st'
      | Err _ => l
      end
  | Signalled => mkLife true ctx c st
  end.

Definition lives (hs : list Happening) (l : Life) : Life := foldl (λ l h, happen h l) l hs.

(** ** Reference definitions *)

(** The same events for [handle], with the answers the handlers got. *)
Fixpoint events_of (sig : bool) (ctx : Context) (hs : list Happening) : list Event :=
  match hs with
  | [] => []
  | Added ord clientset obj :: hs =>
      EAdd ord (clientset (ctx_Err sig ctx)) obj :: events_of sig ctx hs
  | Updated ord clientset old new :: hs =>
      EUpdate ord (clientset (ctx_Err sig ctx)) old new :: events_of sig ctx hs
  | Deleted obj :: hs => EDelete obj :: events_of sig ctx hs
  | RunStarted :: hs => events_of sig Notified hs
  | RunSynced hasSynced :: hs => ERun hasSynced :: events_of sig ctx hs
  | Signalled :: hs => events_of true ctx hs
  end.

(** ** The controller without its context *)

Lemma lives_cons h hs l : lives (h :: hs) l = lives hs (happen h l).
Proof. done. Qed.

(** The context matters through the answers of the clientset only. *)
Lemma lives_handle_all hs sig ctx c st :
  let l := lives hs (mkLife sig ctx c st) in
  (life_controller l, life_store l) = handle_all (events_of sig ctx hs) (c, st).
Proof.
  revert sig ctx c st; induction hs as [|h hs IH]; intros sig ctx c st; [done|].
  cbv zeta. rewrite lives_cons. destruct h; cbn [happen events_of].
  - rewrite (surjective_pairing (onAdd _ _ _ _ _)). rewrite IH.
    unfold handle_all. simpl. by rewrite <- surjective_pairing.
  - rewrite (surjective_pairing (onUpdate _ _ _ _ _ _)). rewrite IH.
    unfold handle_all. simpl. by rewrite <- surjective_pairing.
  - rewrite (surjective_pairing (onDelete _ _ _)). rewrite IH.
    unfold handle_all. simpl. by rewrite <- surjective_pairing.
  - apply IH.
  - unfold handle_all. simpl. destruct (Run hasSynced c st) as [[c' st']|e]; apply IH.
  - apply IH.
Qed.

(** The context that is set and the signal stay. *)
Definition signal_after (sig : bool) (h : Happening) : bool :=
  match h with Signalled => true | _ => sig end.
Definition ctx_after (ctx : Context) (h : Happening) : Context :=
  match h with RunStarted => Notified | _ => ctx end.

Lemma happen_context h sig ctx c st :
  ∃ c' st', happen h (mkLife sig ctx c st) = mkLife (signal_after sig h) (ctx_after ctx h) c' st'.
Proof.
  destruct h as [ord clientset obj|ord clientset old new|obj| |hasSynced| ]; cbn [happen].
  - rewrite (surjective_pairing (onAdd _ _ _ _ _)). eauto.
  - rewrite (surjective_pairing (onUpdate _ _ _ _ _ _)). eauto.
  - rewrite (surjective_pairing (onDelete _ _ _)). eauto.
  - eauto.
  - destruct (Run hasSynced c st) as [[c' st']|e]; simpl; eauto.
  - eauto.
Qed.

Lemma lives_context hs sig ctx c st :
  let l := lives hs (mkLife sig ctx c st) in
  (sig = true ∨ Signalled ∈ hs → life_signalled l = true)
  ∧ (ctx = Notified ∨ RunStarted ∈ hs → life_ctx l = Notified).
Proof.
  revert sig ctx c st; induction hs as [|h hs IH]; intros sig ctx c st.
  { cbn. rewrite !elem_of_nil. naive_solver. }
  cbv zeta. rewrite lives_cons.
  destruct (happen_context h sig ctx c st) as (c' & st' & ->).
  destruct (IH (signal_after sig h) (ctx_after ctx h) c' st') as [Hs Hc].
  rewrite !elem_of_cons. split.
  - intros Hor. apply Hs. destruct Hor as [->|[<-|?]]; [left; by destruct h | by left | by right].
  - intros Hor. apply Hc. destruct Hor as [->|[<-|?]]; [left; by destruct h | by left | by right].
Qed.

End lifetime.

Arguments Life {_} Hd St.
Arguments Happening {_}.

Section shutdown.
  Context `{K8s} {St : Type} `{!Store St, !StoreLaws St}.
  Local Set Default Proof Using "Type*".

(** C31. The context does not protect the blueprint: a route that is handled
    after the signal, by a controller whose [Run] has started, is published
    without the authentication its secret asks for, however the clientset would
    answer otherwise, since the request for the secret fails under the cancelled
    context and a failed request counts as no secret. *)
Theorem shutdown_unprotected hs c st ord clientset u route h :
  let annotations := Meta_Annotations (HTTPRoute_Meta route) in
  let cfg := Controller_cfg c in
  Controller_handler c = NewHandler httproute_Definition →
  ShouldProcess (Controller_handler c) (OHTTPRoute route) cfg = true →
  toMetaObj c u = Ok (OHTTPRoute route) →
  h ∈ HTTPRoute_Hostnames route →
  sso_annotation annotations (Config_AnnotationPrefix cfg) = false →
  elems (splitCSV (whitelist_raw annotations cfg)) = [] →
  honours_context clientset → RunStarted ∈ hs → Signalled ∈ hs →
  let l := lives (hs ++ [Added ord clientset u]) (born c st) in
  ∃ r, store_view (life_store l) !! HostnameToKey h = Some r ∧ Resource_Auth r = None.
Proof.
  cbv zeta. intros Hh Hsp Hu Hin Hsso Hwl Hctx Hrun Hsig.
  unfold lives. rewrite foldl_app. fold (lives hs (born c st)).
  pose proof (lives_handle_all hs false Background c st) as Hall. cbv zeta in Hall.
  destruct (lives_context hs false Background c st) as [Hs Hc].
  change (mkLife false Background c st) with (born c st) in *.
  destruct (lives hs (born c st)) as [sig ctx c' st']. cbn in Hs, Hc, Hall.
  rewrite (Hs (or_intror Hsig)), (Hc (or_intror Hrun)). cbn [foldl happen ctx_Err].
  assert (static c c') as (_ & Hcv & Hhd & Hcfg).
  { change c' with ((c', st').1). rewrite Hall. apply handle_all_static. }
  assert (toMetaObj c' u = Ok (OHTTPRoute route)) as Hu'.
  { rewrite <- Hu. destruct u; simpl; by rewrite ?Hcv. }
  unfold onAdd. rewrite Hu'. rewrite (surjective_pairing (processObject _ _ _ _ _ _)). cbn [life_store].
  rewrite <- Hhd, <- Hcfg in *.
  by apply published_without_secret.
Qed.

End shutdown.

Section demo.
  Local Existing Instances quiet_env demo_k8s.

(** A cluster whose secret is always there. *)
Definition kind_clientset : Clientset := λ err _ _,
  match err with Some e => Err e | None => Ok {[ "pincode" := "123456" ]} end.

Definition last_days : list Happening :=
  [RunStarted; RunSynced true; Signalled].

(** Before the signal the same event publishes the route with its pincode. *)
Lemma shutdown_unprotected_witness :
  let add := Added key_order kind_clientset (EvUnstructured (OHTTPRoute pin_route)) in
  (∃ r, store_view (life_store (lives [RunStarted; RunSynced true; add]
          (born demo (start "bp.yaml" ∅)))) !! "pin-example-com" = Some r
        ∧ Auth_Pincode <$> Resource_Auth r = Some 123456%Z)
  ∧ ∃ r, store_view (life_store (lives (last_days ++ [add]) (born demo (start "bp.yaml" ∅))))
           !! HostnameToKey "pin.example.com" = Some r ∧ Resource_Auth r = None.
Proof.
  split; [eexists; split; vm_compute; reflexivity|].
  assert (honours_context kind_clientset) as Hk by (by eexists).
  assert ("pin.example.com" ∈ HTTPRoute_Hostnames pin_route) as Hin by by left.
  assert (RunStarted ∈ last_days) as Hrun by (by left).
  assert (Signalled ∈ last_days) as Hsig by (right; right; by left).
  pose proof (shutdown_unprotected last_days demo (start "bp.yaml" ∅) key_order kind_clientset
    (EvUnstructured (OHTTPRoute pin_route)) pin_route "pin.example.com" eq_refl eq_refl eq_refl
    Hin eq_refl eq_refl Hk Hrun Hsig) as Hp.
  exact Hp.
Defined.

End demo.
