(* ===== verification/Registration.v ===== *)
(** * The scheme and the registration of the reconcilers

    The packages register the types of the API with a scheme before [main] runs,
    and each reconciler is registered with controller-runtime for its type.  The
    scheme, its builder and the manager are libraries: a class with what they
    document. *)

From stdpp Require Import options.
From S2P Require Import Prelude StateManager.

Local Open Scope go_scope.

(** ** Definitions *)

Record GroupVersion : Type := mkGroupVersion { GV_Group : string; GV_Version : string }.
Record GroupVersionKind : Type := mkGroupVersionKind { GVK_GV : GroupVersion; GVK_Kind : string }.

Definition v1alpha1_GroupVersion : GroupVersion :=
  mkGroupVersion "newt-sidecar.home-operations.com" "v1alpha1".

(** [runtime.Scheme] and controller-runtime's [scheme.Builder]; an object is
    registered under the name of its type. *)
Class SchemeLibrary : Type := {
  Scheme : Type;
  Builder : Type;
  NewScheme : Scheme;
  NewBuilder : GroupVersion → Builder;
  Register : Builder → list string → Builder;
  AddToScheme : Builder → Scheme → result GoError Scheme;
  clientgoscheme_AddToScheme : Scheme → result GoError Scheme;
  Recognizes : Scheme → GroupVersionKind → bool;
  builder_GroupVersion : Builder → GroupVersion;
  registers : Builder → GroupVersionKind → Prop;
}.

Class SchemeLaws `{SchemeLibrary} : Prop := {
  NewBuilder_GroupVersion gv : builder_GroupVersion (NewBuilder gv) = gv;
  Register_GroupVersion b objs :
    builder_GroupVersion (Register b objs) = builder_GroupVersion b;
  registers_Register b objs k :
    registers (Register b objs) k ↔
      registers b k ∨ ∃ o, o ∈ objs ∧ k = mkGroupVersionKind (builder_GroupVersion b) o;
  AddToScheme_Recognizes b s s' k :
    AddToScheme b s = Ok s' → registers b k ∨ Recognizes s k = true → Recognizes s' k = true;
}.

(** What a reconciler is registered with: its type, the name of the controller. *)
Record Registration : Type := mkRegistration {
  Registration_For : string;
  Registration_Named : string;
}.

Definition public_SetupWithManager : Registration := mkRegistration "PublicResource" "publicresource".
Definition private_SetupWithManager : Registration :=
  mkRegistration "PrivateResource" "privateresource".

(** [SetupIndexes] does nothing. *)
Definition SetupIndexes : option GoError := None.

Section init.
  Context `{SchemeLibrary}.

(** The [init] functions of the package, which run in the order of their files, and
    [SchemeBuilder] after them. *)
Definition privateresource_init (SchemeBuilder : Builder) : Builder :=
  Register SchemeBuilder ["PrivateResource"; "PrivateResourceList"].
Definition publicresource_init (SchemeBuilder : Builder) : Builder :=
  Register SchemeBuilder ["PublicResource"; "PublicResourceList"].

Definition SchemeBuilder : Builder :=
  publicresource_init (privateresource_init (NewBuilder v1alpha1_GroupVersion)).

(** [utilruntime.Must] panics on an error. *)
Definition Must {A} (r : result GoError A) : option A :=
  match r with Ok a => Some a | Err _ => None end.

(** The [init] of [main]: the scheme, or a panic. *)
Definition main_init : option Scheme :=
  scheme ← Must (clientgoscheme_AddToScheme NewScheme);
  Must (AddToScheme SchemeBuilder scheme).

(** Unless the program panics before [main], the manager's scheme knows the types
    the reconcilers are registered for, and their lists, and the two controllers
    have different names, as controller-runtime asks. *)
Theorem reconciled_types_known `{!SchemeLaws} scheme r :
  main_init = Some scheme → r ∈ [public_SetupWithManager; private_SetupWithManager] →
  Recognizes scheme (mkGroupVersionKind v1alpha1_GroupVersion (Registration_For r)) = true
  ∧ Recognizes scheme (mkGroupVersionKind v1alpha1_GroupVersion (Registration_For r +:+ "List")) = true
  ∧ NoDup (Registration_Named <$> [public_SetupWithManager; private_SetupWithManager]).
Proof.
  unfold main_init. intros (s0 & _ & Hs)%bind_Some Hr.
  destruct (AddToScheme SchemeBuilder s0) as [s|e] eqn:Ha; simplify_eq/=.
  assert (∀ o, o ∈ ["PrivateResource"; "PrivateResourceList"; "PublicResource"; "PublicResourceList"] →
    Recognizes scheme (mkGroupVersionKind v1alpha1_GroupVersion o) = true) as Hk.
  { intros o Ho. eapply AddToScheme_Recognizes; [exact Ha|]. left. unfold SchemeBuilder, publicresource_init, privateresource_init.
    rewrite !registers_Register, Register_GroupVersion, NewBuilder_GroupVersion.
    change ["PrivateResource"; "PrivateResourceList"; "PublicResource"; "PublicResourceList"]
      with (["PrivateResource"; "PrivateResourceList"] ++ ["PublicResource"; "PublicResourceList"]) in Ho.
    apply elem_of_app in Ho as [Ho|Ho]; [left; right | right]; by exists o. }
  split_and!; [apply Hk..|].
  - repeat (apply elem_of_cons in Hr as [->|Hr]; [set_solver|]). by apply elem_of_nil in Hr.
  - repeat (apply elem_of_cons in Hr as [->|Hr]; [set_solver|]). by apply elem_of_nil in Hr.
  - apply (bool_decide_unpack _). vm_compute. exact I.
Qed.

End init.

(** A scheme that is the list of its kinds. *)
Definition list_scheme : SchemeLibrary := {|
  Scheme := list (string * string * string);
  Builder := GroupVersion * list string;
  NewScheme := [];
  NewBuilder gv := (gv, []);
  Register b objs := (b.1, b.2 ++ objs);
  AddToScheme b s := Ok (s ++ ((λ o, (GV_Group b.1, GV_Version b.1, o)) <$> b.2));
  clientgoscheme_AddToScheme s := Ok (("", "v1", "Service") :: s);
  Recognizes s k := bool_decide ((GV_Group (GVK_GV k), GV_Version (GVK_GV k), GVK_Kind k) ∈ s);
  builder_GroupVersion := fst;
  registers b k := ∃ o, o ∈ b.2 ∧ k = mkGroupVersionKind b.1 o;
|}.

Lemma list_scheme_laws : @SchemeLaws list_scheme.
Proof.
  split; cbn; [done..| |].
  - intros [gv objs0] objs k. cbn. setoid_rewrite elem_of_app. naive_solver.
  - intros [gv objs] s s' k. cbn. rewrite !bool_decide_eq_true. intros [= <-] Hk.
    apply elem_of_app. destruct Hk as [(o & Ho & ->)|Hk]; [right | by left].
    apply list_elem_of_fmap. by exists o.
Qed.

Lemma reconciled_types_known_witness :
  ∃ scheme, @main_init list_scheme = Some scheme
    ∧ @Recognizes list_scheme scheme
        (mkGroupVersionKind v1alpha1_GroupVersion (Registration_For public_SetupWithManager)) = true.
Proof.
  eexists. split; [reflexivity|].
  exact (proj1 (@reconciled_types_known list_scheme list_scheme_laws _ public_SetupWithManager
    eq_refl (list_elem_of_here _ _))).
Defined.
