(* ===== verification/Client.v ===== *)
(** * What the reconcilers see of the Kubernetes client

    The client is third-party code: its answers are arguments of the
    reconcilers. *)

From stdpp Require Import options.
From S2P Require Import Prelude StateManager.

(** [types.NamespacedName], the key of a request. *)
Record NamespacedName : Type := mkNN { NN_Namespace : string; NN_Name : string }.

(** An error of the client, and whether [apierrors.IsNotFound] holds of it. *)
Record APIError : Type := mkAPIError { APIError_err : GoError; IsNotFound : bool }.

(** [client.Get] of a kind of objects. *)
Definition Getter (A : Type) : Type := NamespacedName → result APIError A.
