(* ===== verification/CrdPrivate.v ===== *)
(** * Package [privateresource]: the reconciler of PrivateResource objects

    The API types of [privateresource_types.go] and the reconciler, which reads
    one object from the client and updates the private resources of the manager.
    The answer of the client is an argument.  Logging is left out. *)

From stdpp Require Import options.
From S2P Require Import Prelude GoStrings GoJson GoNet Blueprint StateManager StateProps Client.

Local Open Scope go_scope.

(** ** Definitions *)

Record PrivateResourceSpec : Type := mkPrivateSpec {
  PrivateSpec_Name : string;
  PrivateSpec_Mode : string;
  PrivateSpec_Destination : string;
  PrivateSpec_TcpPorts : string;
  PrivateSpec_UdpPorts : string;
  PrivateSpec_DisableIcmp : bool;
  PrivateSpec_Alias : string;
  PrivateSpec_Roles : goslice string;
  PrivateSpec_Users : goslice string;
  PrivateSpec_Machines : goslice string;
}.

(** The [StateManager] of the reconciler is the state; its client is an
    argument of [Reconcile]. *)
Record Reconciler : Type := mkReconciler { Reconciler_SiteID : string }.

Inductive SpecError : Type :=
| InvalidCIDR (destination : string)
| AdminRole.

Definition validate (spec : PrivateResourceSpec) : option SpecError :=
  if (PrivateSpec_Mode spec == "cidr")
     && bool_decide (ParseCIDR (PrivateSpec_Destination spec) = None)
  then Some (InvalidCIDR (PrivateSpec_Destination spec))
  else if bool_decide ("Admin" ∈ elems (PrivateSpec_Roles spec)) then Some AdminRole
  else None.

(** The [pr] of [Reconcile]. *)
Definition private_resource (r : Reconciler) (spec : PrivateResourceSpec) : PrivateResource := {|
  PrivateResource_Name := PrivateSpec_Name spec;
  PrivateResource_Mode := PrivateSpec_Mode spec;
  PrivateResource_Destination := PrivateSpec_Destination spec;
  PrivateResource_Site := Reconciler_SiteID r;
  PrivateResource_TCPPorts := PrivateSpec_TcpPorts spec;
  PrivateResource_UDPPorts := PrivateSpec_UdpPorts spec;
  PrivateResource_DisableICMP := PrivateSpec_DisableIcmp spec;
  PrivateResource_Alias := PrivateSpec_Alias spec;
  PrivateResource_Roles := PrivateSpec_Roles spec;
  PrivateResource_Users := PrivateSpec_Users spec;
  PrivateResource_Machines := PrivateSpec_Machines spec;
|}.

(** The result is the returned error; the [ctrl.Result] is always empty. *)
Definition Reconcile `{Env} (r : Reconciler) (Get : Getter PrivateResourceSpec)
    (req : NamespacedName) : M (option APIError) :=
  match Get req with
  | Err err =>
      if IsNotFound err then
        _ ← RemovePrivate (NN_Name req);
        mret None
      else mret (Some err)
  | Ok spec =>
      match validate spec with
      | Some _ => mret None
      | None =>
          _ ← AddOrUpdatePrivate (NN_Name req) (private_resource r spec) true;
          mret None
      end
  end.

(** ** Properties *)

(** A specification is refused exactly when its mode is [cidr] and its
    destination no CIDR, or when a role is [Admin]. *)
Lemma private_validate_iff spec :
  validate spec = None ↔
    (PrivateSpec_Mode spec = "cidr" → is_Some (ParseCIDR (PrivateSpec_Destination spec)))
    ∧ "Admin" ∉ elems (PrivateSpec_Roles spec).
Proof.
  unfold validate. rewrite <- not_eq_None_Some.
  destruct (decide (PrivateSpec_Mode spec = "cidr")) as [Hm|Hm].
  - rewrite (bool_decide_eq_true_2 (PrivateSpec_Mode spec = "cidr")) by done. simpl.
    repeat case_bool_decide; naive_solver.
  - rewrite (bool_decide_eq_false_2 (PrivateSpec_Mode spec = "cidr")) by done. simpl.
    case_bool_decide; naive_solver.
Qed.

(** The API type wants an alias for a destination that is a hostname; no check asks
    for one. *)
Lemma private_alias_optional name destination tcp udp icmp roles users machines :
  "Admin" ∉ elems roles →
  validate (mkPrivateSpec name "host" destination tcp udp icmp "" roles users machines) = None.
Proof. intros Hr. by apply private_validate_iff. Qed.

Lemma private_alias_optional_witness :
  validate (mkPrivateSpec "NAS" "host" "nas.internal" "*" "*" false "" None None None) = None.
Proof. apply private_alias_optional. apply not_elem_of_nil. Defined.

(** The methods of the manager a request calls. *)
Lemma private_Reconcile_cmds `{Env} r Get req s :
  Reconcile r Get req s =
  match Get req with
  | Err e => if IsNotFound e then (None, exec (CRemovePrivate (NN_Name req)) s) else (Some e, s)
  | Ok spec =>
      (None, match validate spec with
             | Some _ => s
             | None => exec (CAddOrUpdatePrivate (NN_Name req) (private_resource r spec) true) s
             end)
  end.
Proof.
  unfold Reconcile, exec. destruct (Get req) as [spec|e].
  - destruct (validate spec); [done|]. unfold mbind, M_bind.
    by destruct (AddOrUpdatePrivate _ _ _ s).
  - destruct (IsNotFound e); [|done]. unfold mbind, M_bind. by destruct (RemovePrivate _ s).
Qed.

(** C27. A request for a private resource, on every branch: an object that is
    gone is removed, any other client error is returned and changes nothing, an
    invalid object changes nothing (what was published for it before stays), and a
    valid one is published under its name alone, whatever its namespace, with the
    site of the sidecar, since a specification has none, and with the alias it has,
    if any.  The public resources are never touched. *)
Theorem Reconcile_private `{Env} r Get req s :
  let '(err, s') := Reconcile r Get req s in
  let '(mkBlueprint pub priv) := bp s in
  match Get req with
  | Err e =>
      if IsNotFound e then err = None ∧ bp s' = mkBlueprint pub (delete (NN_Name req) priv)
      else err = Some e ∧ s' = s
  | Ok spec =>
      err = None ∧
      if decide ((PrivateSpec_Mode spec = "cidr" → is_Some (ParseCIDR (PrivateSpec_Destination spec)))
                 ∧ "Admin" ∉ elems (PrivateSpec_Roles spec))
      then bp s' = mkBlueprint pub (<[ NN_Name req := private_resource r spec ]> priv)
      else s' = s
  end.
Proof.
  rewrite private_Reconcile_cmds. pose proof (λ c, proj1 (exec_keeps c s)) as Hk.
  destruct (bp s) as [pub priv]. destruct (Get req) as [spec|e].
  - split; [done|]. pose proof (private_validate_iff spec) as Hv.
    case_decide as Hd.
    + apply Hv in Hd as ->. by rewrite Hk.
    + destruct (validate spec); [done|]. by destruct Hd; apply Hv.
  - destruct (IsNotFound e); [|done]. by rewrite Hk.
Qed.

(** C40. CIDR mode on IPv4 networks: a specification whose destination is printed
    from four numbers and a prefix length is accepted exactly when the numbers are
    bytes, the length is between 0 and 32 and no role is [Admin]. *)
Theorem validate_ipv4_cidr spec a b c d n :
  PrivateSpec_Mode spec = "cidr" →
  PrivateSpec_Destination spec = dotted a b c d +:+ "/" +:+ Itoa n →
  validate spec = None ↔
    Forall (λ z, 0 ≤ z ≤ 255)%Z [a; b; c; d] ∧ (0 ≤ n ≤ 32)%Z
    ∧ "Admin" ∉ elems (PrivateSpec_Roles spec).
Proof.
  intros Hm Hd. rewrite private_validate_iff, Hd, ParseCIDR_dotted.
  rewrite !Forall_cons, Forall_nil.
  destruct (_ && _) eqn:E.
  - rewrite !andb_true_iff, !is_byte_iff, !Z.leb_le in E. split; [tauto|]. intros (_ & _ & ?).
    split; [by eexists | done].
  - split; [intros [Hs _]; by destruct (Hs Hm)|]. intros (Hb & Hn & _).
    apply not_true_iff_false in E. destruct E.
    rewrite !andb_true_iff, !is_byte_iff, !Z.leb_le. tauto.
Qed.

Definition pod_network : PrivateResourceSpec :=
  mkPrivateSpec "pods" "cidr" "10.42.0.0/16" "*" "*" false "" None None None.

Lemma validate_ipv4_cidr_witness : validate pod_network = None.
Proof.
  apply (validate_ipv4_cidr pod_network 10 42 0 0 16); [reflexivity | reflexivity |].
  split; [repeat constructor; lia | split; [lia | apply not_elem_of_nil]].
Defined.

(** What CIDR mode lets through, IPv6 included: the destination reads as an
    address of four or sixteen bytes without zone, and a prefix length within the
    address. *)
Theorem validate_cidr_bounds spec :
  validate spec = None → PrivateSpec_Mode spec = "cidr" →
  ∃ a n, ParseCIDR (PrivateSpec_Destination spec) = Some (a, n)
    ∧ Forall (λ z, 0 ≤ z ≤ 255)%Z (Addr_bytes a)
    ∧ (BitLen a = 32 ∨ BitLen a = 128)%Z ∧ Addr_Zone a = "" ∧ (0 ≤ n ≤ BitLen a)%Z.
Proof.
  rewrite private_validate_iff. intros [Hc _] Hm. destruct (Hc Hm) as [[a n] Hp].
  exists a, n. split; [done|]. apply ParseCIDR_bounds in Hp as (Hb & Hrest).
  split; [|done]. eapply Forall_impl; [exact Hb|]. cbn. intros z. apply is_byte_iff.
Qed.

Lemma validate_cidr_bounds_witness :
  ∃ a n, ParseCIDR "10.42.0.0/16" = Some (a, n)
    ∧ Forall (λ z, 0 ≤ z ≤ 255)%Z (Addr_bytes a)
    ∧ (BitLen a = 32 ∨ BitLen a = 128)%Z ∧ Addr_Zone a = "" ∧ (0 ≤ n ≤ BitLen a)%Z.
Proof. exact (validate_cidr_bounds pod_network eq_refl eq_refl). Defined.
