(* ===== verification/CrdPublic.v ===== *)
(** * Package [publicresource]: the reconciler of PublicResource objects

    The API types of [publicresource_types.go], their conversion to blueprint
    resources, and the reconciler.  The answers of the client for the object and
    for its auth secret are arguments.  Logging is left out. *)

From stdpp Require Import options.
From S2P Require Import Prelude GoStrings GoJson Config Blueprint BlueprintProps StateManager.
From S2P Require Import StateProps Client.

Local Open Scope go_scope.

(** ** Definitions *)

(** *** API types *)

Record PublicHeaderSpec : Type := mkHeaderSpec {
  HeaderSpec_Name : string;
  HeaderSpec_Value : string;
}.

Record PublicRuleSpec : Type := mkRuleSpec {
  RuleSpec_Action : string;
  RuleSpec_Match : string;
  RuleSpec_Value : string;
  RuleSpec_Priority : Z;
}.

Record PublicAuthSpec : Type := mkAuthSpec {
  AuthSpec_SsoEnabled : bool;
  AuthSpec_SsoRoles : goslice string;
  AuthSpec_SsoUsers : goslice string;
  AuthSpec_WhitelistUsers : goslice string;
  AuthSpec_AutoLoginIdp : Z;
  AuthSpec_AuthSecretRef : string;
}.

Record PublicMaintenanceSpec : Type := mkMaintenanceSpec {
  MaintenanceSpec_Enabled : bool;
  MaintenanceSpec_Type : string;
  MaintenanceSpec_Title : string;
  MaintenanceSpec_Message : string;
  MaintenanceSpec_EstimatedTime : string;
}.

Record PublicHealthCheckSpec : Type := mkHealthCheckSpec {
  HealthCheckSpec_Hostname : string;
  HealthCheckSpec_Port : Z;
  HealthCheckSpec_Enabled : option bool;
  HealthCheckSpec_Path : string;
  HealthCheckSpec_Scheme : string;
  HealthCheckSpec_Mode : string;
  HealthCheckSpec_Interval : Z;
  HealthCheckSpec_UnhealthyInterval : Z;
  HealthCheckSpec_Timeout : Z;
  HealthCheckSpec_Headers : goslice PublicHeaderSpec;
  HealthCheckSpec_FollowRedirects : option bool;
  HealthCheckSpec_Method : string;
  HealthCheckSpec_Status : Z;
}.

Record PublicTargetSpec : Type := mkTargetSpec {
  TargetSpec_Hostname : string;
  TargetSpec_Port : Z;
  TargetSpec_Method : string;
  TargetSpec_Enabled : option bool;
  TargetSpec_InternalPort : Z;
  TargetSpec_Path : string;
  TargetSpec_PathMatch : string;
  TargetSpec_RewritePath : string;
  TargetSpec_RewriteMatch : string;
  TargetSpec_Priority : Z;
  TargetSpec_Healthcheck : option PublicHealthCheckSpec;
}.

Record PublicResourceSpec : Type := mkPublicSpec {
  PublicSpec_Name : string;
  PublicSpec_Protocol : string;
  PublicSpec_FullDomain : string;
  PublicSpec_ProxyPort : Z;
  PublicSpec_Enabled : option bool;
  PublicSpec_Ssl : bool;
  PublicSpec_HostHeader : string;
  PublicSpec_TlsServerName : string;
  PublicSpec_Headers : goslice PublicHeaderSpec;
  PublicSpec_Auth : option PublicAuthSpec;
  PublicSpec_Maintenance : option PublicMaintenanceSpec;
  PublicSpec_Rules : goslice PublicRuleSpec;
  PublicSpec_Targets : goslice PublicTargetSpec;
}.

(** The object: its namespace and its spec are all the reconciler reads. *)
Record PublicResource : Type := mkPublicResource {
  PublicResource_Namespace : string;
  PublicResource_Spec : PublicResourceSpec;
}.

(** *** Conversion *)

(** [make([]B, len(l))] filled in a loop: never nil. *)
Definition convert_slice {A B} (f : A → B) (s : goslice A) : goslice B :=
  Some (f <$> elems s).

Definition convertHeaders (headers : goslice PublicHeaderSpec) : goslice Header :=
  if bool_decide (length (elems headers) = 0) then None
  else convert_slice (λ h, mkHeader (HeaderSpec_Name h) (HeaderSpec_Value h)) headers.

Definition convertRules (rules : goslice PublicRuleSpec) : goslice Rule :=
  if bool_decide (length (elems rules) = 0) then None
  else convert_slice (λ r, {|
    Rule_Action := RuleSpec_Action r;
    Rule_Match := RuleSpec_Match r;
    Rule_Value := RuleSpec_Value r;
    Rule_Priority := RuleSpec_Priority r;
  |}) rules.

Definition convertMaintenance (m : option PublicMaintenanceSpec) : option Maintenance :=
  match m with
  | None => None
  | Some m => Some {|
      Maintenance_Enabled := MaintenanceSpec_Enabled m;
      Maintenance_Type := MaintenanceSpec_Type m;
      Maintenance_Title := MaintenanceSpec_Title m;
      Maintenance_Message := MaintenanceSpec_Message m;
      Maintenance_EstimatedTime := MaintenanceSpec_EstimatedTime m;
    |}
  end.

(** The secret is read by the same statements as in [BuildAuth]. *)
Definition buildAuth (spec : option PublicAuthSpec) (secretData : gomap string) : option Auth :=
  if bool_decide (spec = None) && (size (entries_of secretData) =? 0) then None
  else
    let auth :=
      match spec with
      | Some spec => {|
          Auth_Pincode := secretPincode secretData;
          Auth_Password := secretPassword secretData;
          Auth_BasicAuth := secretBasicAuth secretData;
          Auth_SSOEnabled := AuthSpec_SsoEnabled spec;
          Auth_SSORoles := AuthSpec_SsoRoles spec;
          Auth_SSOUsers := AuthSpec_SsoUsers spec;
          Auth_WhitelistUsers := AuthSpec_WhitelistUsers spec;
          Auth_AutoLoginIDP := AuthSpec_AutoLoginIdp spec;
        |}
      | None =>
          mkAuth (secretPincode secretData) (secretPassword secretData)
            (secretBasicAuth secretData) false None None None 0
      end in
    if negb (Auth_SSOEnabled auth)
       && (length (elems (Auth_SSORoles auth)) =? 0)
       && (length (elems (Auth_SSOUsers auth)) =? 0)
       && (length (elems (Auth_WhitelistUsers auth)) =? 0)
       && (Auth_AutoLoginIDP auth == 0%Z)
       && (Auth_Pincode auth == 0%Z)
       && (Auth_Password auth == "")
       && bool_decide (Auth_BasicAuth auth = None)
    then None
    else Some auth.

Definition convertHealthCheck (hc : option PublicHealthCheckSpec) : option HealthCheck :=
  match hc with
  | None => None
  | Some hc => Some {|
      HealthCheck_Hostname := HealthCheckSpec_Hostname hc;
      HealthCheck_Port := HealthCheckSpec_Port hc;
      HealthCheck_Enabled := HealthCheckSpec_Enabled hc;
      HealthCheck_Path := HealthCheckSpec_Path hc;
      HealthCheck_Scheme := HealthCheckSpec_Scheme hc;
      HealthCheck_Mode := HealthCheckSpec_Mode hc;
      HealthCheck_Interval := HealthCheckSpec_Interval hc;
      HealthCheck_UnhealthyInterval := HealthCheckSpec_UnhealthyInterval hc;
      HealthCheck_Timeout := HealthCheckSpec_Timeout hc;
      HealthCheck_Headers := convertHeaders (HealthCheckSpec_Headers hc);
      HealthCheck_FollowRedirects := HealthCheckSpec_FollowRedirects hc;
      HealthCheck_Method := HealthCheckSpec_Method hc;
      HealthCheck_Status := HealthCheckSpec_Status hc;
    |}
  end.

Definition convertTargets (targets : goslice PublicTargetSpec) (siteID : string) : goslice Target :=
  convert_slice (λ t, {|
    Target_Site := siteID;
    Target_Hostname := TargetSpec_Hostname t;
    Target_Enabled := TargetSpec_Enabled t;
    Target_Method := TargetSpec_Method t;
    Target_Port := TargetSpec_Port t;
    Target_InternalPort := TargetSpec_InternalPort t;
    Target_Path := TargetSpec_Path t;
    Target_PathMatch := TargetSpec_PathMatch t;
    Target_RewritePath := TargetSpec_RewritePath t;
    Target_RewriteMatch := TargetSpec_RewriteMatch t;
    Target_Priority := TargetSpec_Priority t;
    Target_HealthCheck := convertHealthCheck (TargetSpec_Healthcheck t);
  |}) targets.

Definition buildResource (spec : PublicResourceSpec) (secretData : gomap string) (siteID : string)
    : Resource :=
  let tlsServerName :=
    if (PublicSpec_TlsServerName spec == "") && (PublicSpec_FullDomain spec != "")
    then PublicSpec_FullDomain spec
    else PublicSpec_TlsServerName spec in
  {|
    Resource_Name := PublicSpec_Name spec;
    Resource_Protocol := PublicSpec_Protocol spec;
    Resource_Enabled := PublicSpec_Enabled spec;
    Resource_SSL := PublicSpec_Ssl spec;
    Resource_FullDomain := PublicSpec_FullDomain spec;
    Resource_HostHeader := PublicSpec_HostHeader spec;
    Resource_TLSServerName := tlsServerName;
    Resource_ProxyPort := PublicSpec_ProxyPort spec;
    Resource_Headers := convertHeaders (PublicSpec_Headers spec);
    Resource_Auth := buildAuth (PublicSpec_Auth spec) secretData;
    Resource_Maintenance := convertMaintenance (PublicSpec_Maintenance spec);
    Resource_Rules := convertRules (PublicSpec_Rules spec);
    Resource_Targets := convertTargets (PublicSpec_Targets spec) siteID;
  |}.

Inductive SpecError : Type :=
| FullDomainRequired
| ProxyPortRequired (protocol : string).

Definition validate (spec : PublicResourceSpec) : option SpecError :=
  if PublicSpec_Protocol spec == "http" then
    if PublicSpec_FullDomain spec == "" then Some FullDomainRequired else None
  else if (PublicSpec_Protocol spec == "tcp") || (PublicSpec_Protocol spec == "udp") then
    if PublicSpec_ProxyPort spec == 0%Z then Some (ProxyPortRequired (PublicSpec_Protocol spec))
    else None
  else None.

(** *** The reconciler *)

(** The [StateManager] of the reconciler is the state; its client is given by
    the getters. *)
Record Reconciler : Type := mkReconciler { Reconciler_SiteID : string }.

Definition resolveAuthSecret (GetSecret : Getter (gmap string string)) (resource : PublicResource)
    : gomap string :=
  match PublicSpec_Auth (PublicResource_Spec resource) with
  | None => None
  | Some auth =>
      if AuthSpec_AuthSecretRef auth == "" then None
      else match GetSecret (mkNN (PublicResource_Namespace resource) (AuthSpec_AuthSecretRef auth)) with
           | Err _ => None
           | Ok data => Some data
           end
  end.

(** The result is the returned error; the [ctrl.Result] is always empty. *)
Definition Reconcile `{Env} (r : Reconciler) (Get : Getter PublicResource)
    (GetSecret : Getter (gmap string string)) (req : NamespacedName) : M (option APIError) :=
  match Get req with
  | Err err =>
      if IsNotFound err then
        _ ← Remove (NN_Name req);
        mret None
      else mret (Some err)
  | Ok resource =>
      match validate (PublicResource_Spec resource) with
      | Some _ => mret None
      | None =>
          let secretData := resolveAuthSecret GetSecret resource in
          let res := buildResource (PublicResource_Spec resource) secretData (Reconciler_SiteID r) in
          _ ← AddOrUpdate (NN_Name req) res true;
          mret None
      end
  end.

(** ** Validation and requests *)

(** What a specification must satisfy: the field its protocol needs. *)
Definition valid_spec (spec : PublicResourceSpec) : Prop :=
  (PublicSpec_Protocol spec = "http" → PublicSpec_FullDomain spec ≠ "")
  ∧ (PublicSpec_Protocol spec = "tcp" ∨ PublicSpec_Protocol spec = "udp" →
     PublicSpec_ProxyPort spec ≠ 0%Z).

#[export] Instance valid_spec_dec spec : Decision (valid_spec spec).
Proof. unfold valid_spec. apply _. Defined.

Lemma public_validate_iff spec : validate spec = None ↔ valid_spec spec.
Proof.
  unfold validate, valid_spec.
  repeat case_bool_decide; simpl; split; try done; naive_solver congruence.
Qed.

(** The methods of the manager a request calls. *)
Lemma public_Reconcile_cmds `{Env} r Get GetSecret req s :
  Reconcile r Get GetSecret req s =
  match Get req with
  | Err e => if IsNotFound e then (None, exec (CRemove (NN_Name req)) s) else (Some e, s)
  | Ok o =>
      (None, match validate (PublicResource_Spec o) with
             | Some _ => s
             | None => exec (CAddOrUpdate (NN_Name req)
                               (buildResource (PublicResource_Spec o) (resolveAuthSecret GetSecret o)
                                  (Reconciler_SiteID r)) true) s
             end)
  end.
Proof.
  unfold Reconcile, exec. destruct (Get req) as [o|e].
  - destruct (validate _); [done|]. unfold mbind, M_bind. cbv zeta.
    by destruct (AddOrUpdate _ _ _ s).
  - destruct (IsNotFound e); [|done]. unfold mbind, M_bind. by destruct (Remove _ s).
Qed.

(** C26. A request for a public resource, on every branch: an object that is
    gone is removed, any other client error is returned and changes nothing, an
    object without the field its protocol needs changes nothing (what was
    published for it before stays), and a valid one is published under its name
    alone, whatever its namespace.  The private resources are never touched. *)
Theorem Reconcile_public `{Env} r Get GetSecret req s :
  let '(err, s') := Reconcile r Get GetSecret req s in
  let '(mkBlueprint pub priv) := bp s in
  match Get req with
  | Err e =>
      if IsNotFound e then err = None ∧ bp s' = mkBlueprint (delete (NN_Name req) pub) priv
      else err = Some e ∧ s' = s
  | Ok o =>
      err = None ∧
      if decide (valid_spec (PublicResource_Spec o))
      then bp s' = mkBlueprint
             (<[ NN_Name req := buildResource (PublicResource_Spec o) (resolveAuthSecret GetSecret o)
                                  (Reconciler_SiteID r) ]> pub) priv
      else s' = s
  end.
Proof.
  rewrite public_Reconcile_cmds. pose proof (λ c, proj1 (exec_keeps c s)) as Hk.
  destruct (bp s) as [pub priv]. destruct (Get req) as [o|e].
  - split; [done|]. pose proof (public_validate_iff (PublicResource_Spec o)) as Hv.
    case_decide as Hd.
    + apply Hv in Hd as ->. by rewrite Hk.
    + destruct (validate _); [done|]. by destruct Hd; apply Hv.
  - destruct (IsNotFound e); [|done]. by rewrite Hk.
Qed.

(** ** Authentication *)

(** The auth part of the specification restricts nothing. *)
Definition open_spec (spec : option PublicAuthSpec) : Prop :=
  match spec with
  | None => True
  | Some a =>
      AuthSpec_SsoEnabled a = false ∧ elems (AuthSpec_SsoRoles a) = []
      ∧ elems (AuthSpec_SsoUsers a) = [] ∧ elems (AuthSpec_WhitelistUsers a) = []
      ∧ AuthSpec_AutoLoginIdp a = 0%Z
  end.

Lemma secret_empty_nil secretData : size (entries_of secretData) = 0 → secret_empty secretData.
Proof.
  intros Hz. apply map_size_empty_iff in Hz. unfold secret_empty.
  destruct secretData as [m|]; simpl in Hz; [subst m; by vm_compute | done].
Qed.

Lemma buildAuth_test auth :
  negb (Auth_SSOEnabled auth) && (length (elems (Auth_SSORoles auth)) =? 0)
  && (length (elems (Auth_SSOUsers auth)) =? 0) && (length (elems (Auth_WhitelistUsers auth)) =? 0)
  && (Auth_AutoLoginIDP auth == 0%Z) && (Auth_Pincode auth == 0%Z) && (Auth_Password auth == "")
  && bool_decide (Auth_BasicAuth auth = None) = true ↔
    (Auth_SSOEnabled auth = false ∧ elems (Auth_SSORoles auth) = []
     ∧ elems (Auth_SSOUsers auth) = [] ∧ elems (Auth_WhitelistUsers auth) = []
     ∧ Auth_AutoLoginIDP auth = 0%Z)
    ∧ Auth_Pincode auth = 0%Z ∧ Auth_Password auth = "" ∧ Auth_BasicAuth auth = None.
Proof.
  rewrite !andb_true_iff, negb_true_iff, !bool_decide_eq_true, !Nat.eqb_eq, !length_zero_iff_nil.
  tauto.
Qed.

(** C34. [buildAuth] returns nil exactly when the specification restricts nothing
    and the secret holds no usable credential; otherwise the block holds what the
    specification says and, of the sensitive values, what the secret says. *)
Theorem buildAuth_spec spec secretData :
  match buildAuth spec secretData with
  | None => open_spec spec ∧ secret_empty secretData
  | Some auth =>
      ¬ (open_spec spec ∧ secret_empty secretData)
      ∧ Auth_Pincode auth = secretPincode secretData
      ∧ Auth_Password auth = secretPassword secretData
      ∧ Auth_BasicAuth auth = secretBasicAuth secretData
      ∧ Auth_SSOEnabled auth = from_option AuthSpec_SsoEnabled false spec
      ∧ Auth_SSORoles auth = from_option AuthSpec_SsoRoles None spec
      ∧ Auth_SSOUsers auth = from_option AuthSpec_SsoUsers None spec
      ∧ Auth_WhitelistUsers auth = from_option AuthSpec_WhitelistUsers None spec
      ∧ Auth_AutoLoginIDP auth = from_option AuthSpec_AutoLoginIdp 0%Z spec
  end.
Proof.
  unfold buildAuth. destruct (_ && (size _ =? 0)) eqn:E0.
  { go_bool. subst spec. split; [done|].
    match goal with E : (size _ =? 0) = true |- _ => apply Nat.eqb_eq in E; by apply secret_empty_nil end. }
  set (auth := match spec with Some _ => _ | None => _ end).
  assert (open_spec spec ∧ secret_empty secretData ↔
    (Auth_SSOEnabled auth = false ∧ elems (Auth_SSORoles auth) = []
     ∧ elems (Auth_SSOUsers auth) = [] ∧ elems (Auth_WhitelistUsers auth) = []
     ∧ Auth_AutoLoginIDP auth = 0%Z)
    ∧ Auth_Pincode auth = 0%Z ∧ Auth_Password auth = "" ∧ Auth_BasicAuth auth = None) as Hiff
    by (subst auth; unfold secret_empty; destruct spec; simpl; tauto).
  rewrite <- buildAuth_test in Hiff. cbv zeta.
  match goal with |- context [if ?b then None else _] => destruct b end; [by apply Hiff|].
  split; [by intros ?%Hiff|]. subst auth. by destruct spec.
Qed.

(** ** Nothing is lost *)

(** A slice element by element; nil stays nil. *)
Definition slice_map {A B} (f : A → B) (s : goslice A) : goslice B :=
  option_map (map f) s.

(** The way back from a resource, as far as the blueprint records it. *)
Definition header_spec (h : Header) : PublicHeaderSpec :=
  mkHeaderSpec (Header_Name h) (Header_Value h).

Definition rule_spec (r : Rule) : PublicRuleSpec :=
  mkRuleSpec (Rule_Action r) (Rule_Match r) (Rule_Value r) (Rule_Priority r).

Definition maintenance_spec (m : Maintenance) : PublicMaintenanceSpec :=
  mkMaintenanceSpec (Maintenance_Enabled m) (Maintenance_Type m) (Maintenance_Title m)
    (Maintenance_Message m) (Maintenance_EstimatedTime m).

Definition healthcheck_spec (h : HealthCheck) : PublicHealthCheckSpec :=
  mkHealthCheckSpec (HealthCheck_Hostname h) (HealthCheck_Port h) (HealthCheck_Enabled h)
    (HealthCheck_Path h) (HealthCheck_Scheme h) (HealthCheck_Mode h) (HealthCheck_Interval h)
    (HealthCheck_UnhealthyInterval h) (HealthCheck_Timeout h)
    (slice_map header_spec (HealthCheck_Headers h)) (HealthCheck_FollowRedirects h)
    (HealthCheck_Method h) (HealthCheck_Status h).

Definition target_spec (t : Target) : PublicTargetSpec :=
  mkTargetSpec (Target_Hostname t) (Target_Port t) (Target_Method t) (Target_Enabled t)
    (Target_InternalPort t) (Target_Path t) (Target_PathMatch t) (Target_RewritePath t)
    (Target_RewriteMatch t) (Target_Priority t) (healthcheck_spec <$> Target_HealthCheck t).

Definition resource_spec (r : Resource) : PublicResourceSpec :=
  mkPublicSpec (Resource_Name r) (Resource_Protocol r) (Resource_FullDomain r)
    (Resource_ProxyPort r) (Resource_Enabled r) (Resource_SSL r) (Resource_HostHeader r)
    (Resource_TLSServerName r) (slice_map header_spec (Resource_Headers r)) None
    (maintenance_spec <$> Resource_Maintenance r) (slice_map rule_spec (Resource_Rules r))
    (slice_map target_spec (Resource_Targets r)).

(** Specifications in normal form: absent and empty lists are the same, the TLS
    server name has its default, authentication is left aside. *)
Definition nil_if_empty {A} (s : goslice A) : goslice A :=
  match elems s with [] => None | l => Some l end.

Definition normal_healthcheck (h : PublicHealthCheckSpec) : PublicHealthCheckSpec :=
  mkHealthCheckSpec (HealthCheckSpec_Hostname h) (HealthCheckSpec_Port h)
    (HealthCheckSpec_Enabled h) (HealthCheckSpec_Path h) (HealthCheckSpec_Scheme h)
    (HealthCheckSpec_Mode h) (HealthCheckSpec_Interval h) (HealthCheckSpec_UnhealthyInterval h)
    (HealthCheckSpec_Timeout h) (nil_if_empty (HealthCheckSpec_Headers h))
    (HealthCheckSpec_FollowRedirects h) (HealthCheckSpec_Method h) (HealthCheckSpec_Status h).

Definition normal_target (t : PublicTargetSpec) : PublicTargetSpec :=
  mkTargetSpec (TargetSpec_Hostname t) (TargetSpec_Port t) (TargetSpec_Method t)
    (TargetSpec_Enabled t) (TargetSpec_InternalPort t) (TargetSpec_Path t) (TargetSpec_PathMatch t)
    (TargetSpec_RewritePath t) (TargetSpec_RewriteMatch t) (TargetSpec_Priority t)
    (normal_healthcheck <$> TargetSpec_Healthcheck t).

Definition normal_spec (s : PublicResourceSpec) : PublicResourceSpec :=
  mkPublicSpec (PublicSpec_Name s) (PublicSpec_Protocol s) (PublicSpec_FullDomain s)
    (PublicSpec_ProxyPort s) (PublicSpec_Enabled s) (PublicSpec_Ssl s) (PublicSpec_HostHeader s)
    (if PublicSpec_TlsServerName s == "" then PublicSpec_FullDomain s else PublicSpec_TlsServerName s)
    (nil_if_empty (PublicSpec_Headers s)) None (PublicSpec_Maintenance s)
    (nil_if_empty (PublicSpec_Rules s)) (Some (normal_target <$> elems (PublicSpec_Targets s))).

Lemma convert_back {A B} (f : B → A) (g : A → B) (s : goslice A) :
  (∀ x, f (g x) = x) →
  slice_map f (if bool_decide (length (elems s) = 0) then None else convert_slice g s)
  = nil_if_empty s.
Proof.
  intros Hfg. unfold nil_if_empty, convert_slice, slice_map.
  destruct (elems s) as [|x l]; [done|]. simpl. do 2 f_equal; [done|].
  induction l as [|y l IH]; [done|]. simpl. by rewrite Hfg, IH.
Qed.

Lemma headers_back hs : slice_map header_spec (convertHeaders hs) = nil_if_empty hs.
Proof. apply convert_back. by intros []. Qed.

Lemma rules_back rs : slice_map rule_spec (convertRules rs) = nil_if_empty rs.
Proof. apply convert_back. by intros []. Qed.

Lemma healthcheck_back h : healthcheck_spec <$> convertHealthCheck h = normal_healthcheck <$> h.
Proof.
  destruct h as [h|]; [|done]. simpl. f_equal. unfold healthcheck_spec, normal_healthcheck. simpl.
  by rewrite headers_back.
Qed.

(** C33. The conversion loses nothing and mixes nothing up: apart from
    authentication, the specification can be read back from the published
    resource, list by list and field by field; every target is at the site of the
    sidecar. *)
Theorem buildResource_roundtrip spec secretData siteID :
  let r := buildResource spec secretData siteID in
  resource_spec r = normal_spec spec
  ∧ Forall (λ t, Target_Site t = siteID) (elems (Resource_Targets r)).
Proof.
  split.
  - unfold resource_spec, normal_spec. simpl. rewrite headers_back, rules_back.
    f_equal.
    + case_bool_decide as Ht; [|done]. rewrite Ht. by case_bool_decide.
    + by destruct (PublicSpec_Maintenance spec) as [[]|].
    + unfold convertTargets, convert_slice, slice_map. simpl. f_equal.
      induction (elems (PublicSpec_Targets spec)) as [|t l IH]; [done|]. simpl. f_equal; [|exact IH].
      unfold target_spec, normal_target. simpl. by rewrite healthcheck_back.
  - simpl. apply Forall_fmap, Forall_true. done.
Qed.

(** The roles are not looked at: [Admin], which the API documents as forbidden,
    is accepted and published. *)
Definition admin_panel : PublicResourceSpec :=
  mkPublicSpec "panel" "http" "panel.example.com" 0 None true "" "" None
    (Some (mkAuthSpec true (Some ["Admin"]) None None 0 "")) None None
    (Some [mkTargetSpec "panel.apps" 8080 "http" None 0 "" "" "" "" 0 None]).

Lemma admin_role_accepted :
  validate admin_panel = None
  ∧ (Resource_Auth (buildResource admin_panel None "site") ≫= Auth_SSORoles) = Some ["Admin"].
Proof. split; vm_compute; reflexivity. Qed.
