(* ===== verification/Sidecar.v ===== *)
(** * Package [main]: the controllers that are started, and how they interleave

    [main] starts a controller per watched type, each with two goroutines: the
    informer's, which runs the event handlers one after the other, and [Run]'s.
    The methods of the state manager are atomic; between two of them any other
    goroutine may come in.  This file models those interleavings as a step
    relation, relates them to the sequential controller, and shows when the file
    is up to date and when it is not. *)

From stdpp Require Import options.
From S2P Require Import Prelude GoStrings Config Blueprint BlueprintProps StateManager Store.
From S2P Require Import StateProps Resources HttpRoute Service Controller ControllerProps.

Local Open Scope go_scope.

(** ** Definitions *)

(** *** The controllers of [main] *)

Definition controllers `{K8s} (cfg : Config) : list (Controller Handler) :=
  (if Config_GatewayName cfg != "" then [New httproute_Definition cfg] else [])
  ++ (if Config_EnableService cfg || Config_AutoService cfg
      then [New service_Definition cfg] else []).

(** *** Two more stores *)

(** The calls in order: the program a handler runs against the manager. *)
Definition Trace : Type := list Cmd.

Definition trace_view (t : Trace) : gmap string Resource :=
  Blueprint_PublicResources (foldl (λ b c, abs_exec c b) (mkBlueprint ∅ ∅) t).

#[export] Instance trace_store : Store Trace := {|
  store_AddOrUpdate key r write t := (true, t ++ [CAddOrUpdate key r write]);
  store_Remove key t := (true, t ++ [CRemove key]);
  store_ForceWrite t := t ++ [CForceWrite];
  store_view := trace_view;
|}.

(** The public resources alone, without disk. *)
#[export] Instance map_store : Store (gmap string Resource) := {|
  store_AddOrUpdate key r _ m := (bool_decide (m !! key ≠ Some r), <[ key := r ]> m);
  store_Remove key m := (bool_decide (m !! key ≠ None), delete key m);
  store_ForceWrite m := m;
  store_view m := m;
|}.

(** *** The goroutines of a controller *)

(** Where [Run] is: waiting for the caches, between the forced write and the
    store of the flag, or done. *)
Inductive RunPhase : Type := Waiting | Forced | Synced.

Section system.
  Context `{K8s} {Hd : Type} `{!ResourceHandler Hd} `{Env}.

(** The manager and the machine; the controller; the calls the running handler
    has still to make; the events to come; the phase of [Run]. *)
Record Sys : Type := mkSys {
  sys_sm : SM;
  sys_controller : Controller Hd;
  sys_pending : Trace;
  sys_events : list Event;
  sys_phase : RunPhase;
}.

Definition is_handler (ev : Event) : bool := match ev with ERun _ => false | _ => true end.

(** A handler takes an event only when the previous one has returned; it reads
    the flag first.  [Run] takes two steps. *)
Inductive step : Sys → Sys → Prop :=
| step_event sm c ev evs ph c' cmds :
    is_handler ev = true → handle ev (c, []) = (c', cmds) →
    step (mkSys sm c [] (ev :: evs) ph) (mkSys sm c' cmds evs ph)
| step_call sm c cmd cmds evs ph :
    step (mkSys sm c (cmd :: cmds) evs ph) (mkSys (exec cmd sm) c cmds evs ph)
| step_force sm c cmds evs :
    step (mkSys sm c cmds evs Waiting) (mkSys (exec CForceWrite sm) c cmds evs Forced)
| step_sync sm c cmds evs :
    step (mkSys sm c cmds evs Forced) (mkSys sm (set_synced true c) cmds evs Synced).

Definition reachable : Sys → Sys → Prop := rtc step.

(** The system at the start of the program. *)
Definition initial (c : Controller Hd) (sm : SM) (evs : list Event) : Sys :=
  mkSys sm c [] evs Waiting.

End system.

Arguments Sys {_} Hd.

(** ** Stores that do the same *)

#[export] Instance trace_laws : StoreLaws Trace.
Proof.
  assert (∀ t cmd, trace_view (t ++ [cmd]) =
    Blueprint_PublicResources (abs_exec cmd (mkBlueprint (trace_view t)
      (Blueprint_PrivateResources (foldl (λ b c, abs_exec c b) (mkBlueprint ∅ ∅) t))))) as Hv.
  { intros t cmd. unfold trace_view. rewrite foldl_app. cbn [foldl]. by destruct (foldl _ _ t). }
  split; intros; cbn; rewrite Hv; by destruct (foldl _ _ s).
Qed.

#[export] Instance map_laws : StoreLaws (gmap string Resource).
Proof. done. Qed.

(** [f] carries the methods of one store to those of another. *)
Class StoreMorphism {St1 St2 : Type} `{Store St1, Store St2} (f : St1 → St2) : Prop := {
  morphism_AddOrUpdate key r write s :
    f (snd (store_AddOrUpdate key r write s)) = snd (store_AddOrUpdate key r write (f s));
  morphism_Remove key s : f (snd (store_Remove key s)) = snd (store_Remove key (f s));
  morphism_ForceWrite s : f (store_ForceWrite s) = store_ForceWrite (f s);
}.

#[export] Instance view_morphism `{StoreLaws St} : StoreMorphism (St1 := St) store_view.
Proof.
  split; intros; [apply view_AddOrUpdate | apply view_Remove | apply view_ForceWrite].
Qed.

#[export] Instance run_morphism `{Env} s : StoreMorphism (St1 := Trace) (λ t, run t s).
Proof. by split; intros; simpl; rewrite run_app. Qed.

Section morphism.
  Context `{K8s} {Hd : Type} `{!ResourceHandler Hd}.
  Context {St1 St2 : Type} `{!Store St1, !Store St2} (f : St1 → St2) `{!StoreMorphism f}.
  Local Set Default Proof Using "Type*".
  Implicit Types c : Controller Hd.

Definition carry (cs : Controller Hd * St1) : Controller Hd * St2 := (cs.1, f cs.2).

Lemma foldl_carry {A} (g1 : St1 → A → St1) (g2 : St2 → A → St2) l s :
  (∀ s x, f (g1 s x) = g2 (f s) x) → f (foldl g1 s l) = foldl g2 (f s) l.
Proof. intros Hg. revert s; induction l as [|x l IH]; intros s; [done|]. simpl. by rewrite IH, Hg. Qed.

Lemma removeObject_carry c objKey s : removeObject c objKey (f s) = carry (removeObject c objKey s).
Proof.
  unfold removeObject, carry. simpl. f_equal. symmetry. apply foldl_carry.
  intros. apply morphism_Remove.
Qed.

Lemma processObject_carry ord secrets c obj write s :
  processObject ord secrets c obj write (f s) = carry (processObject ord secrets c obj write s).
Proof.
  unfold processObject. destruct (negb _); [apply removeObject_carry|]. cbv zeta.
  destruct (_ =? 0); [apply removeObject_carry|]. unfold carry. simpl. f_equal. symmetry.
  rewrite (foldl_carry _ (λ st '(key, resource), snd (store_AddOrUpdate key resource write st)))
    by (intros s1 [key r]; apply morphism_AddOrUpdate).
  f_equal. apply foldl_carry. intros. case_bool_decide; [done | apply morphism_Remove].
Qed.

(** A handler does not look at the store: it makes the same calls on both. *)
Lemma handle_carry ev c s : handle ev (c, f s) = carry (handle ev (c, s)).
Proof.
  destruct ev; simpl.
  - unfold onAdd. destruct (toMetaObj c obj); [apply processObject_carry | done].
  - unfold onUpdate. destruct (toMetaObj c new); [apply processObject_carry | done].
  - unfold onDelete. destruct (toMetaObj c _); [apply removeObject_carry | done].
  - unfold Run. destruct hasSynced; [|done]. unfold carry. simpl. by rewrite (morphism_ForceWrite (f := f)).
Qed.

End morphism.

(** ** Interleavings and the sequential controller *)

Section interleaving.
  Context `{K8s} {Hd : Type} `{!ResourceHandler Hd} `{Env}.
  Local Set Default Proof Using "Type*".
  Implicit Types (c : Controller Hd) (m : gmap string Resource).

(** The same controller up to the flag. *)
Definition same (c c' : Controller Hd) : Prop := ∃ b, c' = set_synced b c.

#[export] Instance same_equivalence : Equivalence same.
Proof.
  split.
  - intros []. by eexists.
  - intros c c' [b ->]. exists (Controller_synced c). by destruct c.
  - intros c1 c2 c3 [b1 ->] [b2 ->]. by exists b2.
Qed.

(** On the maps alone the flag does not matter. *)
Lemma handle_same ev c c' m :
  same c c' → is_handler ev = true →
  same (handle ev (c, m)).1 (handle ev (c', m)).1
  ∧ (handle ev (c', m)).2 = (handle ev (c, m)).2.
Proof.
  intros [b ->] Hev.
  assert (∀ ord secrets o w w',
    same (processObject ord secrets c o w m).1 (processObject ord secrets (set_synced b c) o w' m).1
    ∧ (processObject ord secrets (set_synced b c) o w' m).2
      = (processObject ord secrets c o w m).2) as Hp.
  { intros. unfold processObject. simpl. destruct (ShouldProcess _ o _); simpl; [|by split; [exists b|]].
    unfold resolveAuthSecret. simpl.
    destruct (size _ =? 0); simpl; by split; [exists b|]. }
  assert (∀ obj, toMetaObj (set_synced b c) obj = toMetaObj c obj) as Hm by by intros [].
  destruct ev; simpl; [..|done]; unfold onAdd, onUpdate, onDelete; rewrite Hm;
    (destruct (toMetaObj c _); [|by split; [exists b|]]); [apply Hp.. | by split; [exists b|]].
Qed.

(** What the public resources will be when the running handler has made its
    calls, and the controller: those of the sequential controller. *)
Definition sequential (c0 : Controller Hd) (m0 : gmap string Resource) (evs : list Event)
    (s : Sys Hd) : Prop :=
  ∃ evs1, evs = evs1 ++ sys_events s ∧
    let '(c, m) := handle_all evs1 (c0, m0) in
    same c (sys_controller s) ∧ store_view (run (sys_pending s) (sys_sm s)) = m.

Lemma view_run t s s' :
  store_view s' = store_view s → store_view (run t s') = store_view (run t s).
Proof.
  intros Hv. change (Blueprint_PublicResources (bp (run t s'))
    = Blueprint_PublicResources (bp (run t s))). rewrite !run_bp.
  change (Blueprint_PublicResources (bp s') = Blueprint_PublicResources (bp s)) in Hv.
  revert Hv. generalize (bp s) (bp s'). induction t as [|cmd t IH]; intros b b' Hv; [done|].
  simpl. apply IH. destruct b, b', cmd; simpl in *; by rewrite ?Hv.
Qed.

Lemma reachable_ind (P : Sys Hd → Prop) s s' :
  (∀ s1 s2, step s1 s2 → P s1 → P s2) → reachable s s' → P s → P s'.
Proof. intros Hs Hr. induction Hr as [|s1 s2 s3 H1 _ IH]; eauto. Qed.

Lemma sequential_step c0 m0 evs s s' :
  step s s' → sequential c0 m0 evs s → sequential c0 m0 evs s'.
Proof.
  intros Hstep (evs1 & -> & Hseq). destruct (handle_all evs1 (c0, m0)) as [c m] eqn:Hall.
  destruct Hseq as [Hsame Hview].
  destruct Hstep as [sm c1 ev evs ph c' cmds Hev Hh | sm c1 cmd cmds evs ph | sm c1 cmds evs
                 | sm c1 cmds evs]; cbn [sys_events sys_controller sys_pending sys_sm] in *.
  - exists (evs1 ++ [ev]). rewrite <- app_assoc. split; [done|].
    unfold handle_all in *. rewrite foldl_app, Hall. cbn [foldl].
    pose proof (handle_same ev c c1 m Hsame Hev) as [Hs Hm].
    pose proof (handle_carry (λ t, run t sm) ev c1 []) as Hrun.
    rewrite Hh in Hrun. unfold carry in Hrun. cbn [fst snd] in Hrun.
    pose proof (handle_carry (St1 := SM) store_view ev c1 sm) as Hvw.
    change (run [] sm) with sm in *. rewrite Hrun in Hvw. unfold carry in Hvw. cbn [fst snd] in Hvw.
    rewrite Hview in Hvw. rewrite Hvw in Hs, Hm. cbn [fst snd] in Hs, Hm.
    destruct (handle ev (c, m)) as [c2 m2]. simpl in *. by subst.
  - exists evs1. split; [done|]. by rewrite Hall.
  - exists evs1. split; [done|]. rewrite Hall. split; [done|].
    rewrite <- Hview. apply view_run. exact (view_ForceWrite sm).
  - exists evs1. split; [done|]. rewrite Hall. split; [|done].
    transitivity c1; [done|]. by exists true.
Qed.
(** C14. Interleavings do not matter to the maps: in every state the goroutines
    of a controller can reach, wherever the forced write came in, the public
    resources, once the running handler has made the rest of its calls, are those
    the sequential controller has after the events taken so far, and so are its
    records. *)
Theorem interleaving_sequential c0 sm0 evs s :
  reachable (initial c0 sm0 evs) s →
  ∃ evs1, evs = evs1 ++ sys_events s ∧
    let '(c, m) := handle_all evs1 (c0, store_view sm0) in
    Controller_resourceKeys (sys_controller s) = Controller_resourceKeys c
    ∧ store_view (run (sys_pending s) (sys_sm s)) = m.
Proof.
  intros Hr.
  assert (sequential c0 (store_view sm0) evs s) as (evs1 & Hevs & Hseq).
  { eapply (reachable_ind (sequential c0 (store_view sm0) evs)); [|exact Hr|].
    - intros s1 s2. apply sequential_step.
    - exists []. split; [done|]. split; [reflexivity | done]. }
  exists evs1. split; [done|].
  destruct (handle_all _ _) as [c m], Hseq as [[b ->] Hview]. done.
Qed.

(** ** Is the file up to date? *)

(** [Run] has stored the flag, and nothing that is still to come was decided
    before. *)
Definition steady (s : Sys Hd) : Prop :=
  sys_phase s = Synced ∧ Controller_synced (sys_controller s) = true
  ∧ forallb writes (sys_pending s) = true ∧ fresh (sys_sm s).

Lemma foldl_writes {A} (g : Trace → A → Trace) l t :
  (∀ t x, forallb writes t = true → forallb writes (g t x) = true) →
  forallb writes t = true → forallb writes (foldl g t l) = true.
Proof. intros Hg. revert t; induction l as [|x l IH]; intros t Ht; [done|]. simpl. auto. Qed.

Lemma writes_snoc t cmd : forallb writes t = true → writes cmd = true → forallb writes (t ++ [cmd]) = true.
Proof. intros Ht Hc. by rewrite forallb_app, Ht; simpl; rewrite Hc. Qed.

Lemma handle_writes ev c :
  is_handler ev = true → Controller_synced c = true →
  Controller_synced (handle ev (c, [] : Trace)).1 = true
  ∧ forallb writes (handle ev (c, [] : Trace)).2 = true.
Proof.
  intros Hev Hc.
  assert (∀ objKey, forallb writes (removeObject c objKey ([] : Trace)).2 = true) as Hrem.
  { intros. apply foldl_writes; [|done]. intros. by apply writes_snoc. }
  assert (∀ ord secrets o, Controller_synced (processObject ord secrets c o true ([] : Trace)).1 = true
    ∧ forallb writes (processObject ord secrets c o true ([] : Trace)).2 = true) as Hp.
  { intros. unfold processObject. destruct (negb _); [by split|]. cbv zeta.
    destruct (_ =? 0); [by split|]. split; [done|]. apply foldl_writes.
    - intros t [key r] Ht. by apply writes_snoc.
    - apply foldl_writes; [|done]. intros t old Ht. case_bool_decide; [done | by apply writes_snoc]. }
  destruct ev; simpl; [..|done]; unfold onAdd, onUpdate, onDelete;
    (destruct (toMetaObj c _); [|by split]); [rewrite Hc; apply Hp.. | by split].
Qed.

(** Once [Run] is through and no call decided before it is left, the file
    stays up to date for good: in every later state, between any two calls, it
    holds the current blueprint unless the last write failed. *)
Theorem steady_forever s s' :
  steady s → reachable s s' → steady s'.
Proof.
  intros Hs Hr. eapply (reachable_ind steady); [|exact Hr | exact Hs].
  intros s1 s2 Hstep (Hph & Hc & Hw & Hf).
  destruct Hstep as [sm c ev evs ph c' cmds Hev Hh | sm c cmd cmds evs ph | |];
    unfold steady in *; cbn [sys_phase sys_controller sys_pending sys_sm forallb] in *; try done.
  - pose proof (handle_writes ev c Hev Hc) as [Hc' Hw'].
    assert (handle ev (c, [] : Trace) = (c', cmds)) as Hh' by exact Hh.
    rewrite Hh' in Hc', Hw'. by split_and!.
  - apply andb_true_iff in Hw as [Hw Hws]. split_and!; [done..|]. by apply fresh_exec.
Qed.

(** ** An object handled again *)

(** The call stores an entry of [es]. *)
Definition stores (es : gmap string Resource) (cmd : Cmd) : Prop :=
  ∃ k r write, cmd = CAddOrUpdate k r write ∧ es !! k = Some r.

Lemma foldl_stores {A} es (g : Trace → A → Trace) l t :
  (∀ t x, x ∈ l → Forall (stores es) t → Forall (stores es) (g t x)) →
  Forall (stores es) t → Forall (stores es) (foldl g t l).
Proof.
  revert t; induction l as [|x l IH]; intros t Hg Ht; [done|]. cbn. apply IH.
  - intros t' y Hy. apply Hg. by right.
  - apply Hg; [by left | done].
Qed.

(** Handling an object that has its entries on record calls [AddOrUpdate] for
    these entries only. *)
Lemma processObject_again ord secrets c o write :
  (∀ k, k ∈ keys_of c (objKeyOf o) → is_Some (contribution c secrets o !! k)) →
  Forall (stores (contribution c secrets o)) (processObject ord secrets c o write ([] : Trace)).2.
Proof.
  unfold contribution, processObject.
  assert ((∀ k, k ∈ keys_of c (objKeyOf o) → is_Some ((∅ : gmap string Resource) !! k)) →
    keys_of c (objKeyOf o) = []) as Hnone.
  { intros Hk. apply elem_of_nil_inv. intros k [r [=]]%Hk. }
  destruct (ShouldProcess _ o _); cbn [negb].
  2:{ intros Hk. unfold removeObject. by rewrite (Hnone Hk). }
  set (es := entries_of _). cbv zeta. intros Hk. destruct (size es =? 0) eqn:Hz.
  { apply Nat.eqb_eq, map_size_empty_iff in Hz. rewrite Hz in Hk.
    unfold removeObject. by rewrite (Hnone Hk). }
  cbn [snd]. apply foldl_stores.
  - intros t [k r] Hin Ht. rewrite (order_entries_ok ord), elem_of_map_to_list in Hin.
    apply Forall_app_2; [done|]. apply Forall_singleton. by exists k, r, write.
  - apply foldl_stores; [|done]. intros t old Hold Ht. rewrite bool_decide_eq_true_2; [done|].
    apply elem_of_list_to_set, order_keys_elem. by apply Hk.
Qed.

(** Storing what is there does nothing, the file included. *)
Lemma stores_same es cmd sm : stores es cmd → es ⊆ store_view sm → exec cmd sm = sm.
Proof.
  intros (k & r & write & -> & Hk) Hes. apply exec_same; [|done].
  apply (lookup_weaken es (store_view sm)) in Hk; [|done].
  change (Blueprint_PublicResources (bp sm) !! k = Some r) in Hk.
  destruct (bp sm) as [pub priv]. cbn in *. by rewrite insert_id.
Qed.

(** The events and the running handler can be got through. *)
Lemma drains (s : Sys Hd) :
  forallb is_handler (sys_events s) = true → ∃ s', reachable s s' ∧ sys_events s' = [] ∧ sys_pending s' = [].
Proof.
  destruct s as [sm c pending evs ph]. cbn. revert sm c pending.
  induction evs as [|ev evs IH]; intros sm c pending Hev.
  - revert sm. induction pending as [|cmd pending IHp]; intros sm; [by eexists|].
    destruct (IHp (exec cmd sm)) as (s' & Hr & ?). exists s'. split; [|done].
    eapply rtc_l; [apply step_call | exact Hr].
  - apply andb_true_iff in Hev as [Hev Hevs].
    revert sm. induction pending as [|cmd pending IHp]; intros sm.
    + destruct (handle ev (c, [] : Trace)) as [c' cmds] eqn:E.
      destruct (IH sm c' cmds Hevs) as (s' & Hr & ?). exists s'. split; [|done].
      eapply rtc_l; [by eapply step_event | exact Hr].
    + destruct (IHp (exec cmd sm)) as (s' & Hr & ?). exists s'. split; [|done].
      eapply rtc_l; [apply step_call | exact Hr].
Qed.

End interleaving.

(** ** The lost write *)

Section race.
  Local Existing Instances quiet_env demo_k8s.

Definition web_resource (hostname : string) : Resource :=
  BuildResource "web" hostname (Some ∅) None defaultConfig.

Definition web_calls (write : bool) : Trace :=
  [CAddOrUpdate "a-example-com" (web_resource "a.example.com") write;
   CAddOrUpdate "b-example-com" (web_resource "b.example.com") write].

Definition web_keys : list string := ["a-example-com"; "b-example-com"].

(** The controller of the example with a record of the object, or none. *)
Definition demo_with (m : gmap string (list string)) (synced : bool) : Controller Handler :=
  set_synced synced (set_resourceKeys m demo).

Lemma keep_all (newKeys ks : list string) :
  ks ⊆ newKeys →
  foldl (λ (st : Trace) old,
    if bool_decide (old ∈ (list_to_set newKeys : gset string)) then st
    else (store_Remove old st).2) [] ks = [].
Proof.
  induction ks as [|k ks IH]; intros Hks; [done|]. cbn [foldl].
  rewrite bool_decide_eq_true_2; [apply IH; set_solver|].
  apply elem_of_list_to_set, Hks. by left.
Qed.

Lemma process_web m synced write :
  m !! "apps/web" = None ∨ m !! "apps/web" = Some web_keys →
  processObject key_order no_secrets (demo_with m synced) web write ([] : Trace)
  = (demo_with (<[ "apps/web" := web_keys ]> m) synced, web_calls write).
Proof.
  intros Hm. set (es := entries_of (httproute_buildEntries web None defaultConfig)).
  assert (order_keys key_order es = web_keys) as Hk by (vm_compute; reflexivity).
  assert (order_entries key_order es = [("a-example-com", web_resource "a.example.com");
    ("b-example-com", web_resource "b.example.com")]) as He by (vm_compute; reflexivity).
  assert ((size es =? 0) = false) as Hz by (vm_compute; reflexivity).
  unfold processObject.
  change (ShouldProcess _ web _) with (ShouldProcess (Controller_handler demo) web defaultConfig).
  assert (ShouldProcess (Controller_handler demo) web defaultConfig = true) as ->
    by (vm_compute; reflexivity).
  change (resolveAuthSecret _ _ web) with (resolveAuthSecret demo no_secrets web).
  assert (resolveAuthSecret demo no_secrets web = None) as -> by (vm_compute; reflexivity).
  cbv zeta. cbn [negb].
  change (entries_of (BuildEntries _ web None _)) with es. rewrite Hz, Hk, He.
  change (objKeyOf web) with "apps/web".
  rewrite keep_all; [done|].
  unfold keys_of. simpl. destruct Hm as [->| ->]; [apply list_subseteq_nil | done].
Qed.

(** The informer's periodic resync of the object. *)
Definition resync : Event :=
  EUpdate key_order no_secrets (EvUnstructured web) (EvUnstructured web).

(** The state after the handler read the flag, [Run] wrote the file, the handler
    made its calls and [Run] stored the flag. *)
Definition raced (evs : list Event) : Sys Handler :=
  mkSys (run (CForceWrite :: web_calls false) (start "bp.yaml" ∅))
    (demo_with {[ "apps/web" := web_keys ]} true) [] evs Synced.

Lemma race_steps evs :
  reachable (initial demo (start "bp.yaml" ∅) (add web :: evs)) (raced evs).
Proof.
  assert (handle (add web) (demo, [] : Trace)
    = (demo_with {[ "apps/web" := web_keys ]} false, web_calls false)) as Hh
    by exact (process_web ∅ false false (or_introl eq_refl)).
  eapply rtc_l; [eapply step_event; [done | exact Hh]|].
  eapply rtc_l; [eapply step_force|].
  do 2 (eapply rtc_l; [eapply step_call|]).
  eapply rtc_l; [eapply step_sync|]. constructor.
Qed.

(** The informer's resyncs of the object, with any orders, secrets and old
    objects. *)
Definition resyncs (rounds : list (RangeOrder * Secrets * EventObj)) : list Event :=
  (λ '(ord, secrets, old), EUpdate ord secrets old (EvUnstructured web)) <$> rounds.

(** Every call succeeded and the object is in the maps, but the file does not hold
    the current blueprint. *)
Definition stale (s : Sys Handler) : Prop :=
  is_Some (store_view (sys_sm s) !! "a-example-com")
  ∧ Manager_lastWriteErr (SM_manager (sys_sm s)) = None
  ∧ ∃ y, yaml_Marshal (bp (sys_sm s)) = Ok y ∧ out_file (sys_sm s) ≠ Some y.

Definition web_entries : gmap string Resource := contribution demo no_secrets web.

Lemma web_contribution c secrets : static demo c → contribution c secrets web = web_entries.
Proof.
  intros Hs. rewrite (static_contribution demo c secrets web Hs). unfold web_entries, contribution.
  assert (∀ secrets, resolveAuthSecret demo secrets web = None) as Hn by reflexivity. by rewrite !Hn.
Qed.

Definition raced_sm : SM := run (CForceWrite :: web_calls false) (start "bp.yaml" ∅).

Lemma raced_view : web_entries ⊆ store_view raced_sm.
Proof. apply (bool_decide_unpack _). vm_compute. exact I. Qed.

Lemma raced_stale s : sys_sm s = raced_sm → stale s.
Proof.
  intros E. unfold stale. rewrite E. split_and!.
  - eexists. vm_compute. reflexivity.
  - vm_compute. reflexivity.
  - exists "public: 2". split; vm_compute; [reflexivity | discriminate].
Qed.

(** Nothing but resyncs of the object is to come, and no call does anything. *)
Record stuck_stale (s : Sys Handler) : Prop := mkStuckStale {
  stuck_sm : sys_sm s = raced_sm;
  stuck_static : static demo (sys_controller s);
  stuck_keys k : k ∈ keys_of (sys_controller s) (objKeyOf web) → is_Some (web_entries !! k);
  stuck_pending : Forall (stores web_entries) (sys_pending s);
  stuck_events : ∃ rounds, sys_events s = resyncs rounds;
  stuck_phase : sys_phase s = Synced;
}.

Lemma stuck_step s s' : step s s' → stuck_stale s → stuck_stale s'.
Proof.
  intros Hstep [Hsm Hs Hk Hp [rounds Hev] Hph].
  destruct Hstep as [sm c ev evs ph c' cmds _ Hh | sm c cmd cmds evs ph | |];
    cbn [sys_sm sys_controller sys_pending sys_events sys_phase] in *; try done.
  - destruct rounds as [|[[ord secrets] old] rounds]; [done|]. injection Hev as -> ->.
    change (onUpdate (St := Trace) ord secrets c old (EvUnstructured web) [] = (c', cmds)) in Hh.
    unfold onUpdate in Hh. rewrite (static_toMetaObj demo c) in Hh by done.
    assert (toMetaObj demo (EvUnstructured web) = Ok web) as Hm by reflexivity. rewrite Hm in Hh.
    pose proof (processObject_ends (St := Trace) ord secrets c web (Controller_synced c) []) as He.
    pose proof (processObject_again ord secrets c web (Controller_synced c)) as Ha.
    cbv zeta in He. rewrite Hh in He, Ha. rewrite (web_contribution c secrets Hs) in He, Ha.
    destruct He as (Hs' & (Hk' & _) & _).
    split; cbn; [done | by transitivity c | intros k; by rewrite Hk' | by apply Ha | by exists rounds | done].
  - apply Forall_cons in Hp as [Hc Hp].
    split; cbn; [|done..|by exists rounds|done].
    rewrite (stores_same web_entries) by (done || (rewrite Hsm; apply raced_view)). done.
Qed.

Lemma raced_stuck rounds : stuck_stale (raced (resyncs rounds)).
Proof.
  split; [done | done | | constructor | by exists rounds | done].
  intros k Hk. assert (Forall (λ k, is_Some (web_entries !! k)) web_keys) as HF
    by (apply (bool_decide_unpack _); vm_compute; exact I).
  rewrite Forall_forall in HF. by apply HF.
Qed.

(** C22. The lost write, for good: there is an interleaving in which an object is
    recorded and every call succeeds, the handler and [Run] are through, and
    yet the file does not hold the current blueprint; from there on, however many
    resyncs of the object the informer hands to [onUpdate], with whatever orders
    and secrets, the file is out of date in every state that can be reached, and in
    particular when all of them have been handled. *)
Theorem lost_write rounds :
  ∃ s, reachable (initial demo (start "bp.yaml" ∅) (add web :: resyncs rounds)) s
    ∧ sys_events s = resyncs rounds ∧ sys_pending s = [] ∧ sys_phase s = Synced
    ∧ Controller_synced (sys_controller s) = true
    ∧ (∀ s', reachable s s' → stale s')
    ∧ ∃ s', reachable s s' ∧ sys_events s' = [] ∧ sys_pending s' = [].
Proof.
  exists (raced (resyncs rounds)). split; [apply race_steps|]. split_and!; [done..| |].
  - intros s' Hr. apply raced_stale, stuck_sm.
    eapply (reachable_ind stuck_stale); [apply stuck_step | exact Hr | apply raced_stuck].
  - apply drains. cbn. induction rounds as [|[[??]?] rounds IH]; [done | exact IH].
Qed.

Lemma interleaving_sequential_witness :
  ∃ evs1, [add web; resync] = evs1 ++ sys_events (raced [resync]) ∧
    let '(c, m) := handle_all evs1 (demo, store_view (start "bp.yaml" ∅)) in
    Controller_resourceKeys (sys_controller (raced [resync])) = Controller_resourceKeys c
    ∧ store_view (run (sys_pending (raced [resync])) (sys_sm (raced [resync]))) = m.
Proof.
  pose proof (interleaving_sequential demo (start "bp.yaml" ∅) [add web; resync] (raced [resync])
    (race_steps [resync])) as Hi.
  exact Hi.
Defined.

(** The same object, with the forced write after the calls of the handler. *)
Definition in_time : Sys Handler :=
  mkSys (run (web_calls false ++ [CForceWrite]) (start "bp.yaml" ∅))
    (demo_with {[ "apps/web" := web_keys ]} true) [] [add copy] Synced.

Definition in_time_next : Sys Handler :=
  mkSys (sys_sm in_time) (handle (add copy) (sys_controller in_time, [] : Trace)).1
    (handle (add copy) (sys_controller in_time, [] : Trace)).2 [] Synced.

Lemma in_time_step : reachable in_time in_time_next.
Proof.
  apply rtc_once, step_event; [done|].
  apply (surjective_pairing (handle (add copy) (sys_controller in_time, [] : Trace))).
Qed.

Lemma in_time_steady : steady in_time.
Proof.
  split_and!; [done..|]. unfold in_time. cbn [sys_sm]. rewrite run_app. apply fresh_writeState.
Qed.

Lemma steady_forever_witness : steady in_time ∧ steady in_time_next.
Proof.
  split; [exact in_time_steady|].
  exact (steady_forever in_time in_time_next in_time_steady in_time_step).
Defined.

End race.

(** ** What [main] starts *)

(** A configuration that passes [Validate] starts at least one controller. *)
Lemma controllers_start `{K8s} cfg : Validate cfg = None → controllers cfg ≠ [].
Proof.
  rewrite Validate_None_iff. intros (_ & _ & Hmode). unfold controllers.
  case_bool_decide as Hg; simpl; [|done].
  destruct (Config_EnableService cfg), (Config_AutoService cfg); simpl; naive_solver.
Qed.
