(* ===== verification/System.v ===== *)
(** * The whole sidecar: controllers and reconcilers over one manager

    [main] starts a controller per watched type and a reconciler per kind of
    custom resource; all of them call the methods of one state manager, in any
    order.  A thread is one of them, and a step of the system is a step of any
    thread.  As long as no key is claimed by two threads, each thread publishes
    what it would publish alone. *)

From stdpp Require Import options.
From S2P Require Import Prelude GoStrings Config Blueprint BlueprintProps StateManager Store.
From S2P Require Import StateProps Resources HttpRoute Service Controller ControllerProps Client.
From S2P Require Import Sidecar.
From S2P Require CrdPublic CrdPrivate.

Local Open Scope go_scope.

(** ** Definitions *)

(** *** Requests *)

(** A request of controller-runtime, with the answers of the client while it is
    served. *)
Inductive Request : Type :=
| PublicRequest (r : CrdPublic.Reconciler) (Get : Getter CrdPublic.PublicResource)
    (GetSecret : Getter (gmap string string)) (req : NamespacedName)
| PrivateRequest (r : CrdPrivate.Reconciler) (Get : Getter CrdPrivate.PrivateResourceSpec)
    (req : NamespacedName).

Definition serve `{Env} (rq : Request) : M (option APIError) :=
  match rq with
  | PublicRequest r Get GetSecret req => CrdPublic.Reconcile r Get GetSecret req
  | PrivateRequest r Get req => CrdPrivate.Reconcile r Get req
  end.

(** The call of the manager a request ends in, if it does. *)
Definition request_calls (rq : Request) : Trace :=
  match rq with
  | PublicRequest r Get GetSecret req =>
      match Get req with
      | Err e => if IsNotFound e then [CRemove (NN_Name req)] else []
      | Ok o =>
          match CrdPublic.validate (CrdPublic.PublicResource_Spec o) with
          | Some _ => []
          | None =>
              [CAddOrUpdate (NN_Name req)
                 (CrdPublic.buildResource (CrdPublic.PublicResource_Spec o)
                    (CrdPublic.resolveAuthSecret GetSecret o) (CrdPublic.Reconciler_SiteID r)) true]
          end
      end
  | PrivateRequest r Get req =>
      match Get req with
      | Err e => if IsNotFound e then [CRemovePrivate (NN_Name req)] else []
      | Ok spec =>
          match CrdPrivate.validate spec with
          | Some _ => []
          | None => [CAddOrUpdatePrivate (NN_Name req) (CrdPrivate.private_resource r spec) true]
          end
      end
  end.

(** A key of the public map on the left, of the private map on the right. *)
Abbreviation Key := (string + string)%type.

(** *** Threads *)

Section system.
  Context `{K8s} {Hd : Type} `{!ResourceHandler Hd} `{Env}.

(** A controller as in [Sidecar]; a reconciler with the calls of the request it
    serves and the requests to come: controller-runtime gives it one at a time. *)
Inductive Thread : Type :=
| TController (c : Controller Hd) (pending : Trace) (events : list Event) (phase : RunPhase)
| TReconciler (pending : Trace) (requests : list Request).

(** One step of a thread, with the call it makes of the manager. *)
Inductive thread_step : Thread → option Cmd → Thread → Prop :=
| thread_event c ev evs ph c' cmds :
    is_handler ev = true → handle ev (c, []) = (c', cmds) →
    thread_step (TController c [] (ev :: evs) ph) None (TController c' cmds evs ph)
| thread_call c cmd cmds evs ph :
    thread_step (TController c (cmd :: cmds) evs ph) (Some cmd) (TController c cmds evs ph)
| thread_force c cmds evs :
    thread_step (TController c cmds evs Waiting) (Some CForceWrite) (TController c cmds evs Forced)
| thread_sync c cmds evs :
    thread_step (TController c cmds evs Forced) None (TController (set_synced true c) cmds evs Synced)
| thread_request rq rqs :
    thread_step (TReconciler [] (rq :: rqs)) None (TReconciler (request_calls rq) rqs)
| thread_reply cmd cmds rqs :
    thread_step (TReconciler (cmd :: cmds) rqs) (Some cmd) (TReconciler cmds rqs).

Record System : Type := mkSystem {
  system_sm : SM;
  system_threads : list Thread;
}.

Definition call (oc : option Cmd) (sm : SM) : SM :=
  match oc with Some cmd => exec cmd sm | None => sm end.

Inductive system_step : System → System → Prop :=
| system_moves sm ths i th oc th' :
    ths !! i = Some th → thread_step th oc th' →
    system_step (mkSystem sm ths) (mkSystem (call oc sm) (<[ i := th' ]> ths)).

(** A thread with nothing left to do. *)
Definition finished (th : Thread) : bool :=
  match th with
  | TController _ [] [] Synced => true
  | TReconciler [] [] => true
  | _ => false
  end.

(** The events of a controller are events of the informer. *)
Definition informer_only (th : Thread) : Prop :=
  match th with
  | TController _ _ evs _ => forallb is_handler evs = true
  | TReconciler _ _ => True
  end.

(** *** Keys *)

Definition entry (b : Blueprint) (k : Key) : option (Resource + PrivateResource) :=
  match k with
  | inl k => inl <$> Blueprint_PublicResources b !! k
  | inr k => inr <$> Blueprint_PrivateResources b !! k
  end.

(** The key a call is about. *)
Definition cmd_key (c : Cmd) : option Key :=
  match c with
  | CAddOrUpdate k _ _ | CRemove k => Some (inl k)
  | CAddOrUpdatePrivate k _ _ | CRemovePrivate k => Some (inr k)
  | CForceWrite => None
  end.

Definition trace_keys (t : Trace) : gset Key := list_to_set (omap cmd_key t).

(** The keys of the object an event is about. *)
Definition event_keys (c : Controller Hd) (ev : Event) : gset string :=
  match ev with
  | EAdd _ secrets obj | EUpdate _ secrets _ obj =>
      match toMetaObj c obj with
      | Ok o => dom (contribution c secrets o)
      | Err _ => ∅
      end
  | _ => ∅
  end.

Definition record_keys (c : Controller Hd) : gset string :=
  list_to_set (concat (map_to_list (Controller_resourceKeys c)).*2).

(** The keys a thread may ever touch: those it is about to, those on record, and
    those of the objects and requests to come. *)
Definition claims (th : Thread) : gset Key :=
  match th with
  | TController c pending evs _ =>
      trace_keys pending ∪ set_map inl (record_keys c ∪ ⋃ (event_keys c <$> evs))
  | TReconciler pending rqs =>
      trace_keys pending ∪ trace_keys (concat (request_calls <$> rqs))
  end.

(** No key is claimed by two threads. *)
Definition disjoint_claims (ths : list Thread) : Prop :=
  ∀ i j th1 th2, ths !! i = Some th1 → ths !! j = Some th2 → i ≠ j → claims th1 ## claims th2.

(** No thread but the [i]th claims the key. *)
Definition left_to (i : nat) (k : Key) (ths : list Thread) : Prop :=
  ∀ j th, ths !! j = Some th → j ≠ i → k ∉ claims th.

End system.

Arguments Thread {_} Hd.
Arguments System {_} Hd.

(** ** Requests *)

(** A request is its call. *)
Lemma serve_calls `{Env} rq s : (serve rq s).2 = run (request_calls rq) s.
Proof.
  destruct rq as [r Get GetSecret req|r Get req]; cbn [serve request_calls].
  - rewrite CrdPublic.public_Reconcile_cmds. destruct (Get req) as [o|e]; [|by destruct (IsNotFound e)].
    by destruct (CrdPublic.validate _).
  - rewrite CrdPrivate.private_Reconcile_cmds. destruct (Get req) as [o|e]; [|by destruct (IsNotFound e)].
    by destruct (CrdPrivate.validate _).
Qed.

(** ** Termination *)

Section termination.
  Context `{K8s} {Hd : Type} `{!ResourceHandler Hd} `{Env}.
  Local Set Default Proof Using "Type*".
  Implicit Types (th : Thread Hd) (s : System Hd).

(** What a thread has to take up, and the calls it is in the middle of. *)
Definition to_come th : nat :=
  match th with
  | TController _ _ evs ph =>
      length evs + match ph with Waiting => 2 | Forced => 1 | Synced => 0 end
  | TReconciler _ rqs => length rqs
  end.

Definition in_hand th : nat :=
  match th with TController _ pending _ _ | TReconciler pending _ => length pending end.

Definition work s : nat * nat :=
  (sum_list_with to_come (system_threads s), sum_list_with in_hand (system_threads s)).

Lemma sum_list_update (f : Thread Hd → nat) ths i th th' :
  ths !! i = Some th →
  sum_list_with f (<[ i := th' ]> ths) + f th = sum_list_with f ths + f th'.
Proof.
  revert i; induction ths as [|th0 ths IH]; intros [|i] Hi; simplify_eq/=; [lia|].
  specialize (IH i Hi). lia.
Qed.

Lemma thread_step_work th oc th' :
  thread_step th oc th' →
  to_come th' < to_come th ∨ to_come th' = to_come th ∧ in_hand th' < in_hand th.
Proof. destruct 1; cbn; lia. Qed.

Lemma system_step_work s s' :
  system_step s s' →
  (work s').1 < (work s).1 ∨ (work s').1 = (work s).1 ∧ (work s').2 < (work s).2.
Proof.
  destruct 1 as [sm ths i th oc th' Hi Hs]. unfold work. cbn [system_threads fst snd].
  pose proof (sum_list_update to_come ths i th th' Hi).
  pose proof (sum_list_update in_hand ths i th th' Hi).
  apply thread_step_work in Hs. lia.
Qed.

Lemma system_sn s : sn system_step s.
Proof.
  remember (work s).1 as n eqn:Hn. revert s Hn.
  induction (lt_wf n) as [n _ IHn]. intros s Hn.
  remember (work s).2 as m eqn:Hm. revert s Hn Hm.
  induction (lt_wf m) as [m _ IHm]. intros s -> ->.
  constructor. intros s' Hs. apply system_step_work in Hs as [Hlt|[Heq Hlt]]; eauto.
Qed.

(** A thread that is not finished can move. *)
Lemma thread_progress th :
  informer_only th → finished th = false → ∃ oc th', thread_step th oc th'.
Proof.
  destruct th as [c [|cmd cmds] evs ph|[|cmd cmds] rqs]; cbn; intros Hev Hf.
  - destruct evs as [|ev evs].
    + destruct ph; [eexists _, _; apply thread_force | eexists _, _; apply thread_sync | done].
    + apply andb_true_iff in Hev as [Hev _]. destruct (handle ev (c, [])) as [c' cmds] eqn:E.
      eexists _, _. by eapply thread_event.
  - eexists _, _. apply thread_call.
  - destruct rqs as [|rq rqs]; [done|]. eexists _, _. apply thread_request.
  - eexists _, _. apply thread_reply.
Qed.

Lemma finished_stuck th oc th' : finished th = true → ¬ thread_step th oc th'.
Proof. intros Hf Hs. destruct Hs; cbn in Hf; repeat case_match; done. Qed.

Lemma thread_step_informer th oc th' : thread_step th oc th' → informer_only th → informer_only th'.
Proof. destruct 1; cbn; try done. by intros [_ ?]%andb_true_iff. Qed.

Lemma system_step_informer s s' :
  system_step s s' → Forall informer_only (system_threads s) → Forall informer_only (system_threads s').
Proof.
  destruct 1 as [sm ths i th oc th' Hi Hs]. cbn. intros Ha. apply Forall_insert; [done|].
  eapply thread_step_informer; [done|]. by eapply Forall_lookup_1.
Qed.

Lemma system_informer s s' :
  rtc system_step s s' → Forall informer_only (system_threads s) → Forall informer_only (system_threads s').
Proof.
  intros Hr. induction Hr as [|s0 s1 s2 Hs _ IH]; [done|]. intros Ha. apply IH.
  by eapply system_step_informer.
Qed.

Lemma system_stuck_iff s :
  Forall informer_only (system_threads s) →
  nf system_step s ↔ forallb finished (system_threads s) = true.
Proof.
  intros Ha. rewrite forallb_forall. split.
  - intros Hnf th Hin. destruct (finished th) eqn:Hf; [done|]. destruct Hnf.
    apply list_elem_of_In, list_elem_of_lookup in Hin as [i Hi].
    destruct (thread_progress th) as (oc & th' & Hs); [by eapply Forall_lookup_1 | done|].
    destruct s as [sm ths]. eexists. by econstructor.
  - intros Hf [s' Hs]. destruct Hs as [sm ths i th oc th' Hi Hs].
    eapply finished_stuck, Hs. apply Hf, list_elem_of_In. by eapply list_elem_of_lookup_2.
Qed.

End termination.

(** ** Taking a run of the system apart *)

Section decompose.
  Context `{K8s} {Hd : Type} `{!ResourceHandler Hd} `{Env}.
  Local Set Default Proof Using "Type*".
  Implicit Types (th : Thread Hd) (s : System Hd).

(** The calls of a thread that runs by itself. *)
Inductive alone : Thread Hd → Trace → Thread Hd → Prop :=
| alone_nil th : alone th [] th
| alone_snoc th tr th1 oc th2 :
    alone th tr th1 → thread_step th1 oc th2 → alone th (tr ++ option_list oc) th2.

(** The calls of a run, each with the number of its thread. *)
Local Abbreviation Calls := (list (nat * Cmd)).

Definition calls_of (i : nat) (tr : Calls) : Trace := (filter (λ x, x.1 = i) tr).*2.

Lemma calls_of_app i tr1 tr2 : calls_of i (tr1 ++ tr2) = calls_of i tr1 ++ calls_of i tr2.
Proof. unfold calls_of. by rewrite filter_app, fmap_app. Qed.

Lemma calls_of_tagged i j (oc : option Cmd) :
  calls_of i (pair j <$> option_list oc) = if decide (j = i) then option_list oc else [].
Proof.
  unfold calls_of. destruct oc as [cmd|]; [|by destruct (decide (j = i))].
  change (pair j <$> option_list (Some cmd)) with [(j, cmd)].
  rewrite filter_cons. cbn [fst]. by case_decide.
Qed.

(** [s] is reached from [s0] by the calls [tr]: the manager has executed them in
    this order, and every thread has got where it gets by itself with its own. *)
Definition interleaves s0 (tr : Calls) s : Prop :=
  system_sm s = run tr.*2 (system_sm s0)
  ∧ length (system_threads s) = length (system_threads s0)
  ∧ Forall (λ x, x.1 < length (system_threads s0)) tr
  ∧ ∀ i th0 th, system_threads s0 !! i = Some th0 → system_threads s !! i = Some th →
      alone th0 (calls_of i tr) th.

Lemma interleaves_refl s : interleaves s [] s.
Proof.
  split_and!; [done..|constructor|]. intros i th0 th Hi0 Hi1. simplify_eq. apply alone_nil.
Qed.

Lemma interleaves_step s0 tr s s' :
  interleaves s0 tr s → system_step s s' → ∃ tr', interleaves s0 tr' s'.
Proof.
  intros (Hsm & Hl & Htags & Hal) Hs. destruct Hs as [sm ths j th oc th' Hj Hs].
  cbn [system_sm system_threads] in *. subst sm.
  exists (tr ++ (pair j <$> option_list oc)). split_and!; cbn [system_sm system_threads].
  - rewrite fmap_app, run_app. by destruct oc.
  - by rewrite length_insert.
  - apply Forall_app. split; [done|]. apply lookup_lt_Some in Hj. rewrite Hl in Hj.
    destruct oc; cbn; [by constructor | constructor].
  - intros i th0 th1 Hi0 Hi1. rewrite calls_of_app, calls_of_tagged.
    destruct (decide (j = i)) as [->|Hne].
    + rewrite list_lookup_insert_eq in Hi1 by (by eapply lookup_lt_Some). simplify_eq.
      by eapply alone_snoc; [apply Hal|].
    + rewrite list_lookup_insert_ne in Hi1 by done. rewrite app_nil_r. by apply Hal.
Qed.

Lemma reachable_interleaves s0 s : rtc system_step s0 s → ∃ tr, interleaves s0 tr s.
Proof.
  intros Hr. cut (∀ s1 tr, interleaves s0 tr s1 → rtc system_step s1 s → ∃ tr', interleaves s0 tr' s).
  { intros Hc. by apply (Hc s0 []); [apply interleaves_refl|]. }
  clear Hr. intros s1 tr Ht Hr. revert tr Ht.
  induction Hr as [s|s1 s2 s3 Hs _ IH]; intros tr Ht; [by exists tr|].
  destruct (interleaves_step _ _ _ _ Ht Hs) as [tr' Ht']. by apply (IH tr').
Qed.

(** ** Keys of their own *)

Lemma entry_other c b k : cmd_key c ≠ Some k → entry (abs_exec c b) k = entry b k.
Proof.
  destruct b as [pub priv], c as [k'|k'|k'|k'|], k as [k|k]; cbn; intros Hk; try done;
    by rewrite ?lookup_insert_ne, ?lookup_delete_ne by congruence.
Qed.

Lemma entry_local c b b' k : entry b k = entry b' k → entry (abs_exec c b) k = entry (abs_exec c b') k.
Proof.
  intros Hb. destruct (decide (cmd_key c = Some k)) as [Hk|Hk]; [|by rewrite !entry_other].
  destruct b as [pub priv], b' as [pub' priv'], c as [k'|k'|k'|k'|], k as [k|k]; cbn in *; simplify_eq;
    by rewrite ?lookup_insert_eq, ?lookup_delete_eq.
Qed.

(** The maps after a list of calls. *)
Definition abs_run (t : Trace) (b : Blueprint) : Blueprint := foldl (λ b c, abs_exec c b) b t.

Lemma abs_run_other t b k : k ∉ trace_keys t → entry (abs_run t b) k = entry b k.
Proof.
  unfold trace_keys. induction t as [|c t IH] using rev_ind; [done|].
  rewrite omap_app, list_to_set_app_L. intros Hk. unfold abs_run. rewrite foldl_app. cbn [foldl].
  rewrite entry_other.
  - apply IH. set_solver.
  - intros Hc. apply Hk, elem_of_union_r. cbn. rewrite Hc. set_solver.
Qed.

(** A key that one thread alone touches holds what that thread's calls make of it. *)
Lemma abs_run_own (tr : Calls) b i k :
  (∀ j c, (j, c) ∈ tr → cmd_key c = Some k → j = i) →
  entry (abs_run tr.*2 b) k = entry (abs_run (calls_of i tr) b) k.
Proof.
  induction tr as [|[j c] tr IH] using rev_ind; intros Hown; [done|].
  rewrite fmap_app, calls_of_app. unfold abs_run. rewrite !foldl_app. cbn [foldl fmap list_fmap].
  change (pair j c) with (j, c) in *. unfold calls_of at 2. rewrite filter_cons. cbn [fst].
  assert (entry (abs_run tr.*2 b) k = entry (abs_run (calls_of i tr) b) k) as IH'.
  { apply IH. intros j' c' Hin. apply Hown, elem_of_app. by left. }
  case_decide as Hj; cbn.
  - by apply entry_local.
  - rewrite entry_other; [done|]. intros Hc. apply Hj, (Hown j c); [|done].
    apply elem_of_app. right. by left.
Qed.

End decompose.

(** ** What a thread can touch *)

Section claims.
  Context `{K8s} {Hd : Type} `{!ResourceHandler Hd} `{Env}.
  Local Set Default Proof Using "Type*".
  Implicit Types (c : Controller Hd) (th : Thread Hd).

Lemma trace_keys_app t1 t2 : trace_keys (t1 ++ t2) = trace_keys t1 ∪ trace_keys t2.
Proof. unfold trace_keys. by rewrite omap_app, list_to_set_app_L. Qed.

Lemma trace_keys_cons cmd t : trace_keys (cmd :: t) = trace_keys [cmd] ∪ trace_keys t.
Proof. apply (trace_keys_app [cmd]). Qed.

Lemma trace_keys_one cmd k : cmd_key cmd = Some k → trace_keys [cmd] = {[ k ]}.
Proof. unfold trace_keys. cbn. intros ->. cbn. set_solver. Qed.

Lemma trace_keys_elem cmd t k : cmd ∈ t → cmd_key cmd = Some k → k ∈ trace_keys t.
Proof. intros Hin Hk. apply elem_of_list_to_set, list_elem_of_omap. by exists cmd. Qed.

Lemma foldl_keys {A} (g : Trace → A → Trace) (l : list A) (t : Trace) (K : gset Key) :
  (∀ t x, x ∈ l → trace_keys t ⊆ K → trace_keys (g t x) ⊆ K) →
  trace_keys t ⊆ K → trace_keys (foldl g t l) ⊆ K.
Proof.
  revert t; induction l as [|x l IH]; intros t Hg Ht; [done|]. cbn [foldl]. apply IH.
  - intros t' y Hy. apply Hg. by right.
  - apply Hg; [by left | done].
Qed.

Lemma keys_of_recorded c objKey k : k ∈ keys_of c objKey → k ∈ record_keys c.
Proof.
  unfold keys_of, record_keys. destruct (Controller_resourceKeys c !! objKey) as [ks|] eqn:Hks;
    cbn; [|by intros ?%elem_of_nil].
  intros Hk. apply elem_of_list_to_set, list_elem_of_In, in_concat. exists ks. split.
  - apply list_elem_of_In, list_elem_of_fmap. exists (objKey, ks). split; [done|].
    by apply elem_of_map_to_list.
  - by apply list_elem_of_In.
Qed.

Lemma record_keys_elem c k :
  k ∈ record_keys c ↔ ∃ objKey ks, Controller_resourceKeys c !! objKey = Some ks ∧ k ∈ ks.
Proof.
  split.
  - intros Hk. apply elem_of_list_to_set, list_elem_of_In, in_concat in Hk as (ks & Hks & Hk).
    apply list_elem_of_In, list_elem_of_fmap in Hks as ([o ks'] & -> & Ho%elem_of_map_to_list).
    exists o, ks'. split; [done|]. by apply list_elem_of_In.
  - intros (o & ks & Ho & Hk). apply (keys_of_recorded c o). unfold keys_of. by rewrite Ho.
Qed.

(** The record of a processed object lists what it contributes. *)
Lemma recorded_keys objKey es c c' :
  recorded objKey es c c' → record_keys c' ⊆ record_keys c ∪ dom es.
Proof.
  intros (Hk & _ & Ho) k (o & ks & Hks & Hin)%record_keys_elem. apply elem_of_union.
  destruct (decide (o = objKey)) as [->|Hne].
  - right. apply elem_of_dom, Hk. unfold keys_of. by rewrite Hks.
  - left. apply record_keys_elem. exists o, ks. by rewrite <- Ho.
Qed.

Lemma snoc_Remove k t : trace_keys (store_Remove k t).2 = trace_keys t ∪ {[ inl k ]}.
Proof.
  change (trace_keys (t ++ [CRemove k]) = trace_keys t ∪ {[ inl k ]}).
  by rewrite trace_keys_app, (trace_keys_one _ (inl k)).
Qed.

Lemma snoc_AddOrUpdate k r write t :
  trace_keys (store_AddOrUpdate k r write t).2 = trace_keys t ∪ {[ inl k ]}.
Proof.
  change (trace_keys (t ++ [CAddOrUpdate k r write]) = trace_keys t ∪ {[ inl k ]}).
  by rewrite trace_keys_app, (trace_keys_one _ (inl k)).
Qed.

Lemma removeObject_keys c objKey t :
  trace_keys (removeObject c objKey t).2 ⊆ trace_keys t ∪ set_map inl (record_keys c).
Proof.
  apply foldl_keys; [|set_solver]. intros t' k Hk%keys_of_recorded Ht.
  rewrite snoc_Remove; set_solver.
Qed.

Lemma processObject_keys ord secrets c o write t :
  trace_keys (processObject ord secrets c o write t).2
  ⊆ trace_keys t ∪ set_map inl (record_keys c ∪ dom (contribution c secrets o)).
Proof.
  assert (∀ objKey, trace_keys (removeObject c objKey t).2
    ⊆ trace_keys t ∪ set_map inl (record_keys c ∪ dom (contribution c secrets o))) as Hrem.
  { intros objKey. etrans; [apply removeObject_keys|]. set_solver. }
  unfold contribution, processObject in *.
  destruct (ShouldProcess _ o _); cbn [negb]; [|apply Hrem]. cbv zeta.
  destruct (_ =? 0); [apply Hrem|]. cbn [snd]. apply foldl_keys.
  - intros t' [k r] Hin Ht. rewrite snoc_AddOrUpdate.
    rewrite (order_entries_ok ord), elem_of_map_to_list in Hin.
    apply elem_of_dom_2 in Hin. set_solver.
  - apply foldl_keys; [|set_solver]. intros t' k Hk%keys_of_recorded Ht.
    case_bool_decide; [done|]. rewrite snoc_Remove; set_solver.
Qed.

(** An event touches what is on record and what its object contributes; no more
    gets on record. *)
Lemma handle_keys ev c :
  is_handler ev = true →
  trace_keys (handle ev (c, [] : Trace)).2 ⊆ set_map inl (record_keys c ∪ event_keys c ev)
  ∧ record_keys (handle ev (c, [] : Trace)).1 ⊆ record_keys c ∪ event_keys c ev.
Proof.
  intros Hev. assert (∀ ord secrets o,
    let '(c', t) := processObject ord secrets c o (Controller_synced c) ([] : Trace) in
    trace_keys t ⊆ set_map inl (record_keys c ∪ dom (contribution c secrets o))
    ∧ record_keys c' ⊆ record_keys c ∪ dom (contribution c secrets o)) as Hp.
  { intros ord secrets o.
    pose proof (processObject_keys ord secrets c o (Controller_synced c) []) as Ht.
    pose proof (processObject_ends ord secrets c o (Controller_synced c) ([] : Trace)) as He.
    cbv zeta in He. destruct (processObject _ _ _ _ _ _) as [c' t], He as (_ & Hr & _).
    split; [set_solver | by eapply recorded_keys]. }
  destruct ev as [ord secrets obj|ord secrets old new|obj|b]; [..|done]; cbn.
  - unfold onAdd. destruct (toMetaObj c obj) as [o|e]; [|split; set_solver].
    specialize (Hp ord secrets o). by destruct (processObject _ _ _ _ _ _).
  - unfold onUpdate. destruct (toMetaObj c new) as [o|e]; [|split; set_solver].
    specialize (Hp ord secrets o). by destruct (processObject _ _ _ _ _ _).
  - unfold onDelete. destruct (toMetaObj c _) as [o|e]; [|split; set_solver].
    pose proof (removeObject_keys c (objKeyOf o) []) as Ht.
    pose proof (removeObject_ends c (objKeyOf o) ([] : Trace)) as He.
    change (removeObject c (GetNamespace o +:+ "/" +:+ GetName o) []) with (removeObject c (objKeyOf o) []).
    destruct (removeObject _ _ _) as [c' t], He as (_ & Hr & _).
    apply recorded_keys in Hr. cbn in *. split; set_solver.
Qed.

Lemma static_event_keys c c' ev : static c c' → event_keys c' ev = event_keys c ev.
Proof.
  intros Hs. destruct ev; simpl; rewrite ?(static_toMetaObj c c') by done; try done;
    destruct (toMetaObj c _); by rewrite ?(static_contribution c c').
Qed.

(** A step touches what the thread claims, and claims nothing new. *)
Lemma thread_step_claims th oc th' :
  thread_step th oc th' →
  claims th' ⊆ claims th ∧ trace_keys (option_list oc) ⊆ claims th.
Proof.
  destruct 1 as [c ev evs ph c' cmds Hev Hh|c cmd cmds evs ph|c cmds evs|c cmds evs|rq rqs|cmd cmds rqs];
    cbn [claims option_list].
  - assert (handle ev (c, [] : Trace) = (c', cmds)) as Hh' by exact Hh. clear Hh.
    pose proof (handle_keys ev c Hev) as [Ht Hr]. rewrite Hh' in Ht, Hr. cbn [fst snd] in Ht, Hr.
    pose proof (handle_static ev c ([] : Trace)) as Hs. rewrite Hh' in Hs. cbn [fst] in Hs.
    assert (event_keys c' <$> evs = event_keys c <$> evs) as ->
      by (apply list_fmap_ext; intros; by apply static_event_keys).
    rewrite fmap_cons. cbn [union_list]. split; set_solver.
  - rewrite (trace_keys_cons cmd). split; set_solver.
  - split; set_solver.
  - split; set_solver.
  - rewrite fmap_cons. cbn [concat]. rewrite trace_keys_app. split; set_solver.
  - rewrite (trace_keys_cons cmd). split; set_solver.
Qed.

Lemma alone_claims th tr th' :
  alone th tr th' → claims th' ⊆ claims th ∧ trace_keys tr ⊆ claims th.
Proof.
  induction 1 as [th|th tr th1 oc th2 _ IH Hs]; [split; set_solver|].
  apply thread_step_claims in Hs. rewrite trace_keys_app. split; set_solver.
Qed.

End claims.

(** ** Every thread does what it does alone *)

Section isolation.
  Context `{K8s} {Hd : Type} `{!ResourceHandler Hd} `{Env}.
  Local Set Default Proof Using "Type*".
  Implicit Types (c : Controller Hd) (th : Thread Hd) (s : System Hd).

(** A controller alone is the system of [Sidecar]. *)
Lemma alone_controller th tr th' c p evs ph sm :
  alone th tr th' → th = TController c p evs ph →
  ∃ c' p' evs' ph', th' = TController c' p' evs' ph'
    ∧ reachable (mkSys sm c p evs ph) (mkSys (run tr sm) c' p' evs' ph').
Proof.
  induction 1 as [th|th tr th1 oc th2 _ IH Hs]; intros ->; [by eexists _, _, _, _|].
  destruct (IH eq_refl) as (c1 & p1 & evs1 & ph1 & -> & Hr).
  rewrite run_app. inversion Hs; subst; eexists _, _, _, _; (split; [reflexivity|]);
    (eapply rtc_r; [exact Hr|]); cbn; by constructor.
Qed.

(** A reconciler alone serves its requests one after the other. *)
Lemma alone_reconciler th tr th' rqs :
  alone th tr th' → th = TReconciler [] rqs →
  ∃ p' rqs1 rqs2, th' = TReconciler p' rqs2 ∧ rqs = rqs1 ++ rqs2
    ∧ tr ++ p' = concat (request_calls <$> rqs1).
Proof.
  induction 1 as [th|th tr th1 oc th2 _ IH Hs]; intros ->; [by exists [], [], rqs|].
  destruct (IH eq_refl) as (p1 & rqs1 & rqs2 & -> & -> & Htr).
  inversion Hs; subst; cbn [option_list].
  - eexists _, (rqs1 ++ [rq]), _. split_and!; [done | by rewrite <- app_assoc|].
    rewrite app_nil_r in *. rewrite fmap_app, concat_app, <- Htr. cbn. by rewrite !app_nil_r.
  - eexists _, rqs1, _. split_and!; [done..|]. rewrite <- Htr, <- app_assoc. done.
Qed.

Lemma entry_view (s1 s2 : SM) (k : string) :
  entry (bp s1) (inl k) = entry (bp s2) (inl k) → store_view s1 !! k = store_view s2 !! k.
Proof. cbn. unfold store_view. cbn. intros Hk. by apply (inj (fmap inl)) in Hk. Qed.

Lemma abs_run_local t b b' k : entry b k = entry b' k → entry (abs_run t b) k = entry (abs_run t b') k.
Proof. revert b b'; induction t as [|c t IH]; intros b b' Hb; [done|]. by apply IH, entry_local. Qed.

Lemma disjoint_left ths i (th0 : Thread Hd) k :
  disjoint_claims ths → ths !! i = Some th0 → k ∈ claims th0 → left_to i k ths.
Proof. intros Hdis Hi Hk j th Hj Hne Hk'. exact (Hdis _ _ _ _ Hj Hi Hne k Hk' Hk). Qed.

(** The calls on a key no other thread claims are those of the thread. *)
Lemma interleaves_own s0 tr s i k :
  interleaves s0 tr s → left_to i k (system_threads s0) →
  ∀ j (cmd : Cmd), (j, cmd) ∈ tr → cmd_key cmd = Some k → j = i.
Proof.
  intros (_ & Hl & Htags & Hal) Hleft j cmd Hin Hc.
  destruct (decide (j = i)) as [|Hne]; [done|]. exfalso.
  rewrite Forall_forall in Htags. pose proof (Htags _ Hin) as Hj. cbn in Hj.
  destruct (lookup_lt_is_Some_2 (system_threads s0) j Hj) as [th1 H1].
  destruct (lookup_lt_is_Some_2 (system_threads s) j) as [th1' H1']; [by rewrite Hl|].
  pose proof (alone_claims _ _ _ (Hal j th1 th1' H1 H1')) as [_ Hkeys].
  apply (Hleft j th1 H1 Hne), Hkeys, (trace_keys_elem cmd); [|done]. unfold calls_of.
  apply list_elem_of_fmap. exists (j, cmd). split; [done|]. by apply list_elem_of_filter.
Qed.

(** What such a key holds once the thread has made its pending calls. *)
Lemma interleaves_entry s0 tr s i k p :
  interleaves s0 tr s → left_to i k (system_threads s0) →
  entry (bp (run p (system_sm s))) k
  = entry (bp (run p (run (calls_of i tr) (system_sm s0)))) k.
Proof.
  intros Ht Hleft. pose proof (interleaves_own s0 tr s i k Ht Hleft) as Hown.
  destruct Ht as (-> & _). rewrite !run_bp. apply abs_run_local. by apply abs_run_own.
Qed.

Lemma interleaves_thread s0 tr s i th0 :
  interleaves s0 tr s → system_threads s0 !! i = Some th0 →
  ∃ th, system_threads s !! i = Some th ∧ alone th0 (calls_of i tr) th.
Proof.
  intros (_ & Hl & _ & Hal) Hi.
  destruct (lookup_lt_is_Some_2 (system_threads s) i) as [th Hth].
  { rewrite Hl. by eapply lookup_lt_Some. }
  exists th. split; [done|]. by apply Hal.
Qed.

Lemma controller_isolated s0 s i c0 evs :
  rtc system_step s0 s →
  system_threads s0 !! i = Some (TController c0 [] evs Waiting) →
  ∃ c pending evs1 evs2 ph,
    system_threads s !! i = Some (TController c pending evs2 ph) ∧ evs = evs1 ++ evs2 ∧
    let '(c1, m) := handle_all evs1 (c0, store_view (system_sm s0)) in
    Controller_resourceKeys c = Controller_resourceKeys c1
    ∧ ∀ k, left_to i (inl k) (system_threads s0) →
        store_view (run pending (system_sm s)) !! k = m !! k.
Proof.
  intros [tr Ht]%reachable_interleaves Hi.
  destruct (interleaves_thread _ _ _ _ _ Ht Hi) as (th & Hth & Hal).
  destruct (alone_controller _ _ _ c0 [] evs Waiting (system_sm s0) Hal eq_refl)
    as (c & p & evs2 & ph & -> & Hr).
  assert (sequential c0 (store_view (system_sm s0)) evs
    (mkSys (run (calls_of i tr) (system_sm s0)) c p evs2 ph)) as (evs1 & Hevs & Hseq).
  { eapply (reachable_ind (sequential c0 (store_view (system_sm s0)) evs)); [|exact Hr|].
    - intros s1 s2. apply sequential_step.
    - exists []. split; [done|]. split; [reflexivity | done]. }
  exists c, p, evs1, evs2, ph. split; [done|]. split; [done|].
  destruct (handle_all _ _) as [c1 m], Hseq as [[b Hb] Hview]. cbn in Hb, Hview. split; [by rewrite Hb|].
  intros k Hk. rewrite <- Hview. apply entry_view.
  by apply (interleaves_entry s0 tr s i).
Qed.

End isolation.

(** ** The blueprint when all is done *)

Section quiescence.
  Context `{K8s} {Hd : Type} `{!ResourceHandler Hd} `{Env}.
  Local Set Default Proof Using "Type*".
  Implicit Types (c : Controller Hd) (th : Thread Hd) (s : System Hd).

Definition empty_blueprint : Blueprint := mkBlueprint ∅ ∅.

(** What a thread is to publish, from its inputs alone: a controller what the
    live objects contribute, a reconciler what its requests leave. *)
Definition to_publish th (k : Key) (r : Resource + PrivateResource) : Prop :=
  match th with
  | TController c _ evs _ =>
      ∃ k' r' o es, k = inl k' ∧ r = inl r' ∧ spec_run c ∅ evs !! o = Some es ∧ es !! k' = Some r'
  | TReconciler _ rqs =>
      entry (abs_run (concat (request_calls <$> rqs)) empty_blueprint) k = Some r
  end.

(** A thread at the start of the program; no two objects of a controller ever
    claim the same key. *)
Definition at_start th : Prop :=
  match th with
  | TController c pending evs ph =>
      pending = [] ∧ ph = Waiting ∧ forallb is_handler evs = true
      ∧ Controller_resourceKeys c = ∅ ∧ ∀ n, exclusive ∅ (spec_run c ∅ (take n evs))
  | TReconciler pending _ => pending = []
  end.

Lemma at_start_informer ths : Forall at_start ths → Forall informer_only ths.
Proof. intros Ha. eapply Forall_impl; [exact Ha|]. intros [c p evs ph|]; [|done]. by intros (_ & _ & ? & _). Qed.

Lemma spec_run_keys c evs o es k :
  spec_run c ∅ evs !! o = Some es → is_Some (es !! k) → k ∈ ⋃ (event_keys c <$> evs).
Proof.
  revert o es. induction evs as [|ev evs IH] using rev_ind; intros o es.
  { cbn. by rewrite lookup_empty. }
  unfold spec_run. rewrite foldl_app. cbn [foldl]. change (foldl (spec_event c) ∅ evs) with (spec_run c ∅ evs).
  rewrite fmap_app, union_list_app_L, elem_of_union. cbn [fmap list_fmap union_list foldr].
  assert (∀ objKey es', dom es' ⊆ event_keys c ev →
    spec_set objKey es' (spec_run c ∅ evs) !! o = Some es → is_Some (es !! k) →
    k ∈ ⋃ (event_keys c <$> evs) ∨ k ∈ event_keys c ev ∪ ∅) as Hset.
  { intros objKey es' Hdom [(-> & -> & _)|[_ Ho]]%spec_set_lookup Hk; [|left; by eapply IH].
    right. apply elem_of_union_l, Hdom, elem_of_dom. done. }
  destruct ev as [ord secrets obj|ord secrets old new|obj|b]; cbn [spec_event event_keys] in *.
  - destruct (toMetaObj c obj) as [ob|e]; [by apply Hset | left; by eapply IH].
  - destruct (toMetaObj c new) as [ob|e]; [by apply Hset | left; by eapply IH].
  - destruct (toMetaObj c _) as [ob|e]; [|left; by eapply IH].
    intros [_ Ho]%lookup_delete_Some Hk. left. by eapply IH.
  - left. by eapply IH.
Qed.

(** What is to be published is claimed. *)
Lemma to_publish_claimed th k r : to_publish th k r → k ∈ claims th.
Proof.
  destruct th as [c p evs ph|p rqs]; cbn [to_publish claims].
  - intros (k' & r' & o & es & -> & -> & Ho & Hk).
    apply elem_of_union_r, elem_of_map. exists k'. split; [done|].
    apply elem_of_union_r. by eapply spec_run_keys.
  - intros He. apply elem_of_union_r.
    destruct (decide (k ∈ trace_keys (concat (request_calls <$> rqs)))) as [|Hn]; [done|].
    rewrite abs_run_other in He by done. by destruct k.
Qed.

(** An entry of the public map that a controller alone makes is one of a live
    object. *)
Lemma controller_publishes c st evs k r :
  Controller_resourceKeys c = ∅ → (∀ n, exclusive ∅ (spec_run c ∅ (take n evs))) →
  (handle_all evs (c, ∅ : gmap string Resource)).2 !! k = Some r ↔
  to_publish (TController c st evs Waiting) (inl k) (inl r).
Proof.
  intros Hc Hx. pose proof (handle_all_live c (∅ : gmap string Resource) evs Hc Hx) as Hl.
  destruct (handle_all evs _) as [c1 m]. cbn [snd to_publish].
  change (m !! k = Some r) with (store_view m !! k = Some r). rewrite (Hl k r).
  change (store_view (∅ : gmap string Resource)) with (∅ : gmap string Resource).
  rewrite lookup_empty. split.
  - intros [[=]|(o & es & Ho & Hk)]. by exists k, r, o, es.
  - intros (k' & r' & o & es & [= <-] & [= <-] & Ho & Hk). right. by exists o, es.
Qed.

Lemma finished_publishes s0 s i th0 k r :
  bp (system_sm s0) = empty_blueprint → disjoint_claims (system_threads s0) →
  rtc system_step s0 s → forallb finished (system_threads s) = true →
  system_threads s0 !! i = Some th0 → at_start th0 → k ∈ claims th0 →
  entry (bp (system_sm s)) k = Some r ↔ to_publish th0 k r.
Proof.
  intros Hbp Hdis Hr Hfin Hi Hstart Hk. rewrite forallb_forall in Hfin.
  pose proof (disjoint_left _ _ _ _ Hdis Hi Hk) as Hleft.
  assert (∀ th, system_threads s !! i = Some th → finished th = true) as Hf.
  { intros th Hth. apply Hfin, list_elem_of_In. by eapply list_elem_of_lookup_2. }
  assert (store_view (system_sm s0) = ∅) as Hv
    by (change (Blueprint_PublicResources (bp (system_sm s0)) = ∅); by rewrite Hbp).
  destruct th0 as [c p evs ph|p rqs]; cbn [at_start] in Hstart.
  - destruct Hstart as (-> & -> & _ & Hrec & Hx).
    destruct (controller_isolated s0 s i c evs Hr Hi) as (c' & p' & evs1 & evs2 & ph' & Hth & -> & Hseq).
    pose proof (Hf _ Hth) as Hft. cbn in Hft.
    destruct p' as [|cmd p']; [|by destruct evs2]. destruct evs2; [|done].
    rewrite app_nil_r in *. rewrite Hv in Hseq.
    destruct k as [k|k]; [|exfalso; cbn in Hk; set_solver].
    assert (store_view (system_sm s) !! k = (handle_all evs1 (c, ∅ : gmap string Resource)).2 !! k)
      as Hview by (destruct (handle_all evs1 _) as [c1 m], Hseq as [_ Hm]; exact (Hm k Hleft)).
    destruct r as [r|r]; cycle 1.
    { split; [intros (? & _ & [=])%fmap_Some | intros (? & ? & ? & ? & _ & [=] & _)]. }
    rewrite <- (controller_publishes c [] evs1 k r Hrec Hx), <- Hview.
    change (entry (bp (system_sm s)) (inl k)) with
      (inl (B := PrivateResource) <$> store_view (system_sm s) !! k).
    destruct (store_view (system_sm s) !! k); cbn; naive_solver.
  - subst p. destruct (reachable_interleaves _ _ Hr) as [tr Ht].
    destruct (interleaves_thread _ _ _ _ _ Ht Hi) as (th & Hth & Hal).
    destruct (alone_reconciler _ _ _ rqs Hal eq_refl) as (p' & rqs1 & rqs2 & -> & -> & Htr).
    pose proof (Hf _ Hth) as Hft. cbn in Hft. destruct p'; [|done]. destruct rqs2; [|done].
    rewrite app_nil_r in *. subst.
    pose proof (interleaves_entry s0 tr s i k [] Ht Hleft) as He. cbn [run foldl] in He.
    cbn [to_publish]. rewrite <- Htr. change (run [] ?x) with x in He.
    rewrite He, run_bp, Hbp. done.
Qed.

(** A key nobody claims is left alone. *)
Lemma unclaimed_entry s0 s k :
  rtc system_step s0 s → (∀ i th0, system_threads s0 !! i = Some th0 → k ∉ claims th0) →
  entry (bp (system_sm s)) k = entry (bp (system_sm s0)) k.
Proof.
  intros [tr Ht]%reachable_interleaves Hun.
  pose proof Ht as (-> & _ & Htags & _). rewrite run_bp. apply abs_run_other.
  intros (cmd & Hin & Hc)%elem_of_list_to_set%list_elem_of_omap.
  apply list_elem_of_fmap in Hin as ([j cmd'] & -> & Hin). cbn in Hc.
  rewrite Forall_forall in Htags. pose proof (Htags _ Hin) as Hj. cbn in Hj.
  destruct (lookup_lt_is_Some_2 (system_threads s0) j Hj) as [th0 H1].
  destruct (interleaves_thread _ _ _ _ _ Ht H1) as (th & _ & Hal).
  apply (Hun _ _ H1), (alone_claims _ _ _ Hal), (trace_keys_elem cmd'); [|done].
  apply list_elem_of_fmap. exists (j, cmd'). split; [done|]. by apply list_elem_of_filter.
Qed.

(** The blueprint when all is done: started empty, and as long as no key is
    claimed twice, in every state in which no thread has anything left to do, and
    in whatever order they went there, the two maps hold exactly what the threads
    are to publish: the entries of the live objects of each controller, and what
    the requests of each reconciler leave. *)
Lemma quiescent_entries (s0 s : System Hd) :
  bp (system_sm s0) = empty_blueprint → Forall at_start (system_threads s0) →
  disjoint_claims (system_threads s0) →
  rtc system_step s0 s → forallb finished (system_threads s) = true →
  ∀ k r, entry (bp (system_sm s)) k = Some r ↔
    ∃ i th0, system_threads s0 !! i = Some th0 ∧ to_publish th0 k r.
Proof.
  intros Hbp Hstart Hdis Hr Hfin k r. split.
  - intros He. destruct (decide (Exists (λ th0, k ∈ claims th0) (system_threads s0))) as [Hex|Hn].
    + apply Exists_exists in Hex as (th0 & [i Hi]%list_elem_of_lookup & Hk).
      exists i, th0. split; [done|].
      apply (finished_publishes s0 s i); try done. by eapply Forall_lookup_1.
    + rewrite (unclaimed_entry s0 s k), Hbp in He; [by destruct k|done|].
      intros i th0 Hi Hk. apply Hn, Exists_exists. exists th0. split; [|done].
      by eapply list_elem_of_lookup_2.
  - intros (i & th0 & Hi & Hp). apply (finished_publishes s0 s i th0); try done.
    + by eapply Forall_lookup_1.
    + by eapply to_publish_claimed.
Qed.

End quiescence.

(** ** Properties *)

Section properties.
  Context `{K8s} {Hd : Type} `{!ResourceHandler Hd} `{Env}.

(** C7. Isolation: whatever the other controllers and the reconcilers do in
    between, keys claimed twice or not, a controller is where it would be alone
    after the events it has taken, with the same records; and under every key that
    no other thread claims the public resources hold what they would hold if it ran
    alone, once its running handler has made its calls. *)
Theorem controller_alone (s0 s : System Hd) i c0 evs :
  rtc system_step s0 s →
  system_threads s0 !! i = Some (TController c0 [] evs Waiting) →
  ∃ c pending evs1 evs2 ph,
    system_threads s !! i = Some (TController c pending evs2 ph) ∧ evs = evs1 ++ evs2 ∧
    let '(c1, m) := handle_all evs1 (c0, store_view (system_sm s0)) in
    Controller_resourceKeys c = Controller_resourceKeys c1
    ∧ ∀ k, left_to i (inl k) (system_threads s0) →
        store_view (run pending (system_sm s)) !! k = m !! k.
Proof. apply controller_isolated. Qed.

(** Every controller is through with [Run], and no call that was decided before is
    still to come. *)
Definition steady_thread (th : Thread Hd) : Prop :=
  match th with
  | TController c pending _ ph =>
      ph = Synced ∧ Controller_synced c = true ∧ forallb writes pending = true
  | TReconciler pending _ => forallb writes pending = true
  end.

Definition steady_system (s : System Hd) : Prop :=
  Forall steady_thread (system_threads s) ∧ fresh (system_sm s).

Lemma request_writes rq : forallb writes (request_calls rq) = true.
Proof. destruct rq; cbn; repeat case_match; done. Qed.

Lemma steady_step th oc th' :
  thread_step th oc th' → steady_thread th → steady_thread th' ∧ forallb writes (option_list oc) = true.
Proof.
  destruct 1 as [c ev evs ph c' cmds Hev Hh|c cmd cmds evs ph|c cmds evs|c cmds evs|rq rqs|cmd cmds rqs];
    cbn [steady_thread option_list forallb].
  - intros (-> & Hc & _). pose proof (handle_writes ev c Hev Hc) as [Hc' Hw].
    assert (handle ev (c, [] : Trace) = (c', cmds)) as Hh' by exact Hh. by rewrite Hh' in Hc', Hw.
  - intros (-> & Hc & [Hw Hws]%andb_true_iff). split; [done|].
    change (writes cmd && true = true). by rewrite Hw.
  - by intros [[=] _].
  - by intros [[=] _].
  - intros _. split; [apply request_writes | done].
  - intros [Hw Hws]%andb_true_iff. split; [done|].
    change (writes cmd && true = true). by rewrite Hw.
Qed.

Lemma steady_reachable (s s' : System Hd) :
  steady_system s → rtc system_step s s' → steady_system s'.
Proof.
  intros Hs Hr. induction Hr as [|s0 s1 s2 Hstep _ IH]; [done|]. apply IH.
  destruct Hstep as [sm ths i th oc th' Hi Ht], Hs as [Ha Hf]. cbn in Ha, Hf.
  destruct (steady_step th oc th' Ht) as [Hst Hw]; [by eapply Forall_lookup_1|].
  split; [by apply Forall_insert|]. cbn [system_sm]. destruct oc as [cmd|]; [|done].
  cbn [option_list forallb] in Hw. apply andb_true_iff in Hw as [Hw _]. by apply fresh_exec.
Qed.

(** Once every controller is through with [Run] and no call decided before it is
    left, the file stays up to date for good, whatever the controllers and the
    reconcilers do from then on and in whatever order: in every later state, between
    any two calls, it holds the current blueprint unless the last write failed. *)
Theorem steady_system_forever (s s' : System Hd) :
  steady_system s → rtc system_step s s' → steady_system s'.
Proof. apply steady_reachable. Qed.

(** Termination and progress: every run comes to an end, however the threads are
    scheduled, and the states in which no thread can move are those in which every
    event and every request has been served. *)
Theorem system_terminates (s0 : System Hd) :
  Forall informer_only (system_threads s0) →
  sn system_step s0
  ∧ ∀ s, rtc system_step s0 s → nf system_step s ↔ forallb finished (system_threads s) = true.
Proof.
  intros Ha. split; [apply system_sn|]. intros s Hr. apply system_stuck_iff. by eapply system_informer.
Qed.

End properties.

(** ** A run *)

Section demo.
  Local Existing Instances quiet_env demo_k8s.

(** A private resource that is there, and a public one that is gone. *)
Definition demo_requests : list Request :=
  [PrivateRequest (CrdPrivate.mkReconciler "site-1") (λ _, Ok CrdPrivate.pod_network) (mkNN "infra" "pods");
   PublicRequest (CrdPublic.mkReconciler "site-1")
     (λ _, Err (mkAPIError (mkError "not found") true)) (λ _, Err (mkAPIError (mkError "not found") true))
     (mkNN "infra" "old")].

Definition demo_system : System Handler :=
  mkSystem (start "bp.yaml" ∅)
    [TController demo [] [add web] Waiting; TReconciler [] demo_requests].

(** The calls in the order they were made. *)
Definition demo_calls : Trace :=
  [CAddOrUpdate "a-example-com" (web_resource "a.example.com") false;
   CAddOrUpdatePrivate "pods"
     (CrdPrivate.private_resource (CrdPrivate.mkReconciler "site-1") CrdPrivate.pod_network) true;
   CForceWrite;
   CAddOrUpdate "b-example-com" (web_resource "b.example.com") false;
   CRemove "old"].

Definition demo_end : System Handler :=
  mkSystem (run demo_calls (start "bp.yaml" ∅))
    [TController (demo_with {[ "apps/web" := web_keys ]} true) [] [] Synced; TReconciler [] []].

Lemma demo_run : rtc system_step demo_system demo_end.
Proof.
  assert (handle (add web) (demo, [] : Trace)
    = (demo_with {[ "apps/web" := web_keys ]} false, web_calls false)) as Hh
    by exact (process_web ∅ false false (or_introl eq_refl)).
  eapply rtc_l; [eapply (system_moves _ _ 0); [done | eapply thread_event; [done | exact Hh]]|].
  eapply rtc_l; [eapply (system_moves _ _ 1); [done | eapply thread_request]|].
  eapply rtc_l; [eapply (system_moves _ _ 0); [done | eapply thread_call]|].
  eapply rtc_l; [eapply (system_moves _ _ 1); [done | eapply thread_reply]|].
  eapply rtc_l; [eapply (system_moves _ _ 1); [done | eapply thread_request]|].
  eapply rtc_l; [eapply (system_moves _ _ 0); [done | eapply thread_force]|].
  eapply rtc_l; [eapply (system_moves _ _ 0); [done | eapply thread_call]|].
  eapply rtc_l; [eapply (system_moves _ _ 0); [done | eapply thread_sync]|].
  eapply rtc_l; [eapply (system_moves _ _ 1); [done | eapply thread_reply]|].
  constructor.
Qed.

Lemma demo_claims : disjoint_claims (system_threads demo_system).
Proof.
  assert (claims (TController demo [] [add web] Waiting) ## claims (Hd := Handler) (TReconciler [] demo_requests))
    as Hc by (apply (bool_decide_unpack _); vm_compute; exact I).
  intros [|[|i]] [|[|j]] th1 th2 H1 H2 Hne; try done; injection H1 as <-; injection H2 as <-;
    [exact Hc | symmetry; exact Hc].
Qed.

Lemma demo_start : Forall at_start (system_threads demo_system).
Proof.
  apply Forall_cons. split; [|by repeat constructor]. split_and!; [done..|].
  intros n. apply (bool_decide_unpack _).
  do 2 (destruct n as [|n]; [vm_compute; exact I|]). vm_compute. exact I.
Qed.

Lemma controller_alone_witness :
  ∃ c pending evs1 evs2 ph,
    system_threads demo_end !! 0 = Some (TController c pending evs2 ph) ∧ [add web] = evs1 ++ evs2 ∧
    let '(c1, m) := handle_all evs1 (demo, store_view (start "bp.yaml" ∅)) in
    Controller_resourceKeys c = Controller_resourceKeys c1
    ∧ ∀ k, left_to 0 (inl k) (system_threads demo_system) →
        store_view (run pending (system_sm demo_end)) !! k = m !! k.
Proof.
  pose proof (controller_alone demo_system demo_end 0 demo [add web] demo_run eq_refl) as Hc.
  exact Hc.
Defined.

Lemma demo_quiescent :
  ∀ k r, entry (bp (system_sm demo_end)) k = Some r ↔
    ∃ i th0, system_threads demo_system !! i = Some th0 ∧ to_publish th0 k r.
Proof.
  pose proof (quiescent_entries demo_system demo_end eq_refl demo_start demo_claims demo_run eq_refl) as Hq.
  exact Hq.
Qed.

Lemma system_terminates_witness :
  sn system_step demo_system
  ∧ ∀ s, rtc system_step demo_system s →
      nf system_step s ↔ forallb finished (system_threads s) = true.
Proof.
  pose proof (system_terminates demo_system) as Ht. apply Ht. repeat constructor.
Defined.

(** The object was handled and written in time; an event and the requests are
    still to come. *)
Definition demo_steady : System Handler :=
  mkSystem (run (web_calls false ++ [CForceWrite]) (start "bp.yaml" ∅))
    [TController (demo_with {[ "apps/web" := web_keys ]} true) [] [add copy] Synced;
     TReconciler [] demo_requests].

Definition demo_steady_next : System Handler :=
  mkSystem (exec (CAddOrUpdatePrivate "pods"
      (CrdPrivate.private_resource (CrdPrivate.mkReconciler "site-1") CrdPrivate.pod_network) true)
      (system_sm demo_steady))
    [TController (demo_with {[ "apps/web" := web_keys ]} true) [] [add copy] Synced;
     TReconciler [] (tail demo_requests)].

Lemma demo_steady_run : rtc system_step demo_steady demo_steady_next.
Proof.
  eapply rtc_l; [eapply (system_moves _ _ 1); [done | eapply thread_request]|].
  eapply rtc_l; [eapply (system_moves _ _ 1); [done | eapply thread_reply]|].
  constructor.
Qed.

Lemma demo_steady_ok : steady_system demo_steady.
Proof.
  split; [by repeat constructor|]. cbn [demo_steady system_sm]. rewrite run_app. apply fresh_writeState.
Qed.

Lemma steady_system_forever_witness : steady_system demo_steady ∧ steady_system demo_steady_next.
Proof.
  split; [exact demo_steady_ok|].
  exact (steady_system_forever demo_steady demo_steady_next demo_steady_ok demo_steady_run).
Defined.

(** A PublicResource with the name of a route's key, there and then gone. *)
Definition namesake_requests : list Request :=
  [PublicRequest (CrdPublic.mkReconciler "site-1") (λ _, Err (mkAPIError (mkError "not found") true))
     (λ _, Err (mkAPIError (mkError "not found") true)) (mkNN "infra" "a-example-com")].

(** Resources of all kinds share one map: a request for a PublicResource that is
    gone takes the entry of a live route whose key is its name, and in the end,
    with nothing left to do, the route is not published under that hostname. *)
Theorem namesake_takes_entry :
  ∃ s, rtc system_step
      (mkSystem (start "bp.yaml" ∅)
         [TController demo [] [add web] Waiting; TReconciler [] namesake_requests]) s
    ∧ forallb finished (system_threads s) = true
    ∧ (∃ es, spec_run demo ∅ [add web] !! "apps/web" = Some es ∧ is_Some (es !! "a-example-com"))
    ∧ store_view (system_sm s) !! "a-example-com" = None.
Proof.
  exists (mkSystem (run (web_calls false ++ [CForceWrite; CRemove "a-example-com"]) (start "bp.yaml" ∅))
    [TController (demo_with {[ "apps/web" := web_keys ]} true) [] [] Synced; TReconciler [] []]).
  split_and!.
  - assert (handle (add web) (demo, [] : Trace)
      = (demo_with {[ "apps/web" := web_keys ]} false, web_calls false)) as Hh
      by exact (process_web ∅ false false (or_introl eq_refl)).
    eapply rtc_l; [eapply (system_moves _ _ 0); [done | eapply thread_event; [done | exact Hh]]|].
    eapply rtc_l; [eapply (system_moves _ _ 0); [done | eapply thread_call]|].
    eapply rtc_l; [eapply (system_moves _ _ 0); [done | eapply thread_call]|].
    eapply rtc_l; [eapply (system_moves _ _ 0); [done | eapply thread_force]|].
    eapply rtc_l; [eapply (system_moves _ _ 0); [done | eapply thread_sync]|].
    eapply rtc_l; [eapply (system_moves _ _ 1); [done | eapply thread_request]|].
    eapply rtc_l; [eapply (system_moves _ _ 1); [done | eapply thread_reply]|].
    constructor.
  - reflexivity.
  - exists (contribution demo no_secrets web).
    split; apply (bool_decide_unpack _); vm_compute; exact I.
  - apply (bool_decide_unpack _). vm_compute. exact I.
Qed.

End demo.
