(* ===== verification/Goroutines.v ===== *)
(** * The sidecar at the level of goroutines

    In [System] a call of the manager is one step.  Here every controller is the
    goroutine of its informer and the goroutine of [Run], a reconciler is one
    goroutine, the health server has any number of them, and a call is the
    sequence of accesses of [Mutex], between any two of which the others may
    come in.  Every such execution does what an execution of [System] does, in
    which a call happens when it takes the mutex, so the theorems about [System]
    hold of the goroutines. *)

From stdpp Require Import options.
From S2P Require Import Prelude GoStrings Config Blueprint BlueprintProps StateManager Store.
From S2P Require Import StateProps Resources HttpRoute Service Controller ControllerProps Client.
From S2P Require Import Sidecar System.
From S2P Require Mutex.

Local Open Scope go_scope.

(** ** Definitions *)

#[export] Instance RunPhase_eq_dec : EqDecision RunPhase.
Proof. solve_decision. Defined.

Section goroutines.
  Context `{K8s} {Hd : Type} `{!ResourceHandler Hd} `{Env}.
  Implicit Types th : Thread Hd.

Definition phase_of th : RunPhase :=
  match th with TController _ _ _ ph => ph | TReconciler _ _ => Waiting end.

(** The goroutine a step of thread [i] belongs to: [Run]'s, the second of the
    thread, when the phase changes, and the first, which serves the events or the
    requests, otherwise. *)
Definition slot (i : nat) th th' : nat :=
  if decide (phase_of th = phase_of th') then 2 * i else 2 * i + 1.

(** The goroutines and the manager; what every thread has still to do once the
    calls of its goroutines have returned. *)
Record Process : Type := mkProcess {
  process_config : Mutex.Config;
  process_threads : list (Thread Hd);
}.

(** A goroutine does something that does not concern the manager, or calls a
    method, only while it is in none; inside a method it takes the steps of
    [Mutex]. *)
Inductive worker_step : Process → Process → Prop :=
| worker_internal cfg ths i th th' :
    ths !! i = Some th → thread_step th None th' →
    Mutex.goroutines cfg !! slot i th th' = Some Mutex.Idle →
    worker_step (mkProcess cfg ths) (mkProcess cfg (<[ i := th' ]> ths))
| worker_call cfg cfg' ths i th cmd th' :
    ths !! i = Some th → thread_step th (Some cmd) th' →
    Mutex.step (Some (Mutex.Invoke (slot i th th') (Mutex.Mutate cmd))) cfg cfg' →
    worker_step (mkProcess cfg ths) (mkProcess cfg' (<[ i := th' ]> ths))
| worker_method cfg e cfg' ths :
    Mutex.is_invoke e = false → Mutex.step e cfg cfg' →
    worker_step (mkProcess cfg ths) (mkProcess cfg' ths).

(** The goroutines after those of the threads are those of the health server: a
    request for [/readyz] may come at any time. *)
Inductive process_step : Process → Process → Prop :=
| process_work p p' : worker_step p p' → process_step p p'
| process_probe cfg cfg' ths j threshold :
    2 * length ths ≤ j → Mutex.step (Some (Mutex.Invoke j (Mutex.Probe threshold))) cfg cfg' →
    process_step (mkProcess cfg ths) (mkProcess cfg' ths).

(** The start: [probers] goroutines of the health server, nobody in a method. *)
Definition process_start (probers : nat) (s : System Hd) : Process :=
  mkProcess (Mutex.launch (2 * length (system_threads s) + probers) (system_sm s))
    (system_threads s).

(** ** The abstraction *)

(** The call a goroutine waits with for the mutex. *)
Definition waiting (g : option Mutex.Goroutine) : Trace :=
  match g with Some (Mutex.Running (Mutex.Mutate cmd) (Mutex.Lock _)) => [cmd] | _ => [] end.

(** A thread as [System] sees it: a call that waits for the mutex is still to be
    made. *)
Definition thread_seen (g1 g2 : option Mutex.Goroutine) th : Thread Hd :=
  match th with
  | TController c pending evs ph =>
      TController c (waiting g1 ++ pending) evs
        (match waiting g2 with [] => ph | _ => Waiting end)
  | TReconciler pending rqs => TReconciler (waiting g1 ++ pending) rqs
  end.

Definition threads_seen (p : Process) : list (Thread Hd) :=
  imap (λ i th, thread_seen (Mutex.goroutines (process_config p) !! (2 * i))
                  (Mutex.goroutines (process_config p) !! (2 * i + 1)) th) (process_threads p).

(** Which calls a goroutine makes. *)
Definition role_ok (ths : list (Thread Hd)) (j : nat) (g : Mutex.Goroutine) : Prop :=
  match g with
  | Mutex.Idle => True
  | Mutex.Running c p =>
      (2 * length ths ≤ j ∧ ∃ threshold, c = Mutex.Probe threshold)
      ∨ (∃ i cmd, i < length ths ∧ j = 2 * i ∧ c = Mutex.Mutate cmd)
      ∨ (∃ i c0 cmds evs ph, j = 2 * i + 1 ∧ ths !! i = Some (TController c0 cmds evs ph)
           ∧ c = Mutex.Mutate CForceWrite ∧ (waiting (Some g) ≠ [] → ph = Forced))
  end.

(** The process, and the system it is an execution of. *)
Record simulates (s0 : System Hd) (p : Process) (s : System Hd) : Prop := mkSimulates {
  sim_invariant : ∃ h es lin,
    Mutex.invariant h es lin (system_sm s0) (system_sm s) (process_config p);
  sim_threads : system_threads s = threads_seen p;
  sim_roles j g : Mutex.goroutines (process_config p) !! j = Some g →
                  role_ok (process_threads p) j g;
}.

Lemma waiting_method c : waiting (Some (Mutex.Running c (Mutex.method c))) =
  match c with Mutex.Mutate cmd => [cmd] | _ => [] end.
Proof. by destruct c. Qed.

Lemma threads_seen_lookup p i :
  threads_seen p !! i = thread_seen (Mutex.goroutines (process_config p) !! (2 * i))
                          (Mutex.goroutines (process_config p) !! (2 * i + 1))
                        <$> process_threads p !! i.
Proof. unfold threads_seen. by rewrite list_lookup_imap. Qed.

(** A goroutine that goes from nothing to wait for to nothing to wait for. *)
Lemma threads_seen_ext cfg cfg' ths :
  (∀ j, waiting (Mutex.goroutines cfg' !! j) = waiting (Mutex.goroutines cfg !! j)) →
  threads_seen (mkProcess cfg' ths) = threads_seen (mkProcess cfg ths).
Proof.
  intros Hw. apply list_eq. intros i. rewrite !threads_seen_lookup. cbn.
  destruct (ths !! i) as [[c pending evs ph|pending rqs]|]; cbn; by rewrite ?Hw.
Qed.

Lemma threads_seen_insert cfg cfg' ths i th' :
  (∀ j, j ≠ 2 * i → j ≠ 2 * i + 1 →
     waiting (Mutex.goroutines cfg' !! j) = waiting (Mutex.goroutines cfg !! j)) →
  threads_seen (mkProcess cfg' (<[ i := th' ]> ths))
  = <[ i := thread_seen (Mutex.goroutines cfg' !! (2 * i)) (Mutex.goroutines cfg' !! (2 * i + 1)) th' ]>
      (threads_seen (mkProcess cfg ths)).
Proof.
  intros Hw. assert (length (threads_seen (mkProcess cfg ths)) = length ths) as Hlen
    by (unfold threads_seen; by rewrite length_imap).
  apply list_eq. intros k. rewrite threads_seen_lookup. cbn [process_config process_threads].
  destruct (decide (k = i)) as [->|Hk].
  - destruct (decide (i < length ths)) as [Hi|Hi].
    + by rewrite !list_lookup_insert_eq by lia.
    + by rewrite (lookup_ge_None_2 (<[ i := th' ]> ths)), (lookup_ge_None_2 (<[ i := _ ]> (threads_seen _)))
        by (rewrite length_insert; lia).
  - rewrite !list_lookup_insert_ne by done. rewrite threads_seen_lookup. cbn.
    destruct (ths !! k) as [[c pending evs ph|pending rqs]|]; cbn; by rewrite ?Hw by lia.
Qed.

(** What waits for the mutex does not once it has it. *)
Lemma waiting_body c q : Mutex.Lock q = Mutex.method c → waiting (Some (Mutex.Running c q)) = [].
Proof.
  intros E. destruct (Mutex.method_shape c) as (b & Eb & Hin).
  assert (q = b) as -> by congruence. apply Mutex.not_inside in Hin as [_ Hn].
  destruct c as [cmd|]; [|done]. destruct b; try done. by destruct (Hn b).
Qed.

(** A goroutine that goes on with its method and waits as before. *)
Lemma waiting_update (gs : list Mutex.Goroutine) i g g' :
  gs !! i = Some g → waiting (Some g') = waiting (Some g) →
  (∀ c p, g' = Mutex.Running c p → ∃ p', g = Mutex.Running c p') →
  (∀ j, waiting (<[ i := g' ]> gs !! j) = waiting (gs !! j))
  ∧ ∀ j c p, <[ i := g' ]> gs !! j = Some (Mutex.Running c p) →
      ∃ p', gs !! j = Some (Mutex.Running c p').
Proof.
  intros Hi Hw Hr. pose proof (lookup_lt_Some _ _ _ Hi) as Hlt. split.
  - intros j. destruct (decide (j = i)) as [->|Hj].
    + rewrite list_lookup_insert_eq by done. by rewrite Hi.
    + by rewrite list_lookup_insert_ne.
  - intros j c p. destruct (decide (j = i)) as [->|Hj].
    + rewrite list_lookup_insert_eq by done. intros [= ->].
      destruct (Hr c p eq_refl) as [p' ->]. eauto.
    + rewrite list_lookup_insert_ne by done. eauto.
Qed.

(** The other steps inside a method leave what waits alone. *)
Lemma waiting_method_step h es lin s0 s' cfg e cfg' :
  Mutex.invariant h es lin s0 s' cfg → Mutex.step e cfg cfg' → Mutex.is_invoke e = false →
  (∃ i c q, Mutex.locked cfg = false ∧ e = None
     ∧ Mutex.goroutines cfg !! i = Some (Mutex.Running c (Mutex.Lock q))
     ∧ cfg' = Mutex.mkConfig true (Mutex.shared cfg)
                (<[ i := Mutex.Running c q ]> (Mutex.goroutines cfg)))
  ∨ ((∃ h2, Mutex.invariant h2 (es ++ [e]) lin s0 s' cfg')
     ∧ (∀ j, waiting (Mutex.goroutines cfg' !! j) = waiting (Mutex.goroutines cfg !! j))
     ∧ ∀ j c p, Mutex.goroutines cfg' !! j = Some (Mutex.Running c p) →
         ∃ p', Mutex.goroutines cfg !! j = Some (Mutex.Running c p')).
Proof.
  intros Hinv Hstep He.
  destruct (Mutex.invariant_other _ _ _ _ _ _ _ _ Hinv Hstep He) as [(i & c & q & ?)|Hinv2];
    [left; exists i, c, q; naive_solver|].
  pose proof (Mutex.inv_stage _ _ _ _ _ _ Hinv) as Hst.
  destruct Hstep as [i c l s gs Hg|i c q s gs Hg|i c B f k l s gs Hg|i c q s gs Hg|i c r l s gs Hg];
    [done|left; by exists i, c, q|right; split; [done|]; eapply waiting_update; [exact Hg| |]..];
    specialize (Hst i); cbn in Hst; rewrite Hg in Hst.
  - apply Mutex.stage_access in Hst as [-> Hst]. destruct c as [cmd|]; [|done]. cbn.
    destruct (k (f s).1) eqn:Hk; try done. by apply Mutex.stage_lock in Hst as [? _].
  - intros ? ? [= <- <-]. eauto.
  - apply Mutex.stage_unlock in Hst as (_ & _ & [r ->] & _). by destruct c.
  - intros ? ? [= <- <-]. eauto.
  - by destruct c.
  - done.
Qed.

(** *** Threads *)

(** A step of a thread outside the manager is one of the thread as it is seen. *)
Lemma seen_internal g1 g2 th th' :
  thread_step th None th' →
  waiting (if decide (phase_of th = phase_of th') then g1 else g2) = [] →
  thread_step (thread_seen g1 g2 th) None (thread_seen g1 g2 th').
Proof.
  intros Hs. remember None as oc eqn:Eoc.
  destruct Hs as [c ev evs ph c' cmds Hev Hh| | |c cmds evs|rq rqs| ]; simplify_eq; cbn.
  - rewrite decide_True by done. intros ->. cbn. by apply (thread_event _ ev).
  - rewrite decide_False by done. intros ->. apply thread_sync.
  - rewrite decide_True by done. intros ->. apply thread_request.
Qed.

(** A call that starts to wait was to be made before. *)
Lemma seen_call g1 g2 th cmd th' (q : Mutex.Prog Mutex.Reply) :
  thread_step th (Some cmd) th' →
  let w := Some (Mutex.Running (Mutex.Mutate cmd) (Mutex.Lock q)) in
  if decide (phase_of th = phase_of th')
  then waiting g1 = [] → thread_seen w g2 th' = thread_seen g1 g2 th
  else waiting g2 = [] → thread_seen g1 w th' = thread_seen g1 g2 th.
Proof.
  intros Hs. remember (Some cmd) as oc eqn:Eoc.
  destruct Hs as [ |c cmd' cmds evs ph|c cmds evs| | |cmd' cmds rqs]; simplify_eq; cbn.
  - rewrite decide_True by done. by intros ->.
  - rewrite decide_False by done. by intros ->.
  - rewrite decide_True by done. by intros ->.
Qed.

Lemma role_threads (ths : list (Thread Hd)) i th oc th' j g :
  ths !! i = Some th → thread_step th oc th' → (j = slot i th th' → g = Mutex.Idle) →
  role_ok ths j g → role_ok (<[ i := th' ]> ths) j g.
Proof.
  intros Hi Hs Hj. destruct g as [|c p]; [done|]. cbn [role_ok]. rewrite length_insert.
  intros [?|[?|(i0 & c0 & cmds & evs & ph & -> & Hi0 & -> & Hph)]]; [by left | by right; left |].
  right; right. destruct (decide (i0 = i)) as [->|Hne].
  - pose proof (lookup_lt_Some _ _ _ Hi) as Hlt. exists i. simplify_eq.
    rewrite list_lookup_insert_eq by done.
    inversion Hs; subst; try (by do 4 eexists); by specialize (Hj eq_refl).
  - exists i0, c0, cmds, evs, ph. by rewrite list_lookup_insert_ne.
Qed.

Lemma role_call (ths : list (Thread Hd)) i th cmd th' p :
  ths !! i = Some th → thread_step th (Some cmd) th' →
  role_ok (<[ i := th' ]> ths) (slot i th th') (Mutex.Running (Mutex.Mutate cmd) p).
Proof.
  intros Hi Hs. pose proof (lookup_lt_Some _ _ _ Hi) as Hlt. right.
  remember (Some cmd) as oc eqn:Eoc. unfold slot.
  destruct Hs as [ |c cmd' cmds evs ph|c cmds evs| | |cmd' cmds rqs]; simplify_eq; cbn.
  - rewrite decide_True by done. left. exists i, cmd. by rewrite length_insert.
  - right. exists i, c, cmds, evs, Forced. by rewrite list_lookup_insert_eq.
  - left. exists i, cmd. by rewrite length_insert.
Qed.

(** *** The simulation *)

Lemma simulates_start probers (s : System Hd) : simulates s (process_start probers s) s.
Proof.
  assert (∀ j, waiting (replicate (2 * length (system_threads s) + probers) Mutex.Idle !! j) = []) as Hw.
  { intros j. destruct (_ !! j) as [g|] eqn:E; [|done]. by apply lookup_replicate in E as [-> _]. }
  split.
  - exists None, [], []. apply Mutex.invariant_launch.
  - apply list_eq. intros i. rewrite threads_seen_lookup. cbn [process_config process_threads process_start].
    unfold Mutex.launch. cbn [Mutex.goroutines].
    destruct (system_threads s !! i) as [[c pending evs ph|pending rqs]|]; cbn -[Nat.mul]; by rewrite ?Hw.
  - cbn. by intros j g [-> _]%lookup_replicate.
Qed.

Lemma simulates_internal s0 cfg ths s i th th' :
  simulates s0 (mkProcess cfg ths) s → ths !! i = Some th → thread_step th None th' →
  Mutex.goroutines cfg !! slot i th th' = Some Mutex.Idle →
  ∃ s', rtc system_step s s' ∧ simulates s0 (mkProcess cfg (<[ i := th' ]> ths)) s'.
Proof.
  intros [Hinv Hth Hroles] Hi Hs Hidle. destruct s as [sm ths0].
  cbn [system_sm system_threads process_config process_threads] in *. subst ths0.
  set (g1 := Mutex.goroutines cfg !! (2 * i)). set (g2 := Mutex.goroutines cfg !! (2 * i + 1)).
  exists (mkSystem sm (<[ i := thread_seen g1 g2 th' ]> (threads_seen (mkProcess cfg ths)))). split.
  - apply rtc_once, (system_moves sm _ i (thread_seen g1 g2 th) None).
    + rewrite threads_seen_lookup. cbn [process_config process_threads]. by rewrite Hi.
    + apply seen_internal; [done|]. unfold slot in Hidle. subst g1 g2.
      case_decide; by rewrite Hidle.
  - split; cbn [process_config process_threads system_sm system_threads]; [done| |].
    + symmetry. by apply threads_seen_insert.
    + intros j g Hj. eapply role_threads; [done..| |by apply Hroles].
      intros ->. by rewrite Hidle in Hj; simplify_eq.
Qed.

Lemma simulates_call s0 cfg cfg' ths s i th cmd th' :
  simulates s0 (mkProcess cfg ths) s → ths !! i = Some th → thread_step th (Some cmd) th' →
  Mutex.step (Some (Mutex.Invoke (slot i th th') (Mutex.Mutate cmd))) cfg cfg' →
  simulates s0 (mkProcess cfg' (<[ i := th' ]> ths)) s.
Proof.
  intros [(h & es & lin & Hinv) Hth Hroles] Hi Hs Hm. destruct s as [sm ths0].
  cbn [system_sm system_threads process_config process_threads] in *. subst ths0.
  pose proof (Mutex.invariant_invoke _ _ _ _ _ _ _ _ _ Hinv Hm) as Hinv'.
  inversion Hm as [j c l s gs Hg| | | |]; subst. cbn [Mutex.goroutines] in *.
  pose proof (lookup_lt_Some _ _ _ Hg) as Hlt.
  destruct (Mutex.method_shape (Mutex.Mutate cmd)) as (q & Eq & _).
  split; cbn [process_config process_threads system_sm system_threads Mutex.goroutines].
  - by exists h, (es ++ [Some (Mutex.Invoke (slot i th th') (Mutex.Mutate cmd))]), lin.
  - rewrite (threads_seen_insert (Mutex.mkConfig l s gs)); cbn [Mutex.goroutines].
    + symmetry. apply list_insert_id. rewrite threads_seen_lookup.
      cbn [process_config process_threads Mutex.goroutines]. rewrite Hi. cbn [fmap option_fmap option_map].
      f_equal. pose proof (seen_call (gs !! (2 * i)) (gs !! (2 * i + 1)) th cmd th' q Hs) as Hseen.
      cbv zeta in Hseen. rewrite Eq. unfold slot in *. case_decide.
      * rewrite list_lookup_insert_eq by done. rewrite list_lookup_insert_ne by lia.
        symmetry. apply Hseen. by rewrite Hg.
      * rewrite list_lookup_insert_eq by done. rewrite list_lookup_insert_ne by lia.
        symmetry. apply Hseen. by rewrite Hg.
    + intros j H1 H2. rewrite list_lookup_insert_ne; [done|]. unfold slot. case_decide; lia.
  - intros j g Hj. destruct (decide (j = slot i th th')) as [->|Hne].
    + rewrite list_lookup_insert_eq in Hj by done. injection Hj as <-. by apply role_call.
    + rewrite list_lookup_insert_ne in Hj by done.
      eapply role_threads; [done..|by intros ->|by apply Hroles].
Qed.

Lemma simulates_probe s0 cfg cfg' ths s j threshold :
  simulates s0 (mkProcess cfg ths) s → 2 * length ths ≤ j →
  Mutex.step (Some (Mutex.Invoke j (Mutex.Probe threshold))) cfg cfg' →
  simulates s0 (mkProcess cfg' ths) s.
Proof.
  intros [(h & es & lin & Hinv) Hth Hroles] Hj Hm. destruct s as [sm ths0].
  cbn [system_sm system_threads process_config process_threads] in *. subst ths0.
  pose proof (Mutex.invariant_invoke _ _ _ _ _ _ _ _ _ Hinv Hm) as Hinv'.
  inversion Hm as [j' c l s gs Hg| | | |]; subst. cbn [Mutex.goroutines] in *.
  pose proof (lookup_lt_Some _ _ _ Hg) as Hlt.
  split; cbn [process_config process_threads system_sm system_threads Mutex.goroutines].
  - by exists h, (es ++ [Some (Mutex.Invoke j (Mutex.Probe threshold))]), lin.
  - symmetry. apply threads_seen_ext. cbn [Mutex.goroutines]. intros k.
    destruct (decide (k = j)) as [->|Hk]; [|by rewrite list_lookup_insert_ne].
    by rewrite list_lookup_insert_eq, Hg by done.
  - intros k g Hk. destruct (decide (k = j)) as [->|Hne].
    + rewrite list_lookup_insert_eq in Hk by done. injection Hk as <-. left. eauto.
    + rewrite list_lookup_insert_ne in Hk by done. by apply Hroles.
Qed.

(** A thread whose first goroutine, or whose [Run], takes the mutex. *)
Lemma seen_lock_first g1 g1' g2 th cmd :
  waiting g1 = [cmd] → waiting g1' = [] →
  thread_step (thread_seen g1 g2 th) (Some cmd) (thread_seen g1' g2 th).
Proof. intros E1 E2. destruct th; cbn; rewrite E1, E2; constructor. Qed.

Lemma seen_lock_Run g1 g2 g2' c cmds evs :
  waiting g2 = [CForceWrite] → waiting g2' = [] →
  thread_step (thread_seen g1 g2 (TController c cmds evs Forced : Thread Hd)) (Some CForceWrite)
    (thread_seen g1 g2' (TController c cmds evs Forced)).
Proof. intros E1 E2. cbn. rewrite E1, E2. constructor. Qed.

Lemma simulates_lock s0 sh gs ths s j c q :
  simulates s0 (mkProcess (Mutex.mkConfig false sh gs) ths) s →
  gs !! j = Some (Mutex.Running c (Mutex.Lock q)) →
  ∃ s', rtc system_step s s'
    ∧ simulates s0 (mkProcess (Mutex.mkConfig true sh (<[ j := Mutex.Running c q ]> gs)) ths) s'.
Proof.
  intros [(h & es & lin & Hinv) Hth Hroles] Hj. destruct s as [sm ths0].
  cbn [system_sm system_threads process_config process_threads Mutex.goroutines] in *. subst ths0.
  pose proof (Mutex.invariant_lock _ _ _ _ _ _ _ _ _ _ Hinv Hj) as Hinv'.
  pose proof (Mutex.inv_stage _ _ _ _ _ _ Hinv j) as Hst. cbn in Hst. rewrite Hj in Hst.
  apply Mutex.stage_lock in Hst as (_ & Eq & _). pose proof (waiting_body c q Eq) as Hw.
  pose proof (lookup_lt_Some _ _ _ Hj) as Hlt.
  set (cfg := Mutex.mkConfig false sh gs) in *.
  set (cfg' := Mutex.mkConfig true sh (<[ j := Mutex.Running c q ]> gs)) in *.
  assert (Hj' : Mutex.goroutines cfg' !! j = Some (Mutex.Running c q)) by (by apply list_lookup_insert_eq).
  assert (Hne : ∀ k, k ≠ j → Mutex.goroutines cfg' !! k = gs !! k) by (intros; by apply list_lookup_insert_ne).
  assert (∀ k g, Mutex.goroutines cfg' !! k = Some g → role_ok ths k g) as Hroles'.
  { intros k g Hk. destruct (decide (k = j)) as [->|Hkj].
    - rewrite Hj' in Hk. injection Hk as <-. specialize (Hroles j _ Hj). cbn [role_ok] in *.
      rewrite Hw. destruct Hroles as [?|[?|(i & c0 & cmds & evs & ph & ? & ? & ? & _)]];
        [by left | by right; left | right; right; by exists i, c0, cmds, evs, ph].
    - rewrite Hne in Hk by done. by apply Hroles. }
  assert (∀ s', system_sm s' = (Mutex.atomic c sm).2 → system_threads s' = threads_seen (mkProcess cfg' ths) →
    simulates s0 (mkProcess cfg' ths) s') as Hsim.
  { intros [sm' ths'] E1 E2. cbn in E1. subst sm'.
    split; [|done|done]. eexists (Some j), _, _. exact Hinv'. }
  destruct (Hroles j _ Hj) as [(Hge & threshold & ->)|[(i & cmd & Hi & -> & ->)
    |(i & c0 & cmds & evs & ph & -> & Hi & -> & Hph)]].
  - exists (mkSystem sm (threads_seen (mkProcess cfg ths))). split; [done|]. apply Hsim; [done|].
    symmetry. apply threads_seen_ext. intros k. destruct (decide (k = j)) as [->|Hk]; [|by rewrite Hne].
    rewrite Hj', Hw. unfold cfg. cbn. by rewrite Hj.
  - destruct (lookup_lt_is_Some_2 ths i Hi) as [th Hth].
    exists (mkSystem (exec cmd sm) (threads_seen (mkProcess cfg' ths))). split.
    + rewrite <- (list_insert_id ths i th Hth) at 2.
      rewrite (threads_seen_insert cfg) by (intros; by rewrite Hne).
      apply rtc_once, (system_moves sm _ i (thread_seen (gs !! (2 * i)) (gs !! (2 * i + 1)) th) (Some cmd)).
      * rewrite threads_seen_lookup. cbn [process_threads process_config]. by rewrite Hth.
      * rewrite (Hne (2 * i + 1)) by lia. apply seen_lock_first; [by rewrite Hj | by rewrite Hj'].
    + apply Hsim; [symmetry; apply Mutex.atomic_exec | done].
  - rewrite (Hph ltac:(done)) in Hi.
    exists (mkSystem (exec CForceWrite sm) (threads_seen (mkProcess cfg' ths))). split.
    + rewrite <- (list_insert_id ths i _ Hi) at 2.
      rewrite (threads_seen_insert cfg) by (intros; by rewrite Hne).
      apply rtc_once, (system_moves sm _ i (thread_seen (gs !! (2 * i)) (gs !! (2 * i + 1))
        (TController c0 cmds evs Forced)) (Some CForceWrite)).
      * rewrite threads_seen_lookup. cbn [process_threads process_config]. by rewrite Hi.
      * rewrite (Hne (2 * i)) by lia. apply seen_lock_Run; [by rewrite Hj | by rewrite Hj'].
    + apply Hsim; [symmetry; apply (Mutex.atomic_exec CForceWrite) | done].
Qed.

Lemma simulates_method s0 cfg e cfg' ths s :
  simulates s0 (mkProcess cfg ths) s → Mutex.is_invoke e = false → Mutex.step e cfg cfg' →
  ∃ s', rtc system_step s s' ∧ simulates s0 (mkProcess cfg' ths) s'.
Proof.
  intros Hsim He Hm. pose proof Hsim as [(h & es & lin & Hinv) Hth Hroles].
  cbn [process_config process_threads] in *.
  destruct (waiting_method_step _ _ _ _ _ _ _ _ Hinv Hm He)
    as [(j & c & q & Hl & -> & Hj & ->)|((h2 & Hinv2) & Hw & Hr)].
  - destruct cfg as [l sh gs]. cbn in *. subst l. by eapply simulates_lock.
  - exists s. split; [done|]. split; cbn [process_config process_threads].
    + by exists h2, (es ++ [e]), lin.
    + rewrite Hth. symmetry. by apply threads_seen_ext.
    + intros j [|c p] Hj; [done|]. destruct (Hr j c p Hj) as [p' Hj'].
      specialize (Hroles j _ Hj'). specialize (Hw j). rewrite Hj, Hj' in Hw.
      cbn [role_ok] in *. by rewrite Hw.
Qed.

Lemma simulates_step s0 p s p' :
  simulates s0 p s → process_step p p' → ∃ s', rtc system_step s s' ∧ simulates s0 p' s'.
Proof.
  intros Hsim Hstep. destruct Hstep as [p p' Hw|].
  - destruct Hw; [by eapply simulates_internal | | by eapply simulates_method].
    exists s. split; [done|]. by eapply simulates_call.
  - exists s. split; [done|]. by eapply simulates_probe.
Qed.

Lemma simulates_steps probers s0 p :
  rtc process_step (process_start probers s0) p → ∃ s, rtc system_step s0 s ∧ simulates s0 p s.
Proof.
  apply (rtc_ind_r (λ p, ∃ s, rtc system_step s0 s ∧ simulates s0 p s)).
  - exists s0. split; [done | apply simulates_start].
  - intros p1 p2 _ Hstep (s & Hr & Hsim). destruct (simulates_step _ _ _ _ Hsim Hstep) as (s' & Hr' & ?).
    exists s'. split; [by etrans | done].
Qed.

(** ** Termination *)

(** What is left of the methods the goroutines are in, and enough goroutines. *)
Definition bounded (ns : list nat) (p : Process) : Prop :=
  Forall2 Mutex.lasts ns (Mutex.goroutines (process_config p))
  ∧ 2 * length (process_threads p) ≤ length (Mutex.goroutines (process_config p)).

Lemma step_length e cfg cfg' :
  Mutex.step e cfg cfg' → length (Mutex.goroutines cfg') = length (Mutex.goroutines cfg).
Proof. destruct 1; cbn; apply length_insert. Qed.

(** A step of a worker takes up something, makes a call or gets on with one. *)
Lemma worker_step_bounded p p' ns :
  worker_step p p' → bounded ns p →
  let before := process_threads p in
  let after := process_threads p' in
  ∃ ns', bounded ns' p'
    ∧ (sum_list_with to_come after < sum_list_with to_come before
       ∨ sum_list_with to_come after = sum_list_with to_come before
         ∧ (sum_list_with in_hand after < sum_list_with in_hand before
            ∨ after = before ∧ sum_list ns' < sum_list ns)).
Proof.
  intros Hs [Hns Hlen]. unfold bounded.
  destruct Hs as [cfg ths i th th' Hi Hs Hidle|cfg cfg' ths i th cmd th' Hi Hs Hm|cfg e cfg' ths He Hm];
    cbn [process_config process_threads] in *; rewrite ?length_insert.
  - exists ns. split; [done|].
    pose proof (sum_list_update to_come ths i th th' Hi).
    pose proof (sum_list_update in_hand ths i th th' Hi).
    apply thread_step_work in Hs. lia.
  - destruct (Mutex.lasts_step _ _ _ _ Hm Hns) as (ns' & Hns' & _). exists ns'.
    rewrite (step_length _ _ _ Hm). split; [done|].
    pose proof (sum_list_update to_come ths i th th' Hi).
    pose proof (sum_list_update in_hand ths i th th' Hi).
    apply thread_step_work in Hs. lia.
  - destruct (Mutex.lasts_step _ _ _ _ Hm Hns) as (ns' & Hns' & Hle). exists ns'.
    rewrite (step_length _ _ _ Hm). split; [done|]. rewrite He in Hle.
    right. split; [done|]. right. split; [done|lia].
Qed.

Lemma bounded_sn p ns : bounded ns p → sn worker_step p.
Proof.
  remember (sum_list_with to_come (process_threads p)) as a eqn:Ha. revert p ns Ha.
  induction (lt_wf a) as [a _ IHa]. intros p ns Ha.
  remember (sum_list_with in_hand (process_threads p)) as b eqn:Hb. revert p ns Ha Hb.
  induction (lt_wf b) as [b _ IHb]. intros p ns Ha Hb.
  remember (sum_list ns) as c eqn:Hc. revert p ns Ha Hb Hc.
  induction (lt_wf c) as [c _ IHc]. intros p ns -> -> -> Hp. constructor. intros p' Hs.
  destruct (worker_step_bounded _ _ _ Hs Hp) as (ns' & Hp' & [Hlt|(Heq & [Hlt|(Eth & Hlt)])]).
  - by eapply IHa.
  - by eapply IHb.
  - eapply IHc; [exact Hlt|by rewrite Eth..|done|done].
Qed.

Lemma bounded_start probers (s : System Hd) : ∃ ns, bounded ns (process_start probers s).
Proof.
  exists (replicate (2 * length (system_threads s) + probers) 0). split.
  - apply Forall2_replicate. constructor.
  - cbn -[Nat.mul]. rewrite length_replicate. lia.
Qed.

Lemma bounded_step p p' ns : process_step p p' → bounded ns p → ∃ ns', bounded ns' p'.
Proof.
  intros Hs Hp. destruct Hs as [p p' Hs|cfg cfg' ths j threshold Hj Hm].
  - destruct (worker_step_bounded _ _ _ Hs Hp) as (ns' & ? & _). eauto.
  - destruct Hp as [Hns Hlen]. cbn in *. destruct (Mutex.lasts_step _ _ _ _ Hm Hns) as (ns' & ? & _).
    exists ns'. split; [done|]. cbn. by rewrite (step_length _ _ _ Hm).
Qed.

(** Nobody is in a method. *)
Definition at_rest (p : Process) : Prop :=
  ∀ j g, Mutex.goroutines (process_config p) !! j = Some g → g = Mutex.Idle.

Lemma process_informer p p' :
  process_step p p' → Forall informer_only (process_threads p) →
  Forall informer_only (process_threads p').
Proof.
  assert (∀ ths i th oc th', ths !! i = Some th → thread_step th oc th' →
    Forall informer_only ths → Forall informer_only (<[ i := th' ]> ths)) as Hupd.
  { intros ths i th oc th' Hi Hs Ha. apply Forall_insert; [done|].
    eapply thread_step_informer; [done|]. by eapply Forall_lookup_1. }
  intros Hs. destruct Hs as [p p' Hw|]; [|done]. destruct Hw; cbn; [eauto..|done].
Qed.

Lemma worker_stuck_iff s0 p s ns :
  simulates s0 p s → bounded ns p → Forall informer_only (process_threads p) →
  nf worker_step p ↔ forallb finished (process_threads p) = true ∧ at_rest p.
Proof.
  intros [(h & es & lin & Hinv) _ _] [_ Hlen] Ha. destruct p as [cfg ths].
  cbn [process_config process_threads] in *. rewrite forallb_forall. split.
  - intros Hnf. assert (at_rest (mkProcess cfg ths)) as Hrest.
    { destruct (Mutex.invariant_progress _ _ _ _ _ _ Hinv) as [Hidle|(i & e & cfg' & Hadv)]; [exact Hidle|].
      destruct Hnf. exists (mkProcess cfg' ths). eapply worker_method; [by eapply Mutex.advance_Next|].
      by eapply Mutex.advance_step. }
    split; [|done]. intros th Hin. destruct (finished th) eqn:Hf; [done|]. destruct Hnf.
    apply list_elem_of_In, list_elem_of_lookup in Hin as [i Hi].
    destruct (thread_progress th) as (oc & th' & Hs); [by eapply Forall_lookup_1 | done|].
    pose proof (lookup_lt_Some _ _ _ Hi) as Hlt.
    destruct (lookup_lt_is_Some_2 (Mutex.goroutines cfg) (slot i th th')) as [g Hg];
      [unfold slot; case_decide; lia|].
    assert (g = Mutex.Idle) as -> by (by eapply Hrest). destruct oc as [cmd|].
    + destruct cfg as [l sh gs]. eexists. eapply worker_call; [done..|]. by apply Mutex.step_invoke.
    + eexists. by eapply worker_internal.
  - intros [Hf Hrest] [p' Hs]. remember (mkProcess cfg ths) as p eqn:Ep.
    destruct Hs as [cfg0 ths0 i th th' Hi Hs _|cfg0 cfg' ths0 i th cmd th' Hi Hs _|cfg0 e cfg' ths0 He Hm];
      simplify_eq.
    + eapply finished_stuck, Hs. apply Hf, list_elem_of_In. by eapply list_elem_of_lookup_2.
    + eapply finished_stuck, Hs. apply Hf, list_elem_of_In. by eapply list_elem_of_lookup_2.
    + destruct Hm as [| i c q s1 gs Hg|i c B f k l s1 gs Hg|i c q s1 gs Hg|i c r l s1 gs Hg]; [done|..];
        by specialize (Hrest _ _ Hg).
Qed.

(** What the system is an execution of, in every state of the process. *)
Lemma process_reached probers s0 p :
  rtc process_step (process_start probers s0) p →
  Forall informer_only (system_threads s0) →
  (∃ s, rtc system_step s0 s ∧ simulates s0 p s) ∧ (∃ ns, bounded ns p)
  ∧ Forall informer_only (process_threads p).
Proof.
  intros Hr Ha. split; [by eapply simulates_steps|].
  revert Hr. apply (rtc_ind_r (λ p, (∃ ns, bounded ns p) ∧ Forall informer_only (process_threads p))).
  - split; [apply bounded_start | done].
  - intros p1 p2 _ Hs [(ns & Hb) Hi]. split; [by eapply bounded_step | by eapply process_informer].
Qed.

(** In a state at rest the threads are as they are seen. *)
Lemma at_rest_seen p : at_rest p → threads_seen p = process_threads p.
Proof.
  intros Hrest. assert (∀ j, waiting (Mutex.goroutines (process_config p) !! j) = []) as Hw.
  { intros j. destruct (_ !! j) as [g|] eqn:E; [|done]. by rewrite (Hrest j g E). }
  apply list_eq. intros i. rewrite threads_seen_lookup.
  destruct (process_threads p !! i) as [[c pending evs ph|pending rqs]|];
    cbn [thread_seen fmap option_fmap option_map]; by rewrite ?Hw.
Qed.

Lemma at_rest_free s0 p s : simulates s0 p s → at_rest p → Mutex.shared (process_config p) = system_sm s.
Proof.
  intros [(h & es & lin & Hinv) _ _] Hrest. apply (Mutex.inv_free _ _ _ _ _ _ Hinv).
  destruct h as [j|]; [|done]. pose proof (Mutex.inv_stage _ _ _ _ _ _ Hinv j) as Hst.
  inversion Hst as [Hne Hg|p0 Hne Hg|c p0 Hne Hg|c p0 n q r Hh Hin Hal Hg|c p0 r Hne Hg]; try done.
  by specialize (Hrest j _ (eq_sym Hg)).
Qed.

Lemma process_finishes probers s0 p :
  Forall informer_only (system_threads s0) → rtc process_step (process_start probers s0) p →
  sn worker_step p
  ∧ (nf worker_step p ↔ forallb finished (process_threads p) = true ∧ at_rest p)
  ∧ (nf worker_step p →
     ∃ s, rtc system_step s0 s ∧ nf system_step s ∧ Mutex.shared (process_config p) = system_sm s).
Proof.
  intros Ha Hr. destruct (process_reached _ _ _ Hr Ha) as ((s & Hs & Hsim) & (ns & Hb) & Hi).
  pose proof (worker_stuck_iff _ _ _ _ Hsim Hb Hi) as Hiff.
  split; [by eapply bounded_sn|]. split; [done|]. intros [Hf Hrest]%Hiff. exists s.
  split; [done|]. split; [|by eapply at_rest_free].
  apply system_stuck_iff; [by eapply system_informer|].
  by rewrite (sim_threads _ _ _ Hsim), at_rest_seen.
Qed.

(** ** The theorems *)

(** C3. Refinement: every execution of the goroutines, access by access, with
    requests to the health server at any time, is an execution of the system in
    which every call of the manager is one step: with the same manager and files
    whenever the mutex is free, with nothing in the log of the machine that the
    system's has not, and with the same threads whenever nobody is in a method. *)
Theorem goroutines_refine probers s0 p :
  rtc process_step (process_start probers s0) p →
  ∃ s, rtc system_step s0 s
    ∧ (Mutex.locked (process_config p) = false → Mutex.shared (process_config p) = system_sm s)
    ∧ Mutex.extends_log (Mutex.shared (process_config p)) (system_sm s)
    ∧ (at_rest p → process_threads p = system_threads s).
Proof.
  intros (s & Hr & Hsim)%simulates_steps. exists s. split; [done|].
  pose proof Hsim as [(h & es & lin & Hinv) Hth _]. split_and!.
  - intros E. apply (Mutex.inv_free _ _ _ _ _ _ Hinv).
    rewrite (Mutex.inv_locked _ _ _ _ _ _ Hinv) in E. by destruct h.
  - by eapply Mutex.invariant_log.
  - intros Hrest. by rewrite Hth, at_rest_seen.
Qed.

(** C8. The goroutines come to rest: however they are scheduled, and however
    often the health server is asked in between, the workers get through with the
    events and requests there are; they are stuck only when all is served and
    nobody is in a method, and then manager and files are those of a finished
    execution of the system. *)
Theorem goroutines_finish probers s0 p :
  Forall informer_only (system_threads s0) → rtc process_step (process_start probers s0) p →
  sn worker_step p
  ∧ (nf worker_step p ↔ forallb finished (process_threads p) = true ∧ at_rest p)
  ∧ (nf worker_step p →
     ∃ s, rtc system_step s0 s ∧ nf system_step s ∧ Mutex.shared (process_config p) = system_sm s).
Proof. apply process_finishes. Qed.

(** C18. Once every controller is through with [Run] and no call decided before it
    is left, the file stays up to date for good, at the level of goroutines: in
    every later state, whenever the mutex is free, it holds the current blueprint
    unless the last write failed. *)
Theorem steady_process_forever probers s0 p :
  steady_system s0 → rtc process_step (process_start probers s0) p →
  Mutex.locked (process_config p) = false → fresh (Mutex.shared (process_config p)).
Proof.
  intros Hs (s & Hr & [(h & es & lin & Hinv) _ _])%simulates_steps E.
  rewrite (Mutex.inv_free _ _ _ _ _ _ Hinv).
  - by eapply steady_reachable.
  - rewrite (Mutex.inv_locked _ _ _ _ _ _ Hinv) in E. by destruct h.
Qed.

End goroutines.

(** ** A run *)

Section demo.
  Local Existing Instances quiet_env demo_k8s.

(** [Run] calls [ForceWrite] and takes the mutex, while the health server is
    asked, a reconciler takes up its request and the informer an event. *)
Lemma demo_process :
  ∃ p, rtc process_step (process_start 2 demo_system) p
    ∧ Mutex.locked (process_config p) = true ∧ Forall informer_only (process_threads p).
Proof.
  assert (handle (add web) (demo, [] : Trace)
    = (demo_with {[ "apps/web" := web_keys ]} false, web_calls false)) as Hh
    by exact (process_web ∅ false false (or_introl eq_refl)).
  eexists. split; [|split].
  - eapply rtc_l; [eapply process_work, worker_call with (i := 0);
      [reflexivity | apply thread_force | apply Mutex.step_invoke; reflexivity]|].
    eapply rtc_l; [eapply process_probe with (j := 4) (threshold := 600000000000%Z); [cbn; lia | apply Mutex.step_invoke; reflexivity]|].
    eapply rtc_l; [eapply process_work, worker_internal with (i := 1);
      [reflexivity | apply thread_request | reflexivity]|].
    eapply rtc_l; [eapply process_work, worker_method with (e := None);
      [reflexivity | eapply (Mutex.step_lock 1); reflexivity]|].
    eapply rtc_l; [eapply process_work, worker_internal with (i := 0);
      [reflexivity | eapply thread_event; [done | exact Hh] | reflexivity]|].
    constructor.
  - reflexivity.
  - repeat constructor.
Qed.

Lemma goroutines_refine_witness :
  ∃ p, rtc process_step (process_start 2 demo_system) p
    ∧ Mutex.locked (process_config p) = true
    ∧ ∃ s, rtc system_step demo_system s
        ∧ (Mutex.locked (process_config p) = false → Mutex.shared (process_config p) = system_sm s)
        ∧ Mutex.extends_log (Mutex.shared (process_config p)) (system_sm s)
        ∧ (at_rest p → process_threads p = system_threads s).
Proof.
  destruct demo_process as (p & Hr & Hl & _). exists p. split; [exact Hr|]. split; [exact Hl|].
  exact (goroutines_refine 2 demo_system p Hr).
Defined.

Lemma goroutines_finish_witness :
  ∃ p, rtc process_step (process_start 2 demo_system) p
    ∧ Mutex.locked (process_config p) = true ∧ sn worker_step p.
Proof.
  destruct demo_process as (p & Hr & Hl & _). exists p. split; [exact Hr|]. split; [exact Hl|].
  assert (Forall informer_only (system_threads demo_system)) as Ha by repeat constructor.
  exact (proj1 (goroutines_finish 2 demo_system p Ha Hr)).
Defined.

(** A steady sidecar: a reconciler takes up a request and calls the manager. *)
Lemma steady_process_forever_witness :
  ∃ p, rtc process_step (process_start 1 demo_steady) p
    ∧ process_threads p ≠ system_threads demo_steady
    ∧ (Mutex.locked (process_config p) = false → fresh (Mutex.shared (process_config p))).
Proof.
  assert (∃ p, rtc process_step (process_start 1 demo_steady) p
    ∧ process_threads p ≠ system_threads demo_steady) as (p & Hr & Hne).
  { eexists. split.
    - eapply rtc_l; [eapply process_work, worker_internal with (i := 1);
        [reflexivity | apply thread_request | reflexivity]|].
      eapply rtc_l; [eapply process_work, worker_call with (i := 1);
        [reflexivity | apply thread_reply | apply Mutex.step_invoke; reflexivity]|].
      constructor.
    - intros E. by injection E. }
  exists p. split; [exact Hr|]. split; [exact Hne|].
  exact (steady_process_forever 1 demo_steady p demo_steady_ok Hr).
Defined.

End demo.
