(* ===== verification/Memory.v ===== *)
(** * Memory: pointers, slices, and what copying them means

    The generated copy functions of the API types are about memory: which cells
    a value reaches, and that a copy reaches none of them.  A heap maps locations
    to arrays; a pointer is to an element of an array, a slice is a part of one.
    [Copier] is what a copy function of one type promises: it never panics, the
    copy reads the same, no cell that was there changes, and the copy reaches new
    cells only.  The laws are closed under pairs, pointers, slices and structs. *)

From stdpp Require Import options.
From stdpp Require Import fin_maps.
From S2P Require Import Prelude.

Local Open Scope go_scope.

(** ** Definitions *)

(** A location, and a cell: an array of elements of some type. *)
Abbreviation loc := nat.

Section memory.
  Context {Cell : Type}.

Abbreviation Heap := (gmap loc Cell).

(** Computations on the heap; [None] is a panic. *)
Definition H (A : Type) : Type := Heap → option (A * Heap).

#[export] Instance H_ret : MRet H := λ A a h, Some (a, h).
#[export] Instance H_bind : MBind H := λ A B f x h,
  match x h with Some (a, h') => f a h' | None => None end.

(** The element types: arrays of them are cells. *)
Class Stored (A : Type) : Type := {
  inject : list A → Cell;
  project : Cell → option (list A);
  project_inject l : project (inject l) = Some l;
}.

(** [*T] and [[]T]: nil, or the place of an element, or a part of an array. *)
Record ptr (A : Type) : Type := mkPtr { ptr_at : option (loc * nat) }.
Record slice (A : Type) : Type := mkSlice { slice_at : option (loc * nat * nat) }.
#[global] Arguments mkPtr {A} _.
#[global] Arguments ptr_at {A} _.
#[global] Arguments mkSlice {A} _.
#[global] Arguments slice_at {A} _.

Section typed.
  Context {A : Type} `{!Stored A}.

Definition array (h : Heap) (l : loc) : option (list A) := c ← h !! l; project c.

(** [make([]A, n)] and [new(A)] with their contents *)
Definition alloc (xs : list A) : H loc := λ h,
  let l := fresh (dom h) in Some (l, <[ l := inject xs ]> h).

Definition load (l : loc) (i : nat) : H A := λ h,
  xs ← array h l; x ← xs !! i; Some (x, h).

Definition store (l : loc) (i : nat) (x : A) : H unit := λ h,
  xs ← array h l; if decide (i < length xs) then Some ((), <[ l := inject (<[ i := x ]> xs) ]> h) else None.

(** The elements of a slice. *)
Definition part (h : Heap) (l : loc) (off n : nat) : option (list A) :=
  xs ← array h l; if decide (off + n ≤ length xs) then Some (take n (drop off xs)) else None.

(** [for i := range *in { copy one element }], from the [i]-th element on *)
Fixpoint copy_loop (into : A → H A) (src : loc) (off : nat) (dst : loc) (i n : nat) : H unit :=
  match n with
  | 0 => mret ()
  | S n =>
      x ← load src (off + i);
      x' ← into x;
      _ ← store dst i x';
      copy_loop into src off dst (S i) n
  end.

(** [if in.F != nil { *out = make([]A, len( *in)); ... }]: every element by
    [into]; the builtin [copy] assigns them, which is [into] the identity. *)
Definition copy_slice (zero : A) (into : A → H A) (s : slice A) : H (slice A) :=
  match slice_at s with
  | None => mret (mkSlice None)
  | Some (src, off, n) =>
      dst ← alloc (replicate n zero);
      _ ← copy_loop into src off dst 0 n;
      mret (mkSlice (Some (dst, 0, n)))
  end.

(** [if in.F != nil { *out = new(A); ... }] and the [DeepCopy] methods *)
Definition copy_ptr (zero : A) (into : A → H A) (p : ptr A) : H (ptr A) :=
  match ptr_at p with
  | None => mret (mkPtr None)
  | Some (src, i) =>
      dst ← alloc [zero];
      x ← load src i;
      x' ← into x;
      _ ← store dst 0 x';
      mret (mkPtr (Some (dst, 0)))
  end.

End typed.

(** A copy function with what it is about: [view] is the value as a reader sees
    it, nil when a pointer dangles; [reach] are the cells the value reaches. *)
Class Copier (A V : Type) : Type := {
  zero_of : A;
  into : A → H A;
  view : Heap → A → option V;
  reach : Heap → A → gset loc;
}.
#[global] Hint Mode Copier ! - : typeclass_instances.

(** [a] in [h'] is a copy of what was [v] in [h]. *)
Definition copied {A V} `{Copier A V} (h : Heap) (v : V) (a : A) (h' : Heap) : Prop :=
  h ⊆ h' ∧ view h' a = Some v ∧ reach h' a ## dom h.

Class CopierLaws (A V : Type) `{Copier A V} : Prop := {
  view_frame (h h' : Heap) (a : A) (v : V) :
    view h a = Some v → (∀ l, l ∈ reach h a → h' !! l = h !! l) →
    view h' a = Some v ∧ reach h' a = reach h a;
  reach_dom (h : Heap) (a : A) (v : V) : view h a = Some v → reach h a ⊆ dom h;
  into_copies (h : Heap) (a : A) (v : V) :
    view h a = Some v → ∃ a' h', into a h = Some (a', h') ∧ copied h v a' h';
}.

(** Values without pointers are copied by assignment. *)
Definition flat {A} (z : A) : Copier A A := {|
  zero_of := z;
  into := mret;
  view _ a := Some a;
  reach _ _ := ∅;
|}.

#[export] Instance string_copier : Copier string string := flat "".
#[export] Instance Z_copier : Copier Z Z := flat 0%Z.
#[export] Instance bool_copier : Copier bool bool := flat false.

(** Two fields, one after the other. *)
#[export] Instance pair_copier {A V B W} `{Copier A V, Copier B W} : Copier (A * B) (V * W) := {|
  zero_of := (zero_of, zero_of);
  into '(a, b) := a' ← into a; b' ← into b; mret (a', b');
  view h '(a, b) := v ← view h a; w ← view h b; Some (v, w);
  reach h '(a, b) := reach h a ∪ reach h b;
|}.

#[export] Instance ptr_copier {A V} `{!Stored A, Copier A V} : Copier (ptr A) (option V) := {|
  zero_of := mkPtr None;
  into := copy_ptr zero_of into;
  view h p :=
    match ptr_at p with
    | None => Some None
    | Some (l, i) => xs ← array h l; x ← xs !! i; v ← view h x; Some (Some v)
    end;
  reach h p :=
    match ptr_at p with
    | None => ∅
    | Some (l, i) => {[ l ]} ∪ from_option (reach h) ∅ (xs ← array h l; xs !! i)
    end;
|}.

#[export] Instance slice_copier {A V} `{!Stored A, Copier A V} : Copier (slice A) (goslice V) := {|
  zero_of := mkSlice None;
  into := copy_slice zero_of into;
  view h s :=
    match slice_at s with
    | None => Some None
    | Some (l, off, n) => xs ← part h l off n; vs ← mapM (view h) xs; Some (Some vs)
    end;
  reach h s :=
    match slice_at s with
    | None => ∅
    | Some (l, off, n) => {[ l ]} ∪ ⋃ (reach h <$> default [] (part h l off n))
    end;
|}.

(** ** Laws *)

#[export] Instance flat_laws {A} (z : A) : @CopierLaws A A (flat z).
Proof.
  split; cbn.
  - intros h h' a v [= <-] _. done.
  - intros. set_solver.
  - intros h a v [= <-]. exists a, h. split; [done|]. by split_and!.
Qed.

Lemma heap_le (h h' : Heap) l c : h ⊆ h' → h !! l = Some c → h' !! l = Some c.
Proof. intros Hle Hl. by eapply lookup_weaken. Qed.

Lemma heap_le_insert (h h' : Heap) l c : h ⊆ h' → l ∉ dom h → h ⊆ <[ l := c ]> h'.
Proof. intros Hle Hl. apply insert_subseteq_r; [by apply not_elem_of_dom | done]. Qed.

Section laws.
  Context {A V : Type} `{CopierLaws A V}.
  Implicit Types (h : Heap) (a : A) (v : V).
  Local Set Default Proof Using "Type*".

(** A larger heap reads the same. *)
Lemma view_keep h h' a v :
  view h a = Some v → h ⊆ h' → view h' a = Some v ∧ reach h' a = reach h a.
Proof.
  intros Hv Hle. apply (view_frame h h' a v Hv). intros l Hl.
  apply (reach_dom h a v Hv), elem_of_dom in Hl as [c Hc]. rewrite Hc. by eapply heap_le.
Qed.

(** A copy still reads the same when a cell that was there before changes. *)
Lemma copied_store h v a h' l c :
  copied h v a h' → l ∈ dom h → view (<[ l := c ]> h') a = Some v ∧ reach (<[ l := c ]> h') a = reach h' a.
Proof.
  intros (_ & Hv & Hr) Hl. apply (view_frame h' _ a v Hv). intros l' Hl'.
  rewrite lookup_insert_ne; [done|]. set_solver.
Qed.

End laws.

#[export] Instance pair_laws {A V B W} `{CopierLaws A V, CopierLaws B W} : CopierLaws (A * B) (V * W).
Proof.
  split.
  - intros h h' [a b] vw Hvw Hag. cbn in *.
    destruct (view h a) as [v|] eqn:Ha; [|done]. destruct (view h b) as [w|] eqn:Hb; [|done].
    cbn in Hvw. simplify_eq.
    destruct (view_frame h h' a v Ha) as [-> ->]; [set_solver|].
    destruct (view_frame h h' b w Hb) as [-> ->]; [set_solver|]. done.
  - intros h [a b] vw Hvw. cbn in *.
    destruct (view h a) as [v|] eqn:Ha; [|done]. destruct (view h b) as [w|] eqn:Hb; [|done].
    apply reach_dom in Ha, Hb. set_solver.
  - intros h [a b] vw Hvw. cbn in *.
    destruct (view h a) as [v|] eqn:Ha; [|done]. destruct (view h b) as [w|] eqn:Hb; [|done].
    cbn in Hvw. simplify_eq.
    destruct (into_copies h a v Ha) as (a' & h1 & Hia & Hle1 & Hva & Hra).
    destruct (view_keep h h1 b w Hb Hle1) as [Hb1 _].
    destruct (into_copies h1 b w Hb1) as (b' & h2 & Hib & Hle2 & Hvb & Hrb).
    destruct (view_keep h1 h2 a' v Hva Hle2) as [Hva2 Hra2].
    exists (a', b'), h2. unfold mbind, H_bind. rewrite Hia, Hib. split; [done|].
    split_and!; cbn; [by etrans | by rewrite Hva2, Hvb |].
    rewrite Hra2. apply subseteq_dom in Hle1. set_solver.
Qed.

Section cells.
  Context {A V : Type} `{!Stored A, CopierLaws A V}.
  Implicit Types (h : Heap) (l dst : loc) (x : A).
  Local Set Default Proof Using "Type*".

Lemma array_keep h h' l (xs : list A) : h ⊆ h' → array h l = Some xs → array h' l = Some xs.
Proof.
  intros Hle. unfold array. destruct (h !! l) as [c|] eqn:Hc; [|done].
  by rewrite (heap_le h h' l c Hle Hc).
Qed.

Lemma array_frame h h' l : h' !! l = h !! l → array (A := A) h' l = array h l.
Proof. unfold array. by intros ->. Qed.

Lemma array_insert h l (xs : list A) : array (<[ l := inject xs ]> h) l = Some xs.
Proof. unfold array. rewrite lookup_insert_eq. apply project_inject. Qed.

Lemma array_dom h l (xs : list A) : array h l = Some xs → l ∈ dom h.
Proof. unfold array. intros Ha. destruct (h !! l) eqn:Hl; [by apply elem_of_dom_2 in Hl | done]. Qed.

Lemma alloc_spec h (xs : list A) :
  ∃ l, alloc xs h = Some (l, <[ l := inject xs ]> h) ∧ l ∉ dom h.
Proof. eexists. split; [done|]. apply is_fresh. Qed.

Lemma load_spec h l i (xs : list A) x :
  array h l = Some xs → xs !! i = Some x → load l i h = Some (x, h).
Proof. unfold load. intros -> Hx. cbn. by rewrite Hx. Qed.

Lemma store_spec h l i (xs : list A) x :
  array h l = Some xs → i < length xs →
  store l i x h = Some ((), <[ l := inject (<[ i := x ]> xs) ]> h).
Proof. unfold store. intros -> Hi. cbn. by rewrite decide_True. Qed.

#[export] Instance ptr_laws : CopierLaws (ptr A) (option V).
Proof.
  assert (∀ h l i ov, view h (mkPtr (A := A) (Some (l, i))) = Some ov →
    ∃ xs x v, array h l = Some xs ∧ xs !! i = Some x ∧ view h x = Some v ∧ ov = Some v) as Hinv.
  { intros h l i ov Hv. cbn in Hv. destruct (array h l) as [xs|]; [|done]. cbn in Hv.
    destruct (xs !! i) as [x|] eqn:Hx; [|done]. cbn in Hv.
    destruct (view h x) as [v|] eqn:Hvx; [|done]. cbn in Hv. simplify_eq. by exists xs, x, v. }
  split.
  - intros h h' [[[l i]|]] ov Hv Hag; [|by cbn in *; simplify_eq].
    apply Hinv in Hv as (xs & x & v & Ha & Hx & Hv & ->). cbn in *. rewrite Ha in Hag. cbn in Hag.
    rewrite Hx in Hag. cbn in Hag.
    rewrite (array_frame h h' l), Ha by (apply Hag; set_solver). cbn. rewrite Hx. cbn.
    destruct (view_frame h h' x v Hv) as [-> ->]; [set_solver|]. done.
  - intros h [[[l i]|]] ov Hv; [|cbn; set_solver].
    apply Hinv in Hv as (xs & x & v & Ha & Hx & Hv & ->). cbn. rewrite Ha. cbn. rewrite Hx. cbn.
    apply array_dom in Ha. apply reach_dom in Hv. set_solver.
  - intros h [[[l i]|]] ov Hv.
    2:{ exists (mkPtr None), h. cbn in *. split; [done|]. split_and!; cbn; [done..|set_solver]. }
    apply Hinv in Hv as (xs & x & v & Ha & Hx & Hv & ->).
    destruct (alloc_spec h [zero_of (A := A)]) as (dst & Halloc & Hdst).
    set (h1 := <[ dst := _ ]> h) in *.
    assert (h ⊆ h1) as Hle by by apply heap_le_insert.
    destruct (view_keep h h1 x v Hv Hle) as [Hv1 _].
    destruct (into_copies h1 x v Hv1) as (x' & h2 & Hinto & Hle2 & Hv2 & Hr2).
    assert (array h2 dst = Some [zero_of]) as Hz by (eapply array_keep; [done | apply array_insert]).
    exists (mkPtr (Some (dst, 0))), (<[ dst := inject [x'] ]> h2). split.
    + cbn. unfold copy_ptr. cbn. unfold mbind, H_bind. rewrite Halloc.
      rewrite (load_spec h1 l i xs x) by (done || by eapply array_keep). rewrite Hinto.
      rewrite (store_spec h2 dst 0 [zero_of] x' Hz) by (cbn; lia). done.
    + assert (dst ∈ dom h1) as Hd1 by (unfold h1; set_solver).
      destruct (copied_store h1 v x' h2 dst (inject [x']) ltac:(by split_and!) Hd1) as [Hv3 Hr3].
      split_and!.
      * apply heap_le_insert; [by etrans | done].
      * cbn. rewrite array_insert. cbn. by rewrite Hv3.
      * cbn. rewrite array_insert. cbn. rewrite Hr3. unfold h1 in Hr2. set_solver.
Qed.

End cells.

(** *** Slices *)

Section slices.
  Context {A V : Type} `{!Stored A, CopierLaws A V}.
  Implicit Types (h : Heap) (l dst : loc) (x : A).
  Local Set Default Proof Using "Type*".

(** The elements [ys] are copies made since [h0], in the cell [dst] or not. *)
Definition copies (h0 h : Heap) (dst : loc) (ys : list A) (vs : list V) : Prop :=
  Forall2 (λ y v, view h y = Some v ∧ reach h y ## {[ dst ]} ∪ dom h0) ys vs.

Lemma copies_next h0 h h1 dst ys vs x' v c :
  h0 ⊆ h → dst ∈ dom h → copies h0 h dst ys vs → copied h v x' h1 →
  copies h0 (<[ dst := c ]> h1) dst (ys ++ [x']) (vs ++ [v]).
Proof.
  intros Hle0 Hdst Hys Hc. pose proof Hc as (Hle & _ & Hr). apply Forall2_app.
  - eapply Forall2_impl; [exact Hys|]. intros y w [Hy Hry].
    destruct (view_keep h h1 y w Hy Hle) as [Hy1 Hry1].
    destruct (view_frame h1 (<[ dst := c ]> h1) y w Hy1) as [Hy2 Hry2].
    { intros l Hl. rewrite lookup_insert_ne; [done|]. set_solver. }
    by rewrite Hry2, Hry1.
  - destruct (copied_store h v x' h1 dst c Hc Hdst) as [Hx Hrx].
    constructor; [|constructor]. rewrite Hrx. split; [done|].
    apply subseteq_dom in Hle0. set_solver.
Qed.

Lemma copy_loop_spec h0 src off dst (all xs ys : list A) vs ws (z : A) h :
  array h0 src = Some all → h0 ⊆ h → dst ∉ dom h0 →
  (∀ j x, xs !! j = Some x → all !! (off + (length ys + j)) = Some x) →
  Forall2 (λ x v, view h0 x = Some v) xs vs →
  array h dst = Some (ys ++ replicate (length xs) z) → copies h0 h dst ys ws →
  ∃ h' ys', copy_loop into src off dst (length ys) (length xs) h = Some ((), h')
    ∧ h0 ⊆ h' ∧ array h' dst = Some ys' ∧ copies h0 h' dst ys' (ws ++ vs).
Proof.
  intros Hall Hle Hdst Hxs Hvs. revert ys ws h Hle Hxs.
  induction Hvs as [|x v xs vs Hx Hvs IH]; intros ys ws h Hle Hxs Harr Hys.
  { exists h, ys. rewrite !app_nil_r in *. done. }
  cbn [length copy_loop]. unfold mbind, H_bind.
  rewrite (load_spec h src (off + length ys) all x);
    [|by eapply array_keep|rewrite <- (Hxs 0 x eq_refl); f_equal; lia].
  destruct (view_keep h0 h x v Hx Hle) as [Hx1 _].
  destruct (into_copies h x v Hx1) as (x' & h1 & Hinto & Hc). rewrite Hinto.
  pose proof Hc as (Hle1 & _). pose proof (array_dom h dst _ Harr) as Hd.
  rewrite (store_spec h1 dst (length ys) (ys ++ replicate (length (x :: xs)) z));
    [|by eapply array_keep | rewrite length_app, length_replicate; cbn; lia].
  rewrite insert_app_r_alt, Nat.sub_diag by done. cbn [length replicate insert list_insert].
  rewrite (cons_middle x'), app_assoc.
  set (h2 := <[ dst := _ ]> h1).
  destruct (IH (ys ++ [x']) (ws ++ [v]) h2) as (h' & ys' & Hloop & Hle' & Harr' & Hc').
  - apply heap_le_insert; [by etrans | done].
  - intros j y Hj. rewrite length_app. cbn [length]. rewrite <- (Hxs (S j) y Hj). f_equal. lia.
  - apply array_insert.
  - by eapply copies_next.
  - exists h', ys'. rewrite length_app in Hloop. cbn [length] in Hloop.
    rewrite Nat.add_1_r in Hloop. rewrite Hloop. by rewrite (cons_middle v), app_assoc.
Qed.

Lemma copies_view h0 h dst ys vs : copies h0 h dst ys vs → mapM (view h) ys = Some vs.
Proof. intros Hc. apply mapM_Some. eapply Forall2_impl; [exact Hc|]. by intros y v []. Qed.

Lemma copies_reach h0 h dst ys vs :
  copies h0 h dst ys vs → ⋃ (reach h <$> ys) ## {[ dst ]} ∪ dom h0.
Proof. induction 1 as [|y v ys vs [_ Hr] _ IH]; cbn; set_solver. Qed.

Lemma views_frame h h' xs vs :
  Forall2 (λ x v, view h x = Some v) xs vs →
  (∀ l, l ∈ ⋃ (reach h <$> xs) → h' !! l = h !! l) →
  Forall2 (λ x v, view h' x = Some v) xs vs ∧ reach h' <$> xs = reach h <$> xs.
Proof.
  induction 1 as [|x v xs vs Hx _ IH]; intros Hag; [done|]. cbn in *.
  destruct (view_frame h h' x v Hx) as [Hx' Hr]; [set_solver|].
  destruct IH as [Hxs Hrs]; [set_solver|]. split; [by constructor | by rewrite Hr, Hrs].
Qed.

Lemma views_reach h xs vs :
  Forall2 (λ x v, view h x = Some v) xs vs → ⋃ (reach h <$> xs) ⊆ dom h.
Proof.
  induction 1 as [|x v xs vs Hx _ IH]; cbn; [set_solver|]. apply reach_dom in Hx. set_solver.
Qed.

Lemma slice_view_inv h l off n ovs :
  view h (mkSlice (A := A) (Some (l, off, n))) = Some ovs →
  ∃ all xs vs, array h l = Some all ∧ off + n ≤ length all ∧ xs = take n (drop off all)
    ∧ Forall2 (λ x v, view h x = Some v) xs vs ∧ ovs = Some vs.
Proof.
  cbn. unfold part. destruct (array h l) as [all|]; [|done]. cbn. case_decide; [|done]. cbn.
  destruct (mapM _ _) as [vs|] eqn:Hvs; [|done]. cbn. intros. simplify_eq.
  apply mapM_Some in Hvs. by exists all, (take n (drop off all)), vs.
Qed.

Lemma part_spec h l off n (all : list A) :
  array h l = Some all → off + n ≤ length all → part h l off n = Some (take n (drop off all)).
Proof. unfold part. intros -> Hl. cbn. by rewrite decide_True. Qed.

#[export] Instance slice_laws : CopierLaws (slice A) (goslice V).
Proof.
  split.
  - intros h h' [[[[l off] n]|]] ovs Hv Hag; [|by cbn in *; simplify_eq].
    apply slice_view_inv in Hv as (all & xs & vs & Ha & Hl & -> & Hvs & ->). cbn in *.
    rewrite (part_spec h l off n all Ha Hl) in *. cbn in Hag.
    assert (array h' l = Some all) as Ha' by (rewrite (array_frame h h' l); [done|]; apply Hag; set_solver).
    rewrite (part_spec h' l off n all Ha' Hl). cbn.
    destruct (views_frame h h' _ _ Hvs) as [Hvs' Hr]; [set_solver|].
    apply mapM_Some in Hvs'. by rewrite Hvs', Hr.
  - intros h [[[[l off] n]|]] ovs Hv; [|cbn; set_solver].
    apply slice_view_inv in Hv as (all & xs & vs & Ha & Hl & -> & Hvs & ->). cbn.
    rewrite (part_spec h l off n all Ha Hl). cbn. apply views_reach in Hvs. apply array_dom in Ha.
    set_solver.
  - intros h [[[[l off] n]|]] ovs Hv.
    2:{ exists (mkSlice None), h. cbn in *. split; [done|]. split_and!; cbn; [done..|set_solver]. }
    apply slice_view_inv in Hv as (all & xs & vs & Ha & Hl & Hxs & Hvs & ->).
    assert (length xs = n) as Hn by (rewrite Hxs, length_take, length_drop; lia).
    destruct (alloc_spec h (replicate n (zero_of (A := A)))) as (dst & Halloc & Hdst).
    set (h1 := <[ dst := _ ]> h) in *.
    assert (h ⊆ h1) as Hle by by apply heap_le_insert.
    destruct (copy_loop_spec h l off dst all xs [] vs [] zero_of h1) as (h' & ys & Hloop & Hle' & Harr & Hc);
      try done.
    { intros j x Hj. cbn. rewrite Hxs in Hj. apply lookup_take_Some in Hj as [Hj _].
      by rewrite lookup_drop in Hj. }
    { rewrite Hn. apply array_insert. }
    { constructor. }
    cbn [length] in Hloop. rewrite Hn in Hloop. cbn [app] in Hc.
    assert (length ys = n) as Hy by (rewrite <- Hn, (Forall2_length _ _ _ Hc); symmetry; by eapply Forall2_length).
    assert (part h' dst 0 n = Some ys) as Hp.
    { rewrite (part_spec h' dst 0 n ys Harr) by lia. by rewrite drop_0, take_ge by lia. }
    exists (mkSlice (Some (dst, 0, n))), h'. split.
    + cbn. unfold copy_slice. cbn. unfold mbind, H_bind. by rewrite Halloc, Hloop.
    + split_and!; [done|..]; cbn; rewrite Hp; cbn.
      * by rewrite (copies_view _ _ _ _ _ Hc).
      * apply copies_reach in Hc. set_solver.
Qed.

End slices.

(** *** Structs *)

(** A struct is copied field by field: [to] lists its fields. *)
Section structs.
  Context {A B V W : Type} (to : A → B) (from : B → A) (fields : W → V).

Definition struct `{Copier B W} (copy : A → H A) : Copier A V := {|
  zero_of := from zero_of;
  into := copy;
  view h a := fields <$> view h (to a);
  reach h a := reach h (to a);
|}.

Lemma struct_laws `{CopierLaws B W} (copy : A → H A) :
  (∀ b, to (from b) = b) →
  (∀ a h, copy a h = match into (to a) h with Some (b, h') => Some (from b, h') | None => None end) →
  @CopierLaws A V (struct copy).
Proof.
  intros Hto Hcopy. split; cbn.
  - intros h h' a v Hv Hag. apply fmap_Some in Hv as (w & Hw & ->).
    by destruct (view_frame h h' (to a) w Hw Hag) as [-> ->].
  - intros h a v Hv. apply fmap_Some in Hv as (w & Hw & ->). by eapply reach_dom.
  - intros h a v Hv. apply fmap_Some in Hv as (w & Hw & ->).
    destruct (into_copies h (to a) w Hw) as (b & h' & Hi & Hle & Hvb & Hr).
    exists (from b), h'. rewrite Hcopy, Hi. split; [done|].
    split_and!; cbn; rewrite ?Hto; [done | by rewrite Hvb | done].
Qed.

End structs.

(** ** What a copy is good for *)

(** [DeepCopy]: a pointer to a copy; the original and the copy read the same, and
    neither notices when cells of the other change. *)
Lemma copy_ptr_independent {A V} `{!Stored A, CopierLaws A V} (h : Heap) (p : ptr A) v :
  view h p = Some (Some v) →
  ∃ p' h', copy_ptr zero_of into p h = Some (p', h')
    ∧ (∀ l, l ∈ dom h → h' !! l = h !! l)
    ∧ view h' p = Some (Some v) ∧ view h' p' = Some (Some v)
    ∧ (∀ h2, (∀ l, l ∉ dom h → h2 !! l = h' !! l) → view h2 p' = Some (Some v))
    ∧ (∀ h2, (∀ l, l ∈ dom h → h2 !! l = h' !! l) → view h2 p = Some (Some v)).
Proof.
  intros Hv. destruct (into_copies h p _ Hv) as (p' & h' & Hc & Hle & Hv' & Hr).
  destruct (view_keep h h' p _ Hv Hle) as [Hvp Hrp].
  exists p', h'. split_and!; [done| |done..| |].
  - intros l [c Hl]%elem_of_dom. rewrite Hl. by eapply heap_le.
  - intros h2 Hag. apply (view_frame h' h2 p' _ Hv'). set_solver.
  - intros h2 Hag. apply (view_frame h' h2 p _ Hvp). rewrite Hrp.
    apply reach_dom in Hv. set_solver.
Qed.

End memory.

#[global] Arguments H : clear implicits.
#[global] Arguments H Cell A : assert.
