(* ===== verification/DeepCopy.v ===== *)
(** * Package [v1alpha1]: the generated copy functions

    [zz_generated.deepcopy.go] copies the objects the reconcilers get from the
    cache of controller-runtime, which hands out copies so that the cached
    objects are never shared.  The API types are given as they lie in memory,
    with pointers and slices; read through the heap they are the records of
    [CrdPublic] and [CrdPrivate].  A [DeepCopyInto] is a function from the value
    of [*in] to the value [*out] has in the end; it allocates on the way. *)

From stdpp Require Import options.
From S2P Require Import Prelude Memory.
From S2P Require CrdPublic CrdPrivate.

Local Open Scope go_scope.

(** ** Definitions *)

(** *** The types in memory *)

Abbreviation PublicHeaderSpec := CrdPublic.PublicHeaderSpec.
Abbreviation PublicRuleSpec := CrdPublic.PublicRuleSpec.
Abbreviation PublicMaintenanceSpec := CrdPublic.PublicMaintenanceSpec.

Record PublicAuthSpec : Type := mkAuthSpec {
  AuthSpec_SsoEnabled : bool;
  AuthSpec_SsoRoles : slice string;
  AuthSpec_SsoUsers : slice string;
  AuthSpec_WhitelistUsers : slice string;
  AuthSpec_AutoLoginIdp : Z;
  AuthSpec_AuthSecretRef : string;
}.

Record PublicHealthCheckSpec : Type := mkHealthCheckSpec {
  HealthCheckSpec_Hostname : string;
  HealthCheckSpec_Port : Z;
  HealthCheckSpec_Enabled : ptr bool;
  HealthCheckSpec_Path : string;
  HealthCheckSpec_Scheme : string;
  HealthCheckSpec_Mode : string;
  HealthCheckSpec_Interval : Z;
  HealthCheckSpec_UnhealthyInterval : Z;
  HealthCheckSpec_Timeout : Z;
  HealthCheckSpec_Headers : slice PublicHeaderSpec;
  HealthCheckSpec_FollowRedirects : ptr bool;
  HealthCheckSpec_Method : string;
  HealthCheckSpec_Status : Z;
}.

Record PublicTargetSpec : Type := mkTargetSpec {
  TargetSpec_Hostname : string;
  TargetSpec_Port : Z;
  TargetSpec_Method : string;
  TargetSpec_Enabled : ptr bool;
  TargetSpec_InternalPort : Z;
  TargetSpec_Path : string;
  TargetSpec_PathMatch : string;
  TargetSpec_RewritePath : string;
  TargetSpec_RewriteMatch : string;
  TargetSpec_Priority : Z;
  TargetSpec_Healthcheck : ptr PublicHealthCheckSpec;
}.

Record PublicResourceSpec : Type := mkPublicSpec {
  PublicSpec_Name : string;
  PublicSpec_Protocol : string;
  PublicSpec_FullDomain : string;
  PublicSpec_ProxyPort : Z;
  PublicSpec_Enabled : ptr bool;
  PublicSpec_Ssl : bool;
  PublicSpec_HostHeader : string;
  PublicSpec_TlsServerName : string;
  PublicSpec_Headers : slice PublicHeaderSpec;
  PublicSpec_Auth : ptr PublicAuthSpec;
  PublicSpec_Maintenance : ptr PublicMaintenanceSpec;
  PublicSpec_Rules : slice PublicRuleSpec;
  PublicSpec_Targets : slice PublicTargetSpec;
}.

Record PrivateResourceSpec : Type := mkPrivateSpec {
  PrivateSpec_Name : string;
  PrivateSpec_Mode : string;
  PrivateSpec_Destination : string;
  PrivateSpec_TcpPorts : string;
  PrivateSpec_UdpPorts : string;
  PrivateSpec_DisableIcmp : bool;
  PrivateSpec_Alias : string;
  PrivateSpec_Roles : slice string;
  PrivateSpec_Users : slice string;
  PrivateSpec_Machines : slice string;
}.

(** The types of k8s.io/apimachinery in the objects: as they lie in memory, what
    a reader sees of them, and the cells only they use. *)
Class Apimachinery : Type := {
  TypeMeta : Type;
  ObjectMeta : Type;
  ObjectMetaView : Type;
  ListMeta : Type;
  ListMetaView : Type;
  Foreign : Type;
}.

Section types.
  Context `{Apimachinery}.

Record PrivateResource : Type := mkPrivateResource {
  PrivateResource_TypeMeta : TypeMeta;
  PrivateResource_ObjectMeta : ObjectMeta;
  PrivateResource_Spec : PrivateResourceSpec;
}.

Record PrivateResourceList : Type := mkPrivateResourceList {
  PrivateResourceList_TypeMeta : TypeMeta;
  PrivateResourceList_ListMeta : ListMeta;
  PrivateResourceList_Items : slice PrivateResource;
}.

Record PublicResource : Type := mkPublicResource {
  PublicResource_TypeMeta : TypeMeta;
  PublicResource_ObjectMeta : ObjectMeta;
  PublicResource_Spec : PublicResourceSpec;
}.

Record PublicResourceList : Type := mkPublicResourceList {
  PublicResourceList_TypeMeta : TypeMeta;
  PublicResourceList_ListMeta : ListMeta;
  PublicResourceList_Items : slice PublicResource;
}.

(** The arrays a heap may hold. *)
Inductive Cell : Type :=
| CBool (xs : list bool)
| CString (xs : list string)
| CHeader (xs : list PublicHeaderSpec)
| CRule (xs : list PublicRuleSpec)
| CMaintenance (xs : list PublicMaintenanceSpec)
| CAuth (xs : list PublicAuthSpec)
| CHealthCheck (xs : list PublicHealthCheckSpec)
| CTarget (xs : list PublicTargetSpec)
| CPublicSpec (xs : list PublicResourceSpec)
| CPublic (xs : list PublicResource)
| CPublicList (xs : list PublicResourceList)
| CPrivateSpec (xs : list PrivateResourceSpec)
| CPrivate (xs : list PrivateResource)
| CPrivateList (xs : list PrivateResourceList)
| CForeign (x : Foreign).

#[export] Instance CBool_stored : Stored (Cell := Cell) bool :=
  {| inject := CBool; project c := match c with CBool xs => Some xs | _ => None end;
     project_inject _ := eq_refl |}.
#[export] Instance CString_stored : Stored (Cell := Cell) string :=
  {| inject := CString; project c := match c with CString xs => Some xs | _ => None end;
     project_inject _ := eq_refl |}.
#[export] Instance CHeader_stored : Stored (Cell := Cell) PublicHeaderSpec :=
  {| inject := CHeader; project c := match c with CHeader xs => Some xs | _ => None end;
     project_inject _ := eq_refl |}.
#[export] Instance CRule_stored : Stored (Cell := Cell) PublicRuleSpec :=
  {| inject := CRule; project c := match c with CRule xs => Some xs | _ => None end;
     project_inject _ := eq_refl |}.
#[export] Instance CMaintenance_stored : Stored (Cell := Cell) PublicMaintenanceSpec :=
  {| inject := CMaintenance; project c := match c with CMaintenance xs => Some xs | _ => None end;
     project_inject _ := eq_refl |}.
#[export] Instance CAuth_stored : Stored (Cell := Cell) PublicAuthSpec :=
  {| inject := CAuth; project c := match c with CAuth xs => Some xs | _ => None end;
     project_inject _ := eq_refl |}.
#[export] Instance CHealthCheck_stored : Stored (Cell := Cell) PublicHealthCheckSpec :=
  {| inject := CHealthCheck; project c := match c with CHealthCheck xs => Some xs | _ => None end;
     project_inject _ := eq_refl |}.
#[export] Instance CTarget_stored : Stored (Cell := Cell) PublicTargetSpec :=
  {| inject := CTarget; project c := match c with CTarget xs => Some xs | _ => None end;
     project_inject _ := eq_refl |}.
#[export] Instance CPublicSpec_stored : Stored (Cell := Cell) PublicResourceSpec :=
  {| inject := CPublicSpec; project c := match c with CPublicSpec xs => Some xs | _ => None end;
     project_inject _ := eq_refl |}.
#[export] Instance CPublic_stored : Stored (Cell := Cell) PublicResource :=
  {| inject := CPublic; project c := match c with CPublic xs => Some xs | _ => None end;
     project_inject _ := eq_refl |}.
#[export] Instance CPublicList_stored : Stored (Cell := Cell) PublicResourceList :=
  {| inject := CPublicList; project c := match c with CPublicList xs => Some xs | _ => None end;
     project_inject _ := eq_refl |}.
#[export] Instance CPrivateSpec_stored : Stored (Cell := Cell) PrivateResourceSpec :=
  {| inject := CPrivateSpec; project c := match c with CPrivateSpec xs => Some xs | _ => None end;
     project_inject _ := eq_refl |}.
#[export] Instance CPrivate_stored : Stored (Cell := Cell) PrivateResource :=
  {| inject := CPrivate; project c := match c with CPrivate xs => Some xs | _ => None end;
     project_inject _ := eq_refl |}.
#[export] Instance CPrivateList_stored : Stored (Cell := Cell) PrivateResourceList :=
  {| inject := CPrivateList; project c := match c with CPrivateList xs => Some xs | _ => None end;
     project_inject _ := eq_refl |}.

(** *** The specifications *)

(** [*out = *in] and nothing more *)
Definition PublicHeaderSpec_DeepCopyInto (in_ : PublicHeaderSpec) : H Cell PublicHeaderSpec := mret in_.
Definition PublicRuleSpec_DeepCopyInto (in_ : PublicRuleSpec) : H Cell PublicRuleSpec := mret in_.
Definition PublicMaintenanceSpec_DeepCopyInto (in_ : PublicMaintenanceSpec)
    : H Cell PublicMaintenanceSpec := mret in_.

#[export] Instance PublicHeaderSpec_copier : Copier (Cell := Cell) PublicHeaderSpec PublicHeaderSpec :=
  flat (CrdPublic.mkHeaderSpec "" "").
#[export] Instance PublicRuleSpec_copier : Copier (Cell := Cell) PublicRuleSpec PublicRuleSpec :=
  flat (CrdPublic.mkRuleSpec "" "" "" 0).
#[export] Instance PublicMaintenanceSpec_copier : Copier (Cell := Cell) PublicMaintenanceSpec PublicMaintenanceSpec :=
  flat (CrdPublic.mkMaintenanceSpec false "" "" "" "").

Definition PublicAuthSpec_DeepCopyInto (in_ : PublicAuthSpec) : H Cell PublicAuthSpec :=
  ssoRoles ← copy_slice "" mret (AuthSpec_SsoRoles in_);
  ssoUsers ← copy_slice "" mret (AuthSpec_SsoUsers in_);
  whitelistUsers ← copy_slice "" mret (AuthSpec_WhitelistUsers in_);
  mret {|
    AuthSpec_SsoEnabled := AuthSpec_SsoEnabled in_;
    AuthSpec_SsoRoles := ssoRoles;
    AuthSpec_SsoUsers := ssoUsers;
    AuthSpec_WhitelistUsers := whitelistUsers;
    AuthSpec_AutoLoginIdp := AuthSpec_AutoLoginIdp in_;
    AuthSpec_AuthSecretRef := AuthSpec_AuthSecretRef in_;
  |}.

#[export] Instance PublicAuthSpec_copier : Copier (Cell := Cell) PublicAuthSpec CrdPublic.PublicAuthSpec :=
  struct
    (λ s, (AuthSpec_SsoEnabled s, AuthSpec_SsoRoles s, AuthSpec_SsoUsers s, AuthSpec_WhitelistUsers s,
     AuthSpec_AutoLoginIdp s, AuthSpec_AuthSecretRef s))
    (λ '(a, b, c, d, e, f), mkAuthSpec a b c d e f)
    (λ '(a, b, c, d, e, f), CrdPublic.mkAuthSpec a b c d e f)
    PublicAuthSpec_DeepCopyInto.

Definition PublicHealthCheckSpec_DeepCopyInto (in_ : PublicHealthCheckSpec) : H Cell PublicHealthCheckSpec :=
  enabled ← copy_ptr false mret (HealthCheckSpec_Enabled in_);
  headers ← copy_slice zero_of mret (HealthCheckSpec_Headers in_);
  followRedirects ← copy_ptr false mret (HealthCheckSpec_FollowRedirects in_);
  mret {|
    HealthCheckSpec_Hostname := HealthCheckSpec_Hostname in_;
    HealthCheckSpec_Port := HealthCheckSpec_Port in_;
    HealthCheckSpec_Enabled := enabled;
    HealthCheckSpec_Path := HealthCheckSpec_Path in_;
    HealthCheckSpec_Scheme := HealthCheckSpec_Scheme in_;
    HealthCheckSpec_Mode := HealthCheckSpec_Mode in_;
    HealthCheckSpec_Interval := HealthCheckSpec_Interval in_;
    HealthCheckSpec_UnhealthyInterval := HealthCheckSpec_UnhealthyInterval in_;
    HealthCheckSpec_Timeout := HealthCheckSpec_Timeout in_;
    HealthCheckSpec_Headers := headers;
    HealthCheckSpec_FollowRedirects := followRedirects;
    HealthCheckSpec_Method := HealthCheckSpec_Method in_;
    HealthCheckSpec_Status := HealthCheckSpec_Status in_;
  |}.

#[export] Instance PublicHealthCheckSpec_copier : Copier (Cell := Cell) PublicHealthCheckSpec CrdPublic.PublicHealthCheckSpec :=
  struct
    (λ s, (HealthCheckSpec_Hostname s, HealthCheckSpec_Port s, HealthCheckSpec_Enabled s, HealthCheckSpec_Path s,
     HealthCheckSpec_Scheme s, HealthCheckSpec_Mode s, HealthCheckSpec_Interval s, HealthCheckSpec_UnhealthyInterval s,
     HealthCheckSpec_Timeout s, HealthCheckSpec_Headers s, HealthCheckSpec_FollowRedirects s, HealthCheckSpec_Method s,
     HealthCheckSpec_Status s))
    (λ '(a, b, c, d, e, f, g, h, i, j, k, l, m), mkHealthCheckSpec a b c d e f g h i j k l m)
    (λ '(a, b, c, d, e, f, g, h, i, j, k, l, m), CrdPublic.mkHealthCheckSpec a b c d e f g h i j k l m)
    PublicHealthCheckSpec_DeepCopyInto.

Definition PublicTargetSpec_DeepCopyInto (in_ : PublicTargetSpec) : H Cell PublicTargetSpec :=
  enabled ← copy_ptr false mret (TargetSpec_Enabled in_);
  healthcheck ← copy_ptr zero_of PublicHealthCheckSpec_DeepCopyInto (TargetSpec_Healthcheck in_);
  mret {|
    TargetSpec_Hostname := TargetSpec_Hostname in_;
    TargetSpec_Port := TargetSpec_Port in_;
    TargetSpec_Method := TargetSpec_Method in_;
    TargetSpec_Enabled := enabled;
    TargetSpec_InternalPort := TargetSpec_InternalPort in_;
    TargetSpec_Path := TargetSpec_Path in_;
    TargetSpec_PathMatch := TargetSpec_PathMatch in_;
    TargetSpec_RewritePath := TargetSpec_RewritePath in_;
    TargetSpec_RewriteMatch := TargetSpec_RewriteMatch in_;
    TargetSpec_Priority := TargetSpec_Priority in_;
    TargetSpec_Healthcheck := healthcheck;
  |}.

#[export] Instance PublicTargetSpec_copier : Copier (Cell := Cell) PublicTargetSpec CrdPublic.PublicTargetSpec :=
  struct
    (λ s, (TargetSpec_Hostname s, TargetSpec_Port s, TargetSpec_Method s, TargetSpec_Enabled s,
     TargetSpec_InternalPort s, TargetSpec_Path s, TargetSpec_PathMatch s, TargetSpec_RewritePath s,
     TargetSpec_RewriteMatch s, TargetSpec_Priority s, TargetSpec_Healthcheck s))
    (λ '(a, b, c, d, e, f, g, h, i, j, k), mkTargetSpec a b c d e f g h i j k)
    (λ '(a, b, c, d, e, f, g, h, i, j, k), CrdPublic.mkTargetSpec a b c d e f g h i j k)
    PublicTargetSpec_DeepCopyInto.

Definition PublicResourceSpec_DeepCopyInto (in_ : PublicResourceSpec) : H Cell PublicResourceSpec :=
  enabled ← copy_ptr false mret (PublicSpec_Enabled in_);
  headers ← copy_slice zero_of mret (PublicSpec_Headers in_);
  auth ← copy_ptr zero_of PublicAuthSpec_DeepCopyInto (PublicSpec_Auth in_);
  maintenance ← copy_ptr zero_of mret (PublicSpec_Maintenance in_);
  rules ← copy_slice zero_of mret (PublicSpec_Rules in_);
  targets ← copy_slice zero_of PublicTargetSpec_DeepCopyInto (PublicSpec_Targets in_);
  mret {|
    PublicSpec_Name := PublicSpec_Name in_;
    PublicSpec_Protocol := PublicSpec_Protocol in_;
    PublicSpec_FullDomain := PublicSpec_FullDomain in_;
    PublicSpec_ProxyPort := PublicSpec_ProxyPort in_;
    PublicSpec_Enabled := enabled;
    PublicSpec_Ssl := PublicSpec_Ssl in_;
    PublicSpec_HostHeader := PublicSpec_HostHeader in_;
    PublicSpec_TlsServerName := PublicSpec_TlsServerName in_;
    PublicSpec_Headers := headers;
    PublicSpec_Auth := auth;
    PublicSpec_Maintenance := maintenance;
    PublicSpec_Rules := rules;
    PublicSpec_Targets := targets;
  |}.

#[export] Instance PublicResourceSpec_copier : Copier (Cell := Cell) PublicResourceSpec CrdPublic.PublicResourceSpec :=
  struct
    (λ s, (PublicSpec_Name s, PublicSpec_Protocol s, PublicSpec_FullDomain s, PublicSpec_ProxyPort s,
     PublicSpec_Enabled s, PublicSpec_Ssl s, PublicSpec_HostHeader s, PublicSpec_TlsServerName s,
     PublicSpec_Headers s, PublicSpec_Auth s, PublicSpec_Maintenance s, PublicSpec_Rules s,
     PublicSpec_Targets s))
    (λ '(a, b, c, d, e, f, g, h, i, j, k, l, m), mkPublicSpec a b c d e f g h i j k l m)
    (λ '(a, b, c, d, e, f, g, h, i, j, k, l, m), CrdPublic.mkPublicSpec a b c d e f g h i j k l m)
    PublicResourceSpec_DeepCopyInto.

Definition PrivateResourceSpec_DeepCopyInto (in_ : PrivateResourceSpec) : H Cell PrivateResourceSpec :=
  roles ← copy_slice "" mret (PrivateSpec_Roles in_);
  users ← copy_slice "" mret (PrivateSpec_Users in_);
  machines ← copy_slice "" mret (PrivateSpec_Machines in_);
  mret {|
    PrivateSpec_Name := PrivateSpec_Name in_;
    PrivateSpec_Mode := PrivateSpec_Mode in_;
    PrivateSpec_Destination := PrivateSpec_Destination in_;
    PrivateSpec_TcpPorts := PrivateSpec_TcpPorts in_;
    PrivateSpec_UdpPorts := PrivateSpec_UdpPorts in_;
    PrivateSpec_DisableIcmp := PrivateSpec_DisableIcmp in_;
    PrivateSpec_Alias := PrivateSpec_Alias in_;
    PrivateSpec_Roles := roles;
    PrivateSpec_Users := users;
    PrivateSpec_Machines := machines;
  |}.

#[export] Instance PrivateResourceSpec_copier : Copier (Cell := Cell) PrivateResourceSpec CrdPrivate.PrivateResourceSpec :=
  struct
    (λ s, (PrivateSpec_Name s, PrivateSpec_Mode s, PrivateSpec_Destination s, PrivateSpec_TcpPorts s,
     PrivateSpec_UdpPorts s, PrivateSpec_DisableIcmp s, PrivateSpec_Alias s, PrivateSpec_Roles s,
     PrivateSpec_Users s, PrivateSpec_Machines s))
    (λ '(a, b, c, d, e, f, g, h, i, j), mkPrivateSpec a b c d e f g h i j)
    (λ '(a, b, c, d, e, f, g, h, i, j), CrdPrivate.mkPrivateSpec a b c d e f g h i j)
    PrivateResourceSpec_DeepCopyInto.

(** *** The methods that allocate *)

(** [if in == nil { return nil }; out := new(T); in.DeepCopyInto(out)] *)
Definition PublicHeaderSpec_DeepCopy : ptr PublicHeaderSpec → H Cell (ptr PublicHeaderSpec) :=
  copy_ptr zero_of PublicHeaderSpec_DeepCopyInto.
Definition PublicRuleSpec_DeepCopy : ptr PublicRuleSpec → H Cell (ptr PublicRuleSpec) :=
  copy_ptr zero_of PublicRuleSpec_DeepCopyInto.
Definition PublicMaintenanceSpec_DeepCopy
    : ptr PublicMaintenanceSpec → H Cell (ptr PublicMaintenanceSpec) :=
  copy_ptr zero_of PublicMaintenanceSpec_DeepCopyInto.
Definition PublicAuthSpec_DeepCopy : ptr PublicAuthSpec → H Cell (ptr PublicAuthSpec) :=
  copy_ptr zero_of PublicAuthSpec_DeepCopyInto.
Definition PublicHealthCheckSpec_DeepCopy
    : ptr PublicHealthCheckSpec → H Cell (ptr PublicHealthCheckSpec) :=
  copy_ptr zero_of PublicHealthCheckSpec_DeepCopyInto.
Definition PublicTargetSpec_DeepCopy : ptr PublicTargetSpec → H Cell (ptr PublicTargetSpec) :=
  copy_ptr zero_of PublicTargetSpec_DeepCopyInto.
Definition PublicResourceSpec_DeepCopy : ptr PublicResourceSpec → H Cell (ptr PublicResourceSpec) :=
  copy_ptr zero_of PublicResourceSpec_DeepCopyInto.
Definition PrivateResourceSpec_DeepCopy
    : ptr PrivateResourceSpec → H Cell (ptr PrivateResourceSpec) :=
  copy_ptr zero_of PrivateResourceSpec_DeepCopyInto.

End types.

(** *** Objects *)

(** The copy functions of apimachinery; [TypeMeta] has no pointers. *)
Class MetaCopy `{Apimachinery} : Type := {
  TypeMeta_zero : TypeMeta;
  ObjectMeta_copier :: Copier (Cell := Cell) ObjectMeta ObjectMetaView;
  ListMeta_copier :: Copier (Cell := Cell) ListMeta ListMetaView;
}.

(** They are deep copies. *)
Class MetaCopyLaws `{MetaCopy} : Prop := {
  ObjectMeta_laws :: CopierLaws (Cell := Cell) ObjectMeta ObjectMetaView;
  ListMeta_laws :: CopierLaws (Cell := Cell) ListMeta ListMetaView;
}.

Section objects.
  Context `{MetaCopy}.

#[export] Instance TypeMeta_copier : Copier (Cell := Cell) TypeMeta TypeMeta := flat TypeMeta_zero.

Definition PrivateResource_DeepCopyInto (in_ : PrivateResource) : H Cell PrivateResource :=
  objectMeta ← into (PrivateResource_ObjectMeta in_);
  spec ← PrivateResourceSpec_DeepCopyInto (PrivateResource_Spec in_);
  mret {|
    PrivateResource_TypeMeta := PrivateResource_TypeMeta in_;
    PrivateResource_ObjectMeta := objectMeta;
    PrivateResource_Spec := spec;
  |}.

(** What a reader sees of an object: type, metadata and specification. *)
#[export] Instance PrivateResource_copier :
    Copier (Cell := Cell) PrivateResource (TypeMeta * ObjectMetaView * CrdPrivate.PrivateResourceSpec) :=
  struct
    (λ s, (PrivateResource_TypeMeta s, PrivateResource_ObjectMeta s, PrivateResource_Spec s))
    (λ '(t, m, s), mkPrivateResource t m s)
    id PrivateResource_DeepCopyInto.

Definition PrivateResourceList_DeepCopyInto (in_ : PrivateResourceList) : H Cell PrivateResourceList :=
  listMeta ← into (PrivateResourceList_ListMeta in_);
  items ← copy_slice zero_of PrivateResource_DeepCopyInto (PrivateResourceList_Items in_);
  mret {|
    PrivateResourceList_TypeMeta := PrivateResourceList_TypeMeta in_;
    PrivateResourceList_ListMeta := listMeta;
    PrivateResourceList_Items := items;
  |}.

#[export] Instance PrivateResourceList_copier :
    Copier (Cell := Cell) PrivateResourceList
      (TypeMeta * ListMetaView * goslice (TypeMeta * ObjectMetaView * CrdPrivate.PrivateResourceSpec)) :=
  struct
    (λ s, (PrivateResourceList_TypeMeta s, PrivateResourceList_ListMeta s, PrivateResourceList_Items s))
    (λ '(t, m, s), mkPrivateResourceList t m s)
    id PrivateResourceList_DeepCopyInto.

Definition PublicResource_DeepCopyInto (in_ : PublicResource) : H Cell PublicResource :=
  objectMeta ← into (PublicResource_ObjectMeta in_);
  spec ← PublicResourceSpec_DeepCopyInto (PublicResource_Spec in_);
  mret {|
    PublicResource_TypeMeta := PublicResource_TypeMeta in_;
    PublicResource_ObjectMeta := objectMeta;
    PublicResource_Spec := spec;
  |}.

#[export] Instance PublicResource_copier :
    Copier (Cell := Cell) PublicResource (TypeMeta * ObjectMetaView * CrdPublic.PublicResourceSpec) :=
  struct
    (λ s, (PublicResource_TypeMeta s, PublicResource_ObjectMeta s, PublicResource_Spec s))
    (λ '(t, m, s), mkPublicResource t m s)
    id PublicResource_DeepCopyInto.

Definition PublicResourceList_DeepCopyInto (in_ : PublicResourceList) : H Cell PublicResourceList :=
  listMeta ← into (PublicResourceList_ListMeta in_);
  items ← copy_slice zero_of PublicResource_DeepCopyInto (PublicResourceList_Items in_);
  mret {|
    PublicResourceList_TypeMeta := PublicResourceList_TypeMeta in_;
    PublicResourceList_ListMeta := listMeta;
    PublicResourceList_Items := items;
  |}.

#[export] Instance PublicResourceList_copier :
    Copier (Cell := Cell) PublicResourceList
      (TypeMeta * ListMetaView * goslice (TypeMeta * ObjectMetaView * CrdPublic.PublicResourceSpec)) :=
  struct
    (λ s, (PublicResourceList_TypeMeta s, PublicResourceList_ListMeta s, PublicResourceList_Items s))
    (λ '(t, m, s), mkPublicResourceList t m s)
    id PublicResourceList_DeepCopyInto.

Definition PrivateResource_DeepCopy : ptr PrivateResource → H Cell (ptr PrivateResource) :=
  copy_ptr zero_of PrivateResource_DeepCopyInto.
Definition PrivateResourceList_DeepCopy : ptr PrivateResourceList → H Cell (ptr PrivateResourceList) :=
  copy_ptr zero_of PrivateResourceList_DeepCopyInto.
Definition PublicResource_DeepCopy : ptr PublicResource → H Cell (ptr PublicResource) :=
  copy_ptr zero_of PublicResource_DeepCopyInto.
Definition PublicResourceList_DeepCopy : ptr PublicResourceList → H Cell (ptr PublicResourceList) :=
  copy_ptr zero_of PublicResourceList_DeepCopyInto.

(** [runtime.Object] with one of the four types inside. *)
Inductive Object : Type :=
| OPrivateResource (p : ptr PrivateResource)
| OPrivateResourceList (p : ptr PrivateResourceList)
| OPublicResource (p : ptr PublicResource)
| OPublicResourceList (p : ptr PublicResourceList).

(** [if c != nil { return c }; return nil]: the nil interface, not a nil pointer
    in an interface. *)
Definition as_object {A} (wrap : ptr A → Object) (c : ptr A) : option Object :=
  match ptr_at c with Some _ => Some (wrap c) | None => None end.

Definition PrivateResource_DeepCopyObject (p : ptr PrivateResource) : H Cell (option Object) :=
  c ← PrivateResource_DeepCopy p; mret (as_object OPrivateResource c).
Definition PrivateResourceList_DeepCopyObject (p : ptr PrivateResourceList) : H Cell (option Object) :=
  c ← PrivateResourceList_DeepCopy p; mret (as_object OPrivateResourceList c).
Definition PublicResource_DeepCopyObject (p : ptr PublicResource) : H Cell (option Object) :=
  c ← PublicResource_DeepCopy p; mret (as_object OPublicResource c).
Definition PublicResourceList_DeepCopyObject (p : ptr PublicResourceList) : H Cell (option Object) :=
  c ← PublicResourceList_DeepCopy p; mret (as_object OPublicResourceList c).

(** The method of the interface. *)
Definition DeepCopyObject (o : Object) : H Cell (option Object) :=
  match o with
  | OPrivateResource p => PrivateResource_DeepCopyObject p
  | OPrivateResourceList p => PrivateResourceList_DeepCopyObject p
  | OPublicResource p => PublicResource_DeepCopyObject p
  | OPublicResourceList p => PublicResourceList_DeepCopyObject p
  end.

(** What a reader sees of an object: which of the four it is, and its value. *)
Inductive ObjectView : Type :=
| VPrivateResource (v : TypeMeta * ObjectMetaView * CrdPrivate.PrivateResourceSpec)
| VPrivateResourceList
    (v : TypeMeta * ListMetaView * goslice (TypeMeta * ObjectMetaView * CrdPrivate.PrivateResourceSpec))
| VPublicResource (v : TypeMeta * ObjectMetaView * CrdPublic.PublicResourceSpec)
| VPublicResourceList
    (v : TypeMeta * ListMetaView * goslice (TypeMeta * ObjectMetaView * CrdPublic.PublicResourceSpec)).

(** Nothing for a nil pointer and for one that dangles. *)
Definition view_ptr {A V} `{!Stored (Cell := Cell) A, !Copier (Cell := Cell) A V}
    (wrap : V → ObjectView) (h : gmap loc Cell) (p : ptr A) : option ObjectView :=
  ov ← view h p; v ← ov; Some (wrap v).

Definition view_object (h : gmap loc Cell) (o : Object) : option ObjectView :=
  match o with
  | OPrivateResource p => view_ptr VPrivateResource h p
  | OPrivateResourceList p => view_ptr VPrivateResourceList h p
  | OPublicResource p => view_ptr VPublicResource h p
  | OPublicResourceList p => view_ptr VPublicResourceList h p
  end.

End objects.

(** ** Laws of the specifications *)

(** A struct's copy function is that of the tuple of its fields. *)
Ltac copy_fields :=
  repeat match goal with
  | |- context [@copy_slice ?C ?A ?I ?z ?f ?s ?h] => destruct (@copy_slice C A I z f s h) as [[? ?]|]
  | |- context [@copy_ptr ?C ?A ?I ?z ?f ?s ?h] => destruct (@copy_ptr C A I z f s h) as [[? ?]|]
  end; reflexivity.

Section laws.
  Context `{Apimachinery}.

#[export] Instance PublicAuthSpec_laws : CopierLaws (Cell := Cell) PublicAuthSpec CrdPublic.PublicAuthSpec.
Proof.
  eapply struct_laws; [apply _ | by intros [[[[[? ?] ?] ?] ?] ?] |].
  intros [] h. lazy -[copy_slice copy_ptr]. copy_fields.
Qed.

#[export] Instance PublicHealthCheckSpec_laws :
  CopierLaws (Cell := Cell) PublicHealthCheckSpec CrdPublic.PublicHealthCheckSpec.
Proof.
  eapply struct_laws; [apply _ | by intros [[[[[[[[[[[[? ?] ?] ?] ?] ?] ?] ?] ?] ?] ?] ?] ?] |].
  intros [] h. lazy -[copy_slice copy_ptr]. copy_fields.
Qed.

#[export] Instance PublicTargetSpec_laws :
  CopierLaws (Cell := Cell) PublicTargetSpec CrdPublic.PublicTargetSpec.
Proof.
  eapply struct_laws; [apply _ | by intros [[[[[[[[[[? ?] ?] ?] ?] ?] ?] ?] ?] ?] ?] |].
  intros [] h. lazy -[copy_slice copy_ptr PublicHealthCheckSpec_DeepCopyInto]. copy_fields.
Qed.

#[export] Instance PublicResourceSpec_laws :
  CopierLaws (Cell := Cell) PublicResourceSpec CrdPublic.PublicResourceSpec.
Proof.
  eapply struct_laws; [apply _ | by intros [[[[[[[[[[[[? ?] ?] ?] ?] ?] ?] ?] ?] ?] ?] ?] ?] |].
  intros [] h.
  lazy -[copy_slice copy_ptr PublicTargetSpec_DeepCopyInto PublicAuthSpec_DeepCopyInto]. copy_fields.
Qed.

#[export] Instance PrivateResourceSpec_laws :
  CopierLaws (Cell := Cell) PrivateResourceSpec CrdPrivate.PrivateResourceSpec.
Proof.
  eapply struct_laws; [apply _ | by intros [[[[[[[[[? ?] ?] ?] ?] ?] ?] ?] ?] ?] |].
  intros [] h. lazy -[copy_slice copy_ptr]. copy_fields.
Qed.

End laws.

(** ** Laws of the objects *)

Section object_laws.
  Context `{MetaCopy, !MetaCopyLaws}.
  Local Set Default Proof Using "Type*".

(** An object and a list are type, metadata and one more field. *)
Lemma object_laws {A M MV B BV} `{CopierLaws (Cell := Cell) M MV, CopierLaws (Cell := Cell) B BV}
    (to_t : A → TypeMeta) (to_m : A → M) (to_b : A → B) (mk : TypeMeta → M → B → A) (copy : A → H Cell A) :
  (∀ t m b, (to_t (mk t m b), to_m (mk t m b), to_b (mk t m b)) = (t, m, b)) →
  (∀ a h, copy a h = (m ← into (to_m a); b ← into (to_b a); mret (mk (to_t a) m b)) h) →
  @CopierLaws Cell A (TypeMeta * MV * BV)
    (struct (λ s, (to_t s, to_m s, to_b s)) (λ '(t, m, s), mk t m s) id copy).
Proof.
  intros Hmk Hcopy. apply struct_laws; [apply _ | by intros [[t m] b] |].
  intros a h. rewrite Hcopy. cbn. unfold mbind, H_bind, mret, H_ret. cbn.
  destruct (into (to_m a) h) as [[m h1]|]; [|done]. destruct (into (to_b a) h1) as [[b h2]|]; done.
Qed.

#[export] Instance PrivateResource_laws :
  CopierLaws (Cell := Cell) PrivateResource (TypeMeta * ObjectMetaView * CrdPrivate.PrivateResourceSpec).
Proof. by apply object_laws. Qed.
#[export] Instance PublicResource_laws :
  CopierLaws (Cell := Cell) PublicResource (TypeMeta * ObjectMetaView * CrdPublic.PublicResourceSpec).
Proof. by apply object_laws. Qed.
#[export] Instance PrivateResourceList_laws :
  CopierLaws (Cell := Cell) PrivateResourceList
    (TypeMeta * ListMetaView * goslice (TypeMeta * ObjectMetaView * CrdPrivate.PrivateResourceSpec)).
Proof. by apply object_laws. Qed.
#[export] Instance PublicResourceList_laws :
  CopierLaws (Cell := Cell) PublicResourceList
    (TypeMeta * ListMetaView * goslice (TypeMeta * ObjectMetaView * CrdPublic.PublicResourceSpec)).
Proof. by apply object_laws. Qed.

(** The cells that were there, and the new ones, are changed by others: what each
    of the two still reads as. *)
Definition independent (h h' : gmap loc Cell) (o o' : Object) (v : ObjectView) : Prop :=
  (∀ h2, (∀ l, l ∉ dom h → h2 !! l = h' !! l) → view_object h2 o' = Some v)
  ∧ (∀ h2, (∀ l, l ∈ dom h → h2 !! l = h' !! l) → view_object h2 o = Some v).

Lemma view_ptr_Some {A V} `{!Stored (Cell := Cell) A, !Copier (Cell := Cell) A V} (wrap : V → ObjectView) h (p : ptr A) v :
  view_ptr wrap h p = Some v ↔ ∃ x, view h p = Some (Some x) ∧ v = wrap x.
Proof.
  unfold view_ptr. destruct (view h p) as [[x|]|]; cbn; split; try (by intros (? & [=] & _)); try done.
  - intros [= <-]. by exists x.
  - by intros (? & [= <-] & ->).
Qed.

(** [DeepCopyObject] of one of the four types, from the laws of its copies. *)
Lemma deepcopy_spec {A V} `{!Stored (Cell := Cell) A, CopierLaws (Cell := Cell) A V}
    (wrap : ptr A → Object) (vwrap : V → ObjectView) h (p : ptr A) v :
  (∀ h p, view_object h (wrap p) = view_ptr vwrap h p) →
  view_object h (wrap p) = Some v →
  ∃ o' h', (c ← copy_ptr zero_of into p; mret (as_object wrap c)) h = Some (Some o', h')
    ∧ (∀ l, l ∈ dom h → h' !! l = h !! l) ∧ view_object h' o' = Some v
    ∧ independent h h' (wrap p) o' v.
Proof.
  intros Hw Hv. rewrite Hw in Hv. apply view_ptr_Some in Hv as (x & Hx & ->).
  destruct (copy_ptr_independent h p x Hx) as (p' & h' & Hc & Hsame & _ & Hp' & Hi1 & Hi2).
  exists (wrap p'), h'. unfold mbind, H_bind. rewrite Hc.
  assert (as_object wrap p' = Some (wrap p')) as ->.
  { unfold as_object. cbn in Hp'. by destruct (ptr_at p'). }
  split_and!; [done..| |split].
  - rewrite Hw. apply view_ptr_Some. by exists x.
  - intros h2 Hag. rewrite Hw. apply view_ptr_Some. exists x. split; [by apply Hi1 | done].
  - intros h2 Hag. rewrite Hw. apply view_ptr_Some. exists x. split; [by apply Hi2 | done].
Qed.

(** C16. [DeepCopyObject] of an object of this API, lists included: it does not panic;
    nothing that was in memory changes; the copy is of the same type and reads the
    same down to the last pointer; and from then on the two have nothing in
    common: however the cells that were there before change, the copy reads as it
    did, and however the new ones change, so does the original. *)
Theorem DeepCopyObject_independent h o v :
  view_object h o = Some v →
  ∃ o' h', DeepCopyObject o h = Some (Some o', h')
    ∧ (∀ l, l ∈ dom h → h' !! l = h !! l) ∧ view_object h' o' = Some v
    ∧ independent h h' o o' v.
Proof.
  destruct o as [p|p|p|p]; intros Hv.
  - exact (deepcopy_spec OPrivateResource VPrivateResource h p v (λ _ _, eq_refl) Hv).
  - exact (deepcopy_spec OPrivateResourceList VPrivateResourceList h p v (λ _ _, eq_refl) Hv).
  - exact (deepcopy_spec OPublicResource VPublicResource h p v (λ _ _, eq_refl) Hv).
  - exact (deepcopy_spec OPublicResourceList VPublicResourceList h p v (λ _ _, eq_refl) Hv).
Qed.

(** A nil pointer gives the nil interface, and nothing is allocated. *)
Lemma DeepCopyObject_nil h :
  DeepCopyObject (OPublicResource (mkPtr None)) h = Some (None, h)
  ∧ DeepCopyObject (OPublicResourceList (mkPtr None)) h = Some (None, h)
  ∧ DeepCopyObject (OPrivateResource (mkPtr None)) h = Some (None, h)
  ∧ DeepCopyObject (OPrivateResourceList (mkPtr None)) h = Some (None, h).
Proof. done. Qed.

End object_laws.

(** ** An object in memory *)

Section demo.

(** Metadata with a name and finalizers. *)
Local Instance demo_api : Apimachinery := {|
  TypeMeta := string;
  ObjectMeta := string * slice string;
  ObjectMetaView := string * goslice string;
  ListMeta := string;
  ListMetaView := string;
  Foreign := Empty_set;
|}.

Local Instance demo_meta : MetaCopy := {|
  TypeMeta_zero := "";
  ObjectMeta_copier := pair_copier (Cell := Cell) (A := string) (B := slice string);
  ListMeta_copier := string_copier (Cell := Cell);
|}.

Local Instance demo_meta_laws : MetaCopyLaws.
Proof. split; apply _. Qed.

Definition demo_target (hc : ptr PublicHealthCheckSpec) : PublicTargetSpec :=
  mkTargetSpec "web.apps" 80 "http" (mkPtr (Some (4, 0))) 0 "" "" "" "" 0 hc.

Definition demo_public : PublicResource := {|
  PublicResource_TypeMeta := "PublicResource";
  PublicResource_ObjectMeta := ("web", mkSlice (Some (1, 1, 1)));
  PublicResource_Spec :=
    mkPublicSpec "Web" "http" "web.example.com" 0 (mkPtr None) true "" ""
      (mkSlice (Some (5, 0, 0))) (mkPtr (Some (6, 0))) (mkPtr None) (mkSlice None)
      (mkSlice (Some (2, 0, 2)));
|}.

(** A list of one object; two targets share a pointer, a slice starts within its
    array, one is empty and one nil. *)
Definition demo_heap : gmap loc Cell := list_to_map
  [(0, CPublic [demo_public]);
   (1, CString ["unused"; "keep"]);
   (2, CTarget [demo_target (mkPtr None); demo_target (mkPtr (Some (3, 0)))]);
   (3, CHealthCheck [mkHealthCheckSpec "web.apps" 80 (mkPtr (Some (4, 0))) "/" "" "" 0 0 0
                       (mkSlice (Some (5, 0, 1))) (mkPtr None) "" 200]);
   (4, CBool [true]);
   (5, CHeader [CrdPublic.mkHeaderSpec "Accept" "*/*"]);
   (6, CAuth [mkAuthSpec true (mkSlice (Some (1, 0, 1))) (mkSlice None) (mkSlice None) 0 "web-auth"]);
   (7, CPublicList [mkPublicResourceList "PublicResourceList" "42" (mkSlice (Some (0, 0, 1)))])].

Definition demo_list : Object := OPublicResourceList (mkPtr (Some (7, 0))).

Definition demo_target_view (hc : option CrdPublic.PublicHealthCheckSpec) : CrdPublic.PublicTargetSpec :=
  CrdPublic.mkTargetSpec "web.apps" 80 "http" (Some true) 0 "" "" "" "" 0 hc.

Definition demo_view : ObjectView :=
  VPublicResourceList
    ("PublicResourceList", "42",
     Some [("PublicResource", ("web", Some ["keep"]),
       CrdPublic.mkPublicSpec "Web" "http" "web.example.com" 0 None true "" "" (Some [])
         (Some (CrdPublic.mkAuthSpec true (Some ["unused"]) None None 0 "web-auth")) None None
         (Some [demo_target_view None;
                demo_target_view (Some (CrdPublic.mkHealthCheckSpec "web.apps" 80 (Some true) "/" "" "" 0 0 0
                  (Some [CrdPublic.mkHeaderSpec "Accept" "*/*"]) None "" 200))]))]).

Lemma DeepCopyObject_independent_witness :
  view_object demo_heap demo_list = Some demo_view
  ∧ ∃ o' h', DeepCopyObject demo_list demo_heap = Some (Some o', h')
    ∧ (∀ l, l ∈ dom demo_heap → h' !! l = demo_heap !! l) ∧ view_object h' o' = Some demo_view
    ∧ independent demo_heap h' demo_list o' demo_view.
Proof.
  assert (view_object demo_heap demo_list = Some demo_view) as Hv by (vm_compute; reflexivity).
  split; [exact Hv|].
  exact (DeepCopyObject_independent demo_heap demo_list demo_view Hv).
Defined.

End demo.
