(* ===== verification/Main.v ===== *)
(** * Package [main]: the start of the sidecar

    [main] with everything outside the program as the answers of a [Platform]:
    a list of actions and how the process ends.  Actions are the calls that start
    something or hand something to a library; log messages are left out, and a
    deferred call does nothing when the process exits. *)

From stdpp Require Import options.
From S2P Require Import Prelude GoStrings GoFlag Config Load Blueprint BlueprintProps StateManager Store.
From S2P Require Import StateProps Resources HttpRoute Service Controller ControllerProps.
From S2P Require Import Client Sidecar System Goroutines.
From S2P Require CrdPublic CrdPrivate Mutex.

Local Open Scope go_scope.

(** ** Definitions *)

(** *** The variables of [main] *)

Record Vars : Type := mkVars {
  Vars_metricsAddr : string;
  Vars_metricsServiceName : string;
  Vars_certSecretName : string;
  Vars_secureMetrics : bool;
  Vars_enableHTTP2 : bool;
  Vars_enableLeaderElection : bool;
  Vars_logLevel : string;
}.

Module Var.
Definition metricsAddr : Place Vars string :=
  mkPlace Vars_metricsAddr (λ v '(mkVars _ b c d e f g), mkVars v b c d e f g).
Definition metricsServiceName : Place Vars string :=
  mkPlace Vars_metricsServiceName (λ v '(mkVars a _ c d e f g), mkVars a v c d e f g).
Definition certSecretName : Place Vars string :=
  mkPlace Vars_certSecretName (λ v '(mkVars a b _ d e f g), mkVars a b v d e f g).
Definition secureMetrics : Place Vars bool :=
  mkPlace Vars_secureMetrics (λ v '(mkVars a b c _ e f g), mkVars a b c v e f g).
Definition enableHTTP2 : Place Vars bool :=
  mkPlace Vars_enableHTTP2 (λ v '(mkVars a b c d _ f g), mkVars a b c d v f g).
Definition enableLeaderElection : Place Vars bool :=
  mkPlace Vars_enableLeaderElection (λ v '(mkVars a b c d e _ g), mkVars a b c d e v g).
Definition logLevel : Place Vars string :=
  mkPlace Vars_logLevel (λ v '(mkVars a b c d e f _), mkVars a b c d e f v).
End Var.

(** The flags of [main], and the defaults they are registered with. *)
Definition main_flags : list (string * Flag Vars) :=
  [("metrics-bind-address", StringVar Var.metricsAddr);
   ("leader-elect", BoolVar Var.enableLeaderElection);
   ("metrics-secure", BoolVar Var.secureMetrics);
   ("enable-http2", BoolVar Var.enableHTTP2);
   ("metrics-service-name", StringVar Var.metricsServiceName);
   ("cert-secret-name", StringVar Var.certSecretName);
   ("log-level", StringVar Var.logLevel)].

Definition default_vars : Vars := {|
  Vars_metricsAddr := "0";
  Vars_metricsServiceName := "newt-sidecar-metrics-service";
  Vars_certSecretName := "newt-sidecar-metrics-cert";
  Vars_secureMetrics := false;
  Vars_enableHTTP2 := false;
  Vars_enableLeaderElection := false;
  Vars_logLevel := "info";
|}.

(** *** What [main] hands to the libraries *)

Definition certDir : string := "/tmp/k8s-webhook-server/serving-certs".

(** [ctrl.Options] with its metrics options: [HTTP1Only] when [disableHTTP2] is
    among the TLS options, [Authenticated] when the filter provider is set. *)
Record ManagerOptions : Type := mkManagerOptions {
  BindAddress : string;
  SecureServing : bool;
  CertDir : string;
  HTTP1Only : bool;
  Authenticated : bool;
  LeaderElection : bool;
  LeaderElectionID : string;
  HealthProbeBindAddress : string;
}.

(** [rotator.CertRotator] *)
Record CertRotator : Type := mkCertRotator {
  SecretKey_Namespace : string;
  SecretKey_Name : string;
  Rotator_CertDir : string;
  CAName : string;
  CAOrganization : string;
  DNSName : string;
  ExtraDNSNames : list string;
}.

Inductive ReconcilerKind : Type := PrivateResources | PublicResources.

Section main.
  Context `{K8s}.

Inductive Action : Type :=
| ServeHealth (port : Z)
| StartInformers (namespace : string) (types : list GroupVersionResource)
| RunController (c : Controller Handler)
| SetLogger (development : bool)
| CreateManager (opts : ManagerOptions)
| AddRotator (r : CertRotator)
| SetupReconciler (kind : ReconcilerKind) (siteID : string)
| StartManager.

(** The answers of everything [main] calls.  [X] are the variables of the flags
    that imported packages register, [R] is a [rest.Config]. *)
Record Platform (E X R : Type) : Type := mkPlatform {
  args : list string;
  env_Parse : Config → result E Config;
  Getenv : string → string;
  package_flags : FlagSet X;
  package_vars : X;
  InClusterConfig : result GoError R;
  ClientConfig : result GoError R;
  dynamic_NewForConfig : R → option GoError;
  kubernetes_NewForConfig : R → option GoError;
  cache_synced : GroupVersionResource → bool;
  ctrl_NewManager : ManagerOptions → option GoError;
  rotator_AddRotator : CertRotator → option GoError;
  ServerResources : string → option GoError;
  SetupWithManager : ReconcilerKind → string → option GoError;
  (** what ends the wait: an error of a controller or of the manager, or the
      signal *)
  woken : option GoError;
}.
#[global] Arguments args {E X R} _.
#[global] Arguments env_Parse {E X R} _ _.
#[global] Arguments Getenv {E X R} _ _.
#[global] Arguments package_flags {E X R} _.
#[global] Arguments package_vars {E X R} _.
#[global] Arguments InClusterConfig {E X R} _.
#[global] Arguments ClientConfig {E X R} _.
#[global] Arguments dynamic_NewForConfig {E X R} _ _.
#[global] Arguments kubernetes_NewForConfig {E X R} _ _.
#[global] Arguments cache_synced {E X R} _ _.
#[global] Arguments ctrl_NewManager {E X R} _ _.
#[global] Arguments rotator_AddRotator {E X R} _ _.
#[global] Arguments ServerResources {E X R} _ _.
#[global] Arguments SetupWithManager {E X R} _ _ _.
#[global] Arguments woken {E X R} _.

(** Computations that act and may end the process. *)
Definition Proc (A : Type) : Type := list Action → Ending A * list Action.

#[export] Instance Proc_ret : MRet Proc := λ A a log, (Returned a, log).
#[export] Instance Proc_bind : MBind Proc := λ A B f x log,
  match x log with
  | (Returned a, log) => f a log
  | (Exited n, log) => (Exited n, log)
  | (Panicked, log) => (Panicked, log)
  | (Unfinished, log) => (Unfinished, log)
  end.

Definition act (a : Action) : Proc () := λ log, (Returned (), log ++ [a]).
Definition os_Exit {A} (status : Z) : Proc A := λ log, (Exited status, log).

(** [if err != nil { slog.Error(...); os.Exit(1) }] *)
Definition try (err : option GoError) : Proc () :=
  match err with Some _ => os_Exit 1 | None => mret () end.

Definition try_value {E A} (r : result E A) : Proc A :=
  match r with Err _ => os_Exit 1 | Ok a => mret a end.

Section body.
  Context {E X R : Type} (p : Platform E X R).

(** [in-cluster] when the environment says so, else the kubeconfig. *)
Definition getKubeConfig : result GoError R :=
  if Getenv p "KUBERNETES_SERVICE_HOST" != "" then
    match InClusterConfig p with
    | Err err => Err (mkError ("in-cluster config: " +:+ GoError_msg err))
    | Ok cfg => Ok cfg
    end
  else
    match ClientConfig p with
    | Err err => Err (mkError ("kubeconfig: " +:+ GoError_msg err))
    | Ok cfg => Ok cfg
    end.

Definition GroupVersion_String : string := "newt-sidecar.home-operations.com/v1alpha1".

Definition crdInstalled (groupVersion : string) : bool :=
  bool_decide (ServerResources p groupVersion = None).

Definition manager_options (v : Vars) : ManagerOptions := {|
  BindAddress := Vars_metricsAddr v;
  SecureServing := Vars_secureMetrics v;
  CertDir := certDir;
  HTTP1Only := negb (Vars_enableHTTP2 v);
  Authenticated := Vars_secureMetrics v;
  LeaderElection := Vars_enableLeaderElection v;
  LeaderElectionID := "newt-sidecar.home-operations.com";
  HealthProbeBindAddress := "";
|}.

Definition cert_rotator (v : Vars) : CertRotator :=
  let controllerNamespace := Getenv p "CONTROLLER_NAMESPACE" in
  let controllerNamespace := if controllerNamespace == "" then "default" else controllerNamespace in
  let dnsName := Vars_metricsServiceName v +:+ "." +:+ controllerNamespace +:+ ".svc" in
  {|
    SecretKey_Namespace := controllerNamespace;
    SecretKey_Name := Vars_certSecretName v;
    Rotator_CertDir := certDir;
    CAName := "newt-sidecar-ca";
    CAOrganization := "newt-sidecar";
    DNSName := dnsName;
    ExtraDNSNames :=
      [Vars_metricsServiceName v +:+ "." +:+ controllerNamespace +:+ ".svc.cluster.local"];
  |}.

(** [Load] after [main] has registered its flags. *)
Definition load : Ending (result E Config * (X * Vars)) :=
  match register (map (λ '(name, flag), (name, snd_flag flag)) main_flags) (fst_flag <$> package_flags p) with
  | None => Panicked
  | Some fs => Load (env_Parse p) (args p) fs (package_vars p, default_vars)
  end.

Definition main : Proc () :=
  '(loaded, (_, v)) ← (λ log, (load, log) : Ending _ * list Action);
  cfg ← try_value loaded;
  _ ← (match Validate cfg with Some _ => os_Exit 1 | None => mret () end : Proc ());
  restCfg ← try_value getKubeConfig;
  _ ← try (dynamic_NewForConfig p restCfg);
  _ ← try (kubernetes_NewForConfig p restCfg);
  _ ← (if Config_HealthPort cfg != 0%Z then act (ServeHealth (Config_HealthPort cfg)) else mret ());
  let cs := controllers cfg in
  _ ← act (StartInformers (Config_Namespace cfg) (Controller_gvr <$> cs));
  _ ← (if forallb (cache_synced p) (Controller_gvr <$> cs) then mret () else os_Exit 1);
  _ ← foldr (λ c rest, _ ← act (RunController c); rest) (mret ()) cs;
  _ ← act (SetLogger (ToLower (Vars_logLevel v) == "debug"));
  _ ← try (ctrl_NewManager p (manager_options v));
  _ ← act (CreateManager (manager_options v));
  _ ← (if Vars_secureMetrics v then
         _ ← try (rotator_AddRotator p (cert_rotator v));
         act (AddRotator (cert_rotator v))
       else mret ());
  _ ← (if crdInstalled GroupVersion_String then
         _ ← try (SetupWithManager p PrivateResources (Config_SiteID cfg));
         _ ← act (SetupReconciler PrivateResources (Config_SiteID cfg));
         _ ← try (SetupWithManager p PublicResources (Config_SiteID cfg));
         act (SetupReconciler PublicResources (Config_SiteID cfg))
       else mret ());
  _ ← act StartManager;
  try (woken p).

End body.
End main.

(** ** Reference definitions *)

Section plan.
  Context `{K8s} {E X R : Type}.
  Implicit Types (p : Platform E X R) (cfg : Config) (v : Vars).

Definition succeeds (err : option GoError) : bool := match err with None => true | Some _ => false end.

(** Everything [main] does for a configuration, in this order. *)
Definition plan p cfg v : list Action :=
  (if Config_HealthPort cfg != 0%Z then [ServeHealth (Config_HealthPort cfg)] else [])
  ++ StartInformers (Config_Namespace cfg) (Controller_gvr <$> controllers cfg)
  :: (RunController <$> controllers cfg)
  ++ SetLogger (ToLower (Vars_logLevel v) == "debug") :: CreateManager (manager_options v)
  :: (if Vars_secureMetrics v then [AddRotator (cert_rotator p v)] else [])
  ++ (if crdInstalled p GroupVersion_String then
        [SetupReconciler PrivateResources (Config_SiteID cfg);
         SetupReconciler PublicResources (Config_SiteID cfg)]
      else [])
  ++ [StartManager].

(** No call on the way fails. *)
Definition all_succeed p cfg v : bool :=
  match getKubeConfig p with
  | Err _ => false
  | Ok restCfg =>
      succeeds (dynamic_NewForConfig p restCfg) && succeeds (kubernetes_NewForConfig p restCfg)
      && forallb (cache_synced p) (Controller_gvr <$> controllers cfg)
      && succeeds (ctrl_NewManager p (manager_options v))
      && (negb (Vars_secureMetrics v) || succeeds (rotator_AddRotator p (cert_rotator p v)))
      && (negb (crdInstalled p GroupVersion_String)
          || succeeds (SetupWithManager p PrivateResources (Config_SiteID cfg))
             && succeeds (SetupWithManager p PublicResources (Config_SiteID cfg)))
  end.

(** A proper part of the plan, after which the process exits with status 1. *)
Definition cut_short p cfg v (r : Ending () * list Action) : Prop :=
  r.1 = Exited 1 ∧ ∃ rest, rest ≠ [] ∧ plan p cfg v = r.2 ++ rest.

(** ** [main] *)

Lemma run_controllers (cs : list (Controller Handler)) log :
  foldr (λ c (rest : Proc ()), _ ← act (RunController c); rest) (mret ()) cs log
  = (Returned (), log ++ (RunController <$> cs)).
Proof.
  revert log; induction cs as [|c cs IH]; intros log; cbn; [by rewrite app_nil_r|].
  unfold mbind, Proc_bind, act. rewrite IH. by rewrite <- app_assoc.
Qed.

(** The rest of the plan. *)
Ltac cut :=
  split; [reflexivity|]; eexists; split;
  [|cbn; rewrite <- ?app_assoc; cbn; reflexivity];
  let Hn := fresh in intros Hn; apply (f_equal length) in Hn; revert Hn;
  rewrite ?length_app; cbn; rewrite ?length_app; cbn; lia.

Lemma main_loaded p cfg x v :
  load p = Returned (Ok cfg, (x, v)) → Validate cfg = None →
  if all_succeed p cfg v
  then main p [] = (match woken p with None => Returned () | Some _ => Exited 1 end, plan p cfg v)
  else cut_short p cfg v (main p []).
Proof.
  intros Hload Hval. unfold main, all_succeed, cut_short, plan.
  pose proof run_controllers as Hrun.
  unfold mbind, Proc_bind, try_value, try, act, mret, Proc_ret in *. rewrite Hload, Hval.
  destruct (getKubeConfig p) as [restCfg|e]; cbn [os_Exit]; [|cut].
  destruct (dynamic_NewForConfig p restCfg); cbn [succeeds andb]; [cut|].
  destruct (kubernetes_NewForConfig p restCfg); cbn [succeeds andb]; [cut|].
  destruct (Config_HealthPort cfg != 0%Z).
  all: destruct (forallb (cache_synced p) _); cbn [andb]; [|cut].
  all: rewrite Hrun.
  all: destruct (ctrl_NewManager p _); cbn [succeeds andb]; [cut|].
  all: destruct (Vars_secureMetrics v); cbn [negb orb];
    [destruct (rotator_AddRotator p _); cbn [succeeds andb]; [cut|]|].
  all: cbn [andb]; destruct (crdInstalled p _); cbn [negb orb];
    [destruct (SetupWithManager p PrivateResources _); cbn [succeeds andb]; [cut|];
     destruct (SetupWithManager p PublicResources _); cbn [succeeds andb]; [cut|]|].
  all: destruct (woken p); cbn; by rewrite <- ?app_assoc.
Qed.

(** Registration panics only over a name that an imported package has taken. *)
Lemma load_registers p :
  Forall (λ name, package_flags p !! name = None) (main_flags.*1 ++ config_flags.*1) →
  load p ≠ Panicked.
Proof.
  intros [Hmain Hcfg]%Forall_app. unfold load.
  change (map _ main_flags) with (prod_map id (snd_flag (S1 := X)) <$> main_flags).
  assert ((prod_map id (snd_flag (S1 := X)) <$> main_flags).*1 = main_flags.*1) as Hnames
    by reflexivity.
  rewrite register_spec; rewrite Hnames;
    [|reflexivity | by apply (bool_decide_unpack _)].
  rewrite bool_decide_eq_true_2.
  2:{ eapply Forall_impl; [exact Hmain|]. intros name Hn. by rewrite lookup_fmap, Hn. }
  unfold Load. destruct (newConfig _); [|done]. rewrite load_flags_spec, bool_decide_eq_true_2.
  - destruct (Parse _ _ _) as [[[[? ?] ?]|?]|]; done.
  - apply Forall_forall. intros name Hin. apply lookup_union_None. split.
    + apply not_elem_of_list_to_map_1. rewrite Hnames. revert name Hin. apply Forall_forall.
      by apply (bool_decide_unpack _).
    + rewrite lookup_fmap. rewrite Forall_forall in Hcfg. by rewrite Hcfg.
Qed.

(** C19. What [main] does, for every platform.  Without a valid configuration it
    starts nothing: it exits with status 1, with status 0 or 2 over the command
    line, or panics over a taken name.  With one it follows the plan: to the end
    when no call fails, and then it returns on a signal and exits with status 1 on
    an error of a controller or of the manager; and when a call fails, it has done
    a proper part of the plan and exits with status 1. *)
Theorem main_follows_plan p :
  let '(e, log) := main p [] in
  match load p with
  | Returned (Ok cfg, (_, v)) =>
      match Validate cfg with
      | Some _ => e = Exited 1 ∧ log = []
      | None =>
          if all_succeed p cfg v
          then e = match woken p with None => Returned () | Some _ => Exited 1 end ∧ log = plan p cfg v
          else e = Exited 1 ∧ ∃ rest, rest ≠ [] ∧ plan p cfg v = log ++ rest
      end
  | Returned (Err _, _) => e = Exited 1 ∧ log = []
  | Exited status => e = Exited status ∧ log = []
  | Panicked => e = Panicked ∧ log = []
  | Unfinished => False
  end.
Proof.
  destruct (load p) as [[[cfg|err] [x v]]|status| |] eqn:Hload.
  - destruct (Validate cfg) eqn:Hval.
    + unfold main, mbind, Proc_bind, try_value. rewrite Hload. unfold mret, Proc_ret. by rewrite Hval.
    + pose proof (main_loaded p cfg x v Hload Hval) as Hm. unfold cut_short in Hm.
      destruct (all_succeed p cfg v); [by rewrite Hm|]. by destruct (main p []).
  - unfold main, mbind, Proc_bind, try_value. by rewrite Hload.
  - unfold main, mbind, Proc_bind. by rewrite Hload.
  - unfold main, mbind, Proc_bind. by rewrite Hload.
  - destruct (main p []). unfold load in Hload. destruct (register _ _); [|done].
    by apply Load_finishes in Hload.
Qed.

(** C37. A failed discovery counts as the absence of the custom resources: whatever
    the error was, no reconciler is registered for the life of the process, and
    nothing else that [main] does depends on it. *)
Theorem discovery_error_skips_reconcilers p err :
  ServerResources p GroupVersion_String = Some err →
  ∀ kind siteID, SetupReconciler kind siteID ∉ (main p []).2.
Proof.
  intros Hs kind siteID Hin.
  assert (∀ cfg v, SetupReconciler kind siteID ∉ plan p cfg v) as Hplan.
  { intros cfg v. unfold plan, crdInstalled. rewrite Hs.
    assert (∀ l (a : Action), (∀ k site, a ≠ SetupReconciler k site) →
      SetupReconciler kind siteID ∉ l → SetupReconciler kind siteID ∉ a :: l) as Hcons.
    { intros l a Ha Hl Hc%elem_of_cons. destruct Hc as [<-|Hc]; [by eapply Ha | done]. }
    assert (SetupReconciler kind siteID ∉ RunController <$> controllers cfg) as Hrun
      by (intros (c & [=] & _)%list_elem_of_fmap).
    rewrite not_elem_of_app. split; [case_match; [by apply Hcons, not_elem_of_nil | apply not_elem_of_nil]|].
    apply Hcons; [done|]. rewrite not_elem_of_app. split; [exact Hrun|].
    do 2 (apply Hcons; [done|]). rewrite not_elem_of_app.
    split; [case_match; [by apply Hcons, not_elem_of_nil | apply not_elem_of_nil]|].
    by apply Hcons, not_elem_of_nil. }
  destruct (load p) as [[[cfg|e] [x v]]|status| |] eqn:Hload.
  - destruct (Validate cfg) eqn:Hval.
    + revert Hin. unfold main, mbind, Proc_bind, try_value. rewrite Hload. unfold mret, Proc_ret.
      rewrite Hval. apply not_elem_of_nil.
    + pose proof (main_loaded p cfg x v Hload Hval) as Hm. unfold cut_short in Hm.
      destruct (all_succeed p cfg v); [rewrite Hm in Hin; by apply (Hplan cfg v)|].
      destruct Hm as (_ & rest & _ & Hrest). apply (Hplan cfg v). rewrite Hrest.
      apply elem_of_app. by left.
  - revert Hin. unfold main, mbind, Proc_bind, try_value. rewrite Hload. apply not_elem_of_nil.
  - revert Hin. unfold main, mbind, Proc_bind. rewrite Hload. apply not_elem_of_nil.
  - revert Hin. unfold main, mbind, Proc_bind. rewrite Hload. apply not_elem_of_nil.
  - revert Hin. unfold main, mbind, Proc_bind. rewrite Hload. apply not_elem_of_nil.
Qed.

End plan.

(** ** From the start to the blueprint *)

Section deployment.
  Context `{K8s} `{Env} {E X R : Type}.
  Implicit Types (p : Platform E X R).

(** What happens in the cluster: the events of each watched type, and the
    requests for each kind of custom resource with the answers of the client. *)
Record Inputs : Type := mkInputs {
  events_of : GroupVersionResource → list Event;
  public_requests :
    list (Getter CrdPublic.PublicResource * Getter (gmap string string) * NamespacedName);
  private_requests : list (Getter CrdPrivate.PrivateResourceSpec * NamespacedName);
}.

(** The requests as the reconcilers of a site get them. *)
Definition public_served (i : Inputs) (siteID : string) : list Request :=
  map (λ '(Get, GetSecret, req), PublicRequest (CrdPublic.mkReconciler siteID) Get GetSecret req)
    (public_requests i).
Definition private_served (i : Inputs) (siteID : string) : list Request :=
  map (λ '(Get, req), PrivateRequest (CrdPrivate.mkReconciler siteID) Get req) (private_requests i).

(** The thread an action starts; the reconcilers run once the manager does. *)
Definition thread_of (i : Inputs) (a : Action) : option (Thread Handler) :=
  match a with
  | RunController c => Some (TController c [] (events_of i (Controller_gvr c)) Waiting)
  | SetupReconciler PublicResources siteID => Some (TReconciler [] (public_served i siteID))
  | SetupReconciler PrivateResources siteID => Some (TReconciler [] (private_served i siteID))
  | _ => None
  end.

(** The system after [main] has done what is in the log. *)
Definition started_system (i : Inputs) (cfg : Config) (files : gmap string string) (log : list Action)
    : System Handler :=
  mkSystem (start (Config_Output cfg) files) (omap (thread_of i) log).

(** The entry requests leave under a key, one after the other. *)
Definition left_by (rqs : list Request) (k : Key) : option (Resource + PrivateResource) :=
  entry (abs_run (concat (request_calls <$> rqs)) empty_blueprint) k.

(** What is to be published under a key: the entry of a live object of a watched
    type, or, when the custom resources are installed, what the requests leave. *)
Definition wanted (i : Inputs) (cfg : Config) (crds : bool) (k : Key) (r : Resource + PrivateResource) : Prop :=
  (∃ c k' r' o es, c ∈ controllers cfg ∧ k = inl k' ∧ r = inl r'
     ∧ spec_run c ∅ (events_of i (Controller_gvr c)) !! o = Some es ∧ es !! k' = Some r')
  ∨ crds = true ∧
    (left_by (public_served i (Config_SiteID cfg)) k = Some r
     ∨ left_by (private_served i (Config_SiteID cfg)) k = Some r).

Lemma New_no_records cfg c : c ∈ controllers cfg → Controller_resourceKeys c = ∅.
Proof.
  unfold controllers. rewrite elem_of_app. intros [Hc|Hc]; revert Hc; case_match;
    rewrite ?elem_of_cons, ?elem_of_nil; naive_solver.
Qed.

Lemma started_threads i p cfg v :
  omap (thread_of i) (plan p cfg v)
  = map (λ c, TController c [] (events_of i (Controller_gvr c)) Waiting) (controllers cfg)
    ++ (if crdInstalled p GroupVersion_String
        then [TReconciler [] (private_served i (Config_SiteID cfg));
              TReconciler [] (public_served i (Config_SiteID cfg))]
        else []).
Proof.
  assert (∀ cs, omap (thread_of i) (RunController <$> cs)
    = map (λ c, TController c [] (events_of i (Controller_gvr c)) Waiting) cs) as Hcs.
  { induction cs as [|c cs IH]; [done|]. cbn. by rewrite IH. }
  unfold plan. rewrite omap_app. cbn [omap list_omap thread_of].
  rewrite omap_app, Hcs. cbn [omap list_omap thread_of]. rewrite omap_app, omap_app.
  destruct (Config_HealthPort cfg != 0%Z), (Vars_secureMetrics v), (crdInstalled p _); cbn;
    by rewrite ?app_nil_r.
Qed.

(** What the threads that were started are to publish is what is wanted. *)
Lemma started_publish i p cfg v k r :
  (∃ j th, omap (thread_of i) (plan p cfg v) !! j = Some th ∧ to_publish th k r) ↔
  wanted i cfg (crdInstalled p GroupVersion_String) k r.
Proof.
  transitivity (∃ th, th ∈ omap (thread_of i) (plan p cfg v) ∧ to_publish th k r).
  { split.
    - intros (j & th & Hj & Hp). exists th. split; [by eapply list_elem_of_lookup_2 | done].
    - intros (th & [j Hj]%list_elem_of_lookup & Hp). by exists j, th. }
  rewrite started_threads. setoid_rewrite elem_of_app. unfold wanted. split.
  - intros (th & [(c & -> & Hc)%list_elem_of_fmap|Hin] & Hp).
    + left. destruct Hp as (k' & r' & o & es & -> & -> & Ho & Hk). by exists c, k', r', o, es.
    + right. destruct (crdInstalled p _); [split; [done|]|by apply elem_of_nil in Hin].
      rewrite !elem_of_cons, elem_of_nil in Hin. destruct Hin as [->|[->|[]]]; [by right | by left].
  - intros [(c & k' & r' & o & es & Hc & -> & -> & Ho & Hk)|[Hcrd Hl]].
    + eexists. split; [left; apply list_elem_of_fmap; by exists c|]. by exists k', r', o, es.
    + rewrite Hcrd. destruct Hl as [Hl|Hl];
        [exists (TReconciler [] (public_served i (Config_SiteID cfg)))
        |exists (TReconciler [] (private_served i (Config_SiteID cfg)))];
        (split; [right; rewrite !elem_of_cons; auto | exact Hl]).
Qed.

Lemma started_at_start i p cfg v :
  (∀ c, c ∈ controllers cfg →
     let evs := events_of i (Controller_gvr c) in
     forallb is_handler evs = true ∧ ∀ n, exclusive ∅ (spec_run c ∅ (take n evs))) →
  Forall at_start (omap (thread_of i) (plan p cfg v)).
Proof.
  intros Hevs. rewrite started_threads. apply Forall_app.
  split; [|by destruct (crdInstalled p _); repeat constructor].
  apply Forall_forall. intros th (c & -> & Hc)%list_elem_of_fmap.
  destruct (Hevs c Hc) as [Hh Hx]. split_and!; try done. by eapply New_no_records.
Qed.

(** From the command line to the blueprint: when [main] gets through with a
    valid configuration, and as long as no key is claimed twice, every run of what
    it has started ends, and where it can go no further the maps of the manager
    hold exactly what was wanted: what the live objects of the watched types
    contribute, and, if the custom resources were found, what the requests leave. *)
Theorem sidecar_blueprint i p cfg x v files :
  load p = Returned (Ok cfg, (x, v)) → Validate cfg = None → all_succeed p cfg v = true →
  let s0 := started_system i cfg files (main p []).2 in
  (∀ c, c ∈ controllers cfg →
     let evs := events_of i (Controller_gvr c) in
     forallb is_handler evs = true ∧ ∀ n, exclusive ∅ (spec_run c ∅ (take n evs))) →
  disjoint_claims (system_threads s0) →
  sn system_step s0
  ∧ ∀ s, rtc system_step s0 s → nf system_step s →
      ∀ k r, entry (bp (system_sm s)) k = Some r ↔
        wanted i cfg (crdInstalled p GroupVersion_String) k r.
Proof.
  intros Hload Hval Hok. cbv zeta. intros Hevs Hdis. split; [apply system_sn|].
  pose proof (main_loaded p cfg x v Hload Hval) as Hm. rewrite Hok in Hm. rewrite Hm in *.
  intros s Hr Hnf k r. pose proof (started_at_start i p cfg v Hevs) as Hstart.
  apply system_stuck_iff in Hnf.
  - etransitivity; [|apply started_publish].
    by apply (quiescent_entries (started_system i cfg files (plan p cfg v)) s).
  - eapply system_informer; [exact Hr|]. by apply at_start_informer.
Qed.

(** The same at the level of goroutines: when [main] gets through with a
    valid configuration, and as long as no key is claimed twice, the goroutines it
    has started come to rest, however their accesses to the manager interleave and
    however often the health server is asked, and where they are at rest the maps
    of the manager hold exactly what was wanted. *)
Theorem process_blueprint i p cfg x v files probers :
  load p = Returned (Ok cfg, (x, v)) → Validate cfg = None → all_succeed p cfg v = true →
  let s0 := started_system i cfg files (main p []).2 in
  (∀ c, c ∈ controllers cfg →
     let evs := events_of i (Controller_gvr c) in
     forallb is_handler evs = true ∧ ∀ n, exclusive ∅ (spec_run c ∅ (take n evs))) →
  disjoint_claims (system_threads s0) →
  ∀ q, rtc process_step (process_start probers s0) q →
    sn worker_step q
    ∧ (nf worker_step q → ∀ k r,
        entry (bp (Mutex.shared (process_config q))) k = Some r ↔
        wanted i cfg (crdInstalled p GroupVersion_String) k r).
Proof.
  intros Hload Hval Hok. cbv zeta. intros Hevs Hdis q Hq.
  destruct (sidecar_blueprint i p cfg x v files Hload Hval Hok Hevs Hdis) as [_ Hb].
  destruct (process_finishes probers (started_system i cfg files (main p []).2) q) as (Hsn & _ & Hend);
    [|exact Hq|].
  - pose proof (main_loaded p cfg x v Hload Hval) as Hm. rewrite Hok in Hm. rewrite Hm.
    by apply at_start_informer, started_at_start.
  - split; [exact Hsn|]. intros Hnf. destruct (Hend Hnf) as (s & Hr & Hs & ->). by apply Hb.
Qed.

End deployment.

(** ** A deployment *)

Section demo.
  Local Existing Instances quiet_env demo_k8s.

(** In a cluster, with the flag of controller-runtime and the answers all good;
    [found] says whether discovery finds the custom resources. *)
Definition demo_platform (found : option GoError) : Platform () string () := {|
  args := ["--site-id=site-1"; "-gateway-name"; "gw"; "--target-hostname=gw.local"; "--metrics-secure";
           "--kubeconfig=/dev/null"; "--health-port=0"];
  env_Parse := Ok;
  Getenv name := if name == "KUBERNETES_SERVICE_HOST" then "10.0.0.1" else "";
  package_flags := {[ "kubeconfig" := StringVar (mkPlace id (λ v _, v)) ]};
  package_vars := "";
  InClusterConfig := Ok ();
  ClientConfig := Err (mkError "no kubeconfig");
  dynamic_NewForConfig _ := None;
  kubernetes_NewForConfig _ := None;
  cache_synced _ := true;
  ctrl_NewManager _ := None;
  rotator_AddRotator _ := None;
  ServerResources _ := found;
  SetupWithManager _ _ := None;
  woken := None;
|}.

Definition demo_inputs : Inputs := {|
  events_of gvr := if GVR_Resource gvr == "httproutes" then [add web] else [];
  public_requests := [(λ _, Err (mkAPIError (mkError "not found") true),
                       λ _, Err (mkAPIError (mkError "not found") true), mkNN "infra" "old")];
  private_requests := [(λ _, Ok CrdPrivate.pod_network, mkNN "infra" "pods")];
|}.

(** The configuration and the variables after the flags. *)
Definition demo_cfg : Config :=
  assign Field.SiteID "site-1" (assign Field.GatewayName "gw"
    (assign Field.TargetHostname "gw.local" (assign Field.HealthPort 0%Z defaultConfig))).

Definition demo_vars : Vars := assign Var.secureMetrics true default_vars.

Lemma demo_load found :
  load (demo_platform found) = Returned (Ok demo_cfg, ("/dev/null", demo_vars)).
Proof. vm_compute. reflexivity. Qed.

Lemma demo_succeeds : all_succeed (demo_platform None) demo_cfg demo_vars = true.
Proof. reflexivity. Qed.

Lemma discovery_error_skips_reconcilers_witness :
  SetupReconciler PublicResources "site-1"
    ∉ (main (demo_platform (Some (mkError "connection refused"))) []).2.
Proof.
  exact (discovery_error_skips_reconcilers (demo_platform (Some (mkError "connection refused")))
    (mkError "connection refused") eq_refl PublicResources "site-1").
Defined.

Lemma demo_deployment_events c :
  c ∈ controllers demo_cfg →
  let evs := events_of demo_inputs (Controller_gvr c) in
  forallb is_handler evs = true ∧ ∀ n, exclusive ∅ (spec_run c ∅ (take n evs)).
Proof.
  change (controllers demo_cfg) with [New httproute_Definition demo_cfg].
  intros [-> | []%elem_of_nil]%elem_of_cons. split; [done|].
  intros n. apply (bool_decide_unpack _).
  do 2 (destruct n as [|n]; [vm_compute; exact I|]). vm_compute. exact I.
Qed.

Lemma demo_deployment_claims :
  disjoint_claims (system_threads
    (started_system demo_inputs demo_cfg ∅ (plan (demo_platform None) demo_cfg demo_vars))).
Proof.
  cbn [started_system system_threads]. rewrite started_threads.
  set (th1 := TController (New httproute_Definition demo_cfg) [] [add web] Waiting).
  set (th2 := TReconciler (Hd := Handler) [] (private_served demo_inputs "site-1")).
  set (th3 := TReconciler (Hd := Handler) [] (public_served demo_inputs "site-1")).
  change (disjoint_claims [th1; th2; th3]).
  assert (claims th1 ## claims th2) as H12 by (apply (bool_decide_unpack _); vm_compute; exact I).
  assert (claims th1 ## claims th3) as H13 by (apply (bool_decide_unpack _); vm_compute; exact I).
  assert (claims th2 ## claims th3) as H23 by (apply (bool_decide_unpack _); vm_compute; exact I).
  intros [|[|[|i]]] [|[|[|j]]] t1 t2 Hi Hj Hne; try done; injection Hi as <-; injection Hj as <-;
    first [assumption | symmetry; assumption].
Qed.

Lemma sidecar_blueprint_witness :
  sn system_step (started_system demo_inputs demo_cfg ∅ (main (demo_platform None) []).2)
  ∧ ∀ s, rtc system_step (started_system demo_inputs demo_cfg ∅ (main (demo_platform None) []).2) s →
      nf system_step s → ∀ k r,
      entry (bp (system_sm s)) k = Some r ↔
      wanted demo_inputs demo_cfg (crdInstalled (demo_platform None) GroupVersion_String) k r.
Proof.
  pose proof (sidecar_blueprint demo_inputs (demo_platform None) demo_cfg "/dev/null" demo_vars ∅
    (demo_load None) eq_refl demo_succeeds demo_deployment_events) as Hs.
  cbv zeta in Hs. apply Hs.
  pose proof (main_loaded (demo_platform None) demo_cfg "/dev/null" demo_vars (demo_load None) eq_refl) as Hm.
  rewrite demo_succeeds in Hm. rewrite Hm. exact demo_deployment_claims.
Defined.

Lemma process_blueprint_witness :
  all_succeed (demo_platform None) demo_cfg demo_vars = true
  ∧ ∀ q, rtc process_step (process_start 2
         (started_system demo_inputs demo_cfg ∅ (main (demo_platform None) []).2)) q →
    sn worker_step q
    ∧ (nf worker_step q → ∀ k r,
        entry (bp (Mutex.shared (process_config q))) k = Some r ↔
        wanted demo_inputs demo_cfg (crdInstalled (demo_platform None) GroupVersion_String) k r).
Proof.
  split; [exact demo_succeeds|].
  pose proof (process_blueprint demo_inputs (demo_platform None) demo_cfg "/dev/null" demo_vars ∅ 2
    (demo_load None) eq_refl demo_succeeds demo_deployment_events) as Hs.
  cbv zeta in Hs. apply Hs.
  pose proof (main_loaded (demo_platform None) demo_cfg "/dev/null" demo_vars (demo_load None) eq_refl) as Hm.
  rewrite demo_succeeds in Hm. rewrite Hm. exact demo_deployment_claims.
Defined.

End demo.
