(* ===== verification/Keys.v ===== *)
(** * When no key is claimed twice

    The theorems about the whole sidecar suppose that no map key is claimed twice.
    Here that follows from the names of the objects in the cluster: no two of them
    ask for hostnames that agree up to dots and dashes, no hostname ends like the
    key of a port, no two Services have names that agree once namespace and name
    are joined, and no PublicResource has the name of such a key. *)

From stdpp Require Import options.
From S2P Require Import Prelude GoStrings Config Blueprint BlueprintProps StateManager Store.
From S2P Require Import StateProps Resources HttpRoute Service ServiceProps Controller ControllerProps.
From S2P Require Import Client Sidecar System Load Goroutines Main.
From S2P Require CrdPublic CrdPrivate Mutex.

Local Open Scope go_scope.

(** ** The keys of ports *)

Fixpoint ends_with (suffix s : string) : bool :=
  (s == suffix) || match s with "" => false | String _ s' => ends_with suffix s' end.

(** The key ends like that of a raw tunnel. *)
Definition tunnel_like (key : string) : bool := ends_with "-tcp" key || ends_with "-udp" key.

Lemma ends_with_refl s : ends_with s s = true.
Proof. destruct s; cbn; by rewrite bool_decide_eq_true_2. Qed.

Lemma ends_with_app suffix s t : ends_with suffix t = true → ends_with suffix (s +:+ t) = true.
Proof. intros Ht. induction s as [|c s IH]; cbn; [done|]. by rewrite IH, orb_true_r. Qed.

(** The part of a port's key that comes from its Service. *)
Definition tunnel_name (svc : Service) : string :=
  Meta_Namespace (Service_Meta svc) +:+ "-" +:+ Meta_Name (Service_Meta svc).

Lemma ServiceToKey_parts ns nm port proto :
  ServiceToKey ns nm port proto = ((ns +:+ "-" +:+ nm) +:+ "-" +:+ port) +:+ "-" +:+ proto.
Proof. unfold ServiceToKey. by rewrite !append_assoc. Qed.

Lemma ServiceToKey_tunnel ns nm port proto :
  proto = "tcp" ∨ proto = "udp" → tunnel_like (ServiceToKey ns nm port proto) = true.
Proof.
  rewrite ServiceToKey_parts. unfold tunnel_like. intros [-> | ->]; rewrite orb_true_iff; [left|right];
    apply ends_with_app, ends_with_refl.
Qed.

(** The parts after the last separator. *)
Lemma append_last_inj c s1 s2 t1 t2 :
  contains c t1 = false → contains c t2 = false →
  s1 +:+ String c t1 = s2 +:+ String c t2 → s1 = s2 ∧ t1 = t2.
Proof.
  intros H1 H2. revert s2; induction s1 as [|a s1 IH]; intros [|b s2] Heq; cbn in Heq.
  - by injection Heq.
  - injection Heq as -> ->. rewrite contains_app in H1. cbn in H1. go_bool. by destruct (contains b s2).
  - injection Heq as -> <-. rewrite contains_app in H2. cbn in H2. go_bool. by destruct (contains c s1).
  - injection Heq as -> Heq. by destruct (IH _ Heq) as [-> ->].
Qed.

(** The key of a port determines its Service, up to dashes. *)
Lemma ServiceToKey_name ns1 nm1 ns2 nm2 port1 port2 proto1 proto2 :
  (0 ≤ port1)%Z → (0 ≤ port2)%Z →
  proto1 = "tcp" ∨ proto1 = "udp" → proto2 = "tcp" ∨ proto2 = "udp" →
  ServiceToKey ns1 nm1 (Itoa port1) proto1 = ServiceToKey ns2 nm2 (Itoa port2) proto2 →
  ns1 +:+ "-" +:+ nm1 = ns2 +:+ "-" +:+ nm2.
Proof.
  assert (∀ proto, proto = "tcp" ∨ proto = "udp" → contains "-" proto = false) as Hproto
    by (by intros ? [-> | ->]).
  intros H1 H2 Hp1%Hproto Hp2%Hproto. rewrite !ServiceToKey_parts. intros Heq.
  apply (append_last_inj "-" _ _ proto1 proto2 Hp1 Hp2) in Heq as [Heq _].
  apply (append_last_inj "-" _ _ (Itoa port1) (Itoa port2)) in Heq as [Heq _]; [done|by apply contains_Itoa..].
Qed.

(** ** What an object may claim *)

(** The public hostnames an object asks for. *)
Definition domains (cfg : Config) (o : Object) : list string :=
  match o with
  | OHTTPRoute route => HTTPRoute_Hostnames route
  | OService svc => if full_domain svc cfg == "" then [] else [full_domain svc cfg]
  | OOther _ => []
  end.

(** The keys of its entries, whatever its annotations and secrets: those of its
    hostnames and, of a Service, those of its ports. *)
Definition may_claim (cfg : Config) (o : Object) (k : string) : Prop :=
  k ∈ HostnameToKey <$> domains cfg o
  ∨ ∃ svc p proto, o = OService svc ∧ p ∈ Service_Ports svc ∧ (proto = "tcp" ∨ proto = "udp")
      ∧ k = ServiceToKey (Meta_Namespace (Service_Meta svc)) (Meta_Name (Service_Meta svc))
              (Itoa (SvcPort_Port p)) proto.

(** A handler that builds no other entries. *)
Definition claims_only {Hd} `{!ResourceHandler Hd} (h : Hd) (cfg : Config) : Prop :=
  ∀ o sd, map_Forall (λ k _, may_claim cfg o k) (entries_of (BuildEntries h o sd cfg)).

Lemma httproute_claims `{K8s} cfg : claims_only (NewHandler httproute_Definition) cfg.
Proof.
  intros o sd. cbn. unfold Handler_BuildEntries, httproute_buildEntries. cbn.
  destruct o as [s|route|m]; [apply map_Forall_empty| |apply map_Forall_empty].
  apply (entries_foldl HostnameToKey). intros h Hh. left. by apply list_elem_of_fmap_2.
Qed.

Lemma service_claims `{K8s} cfg : claims_only (NewHandler service_Definition) cfg.
Proof.
  intros o sd. cbn. unfold Handler_BuildEntries, service_buildEntries. cbn.
  destruct o as [svc|route|m]; [|apply map_Forall_empty..].
  unfold GetAnnotations. cbn. fold (annotations_of svc). fold (full_domain svc cfg).
  destruct (negb _ && _).
  - unfold buildAllPortEntries. destruct (Service_Ports svc) as [|q qs] eqn:Hports; [apply map_Forall_empty|].
    apply (entries_foldl (allPortKey svc)). intros p Hp. right. exists svc, p. rewrite Hports.
    eexists. split_and!; [done..|apply serviceProtocol_cases|done].
  - unfold buildSinglePortEntry.
    destruct (resolvePort _ _ _ _ _ _) as [sp|] eqn:Hsp; [|apply map_Forall_empty].
    apply map_Forall_singleton. apply resolvePort_shape in Hsp as (p & Hp & Hf & _ & _ & Hraw & _).
    change (ServicePort_FullDomain sp = full_domain svc cfg) in Hf. rewrite Hf.
    destruct (decide (full_domain svc cfg = "")) as [Hd|Hd].
    + rewrite (bool_decide_eq_true_2 (full_domain svc cfg = "")) by done. right.
      destruct (Hraw Hd) as [Hproto ->]. exists svc, p. eexists.
      split_and!; [done|by eapply selectPort_in|done|done].
    + rewrite (bool_decide_eq_false_2 (full_domain svc cfg = "")) by done. left. unfold domains.
      rewrite (bool_decide_eq_false_2 (full_domain svc cfg = "")) by done. by left.
Qed.

(** ** What a controller claims *)

Section controller.
  Context `{K8s} {Hd : Type} `{!ResourceHandler Hd}.
  Implicit Types (c : Controller Hd) (evs : list Event).

(** The objects the events bring. *)
Definition event_object c (ev : Event) : option Object :=
  match ev with
  | EAdd _ _ obj | EUpdate _ _ _ obj =>
      match toMetaObj c obj with Ok o => Some o | Err _ => None end
  | _ => None
  end.

Lemma contribution_claims c secrets o k :
  claims_only (Controller_handler c) (Controller_cfg c) →
  is_Some (contribution c secrets o !! k) → may_claim (Controller_cfg c) o k.
Proof.
  intros Hc [r Hr]. unfold contribution in Hr. destruct (ShouldProcess _ _ _); [|done].
  exact (Hc _ _ _ _ Hr).
Qed.

(** What is live came with an event. *)
Lemma live_claims c evs objKey es k :
  claims_only (Controller_handler c) (Controller_cfg c) →
  spec_run c ∅ evs !! objKey = Some es → is_Some (es !! k) →
  ∃ o, o ∈ omap (event_object c) evs ∧ objKeyOf o = objKey ∧ may_claim (Controller_cfg c) o k.
Proof.
  intros Hc. revert objKey es. induction evs as [|ev evs IH] using rev_ind; intros objKey es; [done|].
  unfold spec_run. rewrite foldl_app. fold (spec_run c ∅ evs). cbn [foldl].
  setoid_rewrite omap_app. setoid_rewrite elem_of_app.
  assert (∀ objKey' es', spec_run c ∅ evs !! objKey' = Some es' → is_Some (es' !! k) →
    ∃ o, (o ∈ omap (event_object c) evs ∨ o ∈ omap (event_object c) [ev]) ∧ objKeyOf o = objKey'
         ∧ may_claim (Controller_cfg c) o k) as Hold by (intros; edestruct IH as (o & ? & ?); eauto).
  assert (∀ secrets o, event_object c ev = Some o →
    spec_set (objKeyOf o) (contribution c secrets o) (spec_run c ∅ evs) !! objKey = Some es →
    is_Some (es !! k) → ∃ o, (o ∈ omap (event_object c) evs ∨ o ∈ omap (event_object c) [ev])
      ∧ objKeyOf o = objKey ∧ may_claim (Controller_cfg c) o k) as Hset.
  { intros secrets o Ho [(-> & -> & _)|[_ Hl]]%spec_set_lookup Hk; [|by eapply Hold].
    exists o. split; [right; cbn; rewrite Ho; by left|]. split; [done|].
    by eapply contribution_claims. }
  destruct ev as [ord secrets obj|ord secrets old obj|obj|b]; cbn [spec_event event_object] in *.
  - destruct (toMetaObj c obj) as [o|e]; [by eapply Hset | by apply Hold].
  - destruct (toMetaObj c obj) as [o|e]; [by eapply Hset | by apply Hold].
  - destruct (toMetaObj c _) as [o|e]; [|by apply Hold].
    intros [_ Hl]%lookup_delete_Some. by apply Hold.
  - by apply Hold.
Qed.

(** Objects that may claim a key together are one. *)
Lemma apart_exclusive c evs :
  claims_only (Controller_handler c) (Controller_cfg c) →
  (∀ o1 o2 k, o1 ∈ omap (event_object c) evs → o2 ∈ omap (event_object c) evs →
     may_claim (Controller_cfg c) o1 k → may_claim (Controller_cfg c) o2 k →
     objKeyOf o1 = objKeyOf o2) →
  ∀ n, exclusive ∅ (spec_run c ∅ (take n evs)).
Proof.
  intros Hc Hap n objKey1 es1 H1. split; [apply map_disjoint_empty_r|]. intros objKey2 es2 H2.
  destruct (decide (objKey1 = objKey2)) as [|Hne]; [by left|right].
  apply map_disjoint_spec. intros k r1 r2 Hk1 Hk2. destruct Hne.
  destruct (live_claims _ _ _ _ k Hc H1) as (o1 & Ho1 & <- & Hm1); [done|].
  destruct (live_claims _ _ _ _ k Hc H2) as (o2 & Ho2 & <- & Hm2); [done|].
  assert (∀ o, o ∈ omap (event_object c) (take n evs) → o ∈ omap (event_object c) evs) as Htake.
  { intros o (ev & Hev & Ho)%list_elem_of_omap. apply list_elem_of_omap. exists ev.
    split; [|done]. by apply (elem_of_subseteq (take n evs)); [apply subseteq_take|]. }
  eapply Hap; eauto.
Qed.

(** The claims of a controller with nothing on record. *)
Lemma controller_claims c evs ph k :
  claims_only (Controller_handler c) (Controller_cfg c) → Controller_resourceKeys c = ∅ →
  k ∈ claims (TController c [] evs ph) →
  ∃ o k', o ∈ omap (event_object c) evs ∧ k = inl k' ∧ may_claim (Controller_cfg c) o k'.
Proof.
  intros Hc Hrec. cbn. unfold record_keys. rewrite Hrec, map_to_list_empty. cbn.
  rewrite elem_of_union, elem_of_map. intros [[]%not_elem_of_empty|(k' & -> & Hk)].
  rewrite elem_of_union in Hk. destruct Hk as [[]%not_elem_of_empty|Hk].
  apply elem_of_union_list in Hk as (K & (ev & -> & Hev)%list_elem_of_fmap & Hk).
  assert (∀ secrets o, event_object c ev = Some o → k' ∈ dom (contribution c secrets o) →
    ∃ o k1, o ∈ omap (event_object c) evs ∧ (inl k' : Key) = inl k1 ∧ may_claim (Controller_cfg c) o k1) as Hev'.
  { intros secrets o Ho Hdom%elem_of_dom. exists o, k'. split_and!; [|done|by eapply contribution_claims].
    apply list_elem_of_omap. by exists ev. }
  destruct ev as [ord secrets obj|ord secrets old obj|obj|b]; cbn [event_keys event_object] in *;
    try by apply not_elem_of_empty in Hk.
  all: destruct (toMetaObj c obj) as [o|e]; [by eapply Hev' | by apply not_elem_of_empty in Hk].
Qed.

End controller.

(** ** The cluster *)

Section deployment.
  Context `{K8s} `{Env} {E X R : Type}.
  Implicit Types (p : Platform E X R) (i : Inputs).

(** Every object the events bring, with its type. *)
Definition brought i (cfg : Config) : list (GroupVersionResource * Object) :=
  c ← controllers cfg;
  pair (Controller_gvr c) <$> omap (event_object c) (events_of i (Controller_gvr c)).

(** The names in the cluster keep the keys apart. *)
Record named_apart i (cfg : Config) : Prop := mkNamedApart {
  (** no two objects ask for hostnames that agree up to dots and dashes *)
  apart_domains g1 o1 g2 o2 h1 h2 :
    (g1, o1) ∈ brought i cfg → (g2, o2) ∈ brought i cfg →
    h1 ∈ domains cfg o1 → h2 ∈ domains cfg o2 → HostnameToKey h1 = HostnameToKey h2 →
    (g1, objKeyOf o1) = (g2, objKeyOf o2);
  (** no hostname looks like the key of a port *)
  apart_tunnels g o h :
    (g, o) ∈ brought i cfg → h ∈ domains cfg o → tunnel_like (HostnameToKey h) = false;
  (** no two Services are called the same, namespace and name joined *)
  apart_services g1 svc1 g2 svc2 :
    (g1, OService svc1) ∈ brought i cfg → (g2, OService svc2) ∈ brought i cfg →
    tunnel_name svc1 = tunnel_name svc2 →
    (g1, objKeyOf (OService svc1)) = (g2, objKeyOf (OService svc2));
  apart_ports g svc :
    (g, OService svc) ∈ brought i cfg → Forall (λ sp, 0 ≤ SvcPort_Port sp)%Z (Service_Ports svc);
  (** no PublicResource is called like the key of a hostname or a port *)
  apart_names Get GetSecret req :
    (Get, GetSecret, req) ∈ public_requests i →
    tunnel_like (NN_Name req) = false
    ∧ ∀ g o, (g, o) ∈ brought i cfg → NN_Name req ∉ HostnameToKey <$> domains cfg o;
}.

Lemma brought_elem i cfg c o :
  c ∈ controllers cfg → o ∈ omap (event_object c) (events_of i (Controller_gvr c)) →
  (Controller_gvr c, o) ∈ brought i cfg.
Proof.
  intros Hc Ho. apply list_elem_of_bind. exists c. split; [|done]. by apply list_elem_of_fmap_2.
Qed.

(** A key belongs to one object. *)
Lemma may_claim_apart i cfg g1 o1 g2 o2 k :
  named_apart i cfg → (g1, o1) ∈ brought i cfg → (g2, o2) ∈ brought i cfg →
  may_claim cfg o1 k → may_claim cfg o2 k → (g1, objKeyOf o1) = (g2, objKeyOf o2).
Proof.
  intros Hap H1 H2.
  intros [(h1 & -> & Hh1)%list_elem_of_fmap|(svc1 & p1 & q1 & -> & Hp1 & Hq1 & ->)];
  intros [(h2 & Hk & Hh2)%list_elem_of_fmap|(svc2 & p2 & q2 & -> & Hp2 & Hq2 & Hk)].
  - by eapply apart_domains.
  - pose proof (apart_tunnels _ _ Hap _ _ _ H1 Hh1) as Ht. rewrite Hk in Ht.
    by rewrite ServiceToKey_tunnel in Ht.
  - pose proof (apart_tunnels _ _ Hap _ _ _ H2 Hh2) as Ht. rewrite <- Hk in Ht.
    by rewrite ServiceToKey_tunnel in Ht.
  - pose proof (apart_ports _ _ Hap _ _ H1) as Hz1. pose proof (apart_ports _ _ Hap _ _ H2) as Hz2.
    rewrite Forall_forall in Hz1, Hz2.
    apply ServiceToKey_name in Hk; [|by auto..]. by eapply apart_services.
Qed.

Lemma controllers_static cfg c :
  c ∈ controllers cfg →
  claims_only (Controller_handler c) cfg ∧ Controller_cfg c = cfg ∧ Controller_resourceKeys c = ∅.
Proof.
  unfold controllers. rewrite elem_of_app. intros [Hc|Hc]; revert Hc;
    (case_match; [|by intros ?%elem_of_nil]); rewrite elem_of_cons, elem_of_nil; intros [->|[]];
    split; try done; [apply httproute_claims | apply service_claims].
Qed.

(** There is one controller per type. *)
Lemma controllers_gvr cfg j1 j2 c1 c2 :
  controllers cfg !! j1 = Some c1 → controllers cfg !! j2 = Some c2 →
  Controller_gvr c1 = Controller_gvr c2 → j1 = j2.
Proof.
  unfold controllers. destruct (Config_GatewayName cfg != ""), (_ || _);
    destruct j1 as [|[|j1]], j2 as [|[|j2]]; cbn; intros; simplify_eq/=; done.
Qed.

Lemma apart_controller i cfg c :
  named_apart i cfg → c ∈ controllers cfg →
  ∀ n, exclusive ∅ (spec_run c ∅ (take n (events_of i (Controller_gvr c)))).
Proof.
  intros Hap Hc. destruct (controllers_static cfg c Hc) as (Hcl & Hcfg & _).
  apply apart_exclusive; rewrite ?Hcfg; [done|]. intros o1 o2 k Ho1 Ho2 Hm1 Hm2.
  pose proof (may_claim_apart i cfg _ o1 _ o2 k Hap (brought_elem _ _ _ _ Hc Ho1)
    (brought_elem _ _ _ _ Hc Ho2) Hm1 Hm2) as Heq. by injection Heq.
Qed.

(** The thread a key belongs to, by its number. *)
Inductive owner i cfg : nat → Key → Prop :=
| owner_controller j c o k :
    controllers cfg !! j = Some c → o ∈ omap (event_object c) (events_of i (Controller_gvr c)) →
    may_claim cfg o k → owner i cfg j (inl k)
| owner_private k : owner i cfg (length (controllers cfg)) (inr k)
| owner_public Get GetSecret req :
    (Get, GetSecret, req) ∈ public_requests i →
    owner i cfg (S (length (controllers cfg))) (inl (NN_Name req)).

Lemma owner_unique i cfg j1 j2 k :
  named_apart i cfg → owner i cfg j1 k → owner i cfg j2 k → j1 = j2.
Proof.
  intros Hap.
  assert (∀ j c o k Get GetSecret req, controllers cfg !! j = Some c →
    o ∈ omap (event_object c) (events_of i (Controller_gvr c)) → may_claim cfg o k →
    (Get, GetSecret, req) ∈ public_requests i → NN_Name req ≠ k) as Hname.
  { intros j c o k' Get GetSecret req Hj Ho Hm Hreq <-.
    destruct (apart_names _ _ Hap _ _ _ Hreq) as [Ht Hn].
    destruct Hm as [Hm|(svc & p & q & -> & _ & Hq & Hk)].
    - by eapply Hn; [eapply brought_elem; [by eapply list_elem_of_lookup_2 | done]|].
    - rewrite Hk in Ht. by rewrite ServiceToKey_tunnel in Ht. }
  intros H1 H2. destruct H1 as [j1 c1 o1 k Hj1 Ho1 Hm1| |Get GetSecret req Hreq]; inversion H2; subst; try done.
  - eapply controllers_gvr; [done..|].
    assert ((Controller_gvr c1, objKeyOf o1) = (Controller_gvr c, objKeyOf o)) as Heq.
    { eapply may_claim_apart; [done|apply brought_elem..|done|done];
        try done; by eapply list_elem_of_lookup_2. }
    by injection Heq.
  - by destruct (Hname j1 c1 o1 (NN_Name req) Get GetSecret req).
  - by destruct (Hname j2 c o (NN_Name req) Get GetSecret req).
Qed.

Lemma public_claims i siteID ev_k :
  ev_k ∈ claims (Hd := Handler) (TReconciler [] (public_served i siteID)) →
  ∃ Get GetSecret req, (Get, GetSecret, req) ∈ public_requests i ∧ ev_k = inl (NN_Name req).
Proof.
  cbn. rewrite elem_of_union. intros [[]%not_elem_of_empty|Hk]. revert Hk.
  unfold trace_keys, public_served. rewrite elem_of_list_to_set, list_elem_of_omap.
  intros (cmd & Hcmd & Hk). apply list_elem_of_In, in_concat in Hcmd as (cmds & Hcmds & Hin).
  apply list_elem_of_In, list_elem_of_fmap in Hcmds as (rq & -> & Hrq).
  apply list_elem_of_fmap in Hrq as ([[Get GetSecret] req] & -> & Hreq).
  exists Get, GetSecret, req. split; [done|]. revert Hin. cbn [request_calls].
  destruct (Get req) as [o|e]; [destruct (CrdPublic.validate _)|destruct (IsNotFound e)]; cbn;
    (try done); intros [<-|[]]; by injection Hk.
Qed.

Lemma private_claims i siteID ev_k :
  ev_k ∈ claims (Hd := Handler) (TReconciler [] (private_served i siteID)) → ∃ k, ev_k = inr k.
Proof.
  cbn. rewrite elem_of_union. intros [[]%not_elem_of_empty|Hk]. revert Hk.
  unfold trace_keys, private_served. rewrite elem_of_list_to_set, list_elem_of_omap.
  intros (cmd & Hcmd & Hk). apply list_elem_of_In, in_concat in Hcmd as (cmds & Hcmds & Hin).
  apply list_elem_of_In, list_elem_of_fmap in Hcmds as (rq & -> & Hrq).
  apply list_elem_of_fmap in Hrq as ([Get req] & -> & Hreq).
  revert Hin. cbn [request_calls].
  destruct (Get req) as [o|e]; [destruct (CrdPrivate.validate _)|destruct (IsNotFound e)]; cbn;
    (try done); intros [<-|[]]; injection Hk as <-; by eexists.
Qed.

Lemma claims_owner i p cfg v j th k :
  omap (thread_of i) (plan p cfg v) !! j = Some th → k ∈ claims th → owner i cfg j k.
Proof.
  rewrite started_threads. intros [Hj|[Hlen Hj]]%lookup_app_Some Hk.
  - apply list_lookup_fmap_Some in Hj as (c & -> & Hj).
    destruct (controllers_static cfg c) as (Hcl & Hcfg & Hrec); [by eapply list_elem_of_lookup_2|].
    apply controller_claims in Hk as (o & k' & Ho & -> & Hm); [|by rewrite Hcfg|done].
    rewrite Hcfg in Hm. by eapply owner_controller.
  - rewrite length_fmap in Hlen, Hj. destruct (crdInstalled p _); [|done].
    remember (j - length (controllers cfg)) as m eqn:Hm.
    destruct m as [|[|m]]; cbn in Hj; simplify_eq.
    + apply private_claims in Hk as [k' ->]. replace j with (length (controllers cfg)) by lia.
      apply owner_private.
    + apply public_claims in Hk as (Get & GetSecret & req & Hreq & ->).
      replace j with (S (length (controllers cfg))) by lia. by eapply owner_public.
Qed.

Lemma apart_disjoint i p cfg v :
  named_apart i cfg → disjoint_claims (omap (thread_of i) (plan p cfg v)).
Proof.
  intros Hap j1 j2 th1 th2 H1 H2 Hne. apply elem_of_disjoint. intros k Hk1 Hk2. destruct Hne.
  apply (owner_unique i cfg j1 j2 k Hap); by eapply claims_owner.
Qed.

(** C1. From the command line to the blueprint, at the level of goroutines: when
    [main] gets through with a valid configuration, and as long as the names in
    the cluster are apart, the goroutines it has started come to rest, however
    their accesses to the manager interleave and however often the health server
    is asked, and where they are at rest the maps of the manager hold exactly what
    was wanted: what the live objects of the watched types contribute, and, if the
    custom resources were found, what the requests leave. *)
Theorem deployment_blueprint i p cfg x v files probers :
  load p = Returned (Ok cfg, (x, v)) → Validate cfg = None → all_succeed p cfg v = true →
  (∀ c, c ∈ controllers cfg → forallb is_handler (events_of i (Controller_gvr c)) = true) →
  named_apart i cfg →
  ∀ q, rtc process_step (process_start probers (started_system i cfg files (main p []).2)) q →
    sn worker_step q
    ∧ (nf worker_step q → ∀ k r,
        entry (bp (Mutex.shared (process_config q))) k = Some r ↔
        wanted i cfg (crdInstalled p GroupVersion_String) k r).
Proof.
  intros Hload Hval Hok Hev Hap. apply (process_blueprint i p cfg x v files probers Hload Hval Hok).
  - intros c Hc. split; [by apply Hev | by apply (apart_controller i cfg)].
  - pose proof (main_loaded p cfg x v Hload Hval) as Hm. rewrite Hok in Hm. rewrite Hm.
    by apply apart_disjoint.
Qed.

End deployment.

(** ** A deployment *)

Section demo.
  Local Existing Instances quiet_env demo_k8s.

Lemma demo_apart : named_apart demo_inputs demo_cfg.
Proof.
  assert (brought demo_inputs demo_cfg = [(RD_GVR httproute_Definition, web)]) as Hb by reflexivity.
  assert (∀ g o, (g, o) ∈ brought demo_inputs demo_cfg → g = RD_GVR httproute_Definition ∧ o = web) as Hweb.
  { intros g o. rewrite Hb. intros [[= -> ->]|[]%elem_of_nil]%elem_of_cons. done. }
  split.
  - intros g1 o1 g2 o2 h1 h2 [-> ->]%Hweb [-> ->]%Hweb _ _ _. done.
  - intros g o h [-> ->]%Hweb Hh. revert h Hh. apply Forall_forall, (bool_decide_unpack _). by vm_compute.
  - intros g1 svc1 g2 svc2 [_ [=]]%Hweb.
  - intros g svc [_ [=]]%Hweb.
  - intros Get GetSecret req [[= -> -> ->]|[]%elem_of_nil]%elem_of_cons. split; [done|].
    intros g o [-> ->]%Hweb. apply (bool_decide_unpack _). by vm_compute.
Qed.

Lemma deployment_blueprint_witness :
  all_succeed (demo_platform None) demo_cfg demo_vars = true
  ∧ ∀ q, rtc process_step (process_start 2
         (started_system demo_inputs demo_cfg ∅ (main (demo_platform None) []).2)) q →
    sn worker_step q
    ∧ (nf worker_step q → ∀ k r,
        entry (bp (Mutex.shared (process_config q))) k = Some r ↔
        wanted demo_inputs demo_cfg (crdInstalled (demo_platform None) GroupVersion_String) k r).
Proof.
  split; [exact demo_succeeds|].
  exact (deployment_blueprint demo_inputs (demo_platform None) demo_cfg "/dev/null" demo_vars ∅ 2
    (demo_load None) eq_refl demo_succeeds (λ c Hc, proj1 (demo_deployment_events c Hc)) demo_apart).
Defined.

End demo.
