(* ===== verification/Published.v ===== *)
(** * What everything that is published has in common

    An invariant of the blueprint that holds whatever the cluster does, with keys
    claimed twice and events in any order: of every resource in it, whichever
    controller or reconciler put it there, whenever the mutex is free, and of every
    text another process can read at the output path, at any time, in every
    execution of the goroutines that [main] starts. *)

From stdpp Require Import options.
From S2P Require Import Prelude GoStrings Config Blueprint BlueprintProps StateManager Store.
From S2P Require Import StateProps Resources HttpRoute Service ServiceProps Controller ControllerProps.
From S2P Require Import Client Sidecar System Load Goroutines Main.
From S2P Require CrdPublic CrdPrivate Mutex.

Local Open Scope go_scope.

(** ** Reference definitions *)

(** The block restricts access in some way. *)
Definition restricts (a : Auth) : Prop :=
  ¬ (Auth_SSOEnabled a = false ∧ elems (Auth_SSORoles a) = [] ∧ elems (Auth_SSOUsers a) = []
     ∧ elems (Auth_WhitelistUsers a) = [] ∧ Auth_AutoLoginIDP a = 0%Z ∧ Auth_Pincode a = 0%Z
     ∧ Auth_Password a = "" ∧ Auth_BasicAuth a = None).

(** All targets are at the site of this sidecar; a resource with a domain has a TLS
    server name; an auth block is not empty. *)
Definition well_formed (site : string) (r : Resource) : Prop :=
  Forall (λ t, Target_Site t = site) (elems (Resource_Targets r))
  ∧ (Resource_FullDomain r ≠ "" → Resource_TLSServerName r ≠ "")
  ∧ (∀ a, Resource_Auth r = Some a → restricts a).

Definition well_formed_private (site : string) (r : PrivateResource) : Prop :=
  PrivateResource_Site r = site.

Definition well_formed_blueprint (site : string) (b : Blueprint) : Prop :=
  map_Forall (λ _, well_formed site) (Blueprint_PublicResources b)
  ∧ map_Forall (λ _, well_formed_private site) (Blueprint_PrivateResources b).

Definition publishes_ok (site : string) (c : Cmd) : Prop :=
  match c with
  | CAddOrUpdate _ r _ => well_formed site r
  | CAddOrUpdatePrivate _ r _ => well_formed_private site r
  | _ => True
  end.

(** ** The builders *)

Lemma BuildAuth_restricts annotations secretData cfg a :
  BuildAuth annotations secretData cfg = Some a → restricts a.
Proof.
  destruct (BuildAuth_cases annotations secretData cfg) as [[-> _]|(roles & users & idp & -> & _ & Hne)];
    [done|]. intros [= <-] (Hs & _ & _ & Hw & _ & Hp & Hpw & Hb). by apply Hne.
Qed.

Lemma BuildTargetExtras_site base annotations prefix :
  Target_Site (BuildTargetExtras base annotations prefix) = Target_Site base.
Proof. destruct (BuildTargetExtras_extends base annotations prefix) as [Hb _]. by injection Hb. Qed.

Lemma BuildResource_ok name h annotations sd cfg :
  well_formed (Config_SiteID cfg) (BuildResource name h annotations sd cfg).
Proof.
  unfold well_formed, BuildResource. cbn. split_and!.
  - apply Forall_singleton. apply BuildTargetExtras_site.
  - intros Hh. by case_bool_decide.
  - apply BuildAuth_restricts.
Qed.

Lemma BuildServiceResource_ok sp cfg :
  (∀ a, ServicePort_Auth sp = Some a → restricts a) →
  well_formed (Config_SiteID cfg) (BuildServiceResource sp cfg).
Proof.
  intros Ha. unfold well_formed, BuildServiceResource.
  case_bool_decide; cbn; (split_and!; [by apply Forall_singleton | | done]); [done|].
  intros _. by case_bool_decide.
Qed.

Lemma resolvePort_auth svc annotations sd prefix ch cfg sp a :
  resolvePort svc annotations sd prefix ch cfg = Some sp → ServicePort_Auth sp = Some a →
  restricts a.
Proof.
  unfold resolvePort. intros (p & _ & H)%bind_Some. revert H.
  case_bool_decide; cbn; intros [= <-]; cbn; [done | apply BuildAuth_restricts].
Qed.

(** Every resource a handler builds is well formed. *)
Definition handler_ok {Hd} `{!ResourceHandler Hd} (h : Hd) (cfg : Config) : Prop :=
  ∀ obj sd, map_Forall (λ _, well_formed (Config_SiteID cfg)) (entries_of (BuildEntries h obj sd cfg)).

Lemma httproute_ok `{K8s} cfg : handler_ok (NewHandler httproute_Definition) cfg.
Proof.
  intros obj sd. cbn. unfold Handler_BuildEntries, httproute_buildEntries. cbn.
  destruct obj as [s|route|m]; [apply map_Forall_empty| |apply map_Forall_empty].
  apply (entries_foldl HostnameToKey). intros h _. apply BuildResource_ok.
Qed.

Lemma service_ok `{K8s} cfg : handler_ok (NewHandler service_Definition) cfg.
Proof.
  intros obj sd. cbn. unfold Handler_BuildEntries, service_buildEntries. cbn.
  destruct obj as [svc|route|m]; [|apply map_Forall_empty..].
  destruct (negb _ && _).
  - unfold buildAllPortEntries. destruct (Service_Ports svc) as [|q qs]; [apply map_Forall_empty|].
    apply (entries_foldl (allPortKey svc)). intros p _. by apply BuildServiceResource_ok.
  - unfold buildSinglePortEntry.
    destruct (resolvePort _ _ _ _ _ _) as [sp|] eqn:Hsp; [|apply map_Forall_empty].
    apply map_Forall_singleton, BuildServiceResource_ok. intros a. by apply (resolvePort_auth _ _ _ _ _ _ _ _ Hsp).
Qed.

Lemma public_resource_ok spec sd site : well_formed site (CrdPublic.buildResource spec sd site).
Proof.
  unfold well_formed, CrdPublic.buildResource. cbn. split_and!.
  - apply Forall_fmap, Forall_true. done.
  - intros Hd. rewrite (bool_decide_eq_false_2 (CrdPublic.PublicSpec_FullDomain spec = "")) by done.
    by case_bool_decide.
  - intros a. unfold CrdPublic.buildAuth. case_match; [done|].
    set (auth := match _ with Some _ => _ | None => _ end). cbv zeta.
    destruct (_ && bool_decide (Auth_BasicAuth auth = None)) eqn:E; [done|]. intros [= <-].
    intros Hr. apply not_true_iff_false in E. destruct E. apply CrdPublic.buildAuth_test. tauto.
Qed.

(** ** The threads *)

Section threads.
  Context `{K8s} {Hd : Type} `{!ResourceHandler Hd} `{Env} (site : string).
  Local Set Default Proof Using "Type*".
  Implicit Types (c : Controller Hd) (th : Thread Hd).

(** A controller of this site, whose handler builds well-formed resources. *)
Definition controller_ok c : Prop :=
  Config_SiteID (Controller_cfg c) = site ∧ handler_ok (Controller_handler c) (Controller_cfg c).

Definition request_ok (rq : Request) : Prop :=
  match rq with
  | PublicRequest r _ _ _ => CrdPublic.Reconciler_SiteID r = site
  | PrivateRequest r _ _ => CrdPrivate.Reconciler_SiteID r = site
  end.

Definition thread_ok th : Prop :=
  match th with
  | TController c pending _ _ => controller_ok c ∧ Forall (publishes_ok site) pending
  | TReconciler pending rqs => Forall (publishes_ok site) pending ∧ Forall request_ok rqs
  end.

Lemma foldl_ok {A} (g : Trace → A → Trace) l t :
  (∀ t x, x ∈ l → Forall (publishes_ok site) t → Forall (publishes_ok site) (g t x)) →
  Forall (publishes_ok site) t → Forall (publishes_ok site) (foldl g t l).
Proof.
  revert t; induction l as [|x l IH]; intros t Hg Ht; [done|]. cbn. apply IH.
  - intros t' y Hy. apply Hg. by right.
  - apply Hg; [by left | done].
Qed.

Lemma snoc_ok t cmd :
  Forall (publishes_ok site) t → publishes_ok site cmd → Forall (publishes_ok site) (t ++ [cmd]).
Proof. intros Ht Hc. apply Forall_app_2; [done | by apply Forall_singleton]. Qed.

Lemma removeObject_ok c objKey : Forall (publishes_ok site) (removeObject c objKey ([] : Trace)).2.
Proof. apply foldl_ok; [|done]. intros t k _ Ht. by apply snoc_ok. Qed.

Lemma processObject_ok ord secrets c o write :
  controller_ok c → Forall (publishes_ok site) (processObject ord secrets c o write ([] : Trace)).2.
Proof.
  intros [Hsite Hh]. unfold processObject. destruct (negb _); [apply removeObject_ok|]. cbv zeta.
  destruct (_ =? 0); [apply removeObject_ok|]. cbn [snd]. apply foldl_ok.
  - intros t [k r] Hin Ht. rewrite (order_entries_ok ord), elem_of_map_to_list in Hin.
    apply snoc_ok; [done|]. cbn. rewrite <- Hsite. by apply (Hh _ _ _ _ Hin).
  - apply foldl_ok; [|done]. intros t old _ Ht. case_bool_decide; [done | by apply snoc_ok].
Qed.

Lemma handle_ok ev c :
  is_handler ev = true → controller_ok c → Forall (publishes_ok site) (handle ev (c, [] : Trace)).2.
Proof.
  intros Hev Hc. destruct ev; cbn; [..|done]; unfold onAdd, onUpdate, onDelete;
    (destruct (toMetaObj c _); [|constructor]); [by apply processObject_ok.. | apply removeObject_ok].
Qed.

Lemma request_calls_ok rq : request_ok rq → Forall (publishes_ok site) (request_calls rq).
Proof.
  destruct rq as [r Get GetSecret req|r Get req]; cbn [request_ok request_calls]; intros Hsite.
  all: destruct (Get req) as [o|e]; [|destruct (IsNotFound e); by repeat constructor].
  - destruct (CrdPublic.validate _); [constructor|]. apply Forall_singleton. rewrite <- Hsite.
    apply public_resource_ok.
  - destruct (CrdPrivate.validate _); [constructor|]. by apply Forall_singleton.
Qed.

Lemma thread_step_ok th oc th' :
  thread_step th oc th' → thread_ok th → thread_ok th' ∧ Forall (publishes_ok site) (option_list oc).
Proof.
  destruct 1 as [c ev evs ph c' cmds Hev Hh|c cmd cmds evs ph| | |rq rqs|cmd cmds rqs];
    cbn; rewrite ?Forall_cons, ?Forall_nil; try tauto.
  - intros [Hc _]. pose proof (handle_ok ev c Hev Hc) as Ht.
    pose proof (handle_static ev c ([] : Trace)) as Hs.
    change (handle ev (c, [] : Trace) = (c', cmds)) in Hh. rewrite Hh in Ht, Hs.
    destruct Hs as (_ & _ & Hhd & Hcfg). cbn in Hhd, Hcfg. unfold controller_ok.
    by rewrite Hhd, Hcfg.
  - intros [? ?]. by split_and!.
  - intros [_ [Hrq Hrqs]]. split; [|done]. split; [|done]. by apply request_calls_ok.
Qed.

(** ** The system *)

(** What the file may hold: what it held at the start, or the whole text of a
    well-formed blueprint. *)
Definition file_ok (old : option string) (o : option string) : Prop :=
  o = old ∨ ∃ b y, well_formed_blueprint site b ∧ yaml_Marshal b = Ok y ∧ o = Some y.

Record manager_ok (out : string) (old : option string) (sm : SM) : Prop := mkManagerOk {
  ok_path : out_path sm = out;
  ok_blueprint : well_formed_blueprint site (bp sm);
  ok_file : file_ok old (out_file sm);
  ok_seen : Forall (λ f, file_ok old (f !! out)) (World_log (SM_world sm));
}.

Lemma abs_exec_ok cmd b :
  publishes_ok site cmd → well_formed_blueprint site b → well_formed_blueprint site (abs_exec cmd b).
Proof.
  destruct b as [pub priv], cmd; cbn; intros Hc [Hpub Hpriv]; split; cbn;
    first [done | by apply map_Forall_insert_2 | by apply map_Forall_delete].
Qed.

Lemma exec_ok out old cmd sm :
  publishes_ok site cmd → manager_ok out old sm → manager_ok out old (exec cmd sm).
Proof.
  intros Hc [<- Hb Hf Hl]. destruct (exec_keeps cmd sm) as [Hbp Hp].
  assert (well_formed_blueprint site (bp (exec cmd sm))) as Hb'
    by (rewrite Hbp; by apply abs_exec_ok).
  destruct (seen_exec cmd sm) as [(new & Hnew & HF) Hout].
  assert (∀ o, o = out_file sm ∨ (∃ y, yaml_Marshal (bp (exec cmd sm)) = Ok y ∧ o = Some y) →
    file_ok old o) as Hok.
  { intros o [->|(y & Hy & ->)]; [done|]. right. by eexists _, _. }
  split; [done|done|by apply Hok|]. rewrite Hnew. apply Forall_app_2; [|done].
  eapply Forall_impl; [exact HF|]. cbn. intros f. apply Hok.
Qed.

Definition system_ok (out : string) (old : option string) (s : System Hd) : Prop :=
  manager_ok out old (system_sm s) ∧ Forall thread_ok (system_threads s).

Lemma system_step_ok out old s s' : system_step s s' → system_ok out old s → system_ok out old s'.
Proof.
  destruct 1 as [sm ths i th oc th' Hi Hs]. intros [Hsm Hths]. cbn in *.
  destruct (thread_step_ok th oc th' Hs) as [Hth' Hcall]; [by eapply Forall_lookup_1|].
  split; cbn; [|by apply Forall_insert].
  destruct oc as [cmd|]; [|done]. apply exec_ok; [|done]. by apply Forall_singleton.
Qed.

Lemma system_reachable_ok out old s s' :
  system_ok out old s → rtc system_step s s' → system_ok out old s'.
Proof. intros Hs Hr. induction Hr; eauto using system_step_ok. Qed.

(** The same of the goroutines: of the maps when the mutex is free, and of what
    another process has seen at any time. *)
Lemma process_reachable_ok out old probers s0 p :
  system_ok out old s0 → rtc process_step (process_start probers s0) p →
  (Mutex.locked (process_config p) = false →
   well_formed_blueprint site (bp (Mutex.shared (process_config p))))
  ∧ Forall (λ f, file_ok old (f !! out)) (World_log (SM_world (Mutex.shared (process_config p)))).
Proof.
  intros Hok (s & Hr & [(h & es & lin & Hinv) _ _])%simulates_steps.
  destruct (system_reachable_ok _ _ _ _ Hok Hr) as [Hm _]. split.
  - intros E. rewrite (Mutex.inv_free _ _ _ _ _ _ Hinv); [by eapply ok_blueprint|].
    rewrite (Mutex.inv_locked _ _ _ _ _ _ Hinv) in E. by destruct h.
  - apply Mutex.invariant_log in Hinv as [later Hlog]. pose proof (ok_seen _ _ _ Hm) as HF.
    rewrite Hlog in HF. by apply Forall_app in HF as [_ HF].
Qed.

End threads.

(** ** What [main] starts *)

Section deployment.
  Context `{K8s} `{Env} {E X R : Type}.
  Implicit Types (p : Platform E X R).

Lemma controllers_ok cfg c : c ∈ controllers cfg → controller_ok (Config_SiteID cfg) c.
Proof.
  unfold controllers. rewrite elem_of_app. intros [Hc|Hc]; revert Hc;
    (case_match; [|by intros ?%elem_of_nil]); rewrite elem_of_cons, elem_of_nil; intros [->|[]];
    split; try done; [apply httproute_ok | apply service_ok].
Qed.

Lemma plan_ok i p cfg v :
  Forall (thread_ok (Config_SiteID cfg)) (omap (thread_of i) (plan p cfg v)).
Proof.
  rewrite started_threads. apply Forall_app_2.
  - apply Forall_fmap, Forall_forall. intros c Hc. split; [by apply controllers_ok | constructor].
  - case_match; [|constructor]. repeat constructor; apply Forall_fmap, Forall_forall.
    + by intros [Get req] _.
    + by intros [[Get GetSecret] req] _.
Qed.

(** What [main] has started at any of its ends is part of the plan. *)
Lemma main_prefix p cfg x v :
  load p = Returned (Ok cfg, (x, v)) → ∃ rest, plan p cfg v = (main p []).2 ++ rest.
Proof.
  intros Hload. destruct (Validate cfg) eqn:Hval.
  - exists (plan p cfg v). unfold main, mbind, Proc_bind, try_value. rewrite Hload.
    unfold mret, Proc_ret. by rewrite Hval.
  - pose proof (main_loaded p cfg x v Hload Hval) as Hm. destruct (all_succeed p cfg v).
    + exists []. by rewrite Hm, app_nil_r.
    + destruct Hm as (_ & rest & _ & Hr). by exists rest.
Qed.

(** C6. Whatever happens in the cluster, with keys claimed twice and events in
    any order, and however far [main] got: in every state of every execution of the
    goroutines it has started in which the mutex is free, every public resource of
    the manager has all its targets at the configured site, a TLS server name when
    it has a domain, and no auth block that restricts nothing, and every private
    resource has the configured site; and in every state, whatever another process
    has read at the output path is what the file held before the start or the whole
    text of such a blueprint. *)
Theorem published_well_formed i p cfg x v files probers :
  load p = Returned (Ok cfg, (x, v)) →
  let s0 := started_system i cfg files (main p []).2 in
  ∀ q, rtc process_step (process_start probers s0) q →
    (Mutex.locked (process_config q) = false →
     well_formed_blueprint (Config_SiteID cfg) (bp (Mutex.shared (process_config q))))
    ∧ Forall (λ f, file_ok (Config_SiteID cfg) (files !! Config_Output cfg) (f !! Config_Output cfg))
        (World_log (SM_world (Mutex.shared (process_config q)))).
Proof.
  intros Hload. cbv zeta. intros q Hq. eapply process_reachable_ok; [|exact Hq]. split.
  - split; [done | split; apply map_Forall_empty | by left | constructor].
  - destruct (main_prefix p cfg x v Hload) as [rest Hrest]. pose proof (plan_ok i p cfg v) as Hp.
    rewrite Hrest, omap_app in Hp. by apply Forall_app in Hp as [Hp _].
Qed.

End deployment.

(** ** A run *)

Section demo.
  Local Existing Instances quiet_env demo_k8s.

Lemma demo_started :
  started_system demo_inputs demo_cfg ∅ (main (demo_platform None) []).2
  = mkSystem (start (Config_Output demo_cfg) ∅)
      [TController (New httproute_Definition demo_cfg) [] [add web] Waiting;
       TReconciler [] (private_served demo_inputs "site-1");
       TReconciler [] (public_served demo_inputs "site-1")].
Proof.
  unfold started_system.
  pose proof (main_loaded (demo_platform None) demo_cfg "/dev/null" demo_vars (demo_load None) eq_refl) as Hm.
  rewrite demo_succeeds in Hm. rewrite Hm. cbn [snd]. by rewrite started_threads.
Qed.

(** A private resource is requested while [Run] waits for the mutex. *)
Lemma published_well_formed_witness :
  ∃ q, rtc process_step (process_start 1
         (started_system demo_inputs demo_cfg ∅ (main (demo_platform None) []).2)) q
    ∧ (∃ c, Mutex.goroutines (process_config q) !! 1 = Some c ∧ c ≠ Mutex.Idle)
    ∧ (Mutex.locked (process_config q) = false →
       well_formed_blueprint "site-1" (bp (Mutex.shared (process_config q))))
    ∧ Forall (λ f, file_ok "site-1" None (f !! Config_Output demo_cfg))
        (World_log (SM_world (Mutex.shared (process_config q)))).
Proof.
  assert (∃ q, rtc process_step (process_start 1
    (started_system demo_inputs demo_cfg ∅ (main (demo_platform None) []).2)) q
    ∧ ∃ c, Mutex.goroutines (process_config q) !! 1 = Some c ∧ c ≠ Mutex.Idle) as (q & Hr & Hc).
  { rewrite demo_started. eexists. split.
    - eapply rtc_l; [eapply process_work, worker_call with (i := 0);
        [reflexivity | apply thread_force | apply Mutex.step_invoke; reflexivity]|].
      eapply rtc_l; [eapply process_work, worker_internal with (i := 1);
        [reflexivity | apply thread_request | reflexivity]|].
      constructor.
    - by eexists. }
  exists q. split; [exact Hr|]. split; [exact Hc|].
  exact (published_well_formed demo_inputs (demo_platform None) demo_cfg "/dev/null" demo_vars ∅ 1
    (demo_load None) q Hr).
Defined.

End demo.
